(* ===== verification/_CoqProject ===== *)
-Q . S2P
Prelude.v
Interval.v
RustStr.v
Layout.v
CLayout.v
RustFloat.v
Units.v
Errors.v
WinCalls.v
MacCalls.v
Sys.v
Ownership.v
WinCommon.v
Streams.v
StreamIo.v
ProcFs.v
ProcFsSpec.v
ProcFsText.v
Cpu.v
CpuSpec.v
SysMemory.v
SysMemorySpec.v
Disk.v
DiskSpec.v
Net.v
NetSpec.v
Host.v
HostSpec.v
WinHost.v
WinHostSpec.v
WinCpu.v
WinMemory.v
Virt.v
VirtSpec.v
Derive.v
DeriveSpec.v
Sensors.v
SensorsSpec.v
Signal.v
MacSys.v
MacHost.v
MacCpu.v
MacNet.v
MacDisk.v
MacPorts.v
MacNetSpec.v
MacDiskSpec.v
MacCpuSpec.v
Process.v
ProcessSpec.v
MacProcess.v
MacProcessSpec.v
CpuApi.v
CpuApiSpec.v
WinCpuSpec.v
Declared.v
DeclaredSpec.v
WinDisk.v
MemoryApi.v
MemoryApiSpec.v
DiskApi.v
DiskApiSpec.v
WinNet.v
NetApi.v
NetApiSpec.v
HostApi.v
HostApiSpec.v
WinNetSpec.v
WinProcess.v
ProcessApi.v
WinHandles.v
WinProcessSpec.v
WinDiskSpec.v
ProcessApiSpec.v
ProcessValue.v
ApiDebug.v
ApiDebugSpec.v
