(* ===== verification/Prelude.v ===== *)
(** * A verification library for heim

    heim (the crates under [src/]) gives a Rust program asynchronous access to
    facts about the system it runs on: CPUs, memory, disks, networks, the host,
    virtualization, sensors and processes.  On Linux nearly all of it is
    reading small files of procfs and sysfs, parsing them, and reporting what
    is missing; on macOS it is sysctl, mach and IOKit, on Windows the Win32
    and NT API, with structures that are read out of memory and handles that
    must be given back.  This library models the three back ends, from the
    file contents and call results the system gives to the values and errors
    the public functions return, and over them the public API of every crate.

    ** How code is modelled

    - A [Result<T, E>] is [res E T] below: [Ok], [Err], or [Panic].  Slices out
      of range, [expect], [unreachable!] and overflow in a checked build are
      [Panic], not ignored; [Profile] says whether overflow is
      checked, and otherwise arithmetic wraps at its width.
    - A [str] or [OsStr] is the list of its bytes (RustStr.v); character
      positions and boundaries are those of UTF-8.  The string functions of
      the Rust library that the code calls ([split], [trim], [lines],
      [parse], [split_whitespace], ...) are defined there as the library
      documents them, integers at their width.  [f64] is [spec_float], and
      [f64::from_str] with its correct rounding is in RustFloat.v.
    - Code that talks to the system is a [prog] (Sys.v): a tree of the calls
      it makes, in order.  [exec] runs it against any [handler], a function
      from a call and the state of the world to the answer and the new state;
      the theorems hold for every handler, or for one that the hypotheses
      describe (a [steady] one answers the same call in the same way each
      time).  [trace] lists the calls of a run, so that theorems can say which
      call is made, when, and that none is made.  [join] interleaves two
      programs under every schedule.  Two programs are equivalent when no
      handler tells them apart; rewriting with this is setoid rewriting.
    - A value with a [Drop] is a scope that runs the drop when it returns,
      fails or unwinds ([with_handle], [with_object], ...).  Ownership.v says
      what it means that what the system gives out is used only while it is
      open and given back exactly once, whatever the system answers.
    - What the system writes into memory is a list of bytes or words; a
      structure is read from its offsets (Layout.v), or by the layout that its
      [repr(C)] declaration gives (CLayout.v).
    - What a crate's public functions ask of a platform is a class ([Backend],
      [CpuBackend], ...): the public functions are defined over it, and what is
      shown of them holds of the instances, the three back ends.  A trait of
      [os/] is a class too, the implementations of a platform its instances.
    - Streams that a function returns are the lists of their items, errors
      among them, up to the first item that panics.  The combinator
      [choose_chain] of heim-common is written by hand: Streams.v models its
      [poll_next] on machines that may not be ready, and StreamIo.v polls it
      for the one stream that is built with it, the temperatures, whose parts
      are streams that make calls.
    - Crates that are not part of the repository (uom, libc's constants,
      memchr, nix, raw_cpuid, platforms, ordered_float, futures_timer, the C
      layouts of ntapi, the lazy statics) are type classes ([Units],
      [LibcSignals], [Memchr], ...), with their documented laws as a second
      class where a theorem needs them; the witnesses instantiate them with
      concrete functions.

    ** The files

    Shared:
    - Prelude: outcomes, notation, list lemmas and automation.  RustStr,
      RustFloat, Units, Layout, CLayout: the part of the Rust library and of
      uom that is used, numbers in memory, and the layout of C structures.
    - Errors: [heim-common/src/errors.rs].  WinCalls, MacCalls, Sys: calls,
      programs, handlers; [heim-runtime/src/fs.rs], [linux.rs] and
      [heim-common/src/sys/unix.rs].  Interval: [heim-runtime/src/time.rs].
      Streams: [heim-common/src/utils/iter.rs] and [choose_chain.rs].
      StreamIo: streams that make calls, and the task that polls them.
      Ownership: ledgers of what is open, and the rules to keep them.

    Linux and Unix:
    - ProcFs: [heim-process/src/sys/linux/process/procfs/].  ProcFsSpec shows
      that the stat parser inverts the text of the kernel for every process
      name, and exactly which inputs make it panic; ProcFsText that command
      lines and environments come back from their text, that both iterators
      end, and that counters and memory land in their own fields.
    - Cpu, CpuSpec: [heim-cpu/src/sys/linux/]: the statistics of [/proc/stat],
      the sources of both CPU counts and their fall-backs, and the frequency
      average.
    - SysMemory, SysMemorySpec: [heim-memory]: meminfo, vmstat, swap and the
      bounds of [used].
    - Disk, DiskSpec: [heim-disk]: file system names, mounts, which partitions
      are physical, diskstats and statvfs.
    - Net, NetSpec: [heim-net]: [net/dev] and the interfaces.
    - Host, HostSpec: [heim-host]: boot time, uptime, platform, users.
    - Virt, VirtSpec: [heim-virt]: the chain of probes and the tables.
    - Sensors, SensorsSpec: [heim-sensors]: hwmon and the thermal zones; which
      of them the stream gives, polled through [choose_chain].
    - Signal: [heim-process/src/os/unix/signal.rs].  Process, ProcessSpec:
      [heim-process/src/sys/linux/], [sys/unix/process.rs]: a signal is only
      sent to the process the value was made for, what running means, names,
      priorities and [errno], existence, waiting, links and the list of pids.

    macOS:
    - MacSys: [heim-common/src/sys/macos/]: sysctl, host ports, IOKit.
      MacHost, MacCpu (also heim-memory), MacNet, MacDisk: the directories
      [sys/macos] of those crates, and [sys/unix/partitions.rs].
    - MacPorts: every port and object is given back, whatever fails.
      MacNetSpec: the messages of the routing socket come back as counters.
      MacDiskSpec: the stream of disks is the registry: the objects of its
      class, their parents in its plane, seen through their properties.
      MacCpuSpec: the words of mach, pages and their bounds.
    - MacProcess, MacProcessSpec: [heim-process/src/sys/macos/] over [sysctl]:
      the block of process arguments comes back from its parts, the two blocks
      that do not, the room that the list of processes is read into, and that
      the records of the kernel, written by their declarations, are reported
      as they are.

    - Declared, DeclaredSpec: the structures of the macOS and Windows bindings
      as they are declared; the readers take the fields from where they lie.

    Windows:
    - WinCommon: [heim-common/src/sys/windows/]; WinHost, WinCpu, WinMemory,
      WinDisk, WinNet, WinProcess: the directories [sys/windows] of the crates.
    - WinHostSpec: the terminal sessions: who is reported, read back from the
      blocks that describe them, and which blocks of memory are given back,
      lost, or freed though they never were given out.
    - WinHandles: the handle table as a ledger.  WinProcessSpec, WinDiskSpec:
      no handle leaks, is used after its end or without the rights; which
      loops end and which do not; remote reads; drives and partitions.
      WinCpuSpec, WinNetSpec: structures in memory, counts and the room that
      the processors are read into, netmasks, the walk over adapters.

    The public API, over the interfaces that the three back ends implement:
    - CpuApi, CpuApiSpec: [heim-cpu/src/*.rs] and [os/]: the measurement of
      [usage] under every schedule, by a clock that runs meanwhile, and the
      difference of two of them.
    - MemoryApi, MemoryApiSpec: the three numbers of the swap add up.
    - DiskApi, DiskApiSpec: the physical disks and partitions are exactly those
      of all that pass the test of the platform; the volumes of Windows, and that a system without any
      is read for ever.
    - NetApi, NetApiSpec, HostApi, HostApiSpec: which accessors may panic; the
      platform of Windows.
    - ProcessApi: [heim-process/src/process/], [pids.rs] and [os/].
      ProcessApiSpec: what its documentation promises of signals holds on
      Linux and macOS - exactly the signal asked for, right after the check -
      and not on Windows, whose calls are stated as well; command lines and
      CPU usage on every back end.  ProcessValue: equality is an equivalence;
      [Hash] and the operations respect it, the creation time as a number.
    - ApiDebug, ApiDebugSpec: what [{:?}] prints of the public types and of the
      structures of the back ends, in which cases it panics for every public
      type, and where the two agree.

    The macros:
    - Derive, DeriveSpec: [heim-derive/src/] and the macro [wrap] of heim-common
      as functions on token streams; the expansion of a test that is tagged
      with both attributes, in either order.

    Components call each other as the crates do: processes read the network
    counters of heim-net and the boot time of heim-host; CPU usage awaits both
    the times and the count of heim-cpu; all go through Sys and Errors.

    ** Fuel and bounds

    Loops over lines, columns, chunks and items recurse on their list.  Loops
    that advance a position in a buffer (the command iterator, the environment
    parser, the drives of Windows, the arguments of macOS) are given one step
    more than there are bytes, units or arguments, which their theorems show
    to be enough.  All other loops depend on the answers of the system, and
    take their number of rounds as fuel; where it runs out the result is
    [None], apart from every result of the code.  These are: waiting for a
    process (ticks); the lists of pids, of NT processes, of logical
    processors and of macOS processes, which are read again while the buffer
    is too small; the walks over the NT list, the snapshot, the volumes, the
    IOKit devices and the messages of the routing socket; the polls of the
    stream of temperatures.  Their theorems say
    after which round they end, or that they never do.

    ** Not modelled

    Files that only declare modules and re-export, examples, benchmarks and
    smoke tests; the optional backtrace of errors; the form [{:#?}] of the
    debug texts, and the derived [Debug] of types that are not public.  Undefined behaviour is a [Panic] where the code can reach
    it (reading past a buffer, a null pointer), and is not described further.
    [spawn] and [spawn_blocking] move a computation to another thread and are
    the computation here. *)

From stdpp Require Export base decidable sets list strings.
From Stdlib Require Export ZArith Lia Ascii.
From Stdlib Require String.


(** ** Outcomes of Rust code

    A Rust function returns its value, returns an [Err], or panics.  The
    third case is part of the model: slices out of range, [expect] on a
    missing value, [unreachable!] and checked arithmetic all panic. *)

Inductive res (E A : Type) : Type :=
| Ok (a : A)
| Err (e : E)
| Panic.
Arguments Ok {_ _} _.
Arguments Err {_ _} _.
Arguments Panic {_ _}.

#[export] Instance res_ret E : MRet (res E) := fun A a => Ok a.
#[export] Instance res_bind E : MBind (res E) := fun A B f r =>
  match r with
  | Ok a => f a
  | Err e => Err e
  | Panic => Panic
  end.
#[export] Instance res_fmap E : FMap (res E) := fun A B f r =>
  match r with
  | Ok a => Ok (f a)
  | Err e => Err e
  | Panic => Panic
  end.

(** [Result::map_err], [Result::ok], [Option::ok_or_else]. *)
Definition map_err {E F A} (f : E -> F) (r : res E A) : res F A :=
  match r with
  | Ok a => Ok a
  | Err e => Err (f e)
  | Panic => Panic
  end.

Definition ok_or {E A} (e : E) (o : option A) : res E A :=
  match o with
  | Some a => Ok a
  | None => Err e
  end.

(** A panic that cannot be caught stands where Rust has [Option::expect]. *)
Definition expect {E A} (o : option A) : res E A :=
  match o with
  | Some a => Ok a
  | None => Panic
  end.

Definition is_ok {E A} (r : res E A) : bool :=
  match r with Ok _ => true | _ => false end.

Lemma res_bind_ok E A B (r : res E A) (f : A -> res E B) b :
  (r ≫= f) = Ok b <-> exists a, r = Ok a /\ f a = Ok b.
Proof. destruct r; cbn; naive_solver. Qed.

Lemma res_bind_panic E A B (r : res E A) (f : A -> res E B) :
  (r ≫= f) = Panic <-> r = Panic \/ exists a, r = Ok a /\ f a = Panic.
Proof. destruct r; cbn; naive_solver. Qed.

Lemma res_bind_assoc E A B C (r : res E A) (f : A -> res E B) (g : B -> res E C) :
  ((r ≫= f) ≫= g) = (r ≫= (fun a => f a ≫= g)).
Proof. by destruct r. Qed.

(** ** Build profile

    [cargo build] checks integer overflow and panics, [cargo build --release]
    wraps around.  Every definition that does machine arithmetic takes the
    profile; the theorems hold for both. *)
Class Profile := overflow_checks : bool.

Section machine_int.
Context `{Profile} {E : Type}.

Definition wrap (w : Z) (z : Z) : Z := z mod 2 ^ w.

Definition arith_u64 (z : Z) : res E Z :=
  if decide (0 <= z < 2 ^ 64)%Z then Ok z
  else if overflow_checks then Panic else Ok (wrap 64 z).

Definition add_u64 (a b : Z) : res E Z := arith_u64 (a + b).
Definition sub_u64 (a b : Z) : res E Z := arith_u64 (a - b).
Definition mul_u64 (a b : Z) : res E Z := arith_u64 (a * b).

(** The unsigned integers of another width. *)
Definition arith_uint (w : Z) (z : Z) : res E Z :=
  if decide (0 <= z < 2 ^ w)%Z then Ok z
  else if overflow_checks then Panic else Ok (wrap w z).
Definition add_u32 (a b : Z) : res E Z := arith_uint 32 (a + b).
Definition sub_u32 (a b : Z) : res E Z := arith_uint 32 (a - b).

Lemma arith_uint_small w z : (0 <= z < 2 ^ w)%Z -> arith_uint w z = Ok z.
Proof. intros Hz. unfold arith_uint. by rewrite decide_True. Qed.

Lemma arith_u64_small z : (0 <= z < 2 ^ 64)%Z -> arith_u64 z = Ok z.
Proof. intros Hz. unfold arith_u64. by rewrite decide_True. Qed.

Lemma arith_u64_not_err z e : arith_u64 z <> Err e.
Proof. unfold arith_u64. repeat case_match; congruence. Qed.

Lemma arith_u64_range z v : arith_u64 z = Ok v -> (0 <= v < 2 ^ 64)%Z.
Proof.
  unfold arith_u64, wrap. repeat case_match; intros; simplify_eq; [lia|].
  apply Z.mod_pos_bound. lia.
Qed.
End machine_int.

(** ** Lists *)

Section lists.
Context {A : Type}.

(** The elements up to the first one that satisfies [p], and the rest. *)
Fixpoint span_until (p : A -> bool) (l : list A) : list A * option (list A) :=
  match l with
  | [] => ([], None)
  | x :: l' =>
      if p x then ([], Some l')
      else let '(a, r) := span_until p l' in (x :: a, r)
  end.

Lemma span_until_found p l a b :
  span_until p l = (a, Some b) ->
  exists x, l = a ++ x :: b /\ p x = true /\ Forall (fun y => p y = false) a.
Proof.
  revert a b. induction l as [|x l IH]; intros a b; cbn; [done|].
  destruct (p x) eqn:Hp; intros Heq; simplify_eq.
  - eexists; eauto.
  - destruct (span_until p l) as [a' r']; simplify_eq.
    destruct (IH _ _ eq_refl) as (y & -> & Hy & Ha).
    eexists; split; eauto.
Qed.

Lemma span_until_app p a x b :
  Forall (fun y => p y = false) a -> p x = true ->
  span_until p (a ++ x :: b) = (a, Some b).
Proof.
  intros Ha Hx. induction Ha as [|y a Hy Ha IH]; cbn; [by rewrite Hx|].
  by rewrite Hy, IH.
Qed.

Lemma span_until_none p a :
  Forall (fun y => p y = false) a -> span_until p a = (a, None).
Proof. induction 1 as [|y a Hy Ha IH]; cbn; [done|]. by rewrite Hy, IH. Qed.
End lists.

(** A field [g] of a state that a list of assignments is folded into: [key]
    sets it, no other key does, and all assignments to [key] agree. *)
Lemma foldl_field {S K V T} `{EqDecision K} (assign : S -> K * V -> S) (g : S -> T) (val : V -> T)
    (key : K) (t : T) kvs s :
  (forall v s, g (assign s (key, v)) = val v) ->
  (forall k v s, k <> key -> g (assign s (k, v)) = g s) ->
  (forall v, (key, v) ∈ kvs -> val v = t) ->
  (exists v, (key, v) ∈ kvs) \/ g s = t ->
  g (foldl assign s kvs) = t.
Proof.
  intros Hset Hother. revert s.
  induction kvs as [|[k v] kvs IH]; intros s Hall Hin; cbn [foldl].
  - destruct Hin as [[v Hv]|]; [set_solver|done].
  - apply IH; [set_solver|]. destruct (decide (k = key)) as [->|Hne].
    + right. rewrite Hset. apply Hall. set_solver.
    + destruct Hin as [[v' Hv]|Heq]; [left; exists v'; set_solver|right].
      by rewrite Hother.
Qed.

(** ** Automation shared by the component files *)

Create HintDb heim discriminated.
Create Rewrite HintDb heim_rw.
#[export] Hint Resolve arith_u64_small : heim.
#[export] Hint Rewrite @arith_u64_small using lia : heim_rw.

(** Case analysis on the outermost match of the goal or of a hypothesis. *)
Ltac step_match :=
  match goal with
  | |- context [match ?x with _ => _ end] => destruct x eqn:?
  | H : context [match ?x with _ => _ end] |- _ => destruct x eqn:?
  end.
Ltac crush := repeat (simplify_eq/=; try step_match); try done; try lia.

(** Two equations for the same call give the same answer. *)
Ltac rewrite_same :=
  repeat match goal with
         | H1 : ?f ?x = ?a, H2 : ?f ?x = ?b |- _ =>
             rewrite H1 in H2; simplify_eq/=
         end.
