(* ===== verification/Interval.v ===== *)
(** * heim-runtime/src/time.rs: the naive interval

    [Delay] is the timer of the crate futures_timer, which is ready at its
    deadline and not before; [Interval::poll_next] restarts it when it fires. *)

From S2P Require Import Prelude.
Local Open Scope Z_scope.

(** Times are given to the timer: what its thread would read. *)
Class Delay := {
  delay : Type;
  delay_new : Z -> Z -> delay;
  delay_poll : Z -> delay -> bool * delay;
  delay_reset : Z -> Z -> delay -> delay;
}.
Class DelayLaws `{Delay} := {
  deadline : delay -> Z;
  delay_new_deadline now d : deadline (delay_new now d) = now + d;
  delay_poll_ready now d : fst (delay_poll now d) = (deadline d <=? now);
  delay_poll_deadline now d : deadline (snd (delay_poll now d)) = deadline d;
  delay_reset_deadline now dur d : deadline (delay_reset now dur d) = now + dur;
}.

Section interval.
Context `{Delay}.

Record Interval := mkInterval { interval_of : Z; delay_of : delay }.

Definition interval (now duration : Z) : Interval := mkInterval duration (delay_new now duration).

(** [None] is [Poll::Pending], [Some (Some tt)] a tick; the stream never ends. *)
Definition interval_poll_next (now : Z) (self : Interval) : option (option ()) * Interval :=
  let '(ready, d) := delay_poll now (delay_of self) in
  if negb ready then (None, mkInterval (interval_of self) d)
  else (Some (Some tt), mkInterval (interval_of self) (delay_reset now (interval_of self) d)).

(** Polled at the given times: the times of the ticks. *)
Fixpoint ticks (self : Interval) (times : list Z) : list Z :=
  match times with
  | [] => []
  | now :: times =>
      let '(p, self) := interval_poll_next now self in
      match p with Some _ => now :: ticks self times | None => ticks self times end
  end.

(** ** The reference: the first time from [due] on, then from [period] after it *)

Fixpoint due_times (period due : Z) (times : list Z) : list Z :=
  match times with
  | [] => []
  | now :: times => if due <=? now then now :: due_times period (now + period) times
                    else due_times period due times
  end.

Context `{!DelayLaws}.

Lemma ticks_due self times :
  ticks self times = due_times (interval_of self) (deadline (delay_of self)) times.
Proof.
  revert self. induction times as [|now times IH]; intros [period d]; [done|].
  cbn [ticks due_times interval_of delay_of]. unfold interval_poll_next. cbn [interval_of delay_of].
  pose proof (delay_poll_ready now d) as Hr. pose proof (delay_poll_deadline now d) as Hd.
  destruct (delay_poll now d) as [ready d']. cbn in Hr, Hd. subst ready.
  destruct (deadline d <=? now) eqn:Hdue; cbn [negb]; rewrite IH; cbn [interval_of delay_of].
  - by rewrite delay_reset_deadline.
  - by rewrite Hd.
Qed.

(** Ticks that are never closer than the period. *)
Fixpoint spaced (period since : Z) (l : list Z) : Prop :=
  match l with [] => True | t :: l => since + period <= t /\ spaced period t l end.

Lemma due_times_spaced period since times : spaced period since (due_times period (since + period) times).
Proof.
  revert since. induction times as [|now times IH]; intros since; [done|]. cbn.
  destruct (Z.leb_spec (since + period) now); [split; [done|apply IH]|apply IH].
Qed.
Lemma spaced_length period since l t :
  0 <= period -> spaced period since l -> Forall (fun x => x <= t) l -> since <= t ->
  period * Z.of_nat (length l) <= t - since.
Proof.
  intros Hp. revert since. induction l as [|x l IH]; intros since Hs Hle Ht; [cbn; lia|].
  destruct Hs as [Hx Hs]. apply Forall_cons in Hle as [Hxt Hle]. cbn [length].
  specialize (IH x Hs Hle Hxt). nia.
Qed.
Lemma due_times_sub period due times : Forall (fun t => t ∈ times) (due_times period due times).
Proof.
  revert due. induction times as [|now times IH]; intros due; [constructor|]. cbn.
  destruct (due <=? now); [constructor; [set_solver|]|];
    (eapply Forall_impl; [apply IH|]); intros t Ht; set_solver.
Qed.

(** C25: an interval ticks exactly at the polls that are due - the first one
    at least the period after its creation, then after each tick - however
    often it is polled in between; so ticks are never closer than the period,
    and until any time [t] there are at most as many as periods fit in. *)
Theorem interval_ticks created period times t :
  0 <= period -> created <= t -> Forall (fun x => x <= t) times ->
  let observed := ticks (interval created period) times in
  observed = due_times period (created + period) times /\
  spaced period created observed /\
  period * Z.of_nat (length observed) <= t - created.
Proof.
  cbn zeta. intros Hp Hc Hle. rewrite ticks_due. cbn [interval_of delay_of interval].
  rewrite delay_new_deadline. split; [done|]. split; [apply due_times_spaced|].
  apply spaced_length; [done|apply due_times_spaced| |done].
  pose proof (due_times_sub period (created + period) times) as Hsub.
  rewrite Forall_forall in Hle. eapply Forall_impl; [exact Hsub|]. intros x Hx. by apply Hle.
Qed.
End interval.

(** A timer that is its deadline. *)
Definition deadline_timer : Delay := {|
  delay := Z;
  delay_new now d := now + d;
  delay_poll now d := ((d <=? now), d);
  delay_reset now dur d := now + dur;
|}.
Definition deadline_timer_laws : @DelayLaws deadline_timer.
Proof. by refine {| deadline := (fun d => d) : @delay deadline_timer -> Z |}. Defined.

Lemma interval_ticks_witness :
  @ticks deadline_timer (@interval deadline_timer 0 100) [50; 99; 130; 200; 229; 230; 500] = [130; 230; 500] /\
  100 * 3 <= 500 - 0.
Proof.
  destruct (@interval_ticks deadline_timer deadline_timer_laws 0 100 [50; 99; 130; 200; 229; 230; 500] 500
    ltac:(lia) ltac:(lia) ltac:(repeat constructor; lia)) as (Ht & _ & Hl).
  split; [|exact Hl]. exact Ht.
Defined.
