(* ===== verification/RustStr.v ===== *)
(** * The parts of Rust's [str], [char] and integer parsing that heim uses

    A [&str], [String], [OsStr] or [Path] is the list of its bytes (UTF-8 for
    [str]); lengths and indices are byte lengths and byte indices, as in Rust.
    The functions below are the standard library's: [lines], [split],
    [splitn], [split_whitespace], [trim_start], [trim_end], [starts_with],
    [contains], [rfind], slicing with its char-boundary panic, [char]s,
    [eq_ignore_ascii_case], [FromStr] and [Display] of the integer types. *)

From S2P Require Import Prelude.

Abbreviation byte := ascii (only parsing).
Abbreviation str := (list ascii) (only parsing).

Definition lit (s : string) : str := String.list_ascii_of_string s.
Arguments lit : simpl never.

Definition code (c : byte) : Z := Z.of_N (N_of_ascii c).
Definition of_code (z : Z) : byte := ascii_of_N (Z.to_N z).

Lemma code_range c : (0 <= code c < 256)%Z.
Proof. unfold code. pose proof (N_ascii_bounded c). lia. Qed.

Lemma code_of_code z : (0 <= z < 256)%Z -> code (of_code z) = z.
Proof. intros Hz. unfold code, of_code. rewrite N_ascii_embedding; lia. Qed.

Lemma code_inj a b : code a = code b -> a = b.
Proof.
  unfold code. intros H%N2Z.inj.
  by rewrite <- (ascii_N_embedding a), <- (ascii_N_embedding b), H.
Qed.

(** ** Splitting at a byte *)

(** [s.split(c)] for an ASCII [c]: one piece more than there are separators. *)
Fixpoint split_on (c : byte) (s : str) : list str :=
  match s with
  | [] => [[]]
  | x :: s' =>
      if decide (x = c) then [] :: split_on c s'
      else match split_on c s' with
           | [] => [[x]]
           | p :: ps => (x :: p) :: ps
           end
  end.

(** The text before and after the first [c]. *)
Definition split_once (c : byte) (s : str) : option (str * str) :=
  match span_until (fun x => bool_decide (x = c)) s with
  | (_, None) => None
  | (a, Some b) => Some (a, b)
  end.

(** [s.splitn(n, c)]. *)
Fixpoint splitn (n : nat) (c : byte) (s : str) : list str :=
  match n with
  | O => []
  | S O => [s]
  | S n' => match split_once c s with
            | None => [s]
            | Some (a, b) => a :: splitn n' c b
            end
  end.

Lemma split_on_nil c s : split_on c s <> [].
Proof. destruct s as [|x s]; cbn; repeat case_match; congruence. Qed.

Lemma split_on_pieces c s : Forall (fun p => c ∉ p) (split_on c s).
Proof.
  induction s as [|x s IH]; cbn; [by repeat constructor; apply not_elem_of_nil|].
  case_decide; [constructor; [apply not_elem_of_nil|done]|].
  destruct (split_on c s); [repeat constructor; set_solver|]. decompose_Forall_hyps. constructor; [set_solver|done].
Qed.

Lemma split_on_plain c a : c ∉ a -> split_on c a = [a].
Proof.
  induction a as [|x a IH]; cbn; intros Hc; [done|].
  rewrite decide_False by set_solver. by rewrite IH by set_solver.
Qed.

Lemma split_on_app c a b : c ∉ a -> split_on c (a ++ c :: b) = a :: split_on c b.
Proof.
  induction a as [|x a IH]; cbn; intros Hc; [by rewrite decide_True|].
  rewrite decide_False by set_solver. by rewrite IH by set_solver.
Qed.

Lemma split_on_app_split c a b : split_on c (a ++ c :: b) = split_on c a ++ split_on c b.
Proof.
  induction a as [|x a IH]; cbn [app split_on]; [by rewrite decide_True|].
  rewrite IH. case_decide; [done|]. destruct (split_on c a) eqn:Ha; [|done].
  by apply split_on_nil in Ha.
Qed.

Lemma split_once_app c a b : c ∉ a -> split_once c (a ++ c :: b) = Some (a, b).
Proof.
  intros Hc. unfold split_once. rewrite span_until_app; [done| |by case_bool_decide].
  apply Forall_forall. intros y Hy. case_bool_decide; [subst|]; done.
Qed.

Lemma split_once_none c a : c ∉ a -> split_once c a = None.
Proof.
  intros Hc. unfold split_once. rewrite span_until_none; [done|].
  apply Forall_forall. intros y Hy. case_bool_decide; [subst|]; done.
Qed.

Lemma split_once_Some c s a b : split_once c s = Some (a, b) -> s = a ++ c :: b /\ c ∉ a.
Proof.
  unfold split_once. destruct (span_until _ s) as [a' [b'|]] eqn:Hs; intros; simplify_eq.
  apply span_until_found in Hs as (x & -> & Hx & Ha).
  case_bool_decide; [subst x|done]. split; [done|]. intros Hin.
  rewrite Forall_forall in Ha. specialize (Ha c Hin). by case_bool_decide.
Qed.

(** ** Lines *)

Definition LF : byte := "010"%char.
Definition CR : byte := "013"%char.
Definition SP : byte := " "%char.

Definition strip_cr (l : str) : str :=
  match last l with
  | Some c => if decide (c = CR) then removelast l else l
  | None => l
  end.

(** [s.lines()]: pieces ended by [\n] or [\r\n]; text after the last [\n] is a
    line when it is not empty. *)
Fixpoint lines_of (ps : list str) : list str :=
  match ps with
  | [] => []
  | [p] => match p with [] => [] | _ => [p] end
  | p :: ps' => strip_cr p :: lines_of ps'
  end.
Definition lines (s : str) : list str := lines_of (split_on LF s).

Lemma lines_nil : lines [] = [].
Proof. done. Qed.

Lemma lines_cons l s : LF ∉ l -> lines (l ++ LF :: s) = strip_cr l :: lines s.
Proof.
  intros Hl. unfold lines. rewrite split_on_app by done. cbn.
  by destruct (split_on LF s) eqn:E; [apply split_on_nil in E|].
Qed.

(** A line that [lines] gives back as it is: no [\n], not ended by [\r]. *)
Definition is_line (l : str) : Prop := (LF ∉ l) /\ (last l <> Some CR).
#[export] Instance is_line_dec l : Decision (is_line l) := _.

Lemma strip_cr_line l : is_line l -> strip_cr l = l.
Proof.
  intros [_ Hcr]. unfold strip_cr. destruct (last l) eqn:E; [|done].
  case_decide; [subst; congruence|done].
Qed.

(** The text of a file made of the given lines. *)
Definition unlines (ls : list str) : str := List.concat (map (fun l => l ++ [LF]) ls).

Lemma lines_unlines ls : Forall is_line ls -> lines (unlines ls) = ls.
Proof.
  induction 1 as [|l ls Hl Hls IH]; [done|].
  change (unlines (l :: ls)) with ((l ++ [LF]) ++ unlines ls).
  rewrite <- app_assoc. cbn [app]. rewrite lines_cons by apply Hl. by rewrite strip_cr_line, IH.
Qed.

(** ** White space

    [char::is_whitespace] is the Unicode property [White_Space].  The
    functions give the length in bytes of the white-space character at the
    head of a text, 0 when there is none. *)

Definition is_ascii_ws (c : byte) : bool :=
  let n := code c in (bool_decide (n = 32) || (9 <=? n) && (n <=? 13))%Z.

(** [u8::is_ascii_whitespace]: no vertical tab. *)
Definition is_ascii_whitespace (c : byte) : bool :=
  is_ascii_ws c && negb (bool_decide (code c = 11%Z)).

Definition ws2 (a b : Z) : bool :=
  ((a =? 194) && ((b =? 133) || (b =? 160)))%Z.
Definition ws3 (a b c : Z) : bool :=
  ((a =? 225) && (b =? 154) && (c =? 128)
   || (a =? 226) && (b =? 128) && ((128 <=? c) && (c <=? 138) || (c =? 168) || (c =? 169) || (c =? 175))
   || (a =? 226) && (b =? 129) && (c =? 159)
   || (a =? 227) && (b =? 128) && (c =? 128))%Z.

Definition ws_head (s : str) : nat :=
  match s with
  | [] => 0
  | a :: s1 =>
      if is_ascii_ws a then 1
      else match s1 with
           | [] => 0
           | b :: s2 =>
               if ws2 (code a) (code b) then 2
               else match s2 with
                    | [] => 0
                    | c :: _ => if ws3 (code a) (code b) (code c) then 3 else 0
                    end
           end
  end.

(** The same at the end of a text, given in reverse. *)
Definition ws_last (s : str) : nat :=
  match s with
  | [] => 0
  | a :: s1 =>
      if is_ascii_ws a then 1
      else match s1 with
           | [] => 0
           | b :: s2 =>
               if ws2 (code b) (code a) then 2
               else match s2 with
                    | [] => 0
                    | c :: _ => if ws3 (code c) (code b) (code a) then 3 else 0
                    end
           end
  end.

(** Drops [skip] bytes and then characters while [f] measures one. *)
Fixpoint drop_ws (f : str -> nat) (skip : nat) (s : str) : str :=
  match s with
  | [] => []
  | x :: s' =>
      match skip with
      | S k => drop_ws f k s'
      | O => match f s with
             | O => s
             | S k => drop_ws f k s'
             end
      end
  end.

Definition trim_start (s : str) : str := drop_ws ws_head 0 s.
Definition trim_end (s : str) : str := rev (drop_ws ws_last 0 (rev s)).
Definition trim (s : str) : str := trim_end (trim_start s).

(** The non-empty pieces between the separators that [f] measures; [cur] is
    the piece being read, [skip] the bytes left of a separator. *)
Fixpoint words_go (f : str -> nat) (skip : nat) (cur s : str) : list str :=
  match s with
  | [] => match cur with [] => [] | _ => [cur] end
  | x :: s' =>
      match skip with
      | S k => words_go f k cur s'
      | O => match f s with
             | O => words_go f 0 (cur ++ [x]) s'
             | S k => match cur with
                      | [] => words_go f k [] s'
                      | _ => cur :: words_go f k [] s'
                      end
             end
      end
  end.

Definition split_whitespace (s : str) : list str := words_go ws_head 0 [] s.

Definition ascii_ws_head (s : str) : nat :=
  match s with
  | a :: _ => if is_ascii_whitespace a then 1 else 0
  | [] => 0
  end.
Definition split_ascii_whitespace (s : str) : list str := words_go ascii_ws_head 0 [] s.

(** The bytes of ordinary words: ASCII, neither white space nor a control
    character. *)
Definition word_byte (c : byte) : Prop := (33 <= code c < 127)%Z.
#[export] Instance word_byte_dec c : Decision (word_byte c) := _.
Definition word (w : str) : Prop := w <> [] /\ Forall word_byte w.
#[export] Instance word_dec w : Decision (word w) := _.

Lemma ws_head_word c s : word_byte c -> ws_head (c :: s) = 0.
Proof.
  unfold word_byte, ws_head, is_ascii_ws, ws2, ws3. intros Hc.
  case_bool_decide; [lia|]. cbn [orb].
  repeat case_match; try done; lia.
Qed.

Lemma ws_last_word c s : word_byte c -> ws_last (c :: s) = 0.
Proof.
  unfold word_byte, ws_last, is_ascii_ws, ws2, ws3. intros Hc.
  case_bool_decide; [lia|]. cbn [orb].
  repeat case_match; try done; lia.
Qed.

Lemma ascii_ws_head_word c s : word_byte c -> ascii_ws_head (c :: s) = 0.
Proof.
  unfold word_byte, ascii_ws_head, is_ascii_whitespace, is_ascii_ws. intros Hc.
  repeat case_bool_decide; cbn; repeat case_match; try done; lia.
Qed.

(** What the two splitters share: words are not separators, and a space is. *)
Class Splitter (f : str -> nat) := {
  splitter_word c s : word_byte c -> f (c :: s) = 0;
  splitter_space s : f (SP :: s) = 1;
  splitter_newline s : f (LF :: s) = 1;
}.
#[export] Instance ws_splitter : Splitter ws_head.
Proof. split; [apply ws_head_word|done..]. Qed.
#[export] Instance ascii_ws_splitter : Splitter ascii_ws_head.
Proof. split; [apply ascii_ws_head_word|done..]. Qed.

Section splitter.
Context `{Splitter f}.

Lemma words_go_word cur w s :
  Forall word_byte w -> words_go f 0 cur (w ++ s) = words_go f 0 (cur ++ w) s.
Proof.
  intros Hw. revert cur. induction Hw as [|c w Hc Hw IH]; intros cur; cbn.
  - by rewrite app_nil_r.
  - rewrite splitter_word by done. by rewrite IH, <- app_assoc.
Qed.

Lemma words_cons w s : word w -> words_go f 0 [] (w ++ SP :: s) = w :: words_go f 0 [] s.
Proof.
  intros [Hne Hw]. rewrite words_go_word by done. cbn. rewrite splitter_space.
  by destruct w.
Qed.

Lemma words_one w : word w -> words_go f 0 [] w = [w].
Proof.
  intros [Hne Hw]. rewrite <- (app_nil_r w) at 1. rewrite words_go_word by done.
  by destruct w.
Qed.

Lemma words_one_newline w : word w -> words_go f 0 [] (w ++ [LF]) = [w].
Proof.
  intros [Hne Hw]. rewrite words_go_word by done. cbn. rewrite splitter_newline.
  by destruct w.
Qed.

Lemma words_space s : words_go f 0 [] (SP :: s) = words_go f 0 [] s.
Proof. cbn. by rewrite splitter_space. Qed.
End splitter.

(** Words separated by single spaces. *)
Fixpoint unwords (ws : list str) : str :=
  match ws with
  | [] => []
  | [w] => w
  | w :: ws' => w ++ SP :: unwords ws'
  end.

Lemma words_unwords `{Splitter f} ws :
  Forall word ws -> words_go f 0 [] (unwords ws) = ws.
Proof.
  induction 1 as [|w ws Hw Hws IH]; [done|]. destruct ws as [|w' ws].
  - by apply words_one.
  - change (unwords (w :: w' :: ws)) with (w ++ SP :: unwords (w' :: ws)).
    by rewrite words_cons, IH.
Qed.

Lemma words_unwords_newline `{Splitter f} ws :
  Forall word ws -> words_go f 0 [] (unwords ws ++ [LF]) = ws.
Proof.
  induction 1 as [|w ws Hw Hws IH]; [cbn; by rewrite splitter_newline|].
  destruct ws as [|w' ws].
  - by apply words_one_newline.
  - change (unwords (w :: w' :: ws)) with (w ++ SP :: unwords (w' :: ws)).
    rewrite <- app_assoc. cbn [app]. by rewrite words_cons, IH.
Qed.

Lemma trim_end_word s c : word_byte c -> trim_end (s ++ [c]) = s ++ [c].
Proof.
  intros Hc. unfold trim_end. rewrite rev_app_distr. cbn [rev app drop_ws].
  rewrite ws_last_word by done. cbn. by rewrite rev_involutive.
Qed.

Lemma trim_end_newline s : trim_end (s ++ [LF]) = trim_end s.
Proof.
  unfold trim_end. rewrite rev_app_distr. cbn. by destruct (rev s).
Qed.

Lemma trim_end_of_word w : word w -> trim_end w = w.
Proof.
  intros [Hne Hw]. destruct (exists_last Hne) as (s & c & ->).
  apply trim_end_word. rewrite Forall_app, Forall_singleton in Hw. apply Hw.
Qed.

Lemma trim_start_of_word w s : word w -> trim_start (w ++ s) = w ++ s.
Proof.
  intros [Hne Hw]. destruct w as [|c w]; [done|]. inv Hw.
  unfold trim_start. cbn [drop_ws app]. by rewrite ws_head_word.
Qed.

Lemma trim_start_space s : trim_start (SP :: s) = trim_start s.
Proof. unfold trim_start. cbn. by destruct s. Qed.

Lemma word_no_space w : word w -> SP ∉ w.
Proof.
  intros [_ Hw] Hin. rewrite Forall_forall in Hw. apply Hw in Hin. by destruct Hin.
Qed.

Lemma word_is_line w : word w -> is_line w.
Proof.
  intros [_ Hw]. rewrite Forall_forall in Hw. split.
  - intros Hin%Hw. by destruct Hin.
  - intros Hl%last_Some_elem_of%Hw. by destruct Hl.
Qed.

(** ** Searching and slicing *)

Definition starts_with (s p : str) : bool := bool_decide (p `prefix_of` s).
Definition ends_with (s p : str) : bool := bool_decide (p `suffix_of` s).

Fixpoint contains (s p : str) : bool :=
  starts_with s p || match s with [] => false | _ :: s' => contains s' p end.

Lemma starts_with_app p s : starts_with (p ++ s) p = true.
Proof. unfold starts_with. apply bool_decide_eq_true. by exists s. Qed.

Lemma starts_with_true s p : starts_with s p = true <-> exists t, s = p ++ t.
Proof. unfold starts_with. rewrite bool_decide_eq_true. done. Qed.

Lemma ends_with_true s p : ends_with s p = true <-> exists t, s = t ++ p.
Proof. unfold ends_with. rewrite bool_decide_eq_true. done. Qed.

Lemma contains_true s p : contains s p = true <-> exists a b, s = a ++ p ++ b.
Proof.
  induction s as [|x s IH]; cbn; rewrite orb_true_iff, starts_with_true.
  - split; [intros [[t Ht]|]; [|done]|intros (a & b & Hab)].
    + by exists [], t.
    + destruct a; [|done]. destruct p; [|done]. left. by exists b.
  - rewrite IH. split.
    + intros [[t ->]|(a & b & ->)]; [by exists [], t|by exists (x :: a), b].
    + intros ([|y a] & b & Hab); [left; by exists b|].
      right. simplify_eq/=. eauto.
Qed.

Lemma elem_of_rev {A} (x : A) l : x ∈ rev l <-> x ∈ l.
Proof. by rewrite !list_elem_of_In, <- in_rev. Qed.

(** [s.rfind(c)] for an ASCII [c]: the byte index of the last [c]. *)
Definition rfind (c : byte) (s : str) : option nat :=
  match span_until (fun x => bool_decide (x = c)) (rev s) with
  | (_, None) => None
  | (a, Some b) => Some (length b)
  end.

Lemma rfind_app c a b : c ∉ b -> rfind c (a ++ c :: b) = Some (length a).
Proof.
  intros Hc. unfold rfind. rewrite rev_app_distr. cbn [rev]. rewrite <- app_assoc. cbn [app].
  rewrite span_until_app; [by rewrite length_rev| |by case_bool_decide].
  apply Forall_forall. intros y Hy. case_bool_decide; [subst|done].
  by rewrite elem_of_rev in Hy.
Qed.

Lemma rfind_Some c s k :
  rfind c s = Some k -> exists a b, s = a ++ c :: b /\ k = length a /\ c ∉ b.
Proof.
  unfold rfind. destruct (span_until _ (rev s)) as [a [b|]] eqn:Hs; intros; simplify_eq.
  apply span_until_found in Hs as (x & Hr & Hx & Ha). case_bool_decide; [subst x|done].
  exists (rev b), (rev a). split_and!.
  - rewrite <- (rev_involutive s), Hr, rev_app_distr. cbn. by rewrite <- app_assoc.
  - by rewrite length_rev.
  - rewrite elem_of_rev. intros Hin. rewrite Forall_forall in Ha. apply Ha in Hin.
    by case_bool_decide.
Qed.

Lemma rfind_none c s : c ∉ s -> rfind c s = None.
Proof.
  intros Hc. unfold rfind. rewrite span_until_none; [done|].
  apply Forall_forall. intros y Hy. case_bool_decide; [subst|done].
  by rewrite elem_of_rev in Hy.
Qed.

(** [str::is_char_boundary]: the byte at [i] does not continue a character. *)
Definition is_continuation (c : byte) : bool := ((128 <=? code c) && (code c <? 192))%Z.
Definition is_char_boundary (s : str) (i : nat) : bool :=
  match s !! i with
  | Some c => negb (is_continuation c)
  | None => bool_decide (i = length s)
  end.

(** [&s[a..b]] and [&s[a..]] on a [str]. *)
Definition str_slice {E} (s : str) (a b : nat) : res E str :=
  if bool_decide (a <= b) && is_char_boundary s a && is_char_boundary s b
  then Ok (take (b - a) (drop a s)) else Panic.
Definition str_from {E} (s : str) (a : nat) : res E str :=
  if is_char_boundary s a then Ok (drop a s) else Panic.

(** [&s[..b]] and [&s[a..]] on bytes: only the length matters. *)
Definition bytes_to {E} (s : str) (b : nat) : res E str :=
  if bool_decide (b <= length s) then Ok (take b s) else Panic.
Definition bytes_from {E} (s : str) (a : nat) : res E str :=
  if bool_decide (a <= length s) then Ok (drop a s) else Panic.

Lemma is_char_boundary_app a c b :
  is_continuation c = false -> is_char_boundary (a ++ c :: b) (length a) = true.
Proof. intros Hc. unfold is_char_boundary. by rewrite list_lookup_middle, Hc. Qed.

(** [s.chars().next()]: the bytes of the first character. *)
Definition char_len (c : byte) : nat :=
  if (code c <? 128)%Z then 1
  else if (code c <? 224)%Z then 2
  else if (code c <? 240)%Z then 3 else 4.
Definition chars_next (s : str) : option str :=
  match s with
  | [] => None
  | c :: _ => Some (take (char_len c) s)
  end.

(** [str::eq_ignore_ascii_case]. *)
Definition to_ascii_lowercase (c : byte) : byte :=
  if ((65 <=? code c) && (code c <=? 90))%Z then of_code (code c + 32) else c.
Definition eq_ignore_ascii_case (a b : str) : bool :=
  bool_decide (map to_ascii_lowercase a = map to_ascii_lowercase b).

(** [s.trim_end_matches(c)] for an ASCII [c]. *)
Fixpoint drop_char (c : byte) (s : str) : str :=
  match s with
  | [] => []
  | x :: s' => if decide (x = c) then drop_char c s' else s
  end.
Definition trim_end_matches (c : byte) (s : str) : str := rev (drop_char c (rev s)).

Lemma trim_end_matches_app c s : c ∉ s -> trim_end_matches c (s ++ [c]) = s.
Proof.
  intros Hc. unfold trim_end_matches. rewrite rev_app_distr. cbn.
  rewrite decide_True by done. destruct (rev s) as [|x r] eqn:Hr.
  - cbn. rewrite <- (rev_involutive s), Hr. done.
  - cbn. rewrite decide_False.
    + by rewrite <- (rev_involutive s), Hr.
    + intros ->. apply Hc. apply elem_of_rev. rewrite Hr. by left.
Qed.

(** ** Integers *)

(** [core::num::IntErrorKind]. *)
Inductive int_error := IntEmpty | InvalidDigit | PosOverflow | NegOverflow.
#[export] Instance int_error_dec : EqDecision int_error.
Proof. solve_decision. Defined.

Definition digit_of (c : byte) : option Z :=
  if ((48 <=? code c) && (code c <=? 57))%Z then Some (code c - 48)%Z else None.

(** The digits of a number that is not negative, most significant first,
    accumulated in [acc]; the first byte that is no digit or takes the value
    above [max] ends the parse. *)
Fixpoint digits_up (max acc : Z) (s : str) : res int_error Z :=
  match s with
  | [] => Ok acc
  | c :: s' =>
      match digit_of c with
      | None => Err InvalidDigit
      | Some d => if (acc * 10 + d <=? max)%Z then digits_up max (acc * 10 + d) s'
                  else Err PosOverflow
      end
  end.

Fixpoint digits_down (min acc : Z) (s : str) : res int_error Z :=
  match s with
  | [] => Ok acc
  | c :: s' =>
      match digit_of c with
      | None => Err InvalidDigit
      | Some d => if (min <=? acc * 10 - d)%Z then digits_down min (acc * 10 - d) s'
                  else Err NegOverflow
      end
  end.

Definition PLUS : byte := "+"%char.
Definition MINUS : byte := "-"%char.

(** [<uN>::from_str] and [<iN>::from_str]. *)
Definition parse_unsigned (max : Z) (s : str) : res int_error Z :=
  match s with
  | [] => Err IntEmpty
  | [c] => digits_up max 0 [c]
  | c :: s' => if decide (c = PLUS) then digits_up max 0 s' else digits_up max 0 s
  end.
Definition parse_signed (min max : Z) (s : str) : res int_error Z :=
  match s with
  | [] => Err IntEmpty
  | [c] => digits_up max 0 [c]
  | c :: s' =>
      if decide (c = PLUS) then digits_up max 0 s'
      else if decide (c = MINUS) then digits_down min 0 s'
      else digits_up max 0 s
  end.

Definition parse_u64 : str -> res int_error Z := parse_unsigned (2 ^ 64 - 1).
Definition parse_u32 : str -> res int_error Z := parse_unsigned (2 ^ 32 - 1).
Definition parse_i64 : str -> res int_error Z := parse_signed (- 2 ^ 63) (2 ^ 63 - 1).
Definition parse_i32 : str -> res int_error Z := parse_signed (- 2 ^ 31) (2 ^ 31 - 1).

(** [Display] of an integer. *)
Fixpoint show_go (fuel : nat) (z : Z) (acc : str) : str :=
  match fuel with
  | O => acc
  | S k => let acc' := of_code (48 + z mod 10) :: acc in
           if (z <? 10)%Z then acc' else show_go k (z / 10) acc'
  end.
Definition show_nonneg (z : Z) : str := show_go (S (Z.to_nat (Z.log2 z))) z [].
Definition show_int (z : Z) : str :=
  if (z <? 0)%Z then MINUS :: show_nonneg (- z) else show_nonneg z.

(** *** Round trip *)

Section show.
Local Open Scope Z_scope.

Lemma digit_of_show d : 0 <= d < 10 -> digit_of (of_code (48 + d)) = Some d.
Proof.
  intros Hd. unfold digit_of. rewrite code_of_code by lia.
  replace (48 <=? 48 + d) with true by lia. replace (48 + d <=? 57) with true by lia.
  cbn. f_equal. lia.
Qed.

(** The value of the digits [show_go] writes before [acc]. *)
Lemma show_go_up max fuel z acc a :
  (Z.to_nat (Z.log2 z) < fuel)%nat -> 0 <= z -> 0 <= a ->
  exists k, 0 < k /\
    (a * k + z <= max -> digits_up max a (show_go fuel z acc) = digits_up max (a * k + z) acc).
Proof.
  revert z acc a. induction fuel as [|fuel IH]; intros z acc a Hf Hz Ha; [lia|].
  cbn [show_go]. destruct (z <? 10) eqn:Hlt.
  - exists 10. split; [lia|]. intros Hmax. cbn [digits_up].
    rewrite Z.mod_small by lia. rewrite digit_of_show by lia.
    by replace (a * 10 + z <=? max) with true by lia.
  - assert (Hlog : Z.log2 (z / 10) < Z.log2 z).
    { apply Z.log2_lt_pow2; [apply Z.div_str_pos; lia|].
      apply Z.div_lt_upper_bound; [lia|].
      pose proof (Z.log2_spec z ltac:(lia)) as [_ H2].
      rewrite Z.pow_succ_r in H2 by apply Z.log2_nonneg. lia. }
    pose proof (Z.log2_nonneg (z / 10)).
    destruct (IH (z / 10) (of_code (48 + z mod 10) :: acc) a) as (k & Hk & Heq);
      [lia|apply Z.div_pos; lia|lia|].
    pose proof (Z.div_mod z 10 ltac:(lia)) as Hdm.
    pose proof (Z.mod_pos_bound z 10 ltac:(lia)) as Hmb.
    exists (10 * k). split; [lia|]. intros Hmax.
    pose proof (Z.mul_nonneg_nonneg a k ltac:(lia) ltac:(lia)).
    rewrite Heq by lia. cbn [digits_up].
    rewrite digit_of_show by lia.
    replace ((a * k + z / 10) * 10 + z mod 10) with (a * (10 * k) + z) by lia.
    by replace (a * (10 * k) + z <=? max) with true by lia.
Qed.

Lemma digits_up_show max z : 0 <= z <= max -> digits_up max 0 (show_nonneg z) = Ok z.
Proof.
  intros Hz. unfold show_nonneg.
  destruct (show_go_up max (S (Z.to_nat (Z.log2 z))) z [] 0) as (k & Hk & Heq); [lia..|].
  rewrite Heq by lia. done.
Qed.

Lemma digits_down_up min acc s v :
  digits_up (- min) acc s = Ok v -> digits_down min (- acc) s = Ok (- v).
Proof.
  revert acc. induction s as [|c s IH]; intros acc; cbn; [by intros [= ->]|].
  destruct (digit_of c) as [d|]; [|done].
  destruct (acc * 10 + d <=? - min) eqn:Hle; [|done]. intros Hv.
  replace (min <=? - acc * 10 - d) with true by lia.
  replace (- acc * 10 - d) with (- (acc * 10 + d)) by lia. by apply IH.
Qed.

Lemma show_go_digits fuel z acc :
  0 <= z -> Forall (fun c => 48 <= code c < 58) acc ->
  Forall (fun c => 48 <= code c < 58) (show_go fuel z acc).
Proof.
  revert z acc. induction fuel as [|fuel IH]; intros z acc Hz Hacc; [done|].
  pose proof (Z.mod_pos_bound z 10 ltac:(lia)) as Hmb.
  assert (Forall (fun c => 48 <= code c < 58) (of_code (48 + z mod 10) :: acc)).
  { constructor; [|done]. rewrite code_of_code; lia. }
  cbn. case_match; [done|]. apply IH; [apply Z.div_pos; lia|done].
Qed.

Lemma show_go_length fuel z acc :
  (length acc <= length (show_go fuel z acc))%nat.
Proof.
  revert z acc. induction fuel as [|fuel IH]; intros z acc; cbn; [done|].
  case_match; cbn; [lia|]. etransitivity; [|apply IH]. cbn. lia.
Qed.

Lemma show_nonneg_digits z : 0 <= z -> Forall (fun c => 48 <= code c < 58) (show_nonneg z).
Proof. intros. by apply show_go_digits. Qed.

Lemma show_nonneg_ne z : show_nonneg z <> [].
Proof.
  unfold show_nonneg. cbn [show_go]. case_match; [done|].
  intros Hnil. epose proof (show_go_length _ (z / 10) [_]) as Hlen.
  rewrite Hnil in Hlen. cbn in Hlen. lia.
Qed.

Lemma show_nonneg_word z : 0 <= z -> word (show_nonneg z).
Proof.
  intros Hz. split; [apply show_nonneg_ne|].
  eapply Forall_impl; [by apply show_nonneg_digits|]. unfold word_byte. cbn. lia.
Qed.

Lemma show_int_word z : word (show_int z).
Proof.
  unfold show_int. case_match; [|by apply show_nonneg_word; lia].
  destruct (show_nonneg_word (- z)) as [Hne Hw]; [lia|].
  split; [done|]. constructor; [by apply (bool_decide_unpack _)|done].
Qed.


(** A parser that skips a leading [+] skips none in front of digits. *)
Lemma parse_unsigned_digits max s :
  s <> [] -> Forall (fun c => 48 <= code c < 58) s ->
  parse_unsigned max s = digits_up max 0 s.
Proof.
  intros Hne Hd. destruct s as [|c [|c' s]]; [done..|]. cbn [parse_unsigned].
  rewrite decide_False; [done|]. intros ->. inv Hd.
  change (code PLUS) with 43 in *. lia.
Qed.

Lemma parse_unsigned_show max z : 0 <= z <= max -> parse_unsigned max (show_int z) = Ok z.
Proof.
  intros Hz. unfold show_int. replace (z <? 0) with false by lia.
  rewrite parse_unsigned_digits; [by apply digits_up_show|apply show_nonneg_ne|].
  apply show_nonneg_digits. lia.
Qed.

Lemma parse_signed_show min max z :
  min <= z <= max -> min <= 0 -> 0 <= max -> parse_signed min max (show_int z) = Ok z.
Proof.
  intros Hz Hmin Hmax. unfold show_int. destruct (z <? 0) eqn:Hs.
  - pose proof (show_nonneg_ne (- z)) as Hne.
    pose proof (digits_up_show (- min) (- z) ltac:(lia)) as Hup.
    apply (digits_down_up min 0) in Hup. rewrite Z.opp_involutive in Hup.
    unfold parse_signed. destruct (show_nonneg (- z)); [done|]. done.
  - pose proof (show_nonneg_ne z) as Hne.
    pose proof (show_nonneg_digits z ltac:(lia)) as Hd.
    rewrite <- (digits_up_show max z) by lia.
    destruct (show_nonneg z) as [|c [|c' s]]; [done..|]. cbn [parse_signed].
    inv Hd. rewrite !decide_False; [done| |]; intros ->;
      [change (code MINUS) with 45 in * | change (code PLUS) with 43 in *]; lia.
Qed.

Lemma parse_u64_show z : 0 <= z < 2 ^ 64 -> parse_u64 (show_int z) = Ok z.
Proof. intros. apply parse_unsigned_show. lia. Qed.
Lemma parse_u32_show z : 0 <= z < 2 ^ 32 -> parse_u32 (show_int z) = Ok z.
Proof. intros. apply parse_unsigned_show. lia. Qed.
Lemma parse_i64_show z : - 2 ^ 63 <= z < 2 ^ 63 -> parse_i64 (show_int z) = Ok z.
Proof. intros. apply parse_signed_show; lia. Qed.
Lemma parse_i32_show z : - 2 ^ 31 <= z < 2 ^ 31 -> parse_i32 (show_int z) = Ok z.
Proof. intros. apply parse_signed_show; lia. Qed.

Lemma digits_up_range max acc s v :
  0 <= acc <= max -> digits_up max acc s = Ok v -> 0 <= v <= max.
Proof.
  revert acc. induction s as [|c s IH]; intros acc Hacc; cbn; [by intros [= <-]|].
  unfold digit_of. repeat case_match; intros; simplify_eq. eapply IH; [|done]. lia.
Qed.

Lemma parse_u64_range s v : parse_u64 s = Ok v -> 0 <= v < 2 ^ 64.
Proof.
  unfold parse_u64, parse_unsigned. intros Hv.
  assert (0 <= v <= 2 ^ 64 - 1); [|lia].
  destruct s as [|c [|c' s]]; [done| |]; [|case_decide];
    (eapply digits_up_range; [|exact Hv]; lia).
Qed.

Lemma parse_int_not_panic min max s : parse_signed min max s <> Panic.
Proof.
  assert (Hu : forall m s a, digits_up m a s <> Panic).
  { intros m s'. induction s' as [|c s' IH]; intros a; cbn; [done|]. repeat case_match; done. }
  assert (Hd : forall m s a, digits_down m a s <> Panic).
  { intros m s'. induction s' as [|c s' IH]; intros a; cbn; [done|]. repeat case_match; done. }
  unfold parse_signed. repeat case_match; try done; apply Hu || apply Hd.
Qed.

Lemma parse_unsigned_not_panic max s : parse_unsigned max s <> Panic.
Proof.
  assert (Hu : forall m s a, digits_up m a s <> Panic).
  { intros m s'. induction s' as [|c s' IH]; intros a; cbn; [done|]. repeat case_match; done. }
  unfold parse_unsigned. repeat case_match; try done; apply Hu.
Qed.
End show.

#[export] Hint Resolve show_int_word word_is_line word_no_space : heim.

(** A byte that ends no line. *)
Definition line_byte (c : byte) : Prop := c <> LF /\ c <> CR.

Lemma word_line_bytes w : word w -> Forall line_byte w.
Proof.
  intros [_ Hw]. eapply Forall_impl; [exact Hw|]. unfold word_byte, line_byte.
  intros c Hc. split; intros ->; by destruct Hc.
Qed.

Lemma line_bytes_is_line l : Forall line_byte l -> is_line l.
Proof.
  rewrite Forall_forall. intros Hl. split.
  - intros Hin. by apply Hl in Hin as [].
  - intros [s Hs]%last_Some. assert (CR ∈ l) as Hin by (rewrite Hs; set_solver).
    by apply Hl in Hin as [].
Qed.

Lemma unwords_line_bytes ws : Forall word ws -> Forall line_byte (unwords ws).
Proof.
  induction 1 as [|w ws Hw Hws IH]; [constructor|].
  apply word_line_bytes in Hw. destruct ws as [|w' ws]; [done|].
  change (unwords (w :: w' :: ws)) with (w ++ SP :: unwords (w' :: ws)).
  rewrite Forall_app, Forall_cons. done.
Qed.

Lemma unwords_is_line ws : Forall word ws -> is_line (unwords ws).
Proof. intros Hws. by apply line_bytes_is_line, unwords_line_bytes. Qed.

Lemma lines_unlines_app ls rest : Forall is_line ls -> lines (unlines ls ++ rest) = ls ++ lines rest.
Proof.
  induction 1 as [|l ls Hl Hls IH]; [done|].
  change (unlines (l :: ls)) with ((l ++ [LF]) ++ unlines ls).
  rewrite <- !app_assoc. cbn [app]. rewrite lines_cons by apply Hl.
  by rewrite strip_cr_line, IH.
Qed.

(** A list of words: names and printed numbers. *)
Ltac solve_words :=
  repeat first [ apply Forall_nil_2
               | apply Forall_cons_2; [first [done | apply show_int_word
                                               | by apply (bool_decide_unpack _); vm_compute]|] ].

(** ** UTF-8 *)

Definition cont (c : byte) : bool := is_continuation c.

(** The length of the character at the head and [true], or the length of the
    longest ill-formed part and [false]. *)
Definition utf8_step (s : str) : bool * nat :=
  match s with
  | [] => (false, 1)
  | b0 :: r =>
      let a := code b0 in
      if (a <? 128)%Z then (true, 1)
      else if ((194 <=? a) && (a <=? 223))%Z then
        match r with
        | b1 :: _ => if cont b1 then (true, 2) else (false, 1)
        | [] => (false, 1)
        end
      else if ((224 <=? a) && (a <=? 239))%Z then
        match r with
        | b1 :: r1 =>
            let lo := if (a =? 224)%Z then 160%Z else 128%Z in
            let hi := if (a =? 237)%Z then 159%Z else 191%Z in
            if ((lo <=? code b1) && (code b1 <=? hi))%Z then
              match r1 with
              | b2 :: _ => if cont b2 then (true, 3) else (false, 2)
              | [] => (false, 2)
              end
            else (false, 1)
        | [] => (false, 1)
        end
      else if ((240 <=? a) && (a <=? 244))%Z then
        match r with
        | b1 :: r1 =>
            let lo := if (a =? 240)%Z then 144%Z else 128%Z in
            let hi := if (a =? 244)%Z then 143%Z else 191%Z in
            if ((lo <=? code b1) && (code b1 <=? hi))%Z then
              match r1 with
              | b2 :: r2 =>
                  if cont b2 then
                    match r2 with
                    | b3 :: _ => if cont b3 then (true, 4) else (false, 3)
                    | [] => (false, 3)
                    end
                  else (false, 2)
              | [] => (false, 2)
              end
            else (false, 1)
        | [] => (false, 1)
        end
      else (false, 1)
  end.

(** Both walk the text with its length as fuel: a step takes a byte or more. *)
Fixpoint utf8_go (fuel : nat) (s : str) : bool :=
  match fuel, s with
  | _, [] => true
  | O, _ => false
  | S k, _ => let '(ok, n) := utf8_step s in ok && utf8_go k (drop n s)
  end.
Definition from_utf8 (s : str) : bool := utf8_go (length s) s.

Definition REPLACEMENT : str := map of_code [239; 191; 189]%Z.
Fixpoint lossy_go (fuel : nat) (s : str) : str :=
  match fuel, s with
  | _, [] => []
  | O, _ => []
  | S k, _ => let '(ok, n) := utf8_step s in
              (if ok then take n s else REPLACEMENT) ++ lossy_go k (drop n s)
  end.
Definition to_string_lossy (s : str) : str := lossy_go (length s) s.

Lemma utf8_go_lossy fuel s : utf8_go fuel s = true -> lossy_go fuel s = s.
Proof.
  revert s. induction fuel as [|k IH]; intros [|c s]; cbn [utf8_go lossy_go]; try done.
  destruct (utf8_step (c :: s)) as [[] n]; [|done]. cbn [andb]. intros H%IH.
  rewrite H. apply take_drop.
Qed.

Lemma to_string_lossy_utf8 s : from_utf8 s = true -> to_string_lossy s = s.
Proof. apply utf8_go_lossy. Qed.

(** [CStr::from_ptr(p).to_bytes()] on the array at [p]. *)
Definition NUL : byte := "000"%char.
Definition c_str (s : str) : str := fst (span_until (fun x => bool_decide (x = NUL)) s).

(** [CString::new]: the error holds the position of the first null byte. *)
Definition cstring_new (s : str) : res nat str :=
  match span_until (fun x => bool_decide (x = NUL)) s with
  | (a, Some _) => Err (length a)
  | (_, None) => Ok s
  end.
