(* ===== verification/Layout.v ===== *)
(** * Numbers and structures in memory

    How an unsigned number of a given width lies in memory in either byte
    order, how it is read back from an offset of a buffer (least significant
    byte first, as on the machines of Windows and macOS), and the vectors of
    structures that the system fills in.  Reading past the end of a buffer is
    undefined: [Panic]. *)

From S2P Require Import Prelude RustStr.

(** The byte order of the machine. *)
Class Endian := little_endian : bool.

(** The [n] bytes of a number, most significant first. *)
Fixpoint be_bytes (n : nat) (z : Z) : list Z :=
  match n with
  | O => []
  | S k => be_bytes k (z / 256) ++ [z mod 256]%Z
  end.
Fixpoint le_bytes (n : nat) (z : Z) : list Z :=
  match n with
  | O => []
  | S k => (z mod 256)%Z :: le_bytes k (z / 256)%Z
  end.
(** The number whose bytes, least significant first, are given. *)
Fixpoint of_le_bytes (l : list Z) : Z :=
  match l with [] => 0%Z | b :: l' => (b + 256 * of_le_bytes l')%Z end.

Section memory.
Context `{Endian}.

(** How a number lies in memory, and the number that memory holds. *)
Definition to_memory (n : nat) (z : Z) : list Z :=
  if little_endian then le_bytes n z else be_bytes n z.
Definition of_memory (bytes : list Z) : Z :=
  of_le_bytes (if little_endian then bytes else rev bytes).
End memory.

Definition uint_at {E} (width offset : nat) (bytes : str) : res E Z :=
  if bool_decide (offset + width <= length bytes)
  then Ok (of_le_bytes (map code (take width (drop offset bytes))))
  else Panic.
Definition ulong_at {E} : nat -> str -> res E Z := uint_at 4.
(** A number of [w] bits as a signed one. *)
Definition signed (w z : Z) : Z := if (z <? 2 ^ (w - 1))%Z then z else (z - 2 ^ w)%Z.

(** The first [n] structures of a vector, from its memory. *)
Fixpoint structs_at {E T} (size : nat) (read : str -> res E T) (n : nat) (bytes : str) : res E (list T) :=
  match n with
  | O => Ok []
  | S k =>
      t ← read (take size bytes);
      ts ← structs_at size read k (drop size bytes);
      Ok (t :: ts)
  end.

(** Memory that is long enough holds [n] structures. *)
Lemma structs_at_long {E T} size (read : str -> res E T) n bytes :
  (forall b, size <= length b -> exists t, read b = Ok t) -> n * size <= length bytes ->
  exists ts, structs_at size read n bytes = Ok ts /\ length ts = n.
Proof.
  intros Hread. revert bytes. induction n as [|n IH]; intros bytes Hl; [by exists []|]. cbn in Hl |- *.
  destruct (Hread (take size bytes)) as [t ->]; [rewrite length_take; lia|].
  destruct (IH (drop size bytes)) as (ts & -> & Hn); [rewrite length_drop; lia|].
  exists (t :: ts). cbn. by rewrite Hn.
Qed.

(** Structures that lie one after the other, with anything behind them. *)
Lemma structs_at_concat {E T} size (read : str -> res E T) blocks ts junk :
  Forall2 (fun b t => length b = size /\ read b = Ok t) blocks ts ->
  structs_at size read (length ts) (concat blocks ++ junk) = Ok ts.
Proof.
  induction 1 as [|b t blocks ts [Hl Hr] _ IH]; [done|]. cbn [concat length structs_at].
  rewrite <- app_assoc, take_app_length', drop_app_length' by done. by rewrite Hr, IH.
Qed.

(** ** What is written comes back *)

Lemma be_bytes_rev k z : be_bytes k z = rev (le_bytes k z).
Proof. revert z. induction k as [|k IH]; intros z; [done|]. cbn. by rewrite IH. Qed.

Lemma le_bytes_value k z : of_le_bytes (le_bytes k z) = (z mod 256 ^ Z.of_nat k)%Z.
Proof.
  revert z. induction k as [|k IH]; intros z; [by rewrite Z.mod_1_r|].
  cbn [le_bytes of_le_bytes]. rewrite IH, Nat2Z.inj_succ, Z.pow_succ_r by lia.
  rewrite (Z.rem_mul_r z 256) by lia. done.
Qed.

Lemma le_bytes_ok k z :
  length (le_bytes k z) = k /\ Forall (fun b => 0 <= b < 256)%Z (le_bytes k z).
Proof.
  revert z. induction k as [|k IH]; intros z; cbn; [done|]. destruct (IH (z / 256)%Z) as [-> Hb].
  split; [done|]. constructor; [apply Z.mod_pos_bound; lia|done].
Qed.

Lemma to_memory_bytes `{Endian} k z : Forall (fun b => 0 <= b < 256)%Z (to_memory k z).
Proof.
  unfold to_memory. destruct little_endian; [|rewrite be_bytes_rev; apply Forall_rev]; apply le_bytes_ok.
Qed.

Lemma of_memory_to_memory `{Endian} k z :
  (0 <= z < 256 ^ Z.of_nat k)%Z -> of_memory (to_memory k z) = z.
Proof.
  intros Hz. unfold of_memory, to_memory.
  destruct little_endian; [|rewrite be_bytes_rev, rev_involutive];
    by rewrite le_bytes_value, Z.mod_small.
Qed.

Lemma length_to_memory `{Endian} k z : length (to_memory k z) = k.
Proof.
  unfold to_memory. destruct little_endian; [|rewrite be_bytes_rev, length_rev]; apply le_bytes_ok.
Qed.

Lemma code_bytes l : Forall (fun b => 0 <= b < 256)%Z l -> map code (map of_code l) = l.
Proof. induction 1 as [|b l Hb Hl IH]; [done|]. cbn. by rewrite code_of_code, IH by lia. Qed.

Definition uint_bytes (width : nat) (z : Z) : str := map of_code (le_bytes width z).
Definition ulong_bytes : Z -> str := uint_bytes 4.

Lemma length_uint_bytes width z : length (uint_bytes width z) = width.
Proof. unfold uint_bytes. rewrite length_map. apply le_bytes_ok. Qed.

Lemma of_le_code_range s : (0 <= of_le_bytes (map code s) < 256 ^ Z.of_nat (length s))%Z.
Proof.
  induction s as [|c s IH]; [done|]. cbn [map of_le_bytes length].
  rewrite Nat2Z.inj_succ, Z.pow_succ_r by lia.
  assert (Hc : (0 <= code c < 256)%Z) by (unfold code; pose proof (N_ascii_bounded c); lia). lia.
Qed.
Lemma uint_at_range {E} width offset b z :
  uint_at (E := E) width offset b = Ok z -> (0 <= z < 256 ^ Z.of_nat width)%Z.
Proof.
  unfold uint_at. case_bool_decide as Hb; [|done]. intros [= <-].
  pose proof (of_le_code_range (take width (drop offset b))) as Hr.
  rewrite length_take, length_drop in Hr. by replace (width `min` (length b - offset)) with width in Hr by lia.
Qed.

Lemma uint_at_bytes {E} width offset a z b :
  offset = length a -> (0 <= z < 256 ^ Z.of_nat width)%Z ->
  uint_at (E := E) width offset (a ++ uint_bytes width z ++ b) = Ok z.
Proof.
  intros -> Hz. unfold uint_at. rewrite bool_decide_eq_true_2.
  - rewrite drop_app_length, take_app_length'; [|by rewrite length_uint_bytes].
    unfold uint_bytes. rewrite code_bytes by apply le_bytes_ok.
    by rewrite le_bytes_value, Z.mod_small.
  - rewrite !length_app, length_uint_bytes. lia.
Qed.

Lemma ulong_at_bytes {E} offset a z b :
  offset = length a -> (0 <= z < 2 ^ 32)%Z ->
  ulong_at (E := E) offset (a ++ ulong_bytes z ++ b) = Ok z.
Proof. intros Ho Hz. by apply uint_at_bytes. Qed.

Lemma signed_wrap w z :
  (0 < w)%Z -> (- 2 ^ (w - 1) <= z < 2 ^ (w - 1))%Z -> signed w (wrap w z) = z.
Proof.
  intros Hw Hz. assert (H2 : (2 ^ w = 2 * 2 ^ (w - 1))%Z).
  { rewrite <- Z.pow_succ_r by lia. f_equal. lia. }
  unfold signed, wrap. rewrite H2. destruct (decide (0 <= z)%Z) as [Hp|Hn].
  - rewrite Z.mod_small by lia. destruct (Z.ltb_spec z (2 ^ (w - 1))); lia.
  - assert (Hm : (z mod (2 * 2 ^ (w - 1)) = z + 2 * 2 ^ (w - 1))%Z).
    { symmetry. apply (Z.mod_unique _ _ (-1)); lia. }
    rewrite Hm. destruct (Z.ltb_spec (z + 2 * 2 ^ (w - 1)) (2 ^ (w - 1))); lia.
Qed.
