(* ===== verification/CLayout.v ===== *)
(** * How [repr(C)] structures lie in memory

    The structures that the bindings of heim declare are filled in by the
    system: where a field lies follows from its declaration by the rules of C.
    A [ctype] is a declaration; [align_of], [size_of] and [locate] are those
    rules.  Every field is aligned and inside its structure, fields of
    different names do not overlap, so what is written to one field comes back
    from it and from no other. *)

From S2P Require Import Prelude RustStr Layout.

(** An integer or a pointer is aligned to its width; [COpaque] is a type of
    another crate, of which only the size and the alignment are known. *)
Inductive ctype :=
| CInt (width : nat)
| COpaque (size align : nat)
| CArray (t : ctype) (n : nat)
| CStruct (fields : list (string * ctype))
| CUnion (fields : list (string * ctype)).

Definition round_up (n a : nat) : nat := (n + a - 1) / a * a.

Fixpoint align_of (t : ctype) : nat :=
  match t with
  | CInt w => w
  | COpaque _ a => a
  | CArray t _ => align_of t
  | CStruct fs | CUnion fs => foldr max 1 (map (fun f => align_of (snd f)) fs)
  end.

Fixpoint size_of (t : ctype) : nat :=
  match t with
  | CInt w => w
  | COpaque s _ => s
  | CArray t n => n * size_of t
  | CStruct fs =>
      round_up (fold_left (fun pos f => round_up pos (align_of (snd f)) + size_of (snd f)) fs 0)
               (foldr max 1 (map (fun f => align_of (snd f)) fs))
  | CUnion fs =>
      round_up (foldr max 0 (map (fun f => size_of (snd f)) fs))
               (foldr max 1 (map (fun f => align_of (snd f)) fs))
  end.

(** Where a field lies and what it is. *)
Fixpoint field_from (pos : nat) (fs : list (string * ctype)) (name : string) : option (nat * ctype) :=
  match fs with
  | [] => None
  | (n, t) :: fs =>
      let start := round_up pos (align_of t) in
      if String.eqb n name then Some (start, t) else field_from (start + size_of t) fs name
  end.
Definition member (t : ctype) (name : string) : option (nat * ctype) :=
  match t with
  | CStruct fs => field_from 0 fs name
  | CUnion fs => (fun f => (0, snd f)) <$> find (fun f => String.eqb (fst f) name) fs
  | _ => None
  end.
Fixpoint locate (t : ctype) (path : list string) : option (nat * ctype) :=
  match path with
  | [] => Some (0, t)
  | name :: path =>
      '(start, t) ← member t name;
      '(offset, t) ← locate t path;
      Some (start + offset, t)
  end.
Definition offset_of (t : ctype) (path : list string) : option nat := fst <$> locate t path.

(** ** Reading a field

    A path that the declaration does not have would not compile. *)

Definition bytes_at {E} (width offset : nat) (b : str) : res E str :=
  if bool_decide (offset + width <= length b) then Ok (take width (drop offset b)) else Panic.
Definition c_bytes {E} (t : ctype) (path : list string) (b : str) : res E str :=
  match locate t path with Some (offset, f) => bytes_at (size_of f) offset b | None => Panic end.
Definition c_uint {E} (t : ctype) (path : list string) (b : str) : res E Z :=
  match locate t path with Some (offset, CInt w) => uint_at w offset b | _ => Panic end.
Definition c_int {E} (t : ctype) (path : list string) (b : str) : res E Z :=
  match locate t path with
  | Some (offset, CInt w) => signed (8 * Z.of_nat w) <$> uint_at w offset b
  | _ => Panic
  end.

(** ** Alignment *)

Definition pow2 (n : nat) : bool := Nat.eqb n (2 ^ Nat.log2 n).

(** Widths and alignments are powers of two. *)
Fixpoint wf_ctype (t : ctype) : bool :=
  match t with
  | CInt w => pow2 w
  | COpaque s a => pow2 a && Nat.eqb (s mod a) 0
  | CArray t _ => wf_ctype t
  | CStruct fs | CUnion fs => forallb (fun f => wf_ctype (snd f)) fs
  end.

Section ctype_induction.
Context (P : ctype -> Prop).
Hypothesis Hint : forall w, P (CInt w).
Hypothesis Hopaque : forall s a, P (COpaque s a).
Hypothesis Harray : forall t n, P t -> P (CArray t n).
Hypothesis Hstruct : forall fs, Forall (fun f => P (snd f)) fs -> P (CStruct fs).
Hypothesis Hunion : forall fs, Forall (fun f => P (snd f)) fs -> P (CUnion fs).

Fixpoint ctype_induction (t : ctype) : P t :=
  let fix fields (fs : list (string * ctype)) : Forall (fun f => P (snd f)) fs :=
    match fs with
    | [] => Forall_nil_2 _
    | f :: fs => Forall_cons_2 _ _ _ (ctype_induction (snd f)) (fields fs)
    end in
  match t with
  | CInt w => Hint w
  | COpaque s a => Hopaque s a
  | CArray t n => Harray t n (ctype_induction t)
  | CStruct fs => Hstruct fs (fields fs)
  | CUnion fs => Hunion fs (fields fs)
  end.
End ctype_induction.

Lemma pow2_spec n : pow2 n = true -> exists k, n = 2 ^ k.
Proof. intros Hn%Nat.eqb_eq. by eexists. Qed.
Lemma pow2_max a b : pow2 a = true -> pow2 b = true -> pow2 (max a b) = true.
Proof. intros Ha Hb. destruct (Nat.max_spec a b) as [[_ ->]|[_ ->]]; done. Qed.
Lemma pow2_divide a b : pow2 a = true -> pow2 b = true -> a <= b -> (a | b).
Proof.
  intros [i ->]%pow2_spec [j ->]%pow2_spec Hle.
  assert (i <= j) as Hij by (apply (Nat.pow_le_mono_r_iff 2); lia).
  exists (2 ^ (j - i)). rewrite <- Nat.pow_add_r. f_equal. lia.
Qed.
Lemma pow2_pos a : pow2 a = true -> 0 < a.
Proof. intros [k ->]%pow2_spec. apply Nat.neq_0_lt_0, Nat.pow_nonzero. lia. Qed.

Lemma round_up_spec n a : 0 < a -> n <= round_up n a /\ round_up n a < n + a /\ (a | round_up n a).
Proof.
  intros Ha. unfold round_up. pose proof (Nat.div_mod (n + a - 1) a) as Hd.
  pose proof (Nat.mod_upper_bound (n + a - 1) a) as Hm. split_and!; [nia|nia|].
  by exists ((n + a - 1) / a).
Qed.

Lemma fields_align fs : forallb (fun f => wf_ctype (snd f)) fs = true ->
  Forall (fun f : string * ctype => wf_ctype (snd f) = true -> pow2 (align_of (snd f)) = true) fs ->
  pow2 (foldr max 1 (map (fun f => align_of (snd f)) fs)) = true /\
  Forall (fun f : string * ctype => align_of (snd f) <= foldr max 1 (map (fun f => align_of (snd f)) fs)) fs.
Proof.
  induction fs as [|f fs IH]; cbn; [by repeat constructor|].
  intros [Hf Hfs]%andb_true_iff [Hpf Hp]%Forall_cons. destruct (IH Hfs Hp) as [Hm Hle].
  split; [apply pow2_max; auto|]. constructor; [lia|]. eapply Forall_impl; [exact Hle|]. cbn. lia.
Qed.

Lemma wf_align t : wf_ctype t = true -> pow2 (align_of t) = true.
Proof.
  induction t as [w|s a|t n IH|fs IH|fs IH] using ctype_induction; cbn; [done| |done|..].
  - by intros [Ha _]%andb_true_iff.
  - intros Hfs. by apply fields_align.
  - intros Hfs. by apply fields_align.
Qed.
Lemma wf_size_divide t : wf_ctype t = true -> (align_of t | size_of t).
Proof.
  induction t as [w|s a|t n IH|fs IH|fs IH] using ctype_induction; intros Hwf.
  - done.
  - cbn in *. apply andb_true_iff in Hwf as [Ha Hs]. apply Nat.eqb_eq in Hs.
    by apply Nat.Lcm0.mod_divide.
  - cbn in *. apply Nat.divide_mul_r. auto.
  - apply round_up_spec, pow2_pos, (wf_align (CStruct fs) Hwf).
  - apply round_up_spec, pow2_pos, (wf_align (CUnion fs) Hwf).
Qed.

(** ** Where fields lie *)

Definition end_from (pos : nat) (fs : list (string * ctype)) : nat :=
  fold_left (fun pos f => round_up pos (align_of (snd f)) + size_of (snd f)) fs pos.
Definition wf_fields (fs : list (string * ctype)) : Prop := Forall (fun f => wf_ctype (snd f) = true) fs.

Lemma wf_fields_spec fs : forallb (fun f => wf_ctype (snd f)) fs = true <-> wf_fields fs.
Proof. unfold wf_fields. by rewrite forallb_forall, Forall_forall; setoid_rewrite list_elem_of_In. Qed.

Lemma end_from_le pos fs : wf_fields fs -> pos <= end_from pos fs.
Proof.
  intros Hfs. revert pos. induction Hfs as [|f fs Hf Hfs IH]; intros pos; cbn; [lia|].
  pose proof (round_up_spec pos (align_of (snd f)) (pow2_pos _ (wf_align _ Hf))).
  specialize (IH (round_up pos (align_of (snd f)) + size_of (snd f))). unfold end_from in IH. lia.
Qed.

Lemma field_from_inside pos fs name o t : wf_fields fs -> field_from pos fs name = Some (o, t) ->
  (name, t) ∈ fs /\ wf_ctype t = true /\ (align_of t | o) /\ pos <= o /\ o + size_of t <= end_from pos fs.
Proof.
  intros Hfs. revert pos. induction Hfs as [|[n f] fs Hf Hfs IH]; intros pos; cbn; [done|].
  pose proof (round_up_spec pos (align_of f) (pow2_pos _ (wf_align _ Hf))) as (Hle & _ & Hdiv).
  pose proof (end_from_le (round_up pos (align_of f) + size_of f) fs Hfs) as Hend. unfold end_from in Hend.
  destruct (String.eqb_spec n name) as [->|Hne]; [intros [= <- <-]; split_and!; [set_solver|done|done|lia|exact Hend]|].
  intros Hr. destruct (IH _ Hr) as (Hin & Hwf & Ha & Hp & He). unfold end_from in He.
  split_and!; [set_solver|done|done|lia|done].
Qed.
Lemma field_from_disjoint pos fs a b oa ta ob tb : wf_fields fs -> a <> b ->
  field_from pos fs a = Some (oa, ta) -> field_from pos fs b = Some (ob, tb) ->
  oa + size_of ta <= ob \/ ob + size_of tb <= oa.
Proof.
  intros Hfs Hab. revert pos. induction Hfs as [|[n f] fs Hf Hfs IH]; intros pos; cbn; [done|].
  destruct (String.eqb_spec n a) as [->|Ha], (String.eqb_spec a b) as [->|Hb]; try done.
  - intros [= <- <-] Hfb%field_from_inside; [lia|done].
  - destruct (String.eqb_spec n b) as [->|Hnb]; [|by apply IH].
    intros Hfa%field_from_inside [= <- <-]; [lia|done].
Qed.

Lemma foldr_max_le {A} (g : A -> nat) d x (l : list A) : x ∈ l -> g x <= foldr max d (map g l).
Proof. induction 1; cbn; lia. Qed.

Lemma member_inside t name o f : wf_ctype t = true -> member t name = Some (o, f) ->
  wf_ctype f = true /\ (align_of f | o) /\ (align_of f | align_of t) /\ o + size_of f <= size_of t.
Proof.
  intros Hwf. pose proof (wf_align t Hwf) as Ht. destruct t as [w|s a|t n|fs|fs]; try done; cbn [member];
    cbn [wf_ctype] in Hwf; apply wf_fields_spec in Hwf.
  - intros (Hin & Hf & Ha & _ & He)%field_from_inside; [|done]. split_and!; [done|done| |].
    + apply pow2_divide; [by apply wf_align|done|]. cbn [align_of].
      apply (foldr_max_le (fun f => align_of (snd f)) 1 _ _ Hin).
    + etransitivity; [exact He|]. by apply round_up_spec, pow2_pos.
  - intros Hfind. destruct (find _ fs) as [[n f']|] eqn:Hf; [|done]. cbn in Hfind. injection Hfind as <- <-.
    apply find_some in Hf as [Hin%list_elem_of_In _].
    pose proof (proj1 (Forall_forall _ _) Hwf _ Hin) as Hwff. cbn in Hwff. split_and!; [done|by exists 0| |].
    + apply pow2_divide; [by apply wf_align|done|]. apply (foldr_max_le (fun f => align_of (snd f)) 1 _ _ Hin).
    + pose proof (foldr_max_le (fun f => size_of (snd f)) 0 _ _ Hin) as Hle. cbn [snd] in Hle.
      cbn [Nat.add]. etransitivity; [exact Hle|]. by apply round_up_spec, pow2_pos.
Qed.

Lemma locate_cons t name path o f : locate t (name :: path) = Some (o, f) <->
  exists start g off, member t name = Some (start, g) /\ locate g path = Some (off, f) /\ o = start + off.
Proof.
  cbn [locate]. destruct (member t name) as [[start g]|]; cbn [mbind option_bind]; [|naive_solver].
  destruct (locate g path) as [[off f']|] eqn:Hl; cbn [mbind option_bind]; split.
  - intros [= <- <-]. eauto 10.
  - intros (? & ? & ? & [= <- <-] & Hl' & ->). congruence.
  - done.
  - intros (? & ? & ? & [= <- <-] & Hl' & ->). congruence.
Qed.

(** A field is aligned, and inside its structure. *)
Lemma locate_inside t path o f : wf_ctype t = true -> locate t path = Some (o, f) ->
  wf_ctype f = true /\ (align_of f | o) /\ (align_of f | align_of t) /\ o + size_of f <= size_of t.
Proof.
  revert t o. induction path as [|name path IH]; intros t o Hwf; [intros [= <- <-]; by split_and!; [|exists 0| |]|].
  intros (start & g & off & Hm & Hl & ->)%locate_cons.
  destruct (member_inside _ _ _ _ Hwf Hm) as (Hg & Ha & Hat & Hs).
  destruct (IH g off Hg Hl) as (Hf & Ha' & Hat' & Hs'). split_and!; [done| | |lia].
  - apply Nat.divide_add_r; [by etransitivity|done].
  - by etransitivity.
Qed.

(** Two paths part at a structure, not at a union and not where one ends. *)
Fixpoint diverge (t : ctype) (p q : list string) : bool :=
  match p, q with
  | n :: p, m :: q =>
      if String.eqb n m then
        match member t n with Some (_, f) => diverge f p q | None => false end
      else match t with CStruct _ => true | _ => false end
  | _, _ => false
  end.
Lemma locate_disjoint t p q op fp oq fq : wf_ctype t = true -> diverge t p q = true ->
  locate t p = Some (op, fp) -> locate t q = Some (oq, fq) ->
  op + size_of fp <= oq \/ oq + size_of fq <= op.
Proof.
  revert q t op oq. induction p as [|n p IH]; intros [|m q] t op oq Hwf Hd; try done.
  intros (sp & gp & offp & Hmp & Hlp & ->)%locate_cons (sq & gq & offq & Hmq & Hlq & ->)%locate_cons.
  destruct (member_inside _ _ _ _ Hwf Hmp) as (Hgp & _), (member_inside _ _ _ _ Hwf Hmq) as (Hgq & _).
  destruct (locate_inside _ _ _ _ Hgp Hlp) as (_ & _ & _ & Hp), (locate_inside _ _ _ _ Hgq Hlq) as (_ & _ & _ & Hq).
  cbn in Hd. destruct (String.eqb_spec n m) as [->|Hnm].
  - rewrite Hmp in Hmq, Hd. injection Hmq as <- <-. destruct (IH q gp offp offq Hgp Hd Hlp Hlq); lia.
  - destruct t as [| | |fs|]; try done. cbn in Hwf, Hmp, Hmq. apply wf_fields_spec in Hwf.
    destruct (field_from_disjoint 0 fs n m sp gp sq gq); [done..|lia|lia].
Qed.

(** A block that is long enough has every field. *)
Lemma c_bytes_long {E} t path o f b : wf_ctype t = true -> locate t path = Some (o, f) -> size_of t <= length b ->
  exists s, c_bytes (E := E) t path b = Ok s.
Proof.
  intros Hwf Hl Hb. destruct (locate_inside _ _ _ _ Hwf Hl) as (_ & _ & _ & Hin).
  unfold c_bytes, bytes_at. rewrite Hl, bool_decide_eq_true_2 by lia. by eexists.
Qed.

(** ** Writing a field *)

Definition write_at (offset : nat) (s b : str) : str := take offset b ++ s ++ drop (offset + length s) b.
Definition c_store (t : ctype) (path : list string) (s b : str) : str :=
  match locate t path with Some (offset, _) => write_at offset s b | None => b end.

Lemma length_write_at offset s b : offset + length s <= length b -> length (write_at offset s b) = length b.
Proof. intros Hl. unfold write_at. rewrite !length_app, length_take, length_drop. lia. Qed.

Lemma bytes_at_write {E} offset s b : offset + length s <= length b ->
  bytes_at (E := E) (length s) offset (write_at offset s b) = Ok s.
Proof.
  intros Hl. unfold bytes_at. rewrite length_write_at, bool_decide_eq_true_2 by done. unfold write_at.
  by rewrite drop_app_length', take_app_length by (rewrite length_take; lia).
Qed.
Lemma bytes_at_write_other {E} n o offset s b : offset + length s <= length b ->
  o + n <= offset \/ offset + length s <= o ->
  bytes_at (E := E) n o (write_at offset s b) = bytes_at n o b.
Proof.
  intros Hl Ho. unfold bytes_at. rewrite length_write_at by done.
  destruct (decide (o + n <= length b)) as [Hn|Hn]; [|by rewrite !bool_decide_eq_false_2].
  rewrite !bool_decide_eq_true_2 by done. f_equal. apply list_eq. intros i. unfold write_at.
  destruct (decide (i < n)) as [Hi|Hi]; [|rewrite !lookup_take_ge by lia; done].
  rewrite !lookup_take_lt, !lookup_drop by done. destruct Ho as [Ho|Ho].
  - rewrite lookup_app_l by (rewrite length_take; lia). by rewrite lookup_take_lt by lia.
  - rewrite lookup_app_r by (rewrite length_take; lia).
    rewrite lookup_app_r by (rewrite length_take; lia). rewrite lookup_drop, length_take. f_equal. lia.
Qed.

Lemma uint_at_bytes_at {E} w o b :
  uint_at (E := E) w o b = (fun s => of_le_bytes (map code s)) <$> bytes_at w o b.
Proof. unfold uint_at, bytes_at. by case_match. Qed.

Section fields.
Context (t : ctype) (Hwf : wf_ctype t = true).

Lemma length_c_store path o f s b : locate t path = Some (o, f) -> length s = size_of f ->
  length b = size_of t -> length (c_store t path s b) = size_of t.
Proof.
  intros Hl Hs Hb. unfold c_store. rewrite Hl. rewrite length_write_at; [done|].
  destruct (locate_inside _ _ _ _ Hwf Hl) as (_ & _ & _ & Hin). lia.
Qed.

(** What is stored in a field is read from it, and no other field changes. *)
Lemma c_bytes_store {E} path o f s b : locate t path = Some (o, f) -> length s = size_of f ->
  length b = size_of t -> c_bytes (E := E) t path (c_store t path s b) = Ok s.
Proof.
  intros Hl Hs Hb. unfold c_bytes, c_store. rewrite Hl, <- Hs. apply bytes_at_write.
  destruct (locate_inside _ _ _ _ Hwf Hl) as (_ & _ & _ & Hin). lia.
Qed.
Lemma c_bytes_store_other {E} p q op fp s b : locate t q = Some (op, fp) -> length s = size_of fp ->
  length b = size_of t -> diverge t p q = true ->
  c_bytes (E := E) t p (c_store t q s b) = c_bytes t p b.
Proof.
  intros Hq Hs Hb Hd. unfold c_bytes. destruct (locate t p) as [[o f]|] eqn:Hp; [|done].
  unfold c_store. rewrite Hq. destruct (locate_inside _ _ _ _ Hwf Hq) as (_ & _ & _ & Hin).
  apply bytes_at_write_other; [lia|]. pose proof (locate_disjoint _ _ _ _ _ _ _ Hwf Hd Hp Hq). lia.
Qed.

(** Several fields, over whatever was there. *)
Definition c_memory (fields : list (list string * str)) (b : str) : str :=
  foldr (fun f b => c_store t (fst f) (snd f) b) b fields.
Definition fits (f : list string * str) : Prop :=
  exists o u, locate t (fst f) = Some (o, u) /\ length (snd f) = size_of u.
Definition apart (f g : list string * str) : Prop := diverge t (fst f) (fst g) = true.

Lemma diverge_sym u p q : diverge u p q = diverge u q p.
Proof.
  revert u q. induction p as [|n p IH]; intros u [|m q]; try done. cbn. rewrite (String.eqb_sym m n).
  destruct (String.eqb_spec n m) as [->|_]; [|done]. destruct (member u m) as [[? ?]|]; [apply IH|done].
Qed.

Lemma length_c_memory fields b : Forall fits fields -> length b = size_of t ->
  length (c_memory fields b) = size_of t.
Proof.
  induction 1 as [|[p s] fields (o & u & Hl & Hs) Hf IH]; intros Hb; [done|]. cbn in *.
  eapply length_c_store; eauto.
Qed.
Lemma c_bytes_memory {E} fields b p s : Forall fits fields -> ForallOrdPairs apart fields ->
  length b = size_of t -> (p, s) ∈ fields -> c_bytes (E := E) t p (c_memory fields b) = Ok s.
Proof.
  intros Hf Ha Hb. induction Ha as [|[q r] fields Hq Ha IH]; [by intros ?%elem_of_nil|].
  apply Forall_cons in Hf as [(o & u & Hl & Hs) Hf]. cbn in Hl, Hs |- *.
  pose proof (length_c_memory fields b Hf Hb) as Hlen.
  intros [[= -> ->]|Hin]%elem_of_cons; [by eapply c_bytes_store|].
  rewrite <- (IH Hf Hin). eapply c_bytes_store_other; [done..|]. rewrite diverge_sym.
  rewrite Forall_forall in Hq. apply (Hq _ Hin).
Qed.

(** An integer is its bytes. *)
Lemma c_uint_bytes {E} path o w b : locate t path = Some (o, CInt w) ->
  c_uint (E := E) t path b = (fun s => of_le_bytes (map code s)) <$> c_bytes t path b.
Proof. intros Hl. unfold c_uint, c_bytes. rewrite Hl. apply uint_at_bytes_at. Qed.
Lemma c_int_bytes {E} path o w b : locate t path = Some (o, CInt w) ->
  c_int (E := E) t path b = (fun s => signed (8 * Z.of_nat w) (of_le_bytes (map code s))) <$> c_bytes t path b.
Proof.
  intros Hl. unfold c_int, c_bytes. rewrite Hl, uint_at_bytes_at. by destruct (bytes_at _ _ _).
Qed.
End fields.

Lemma uint_bytes_value w z : of_le_bytes (map code (uint_bytes w z)) = (z mod 256 ^ Z.of_nat w)%Z.
Proof. unfold uint_bytes. rewrite code_bytes by apply le_bytes_ok. apply le_bytes_value. Qed.
Lemma int_bytes_value w z : 0 < w -> (- 2 ^ (8 * Z.of_nat w - 1) <= z < 2 ^ (8 * Z.of_nat w - 1))%Z ->
  signed (8 * Z.of_nat w) (of_le_bytes (map code (uint_bytes w z))) = z.
Proof.
  intros Hw Hz. rewrite uint_bytes_value. replace (256 ^ Z.of_nat w)%Z with (2 ^ (8 * Z.of_nat w))%Z
    by (rewrite Z.pow_mul_r by lia; done).
  apply signed_wrap; [lia|done].
Qed.
