(* ===== verification/RustFloat.v ===== *)
(** * [f64] and [f32]: IEEE binary64 and binary32 on [SpecFloat]

    Arithmetic rounds to nearest, ties to even, as Rust's does; [as f64] and
    [as f32] are the integer and float casts, [parse_f64] and [parse_f32] are
    [FromStr]: the decimal text is read exactly and rounded once. *)

From S2P Require Import Prelude RustStr.
From Stdlib Require Import SpecFloat.

Abbreviation float := spec_float (only parsing).

Section format.
Variables prec emax : Z.

Definition f_of_int (z : Z) : float := binary_normalize prec emax z 0 false.
Definition f_add : float -> float -> float := SFadd prec emax.
Definition f_sub : float -> float -> float := SFsub prec emax.
Definition f_mul : float -> float -> float := SFmul prec emax.
Definition f_div : float -> float -> float := SFdiv prec emax.

(** The float nearest to [m * 10 ^ e]. *)
Definition f_of_decimal (neg : bool) (m e : Z) : float :=
  match m with
  | Zpos p =>
      if (0 <=? e)%Z then
        binary_round prec emax neg (Pos.mul p (Z.to_pos (10 ^ e))) 0
      else
        let '(q, eq, l) := SFdiv_core_binary prec emax (Zpos p) 0 (10 ^ (- e)) 0 in
        binary_round_aux prec emax neg q eq l
  | _ => S754_zero neg
  end.

(** [mul_add]: the product and the sum are exact, then rounded once. *)
Definition f_fma (x y z : float) : float :=
  match x, y, z with
  | S754_finite sx mx ex, S754_finite sy my ey, S754_finite sz mz ez =>
      let e := Z.min (ex + ey) ez in
      binary_normalize prec emax
        (cond_Zopp (xorb sx sy) (Zpos (mx * my) * 2 ^ (ex + ey - e))
         + cond_Zopp sz (Zpos mz * 2 ^ (ez - e)))%Z e false
  | S754_finite _ _ _, S754_finite _ _ _, S754_zero _ => SFmul prec emax x y
  | S754_finite _ _ _, S754_finite _ _ _, _ => z
  | _, _, _ => SFadd prec emax (SFmul prec emax x y) z
  end.

Definition f_cast (x : float) : float :=
  match x with
  | S754_finite s m e => binary_round prec emax s m e
  | _ => x
  end.
End format.

Definition is_nan (x : float) : bool := match x with S754_nan => true | _ => false end.

(** [core::num::dec2flt::FloatErrorKind]. *)
Inductive float_error := FloatEmpty | FloatInvalid.
#[export] Instance float_error_dec : EqDecision float_error.
Proof. solve_decision. Defined.

(** The leading decimal digits: their value after [acc], how many, the rest. *)
Fixpoint take_digits (acc : Z) (n : nat) (s : str) : Z * nat * str :=
  match s with
  | [] => (acc, n, [])
  | c :: s' => match digit_of c with
               | Some d => take_digits (acc * 10 + d) (S n) s'
               | None => (acc, n, s)
               end
  end.

(** Digits, and after a point more digits, one digit at least: the mantissa,
    the exponent and the rest of the text. *)
Definition take_decimal (s : str) : option (Z * Z * str) :=
  let '(m, n, s1) := take_digits 0 0 s in
  let '(m', n', s2) :=
    match s1 with
    | c :: s1' => if decide (c = "."%char) then take_digits m 0 s1' else (m, 0, s1)
    | [] => (m, 0, s1)
    end in
  if decide (n + n' = 0) then None else Some (m', (- Z.of_nat n')%Z, s2).

(** An optional exponent ([e] or [E], a sign, digits) up to the end. *)
Definition take_exponent (s : str) : option Z :=
  match s with
  | [] => Some 0%Z
  | c :: s1 =>
      if decide (c = "e"%char \/ c = "E"%char) then
        let '(sg, s2) :=
          match s1 with
          | d :: s1' => if decide (d = PLUS) then (1%Z, s1')
                        else if decide (d = MINUS) then ((-1)%Z, s1') else (1%Z, s1)
          | [] => (1%Z, s1)
          end in
        match take_digits 0 0 s2 with
        | (e, S _, []) => Some (sg * e)%Z
        | _ => None
        end
      else None
  end.

Definition parse_float (prec emax : Z) (s : str) : res float_error float :=
  match s with
  | [] => Err FloatEmpty
  | c :: s' =>
      let '(neg, t) := if decide (c = MINUS) then (true, s')
                       else if decide (c = PLUS) then (false, s') else (false, s) in
      if eq_ignore_ascii_case t (lit "nan") then Ok S754_nan
      else if eq_ignore_ascii_case t (lit "inf") || eq_ignore_ascii_case t (lit "infinity")
      then Ok (S754_infinity neg)
      else match take_decimal t with
           | Some (m, e, t') =>
               match take_exponent t' with
               | Some e' => Ok (f_of_decimal prec emax neg m (e + e'))
               | None => Err FloatInvalid
               end
           | None => Err FloatInvalid
           end
  end.

(** ** The two formats *)

Definition f64_of_int : Z -> float := f_of_int 53 1024.
Definition f64_add : float -> float -> float := f_add 53 1024.
Definition f64_sub : float -> float -> float := f_sub 53 1024.
Definition f64_mul : float -> float -> float := f_mul 53 1024.
Definition f64_div : float -> float -> float := f_div 53 1024.
Definition f64_mul_add : float -> float -> float -> float := f_fma 53 1024.
Definition parse_f64 : str -> res float_error float := parse_float 53 1024.
Definition f64_zero : float := S754_zero false.

Definition f32_of_int : Z -> float := f_of_int 24 128.
Definition f32_add : float -> float -> float := f_add 24 128.
Definition f32_div : float -> float -> float := f_div 24 128.
Definition f32_of_f64 : float -> float := f_cast 24 128.
Definition parse_f32 : str -> res float_error float := parse_float 24 128.

Example parse_f64_0 : parse_f64 (lit "123.5") = Ok (f64_div (f64_of_int 247) (f64_of_int 2)).
Proof. vm_compute. reflexivity. Qed.
Example parse_f64_1 : parse_f64 (lit "-1e-1") = Ok (f64_div (f64_of_int (-1)) (f64_of_int 10)).
Proof. vm_compute. reflexivity. Qed.
Example parse_f64_2 : parse_f64 (lit "1.2.3") = Err FloatInvalid.
Proof. vm_compute. reflexivity. Qed.

(** ** Reading back an integer as a float *)

Lemma take_digits_up max acc n s v :
  digits_up max acc s = Ok v -> take_digits acc n s = (v, n + length s, []).
Proof.
  revert acc n. induction s as [|c s IH]; intros acc n; cbn.
  - intros [= <-]. by rewrite Nat.add_0_r.
  - destruct (digit_of c) as [d|]; [|done]. case_match; [|done].
    intros ->%(IH _ (S n)). by rewrite Nat.add_succ_r.
Qed.

Lemma digit_not_letter t : Forall (fun c => 48 <= code c < 58)%Z t -> t <> [] ->
  eq_ignore_ascii_case t (lit "nan") = false
  /\ eq_ignore_ascii_case t (lit "inf") = false
  /\ eq_ignore_ascii_case t (lit "infinity") = false.
Proof.
  intros Ht Hne. destruct t as [|c t]; [done|]. inv Ht.
  assert (Hlow : to_ascii_lowercase c = c).
  { unfold to_ascii_lowercase. by replace (65 <=? code c)%Z with false by lia. }
  unfold eq_ignore_ascii_case. cbn [map]. rewrite Hlow.
  repeat split; apply bool_decide_eq_false_2; intros [= -> _];
    match goal with H : (_ <= code ?x < _)%Z |- _ => vm_compute in H; destruct H end; congruence.
Qed.

Lemma parse_float_show prec emax z :
  (0 <= z)%Z -> parse_float prec emax (show_int z) = Ok (f_of_int prec emax z).
Proof.
  intros Hz. unfold show_int. replace (z <? 0)%Z with false by lia.
  pose proof (show_nonneg_digits z Hz) as Hd. pose proof (show_nonneg_ne z) as Hne.
  pose proof (take_digits_up z 0 0 _ _ (digits_up_show z z ltac:(lia))) as Htd.
  destruct (digit_not_letter _ Hd Hne) as (Hn & Hi & Hi2).
  unfold parse_float. destruct (show_nonneg z) as [|c t] eqn:Hs; [done|].
  assert (48 <= code c < 58)%Z by (by inv Hd).
  rewrite !decide_False; cycle 1.
  { intros ->. change (code PLUS) with 43%Z in *. lia. }
  { intros ->. change (code MINUS) with 45%Z in *. lia. }
  rewrite Hn, Hi, Hi2. cbn [orb]. unfold take_decimal. rewrite Htd. cbn [take_digits].
  rewrite decide_False by (cbn; lia). cbn [take_exponent].
  unfold f_of_decimal, f_of_int, binary_normalize. destruct z; [done| |lia].
  cbn. by rewrite Pos.mul_1_r.
Qed.

Lemma parse_f64_show z : (0 <= z)%Z -> parse_f64 (show_int z) = Ok (f64_of_int z).
Proof. apply parse_float_show. Qed.

Lemma parse_float_not_panic prec emax s : parse_float prec emax s <> Panic.
Proof.
  unfold parse_float. destruct s as [|c s]; [done|].
  destruct (if decide (c = MINUS) then _ else _) as [neg t]. repeat case_match; done.
Qed.

(** ** Rounding never makes a NaN, and small integers are exact *)

Section rounding.
Local Open Scope Z_scope.

Lemma shr_1_nonneg r : 0 <= shr_m r -> 0 <= shr_m (shr_1 r).
Proof. destruct r as [[|[p|p|]|p] r s]; cbn; lia. Qed.

Lemma iter_pos_nonneg p r : 0 <= shr_m r -> 0 <= shr_m (iter_pos shr_1 p r).
Proof.
  revert r. induction p as [p IH|p IH|]; intros r Hr; cbn; auto using shr_1_nonneg.
Qed.

Lemma shr_fexp_nonneg prec emax m e l : 0 <= m -> 0 <= shr_m (fst (shr_fexp prec emax m e l)).
Proof.
  intros Hm. assert (0 <= shr_m (shr_record_of_loc m l)) by (by destruct l as [|[]]).
  unfold shr_fexp, shr. case_match; cbn; auto using iter_pos_nonneg.
Qed.

Lemma round_nearest_even_nonneg m l : 0 <= m -> 0 <= round_nearest_even m l.
Proof. intros Hm. destruct l as [|[]]; cbn; try case_match; lia. Qed.

Lemma binary_round_aux_not_nan prec emax sx m e l :
  0 <= m -> is_nan (binary_round_aux prec emax sx m e l) = false.
Proof.
  intros Hm. unfold binary_round_aux.
  pose proof (shr_fexp_nonneg prec emax m e l Hm) as H1.
  destruct (shr_fexp prec emax m e l) as [r e1]. cbn in H1.
  pose proof (shr_fexp_nonneg prec emax _ e1 loc_Exact
                (round_nearest_even_nonneg _ (loc_of_shr_record r) H1)) as H2.
  destruct (shr_fexp prec emax _ e1 loc_Exact) as [r2 e2]. cbn in H2.
  destruct (shr_m r2); [done| |lia]. by case_match.
Qed.

Lemma f_of_int_not_nan prec emax z : is_nan (f_of_int prec emax z) = false.
Proof.
  unfold f_of_int, binary_normalize, binary_round.
  destruct z; [done| |]; destruct (shl_align _ _ _); by apply binary_round_aux_not_nan.
Qed.

Definition is_finite_nonzero (x : float) : bool :=
  match x with S754_finite _ _ _ => true | _ => false end.

Lemma SFdiv_core_nonneg prec emax m1 e1 m2 e2 :
  0 <= m1 -> 0 < m2 -> 0 <= fst (fst (SFdiv_core_binary prec emax m1 e1 m2 e2)).
Proof.
  intros H1 H2. unfold SFdiv_core_binary.
  match goal with |- context [Z.div_eucl ?a ?b] =>
    assert (Ha : 0 <= a) by (case_match; [lia|by apply Z.shiftl_nonneg|lia]);
    pose proof (Z_div_pos a b ltac:(lia) Ha) as Hq; unfold Z.div in Hq
  end.
  destruct (Z.div_eucl _ _). done.
Qed.

(** A quotient of an integer by a number that is neither zero nor infinite
    is a number. *)
Lemma f_div_int_not_nan prec emax z y :
  is_finite_nonzero y = true -> is_nan (f_div prec emax (f_of_int prec emax z) y) = false.
Proof.
  intros Hy. pose proof (f_of_int_not_nan prec emax z) as Hz. unfold f_div.
  destruct y as [| | |sy my ey]; try done. destruct (f_of_int prec emax z) as [| | |sx mx ex]; try done.
  cbn. pose proof (SFdiv_core_nonneg prec emax (Zpos mx) ex (Zpos my) ey ltac:(lia) ltac:(lia)) as Hq.
  destruct (SFdiv_core_binary _ _ _ _ _ _) as [[q e] l]. by apply binary_round_aux_not_nan.
Qed.

Lemma digits2_bounds p :
  2 ^ (Zpos (digits2_pos p) - 1) <= Zpos p < 2 ^ Zpos (digits2_pos p).
Proof.
  induction p as [p IH|p IH|]; cbn [digits2_pos]; [| |cbn; lia];
    rewrite Pos2Z.inj_succ; unfold Z.succ;
    rewrite Z.pow_add_r, Z.add_simpl_r by lia;
    rewrite Z.pow_sub_r in IH by lia; change (2 ^ 1) with 2 in *;
    pose proof (Z.div_mod (2 ^ Zpos (digits2_pos p)) 2 ltac:(lia)) as Hd;
    assert (Hm : 2 ^ Zpos (digits2_pos p) mod 2 = 0)
      by (replace (Zpos (digits2_pos p)) with (Z.succ (Zpos (digits2_pos p) - 1)) by lia;
          rewrite Z.pow_succ_r by lia; rewrite Z.mul_comm; apply Z.mod_mul; lia);
    lia.
Qed.

Lemma digits2_shift p d : Zpos (digits2_pos (Pos.iter xO p d)) = Zpos (digits2_pos p) + Zpos d.
Proof.
  induction d as [|d IH] using Pos.peano_ind; [cbn; lia|].
  rewrite Pos.iter_succ. cbn [digits2_pos]. lia.
Qed.

Lemma shift_value p d : Zpos (Pos.iter xO p d) = Zpos p * 2 ^ Zpos d.
Proof.
  induction d as [|d IH] using Pos.peano_ind; [cbn; lia|].
  rewrite Pos.iter_succ, Pos2Z.inj_succ, Z.pow_succ_r by lia. lia.
Qed.

(** Nothing is shifted out of a mantissa of [prec] digits. *)
Lemma binary_round_aux_exact prec emax sx m e :
  fexp prec emax (Zpos (digits2_pos m) + e) = e -> e <= emax - prec ->
  binary_round_aux prec emax sx (Zpos m) e loc_Exact = S754_finite sx m e.
Proof.
  intros Hf He. unfold binary_round_aux, shr_fexp. cbn [Zdigits2 shr_record_of_loc].
  rewrite Hf, Z.sub_diag. cbn [shr shr_m loc_of_shr_record round_nearest_even Zdigits2].
  rewrite Hf, Z.sub_diag. cbn. by replace (e <=? emax - prec) with true by lia.
Qed.

Lemma f64_of_int_exact p :
  Zpos p < 2 ^ 53 ->
  exists m k, f64_of_int (Zpos p) = S754_finite false m (- k) /\ 0 <= k /\ Zpos m = Zpos p * 2 ^ k.
Proof.
  intros Hp. pose proof (digits2_bounds p) as Hd.
  assert (Hle : Zpos (digits2_pos p) <= 53).
  { destruct (Z.le_gt_cases (Zpos (digits2_pos p)) 53) as [|Hgt]; [done|].
    pose proof (Z.pow_le_mono_r 2 53 (Zpos (digits2_pos p) - 1) ltac:(lia) ltac:(lia)). lia. }
  unfold f64_of_int, f_of_int, binary_normalize, binary_round.
  assert (Hfe : fexp 53 1024 (Zpos (digits2_pos p) + 0) = Zpos (digits2_pos p) - 53)
    by (unfold fexp, emin; lia).
  rewrite Hfe. unfold shl_align. rewrite Z.sub_0_r.
  destruct (Zpos (digits2_pos p) - 53) as [|d|d] eqn:Hs; [|lia|].
  - exists p, 0. rewrite binary_round_aux_exact; [split; [done|lia]|unfold fexp, emin; lia|lia].
  - exists (Pos.iter xO p d), (Zpos d). split; [|rewrite shift_value; lia].
    apply binary_round_aux_exact; [|lia].
    unfold fexp, emin. rewrite digits2_shift. lia.
Qed.

Lemma f64_of_int_finite z : 0 < z < 2 ^ 53 -> is_finite_nonzero (f64_of_int z) = true.
Proof.
  intros Hz. destruct z as [|p|p]; [lia| |lia].
  destruct (f64_of_int_exact p) as (m & k & -> & _); [lia|done].
Qed.
End rounding.

(** ** The equality of floats

    Both are zeros, or they are the same number. *)
Definition is_zero (x : float) : bool := match x with S754_zero _ => true | _ => false end.
Lemma sfeqb_cases a b : SFeqb a b = true <->
  is_zero a = true /\ is_zero b = true \/ a = b /\ is_nan a = false.
Proof.
  destruct a as [|[]| |[] m e], b as [|[]| |[] m' e']; cbn; unfold SFeqb; cbn;
    try (split; [intros; first [discriminate | tauto]|intros [[]|[]]; congruence]).
  all: destruct (Z.compare_spec e e'); try (split; [discriminate|intros [[]|[? ?]]; [congruence|]; simplify_eq; lia]).
  all: subst; change (PosDef.Pos.compare_cont Eq m m') with (m ?= m')%positive;
    destruct (Pos.compare_spec m m') as [->| |]; cbn;
    first [by split; [right|]
          |split; [discriminate|intros [[]|[? ?]]; [congruence|]; simplify_eq; lia]].
Qed.
Lemma sfeqb_refl a : is_nan a = false -> SFeqb a a = true.
Proof. intros Ha. apply sfeqb_cases. by right. Qed.
Lemma sfeqb_sym a b : SFeqb a b = true -> SFeqb b a = true.
Proof. rewrite !sfeqb_cases. intros [[]|[-> ]]; tauto. Qed.
Lemma sfeqb_trans a b c : SFeqb a b = true -> SFeqb b c = true -> SFeqb a c = true.
Proof. rewrite !sfeqb_cases. intros [[]|[-> ]] [[]|[<- ]]; tauto. Qed.

(** [Duration::as_secs_f64], from the nanoseconds, and [x != 0.0]. *)
Definition as_secs_f64 (ns : Z) : float :=
  f64_add (f64_of_int (ns / 1000000000)) (f64_div (f64_of_int (ns mod 1000000000)) (f64_of_int 1000000000)).
Definition f64_nonzero (x : float) : bool := negb (SFeqb x f64_zero).
