(* ===== verification/Units.v ===== *)
(** * Measurement units

    [heim_common::units] re-exports quantities of the [uom] crate.  A quantity
    is its value in the base unit (seconds for the [f64] type [Time], bytes
    for the [u64] type [Information], hertz for [Frequency], kelvin for the
    [f32] temperature, the number itself for [Ratio]).  The constructors are
    [uom]'s, parameters here; [UnitsLaws] states their documented values:
    the SI prefix [kilo] is a factor 1000. *)

From S2P Require Import Prelude RustStr RustFloat.

Abbreviation Time := float (only parsing).
Abbreviation Information := Z (only parsing).
Abbreviation Frequency := Z (only parsing).
Abbreviation Ratio := float (only parsing).
Abbreviation ThermodynamicTemperature := float (only parsing).

Class Units := {
  time_second : float -> Time;
  time_millisecond : float -> Time;
  time_microsecond : float -> Time;
  time_nanosecond : float -> Time;
  time_get_second : Time -> float;
  information_byte : Z -> Information;
  information_get_byte : Information -> Z;
  information_kilobyte : Z -> Information;
  frequency_hertz : Z -> Frequency;
  frequency_kilohertz : Z -> Frequency;
  frequency_megahertz : Z -> Frequency;
  ratio_ratio : float -> Ratio;
  degree_celsius : float -> ThermodynamicTemperature;
}.

Class UnitsLaws `{Units} : Prop := {
  time_second_id v : time_second v = v;
  time_get_second_id v : time_get_second v = v;
  information_byte_id v : (0 <= v < 2 ^ 64)%Z -> information_byte v = v;
  information_get_byte_id v : (0 <= v < 2 ^ 64)%Z -> information_get_byte v = v;
  information_kilobyte_1000 v :
    (0 <= 1000 * v < 2 ^ 64)%Z -> information_kilobyte v = (1000 * v)%Z;
  frequency_kilohertz_1000 v :
    (0 <= 1000 * v < 2 ^ 64)%Z -> frequency_kilohertz v = (1000 * v)%Z;
  ratio_ratio_id v : ratio_ratio v = v;
}.

(** The constructors as exact arithmetic: an instance for the witnesses. *)
Definition si_units : Units := {|
  time_second v := v;
  time_millisecond v := f64_div v (f64_of_int 1000);
  time_microsecond v := f64_div v (f64_of_int 1000000);
  time_nanosecond v := f64_div v (f64_of_int 1000000000);
  time_get_second v := v;
  information_byte v := v;
  information_get_byte v := v;
  information_kilobyte v := (1000 * v)%Z;
  frequency_hertz v := v;
  frequency_kilohertz v := (1000 * v)%Z;
  frequency_megahertz v := (1000000 * v)%Z;
  ratio_ratio v := v;
  degree_celsius v := f32_add v (f32_div (f32_of_int 27315) (f32_of_int 100));
|}.

Lemma si_units_laws : @UnitsLaws si_units.
Proof. by split. Qed.

#[export] Hint Resolve information_byte_id information_kilobyte_1000 : heim.
