(* ===== verification/Errors.v ===== *)
(** * Errors: heim-common/src/errors.rs and heim-process/src/errors.rs

    [io_error] is [std::io::Error]: an OS code, a bare kind, or a kind with a
    payload.  [Error] and [Context] are heim's; the optional [backtrace] field
    (a cargo feature, off by default) is not part of the model. *)

From S2P Require Import Prelude RustStr RustFloat.

(** ** [std::io] *)

Inductive error_kind :=
| NotFound | PermissionDenied | ConnectionRefused | ConnectionReset | ConnectionAborted
| NotConnected | AddrInUse | AddrNotAvailable | BrokenPipe | AlreadyExists | WouldBlock
| InvalidInput | InvalidData | TimedOut | WriteZero | Interrupted | UnexpectedEof | Other.
#[export] Instance error_kind_dec : EqDecision error_kind.
Proof. solve_decision. Defined.

(** What [io::Error::new] is given in heim. *)
Inductive payload :=
| PNul (position : nat)
| PParseInt (e : int_error)
| PParseFloat (e : float_error)
| PNix (text : str)
| PText (text : str).

Inductive io_error :=
| Os (code : Z)
| Simple (k : error_kind)
| Custom (k : error_kind) (p : payload).

Module errno.
Definition EPERM : Z := 1.
Definition ENOENT : Z := 2.
Definition ESRCH : Z := 3.
Definition EINTR : Z := 4.
Definition EAGAIN : Z := 11.
Definition EACCES : Z := 13.
Definition EEXIST : Z := 17.
Definition ENOMEM : Z := 12.
Definition EINVAL : Z := 22.
Definition EPIPE : Z := 32.
Definition EADDRINUSE : Z := 98.
Definition EADDRNOTAVAIL : Z := 99.
Definition ECONNABORTED : Z := 103.
Definition ECONNRESET : Z := 104.
Definition ENOTCONN : Z := 107.
Definition ETIMEDOUT : Z := 110.
Definition ECONNREFUSED : Z := 111.
End errno.

(** [decode_error_kind] of [std] on Linux. *)
Definition decode_error_kind (c : Z) : error_kind :=
  if (c =? errno.ECONNREFUSED)%Z then ConnectionRefused
  else if (c =? errno.ECONNRESET)%Z then ConnectionReset
  else if ((c =? errno.EPERM) || (c =? errno.EACCES))%Z then PermissionDenied
  else if (c =? errno.EPIPE)%Z then BrokenPipe
  else if (c =? errno.ENOTCONN)%Z then NotConnected
  else if (c =? errno.ECONNABORTED)%Z then ConnectionAborted
  else if (c =? errno.EADDRNOTAVAIL)%Z then AddrNotAvailable
  else if (c =? errno.EADDRINUSE)%Z then AddrInUse
  else if (c =? errno.ENOENT)%Z then NotFound
  else if (c =? errno.EINTR)%Z then Interrupted
  else if (c =? errno.EINVAL)%Z then InvalidInput
  else if (c =? errno.ETIMEDOUT)%Z then TimedOut
  else if (c =? errno.EEXIST)%Z then AlreadyExists
  else if (c =? errno.EAGAIN)%Z then WouldBlock
  else Other.

Definition io_kind (e : io_error) : error_kind :=
  match e with
  | Os c => decode_error_kind c
  | Simple k => k
  | Custom k _ => k
  end.

Definition io_raw_os_error (e : io_error) : option Z :=
  match e with Os c => Some c | _ => None end.

(** The texts the C library and the Unicode tables of [std] provide. *)
Class Fmt := {
  strerror : Z -> str;
  debug_path : str -> str;
}.

Definition kind_str (k : error_kind) : str :=
  match k with
  | NotFound => lit "entity not found"
  | PermissionDenied => lit "permission denied"
  | ConnectionRefused => lit "connection refused"
  | ConnectionReset => lit "connection reset"
  | ConnectionAborted => lit "connection aborted"
  | NotConnected => lit "not connected"
  | AddrInUse => lit "address in use"
  | AddrNotAvailable => lit "address not available"
  | BrokenPipe => lit "broken pipe"
  | AlreadyExists => lit "entity already exists"
  | WouldBlock => lit "operation would block"
  | InvalidInput => lit "invalid input parameter"
  | InvalidData => lit "invalid data"
  | TimedOut => lit "timed out"
  | WriteZero => lit "write zero"
  | Interrupted => lit "operation interrupted"
  | UnexpectedEof => lit "unexpected end of file"
  | Other => lit "other os error"
  end.

Definition payload_str (p : payload) : str :=
  match p with
  | PNul n => lit "nul byte found in provided data at position: " ++ show_int (Z.of_nat n)
  | PParseInt IntEmpty => lit "cannot parse integer from empty string"
  | PParseInt InvalidDigit => lit "invalid digit found in string"
  | PParseInt PosOverflow => lit "number too large to fit in target type"
  | PParseInt NegOverflow => lit "number too small to fit in target type"
  | PParseFloat FloatEmpty => lit "cannot parse float from empty string"
  | PParseFloat FloatInvalid => lit "invalid float literal"
  | PNix t => t
  | PText t => t
  end.

Definition io_display `{Fmt} (e : io_error) : str :=
  match e with
  | Os c => strerror c ++ lit " (os error " ++ show_int c ++ lit ")"
  | Simple k => kind_str k
  | Custom _ p => payload_str p
  end.

(** ** [heim_common::errors] *)

Inductive Context :=
| File (path : str)
| MissingKey (name source : str)
| SysCtl (name : list Z)
| SysCtlByName (name : str)
| SysConf (name : Z)
| Ffi (func : str)
| Message (text : str).

Record Error := mkError { source : io_error; context : option Context }.

(** [Result<T>] of heim. *)
Abbreviation result A := (res Error A).

Definition new (src : io_error) (ctx : Context) : Error := mkError src (Some ctx).
Definition from_io (e : io_error) : Error := mkError e None.
Definition last_os_error (errno : Z) : Error := mkError (Os errno) None.
Definition kind (e : Error) : error_kind := io_kind (source e).
Definition from_raw_os_error (c : Z) : Error := mkError (Os c) None.
Definition missing_key (name src : str) : Error :=
  mkError (Simple InvalidData) (Some (MissingKey name src)).
Definition raw_os_error (e : Error) : option Z := io_raw_os_error (source e).

Definition as_inner (e : Error) : io_error := source e.
Definition get_context (e : Error) : option Context := context e.
(** [context_mut]: what a caller writes through the reference. *)
Definition context_mut (write : option Context -> option Context) (e : Error) : Error :=
  mkError (source e) (write (context e)).
(** [std::error::Error::source]. *)
Definition error_source (e : Error) : option io_error := Some (source e).
Definition from_infallible (e : Empty_set) : Error := match e with end.

Definition with_sysctl (e : Error) (name : list Z) : Error :=
  mkError (source e) (Some (SysCtl name)).
Definition with_sysctlbyname (e : Error) (name : str) : Error :=
  mkError (source e) (Some (SysCtlByName name)).
Definition with_sysconf (e : Error) (name : Z) : Error :=
  mkError (source e) (Some (SysConf name)).
Definition with_ffi (e : Error) (name : str) : Error :=
  mkError (source e) (Some (Ffi name)).
Definition with_file (e : Error) (path : str) : Error :=
  mkError (source e) (Some (File path)).
Definition with_message (e : Error) (text : str) : Error :=
  mkError (source e) (Some (Message text)).

Definition from_nul_error (position : nat) : Error :=
  from_io (Custom InvalidData (PNul position)).
Definition from_parse_int (e : int_error) : Error :=
  from_io (Custom InvalidData (PParseInt e)).
Definition from_parse_float (e : float_error) : Error :=
  from_io (Custom InvalidData (PParseFloat e)).

(** [nix::Error]. *)
Inductive nix_error := NixSys (errno : Z) | NixInvalidPath | NixInvalidUtf8 | NixUnsupportedOperation.
Definition from_nix (text : str) (e : nix_error) : Error :=
  from_io match e with
          | NixSys errno => Os errno
          | NixInvalidPath => Custom InvalidInput (PNix text)
          | NixInvalidUtf8 => Custom InvalidData (PNix text)
          | NixUnsupportedOperation => Custom Other (PNix text)
          end.

(** [{:?}] of the vector of a [sysctl] name. *)
Fixpoint debug_ints (l : list Z) : str :=
  match l with
  | [] => []
  | [z] => show_int z
  | z :: l' => show_int z ++ lit ", " ++ debug_ints l'
  end.
Definition debug_vec (l : list Z) : str := lit "[" ++ debug_ints l ++ lit "]".

(** [core::ascii::escape_default], in the [Debug] of a C string. *)
Definition hex_digit (n : Z) : byte :=
  if (n <? 10)%Z then of_code (48 + n) else of_code (87 + n).
Definition escape_default (c : byte) : str :=
  if (code c =? 9)%Z then lit "\t"
  else if (code c =? 13)%Z then lit "\r"
  else if (code c =? 10)%Z then lit "\n"
  else if ((code c =? 34) || (code c =? 39) || (code c =? 92))%Z then [of_code 92; c]
  else if ((32 <=? code c) && (code c <? 127))%Z then [c]
  else lit "\x" ++ [hex_digit (code c / 16); hex_digit (code c mod 16)].
Definition QUOTE : byte := of_code 34.
Definition debug_cstring (s : str) : str := QUOTE :: concat (map escape_default s) ++ [QUOTE].

Definition quoted (s : str) : str := QUOTE :: s ++ [QUOTE].

(** The text of a context, before the separator and the source. *)
Definition context_str `{Fmt} (c : Context) : str :=
  match c with
  | SysCtl name => lit "sysctl " ++ quoted (debug_vec name) ++ lit " failed"
  | SysCtlByName name => lit "sysctlbyname " ++ quoted (debug_cstring name) ++ lit " failed"
  | SysConf name => lit "sysconf " ++ quoted (show_int name) ++ lit " failed"
  | MissingKey name src =>
      if bool_decide (0 < length src)
      then lit "Unable to find required key " ++ quoted name ++ lit " in " ++ quoted src
      else lit "Unable to find required key " ++ quoted name
  | File path => lit "Unable to parse " ++ quoted (to_string_lossy path) ++ lit ", unsupported format"
  | Message text => text
  | Ffi func => lit "FFI function " ++ quoted func ++ lit " call failed"
  end.

(** [impl Display for Error]. *)
Definition fmt_error `{Fmt} (e : Error) : str :=
  match context e with
  | Some c => context_str c ++ lit ": " ++ io_display (source e)
  | None => io_display (source e)
  end.

(** ** [heim_process::errors] *)

Inductive ProcessError :=
| NoSuchProcess (pid : Z)
| ZombieProcess (pid : Z)
| AccessDenied (pid : Z)
| LoadError (e : Error)
| UnreadablePeb (pid : Z).

Abbreviation process_result A := (res ProcessError A).

Definition process_from_io (e : io_error) : ProcessError := LoadError (from_io e).

Definition fmt_process_error `{Fmt} (e : ProcessError) : str :=
  match e with
  | NoSuchProcess pid => lit "Process " ++ show_int pid ++ lit " does not exists"
  | ZombieProcess pid => lit "Process " ++ show_int pid ++ lit " is zombie"
  | AccessDenied pid => lit "Access denied for process " ++ show_int pid
  | UnreadablePeb pid => lit "Unable to read process PEB " ++ show_int pid
  | LoadError e => fmt_error e
  end.

(** [error::Error::source]: what a process error was caused by. *)
Definition process_error_source (e : ProcessError) : option Error :=
  match e with LoadError e => Some e | _ => None end.
