(* ===== verification/WinCalls.v ===== *)
(** * The Windows API as heim calls it

    The functions of winapi and ntapi that the Windows back end calls, with
    what each is given and what it writes back: a status or a handle first,
    then the out-parameters.  A [HANDLE] is a number (0 is null, -1 is
    [INVALID_HANDLE_VALUE]); a wide string or buffer is the list of its 16-bit
    units; memory that is reinterpreted is the list of its bytes.  The error
    that [GetLastError] gives is the call [GetErrno] of Sys. *)

From S2P Require Import Prelude RustStr RustFloat.

Abbreviation wide := (list Z) (only parsing).
Abbreviation HANDLE := Z (only parsing).
Abbreviation DWORD := Z (only parsing).

Definition INVALID_HANDLE_VALUE : HANDLE := -1.

Record FILETIME := mkFileTime { dwLowDateTime : DWORD; dwHighDateTime : DWORD }.
(** The two halves of [LARGE_INTEGER]: an unsigned and a signed one. *)
Record LARGE_INTEGER := mkLargeInteger { LowPart : Z; HighPart : Z }.

(** ** Processes *)

Record PROCESS_MEMORY_COUNTERS_EX := mkMemoryCounters {
  PageFaultCount : Z;
  PeakWorkingSetSize : Z;
  WorkingSetSize : Z;
  QuotaPeakPagedPoolUsage : Z;
  QuotaPagedPoolUsage : Z;
  QuotaPeakNonPagedPoolUsage : Z;
  QuotaNonPagedPoolUsage : Z;
  PagefileUsage : Z;
  PeakPagefileUsage : Z;
  PrivateUsage : Z;
}.

Record IO_COUNTERS := mkIoCounters {
  ReadOperationCount : Z;
  WriteOperationCount : Z;
  OtherOperationCount : Z;
  ReadTransferCount : Z;
  WriteTransferCount : Z;
  OtherTransferCount : Z;
}.

Record PROCESSENTRY32W := mkProcessEntry {
  th32ProcessID : DWORD;
  th32ParentProcessID : DWORD;
  szExeFile : wide;
}.

(** ** Memory, CPU, host *)

Record MEMORYSTATUSEX := mkMemoryStatus {
  ullTotalPhys : Z;
  ullAvailPhys : Z;
  ullTotalPageFile : Z;
  ullAvailPageFile : Z;
}.

Record OSVERSIONINFOEXW := mkOsVersion {
  dwMajorVersion : DWORD;
  dwMinorVersion : DWORD;
  dwBuildNumber : DWORD;
  wSuiteMask : Z;
  wProductType : Z;
}.

(** The fields of [SYSTEM_INFO] that are read. *)
Record SYSTEM_INFO := mkSystemInfo { wProcessorArchitecture : Z; dwNumberOfProcessors : DWORD }.

(** ** Disks *)

Record DISK_PERFORMANCE := mkDiskPerformance {
  BytesRead : Z;
  BytesWritten : Z;
  ReadTime : Z;
  WriteTime : Z;
  ReadCount : Z;
  WriteCount : Z;
}.

(** ** Networks

    A socket address is the bytes that lie at its pointer ([None]: null); the
    lists of adapters and of their addresses are linked by [Next]. *)

Record SOCKET_ADDRESS := mkSocketAddress { lpSockaddr : option (list Z); iSockaddrLength : Z }.
Record IP_ADAPTER_UNICAST_ADDRESS := mkUnicastAddress { ua_Address : SOCKET_ADDRESS; OnLinkPrefixLength : Z }.
Record IP_ADAPTER_ADDRESSES := mkAdapter {
  IfIndex : Z;
  AdapterName : str;
  FriendlyName : wide;
  FirstUnicastAddress : list IP_ADAPTER_UNICAST_ADDRESS;
  OperStatus : Z;
}.

(** ** The calls *)

Inductive win_call : Type -> Type :=
(** handles *)
| CloseHandle (h : HANDLE) : win_call Z
(** processes: processthreadsapi, psapi, winbase, memoryapi, wow64apiset *)
| OpenProcess (access : DWORD) (pid : Z) : win_call HANDLE
| GetExitCodeProcess (h : HANDLE) : win_call (Z * DWORD)
| QueryFullProcessImageNameW (h : HANDLE) (size : Z) : win_call (Z * (wide * DWORD))
| GetProcessMemoryInfo (h : HANDLE) : win_call (Z * PROCESS_MEMORY_COUNTERS_EX)
| GetProcessIoCounters (h : HANDLE) : win_call (Z * IO_COUNTERS)
| GetProcessTimes (h : HANDLE) : win_call (Z * (FILETIME * FILETIME * FILETIME * FILETIME))
| GetPriorityClass (h : HANDLE) : win_call DWORD
| SetPriorityClass (h : HANDLE) (class : DWORD) : win_call Z
| IsWow64Process (h : HANDLE) : win_call (Z * Z)
| ReadProcessMemory (h : HANDLE) (src len : Z) : win_call (Z * str)
| TerminateProcess (h : HANDLE) (exit_code : Z) : win_call Z
| EnumProcesses (cb : Z) : win_call (Z * (list DWORD * DWORD))
| GetCurrentProcessId : win_call DWORD
(** ntpsapi, ntexapi, tlhelp32 *)
| NtQueryBasicInformation (h : HANDLE) : win_call (Z * Z)
| NtQueryWow64Information (h : HANDLE) : win_call (Z * Z)
| NtSuspendProcess (h : HANDLE) : win_call Z
| NtResumeProcess (h : HANDLE) : win_call Z
| NtQuerySystemInformation (class : Z) (size : Z) : win_call (Z * (str * Z))
| CreateToolhelp32Snapshot : win_call HANDLE
| Process32FirstW (h : HANDLE) : win_call (Z * PROCESSENTRY32W)
| Process32NextW (h : HANDLE) : win_call (Z * PROCESSENTRY32W)
(** memory, CPU and host: sysinfoapi, powerbase, winbase, ntrtl, wtsapi32 *)
| GlobalMemoryStatusEx : win_call (Z * MEMORYSTATUSEX)
| GetActiveProcessorCount : win_call DWORD
| GetLogicalProcessorInformationEx (buffer : option Z) (size : Z) : win_call (Z * (str * Z))
| GetSystemInfo : win_call SYSTEM_INFO
| GetNativeSystemInfo : win_call SYSTEM_INFO
| CallNtPowerInformation (size : Z) : win_call (Z * str)
| GetSystemTimes : win_call (Z * (FILETIME * FILETIME * FILETIME))
| GetTickCount64 : win_call Z
| GetSystemTimeAsFileTime : win_call FILETIME
| RtlGetVersion : win_call (Z * OSVERSIONINFOEXW)
| GetComputerNameExW (kind : Z) (buffer : option Z) (size : Z) : win_call (Z * (wide * Z))
(** The terminal services give out blocks of memory: a call answers with the
    address of the block and the bytes that lie there. *)
| WTSEnumerateSessionsW : win_call (Z * (Z * (DWORD * str)))
| WTSQuerySessionInformationW (session : DWORD) (class : Z) : win_call (Z * (Z * str))
| WTSFreeMemory (memory : Z) : win_call unit
(** disks: fileapi, ioapiset, errhandlingapi *)
| CreateFileW (path : wide) : win_call HANDLE
| DeviceIoControl (h : HANDLE) : win_call (Z * DISK_PERFORMANCE)
| FindFirstVolumeW : win_call (HANDLE * wide)
| FindNextVolumeW (h : HANDLE) : win_call (Z * wide)
| FindVolumeClose (h : HANDLE) : win_call Z
| GetDriveTypeW (path : wide) : win_call DWORD
| GetLogicalDriveStringsW (buffer : option Z) (size : Z) : win_call (Z * wide)
| GetVolumeNameForVolumeMountPointW (path : wide) (size : Z) : win_call (Z * wide)
| SetThreadErrorMode (mode : DWORD) : win_call (Z * DWORD)
| GetVolumeInformationW (path : wide) (size : Z) : win_call (Z * (DWORD * wide))
| GetDiskFreeSpaceExW (path : wide) : win_call (Z * (Z * Z * Z))
(** networks: iphlpapi, into a buffer of [size] bytes *)
| GetAdaptersAddresses (family flags size : Z) : win_call (Z * (list IP_ADAPTER_ADDRESSES * Z)).

(** Every call refused, nothing written: the answers of a witness that does
    not say more. *)
Definition no_memory_counters : PROCESS_MEMORY_COUNTERS_EX := mkMemoryCounters 0 0 0 0 0 0 0 0 0 0.
Definition no_io_counters : IO_COUNTERS := mkIoCounters 0 0 0 0 0 0.
Definition no_entry : PROCESSENTRY32W := mkProcessEntry 0 0 [].
Definition no_filetime : FILETIME := mkFileTime 0 0.

Definition win_refused {R} (c : win_call R) : R :=
  match c in win_call R return R with
  | CloseHandle _ => 0%Z
  | OpenProcess _ _ => 0%Z
  | GetExitCodeProcess _ => (0%Z, 0%Z)
  | QueryFullProcessImageNameW _ _ => (0%Z, ([], 0%Z))
  | GetProcessMemoryInfo _ => (0%Z, no_memory_counters)
  | GetProcessIoCounters _ => (0%Z, no_io_counters)
  | GetProcessTimes _ => (0%Z, (no_filetime, no_filetime, no_filetime, no_filetime))
  | GetPriorityClass _ => 0%Z
  | SetPriorityClass _ _ => 0%Z
  | IsWow64Process _ => (0%Z, 0%Z)
  | ReadProcessMemory _ _ _ => (0%Z, [])
  | TerminateProcess _ _ => 0%Z
  | EnumProcesses _ => (0%Z, ([], 0%Z))
  | GetCurrentProcessId => 0%Z
  | NtQueryBasicInformation _ => (-1, 0)%Z
  | NtQueryWow64Information _ => (-1, 0)%Z
  | NtSuspendProcess _ => (-1)%Z
  | NtResumeProcess _ => (-1)%Z
  | NtQuerySystemInformation _ _ => ((-1)%Z, ([], 0%Z))
  | CreateToolhelp32Snapshot => INVALID_HANDLE_VALUE
  | Process32FirstW _ => (0%Z, no_entry)
  | Process32NextW _ => (0%Z, no_entry)
  | GlobalMemoryStatusEx => (0%Z, mkMemoryStatus 0 0 0 0)
  | GetActiveProcessorCount => 0%Z
  | GetLogicalProcessorInformationEx _ _ => (0%Z, ([], 0%Z))
  | GetSystemInfo => mkSystemInfo 0 0
  | GetNativeSystemInfo => mkSystemInfo 0 0
  | CallNtPowerInformation _ => ((-1)%Z, [])
  | GetSystemTimes => (0%Z, (no_filetime, no_filetime, no_filetime))
  | GetTickCount64 => 0%Z
  | GetSystemTimeAsFileTime => no_filetime
  | RtlGetVersion => (0%Z, mkOsVersion 0 0 0 0 0)
  | GetComputerNameExW _ _ _ => (0%Z, ([], 0%Z))
  | WTSEnumerateSessionsW => (0%Z, (0%Z, (0%Z, [])))
  | WTSQuerySessionInformationW _ _ => (0%Z, (0%Z, []))
  | WTSFreeMemory _ => tt
  | CreateFileW _ => INVALID_HANDLE_VALUE
  | DeviceIoControl _ => (0%Z, mkDiskPerformance 0 0 0 0 0 0)
  | FindFirstVolumeW => (INVALID_HANDLE_VALUE, [])
  | FindNextVolumeW _ => (0%Z, [])
  | FindVolumeClose _ => 0%Z
  | GetDriveTypeW _ => 0%Z
  | GetLogicalDriveStringsW _ _ => (0%Z, [])
  | GetVolumeNameForVolumeMountPointW _ _ => (0%Z, [])
  | SetThreadErrorMode _ => (0%Z, 0%Z)
  | GetVolumeInformationW _ _ => (0%Z, (0%Z, []))
  | GetDiskFreeSpaceExW _ => (0%Z, (0%Z, 0%Z, 0%Z))
  | GetAdaptersAddresses _ _ _ => ((-1)%Z, ([], 0%Z))
  end.
