(* ===== verification/MacCalls.v ===== *)
(** * The calls of macOS that heim makes

    The functions of mach, IOKit and libc that the macOS back end calls, with
    what each is given and what it writes back: a status first, then the
    out-parameters.  Ports, kernel objects and addresses are numbers; memory
    that is reinterpreted is the list of its bytes, an array of integers the
    list of its words.  A property list of Core Foundation is a value. *)

From S2P Require Import Prelude RustStr RustFloat.

Abbreviation port := Z (only parsing).
Abbreviation io_object := Z (only parsing).

Definition KERN_SUCCESS : Z := 0.

(** The values that a dictionary of IOKit holds; a number has its value as an
    [i64], if it has one. *)
Inductive CFType :=
| CFString (s : str)
| CFBoolean (b : bool)
| CFNumber (n : option Z)
| CFDictionary (d : list (str * CFType))
| CFOther.
Abbreviation dictionary := (list (str * CFType)) (only parsing).

(** [libc::statfs], the fields that are read. *)
Record statfs := mkStatfs {
  f_mntfromname : str;
  f_fstypename : str;
  f_mntonname : str;
  f_flags : Z;
}.

Inductive mac_call : Type -> Type :=
(** [sysctlbyname] into a buffer of [size] bytes: the status and the buffer. *)
| SysctlByName (key : str) (size : Z) : mac_call (Z * str)
| MachHostSelf : mac_call port
| MachPortDeallocate (p : port) : mac_call Z
(** [count] words at most are written: the status and the words. *)
| HostStatistics (host : port) (flavor count : Z) : mac_call (Z * list Z)
| HostStatistics64 (host : port) (flavor count : Z) : mac_call (Z * list Z)
(** The status, the number of processors, the address of the new array and its words. *)
| HostProcessorInfo (host : port) (flavor : Z) : mac_call (Z * (Z * Z * list Z))
| VmDeallocate (address size : Z) : mac_call Z
| MachTimebaseInfo : mac_call (Z * (Z * Z))
| MachAbsoluteTime : mac_call Z
(** The name buffer of [IF_NAMESIZE] bytes, unless the result is null. *)
| IfIndexToName (index : Z) : mac_call (option str)
(** [getfsstat64]: the result, and the entries that were written. *)
| GetFsStat (bufsize flags : Z) : mac_call (Z * list statfs)
| IOMasterPort : mac_call (Z * port)
| IOServiceMatching (name : str) : mac_call Z
| IOServiceGetMatchingServices (master : port) (service : Z) : mac_call (Z * io_object)
| IOIteratorNext (iterator : io_object) : mac_call io_object
| IOObjectRelease (object : io_object) : mac_call Z
| IORegistryEntryGetParentEntry (entry : io_object) (plane : str) : mac_call (Z * io_object)
| IOObjectConformsTo (object : io_object) (class_name : str) : mac_call Z
| IORegistryEntryCreateCFProperties (entry : io_object) : mac_call (Z * dictionary).

(** The answers of a system that refuses everything. *)
Definition mac_refused {R} (c : mac_call R) : R :=
  match c in mac_call R return R with
  | SysctlByName _ _ => ((-1)%Z, [])
  | MachHostSelf => 0%Z
  | MachPortDeallocate _ => 5%Z
  | HostStatistics _ _ _ | HostStatistics64 _ _ _ => (5%Z, [])
  | HostProcessorInfo _ _ => (5%Z, (0%Z, 0%Z, []))
  | VmDeallocate _ _ => 5%Z
  | MachTimebaseInfo => (5%Z, (0%Z, 0%Z))
  | MachAbsoluteTime => 0%Z
  | IfIndexToName _ => None
  | GetFsStat _ _ => ((-1)%Z, [])
  | IOMasterPort => (5%Z, 0%Z)
  | IOServiceMatching _ => 0%Z
  | IOServiceGetMatchingServices _ _ => (5%Z, 0%Z)
  | IOIteratorNext _ => 0%Z
  | IOObjectRelease _ => 5%Z
  | IORegistryEntryGetParentEntry _ _ => (5%Z, 0%Z)
  | IOObjectConformsTo _ _ => 0%Z
  | IORegistryEntryCreateCFProperties _ => (5%Z, [])
  end.
