(* ===== verification/Sys.v ===== *)
(** * Programs that call the operating system

    heim's functions are asynchronous, but each awaits what it starts before
    it goes on: a function is a sequential program over the calls below.  A
    program is a finite tree ([prog]); a [handler] answers the calls from a
    state of its own, so a call may see another answer each time it is made
    (files change, processes end and their ids are reused between two calls).
    [exec] runs a program, [trace] lists the calls it makes.

    The calls are the ones of heim-runtime/src/fs.rs and heim-runtime/src/lib.rs
    (smol), of libc, of the glob crate, of mach and IOKit, of
    darwin_libproc and of the Windows API.  [rt::spawn_blocking(f).await] is
    [f]; a directory or a file read by lines is the list of items its stream
    yields. *)

From S2P Require Import Prelude RustStr RustFloat Errors WinCalls MacCalls.

Abbreviation path := str (only parsing).
Abbreviation io_result A := (res io_error A) (only parsing).

(** [Path::join]: an absolute path replaces, otherwise one separator. *)
Definition SLASH : byte := "/"%char.
Definition path_join (base p : path) : path :=
  match p with
  | c :: _ =>
      if decide (c = SLASH) then p
      else match last base with
           | None => p
           | Some d => if decide (d = SLASH) then base ++ p else base ++ SLASH :: p
           end
  | [] => match last base with
          | None => []
          | Some d => if decide (d = SLASH) then base else base ++ [SLASH]
          end
  end.

(** [Path::file_name]: the last component when it is a name.  Empty components
    and [.] are no components; [..] is no name. *)
Definition path_components (p : path) : list str :=
  List.filter (fun c => bool_decide (c <> [] /\ c <> lit ".")) (split_on SLASH p).
Definition path_file_name (p : path) : option str :=
  match last (path_components p) with
  | Some c => if decide (c = lit "..") then None else Some c
  | None => None
  end.

Lemma path_file_name_app dir name :
  SLASH ∉ name -> name <> [] -> name <> lit "." -> name <> lit ".." ->
  path_file_name (dir ++ SLASH :: name) = Some name.
Proof.
  intros Hs Hne Hd Hdd. unfold path_file_name, path_components.
  rewrite split_on_app_split, (split_on_plain SLASH name), List.filter_app by done.
  cbn [List.filter]. rewrite bool_decide_eq_true_2 by done.
  rewrite last_snoc. by rewrite decide_False.
Qed.

(** A directory entry: the directory and the name in it. *)
Record dir_entry := mkEntry { entry_dir : path; file_name : str }.
Definition entry_path (e : dir_entry) : path := path_join (entry_dir e) (file_name e).

Inductive call : Type -> Type :=
| ReadToString (p : path) : call (io_result str)
| Read (p : path) : call (io_result str)
| ReadLines (p : path) : call (io_result (list (io_result str)))
| ReadDir (p : path) : call (io_result (list (io_result dir_entry)))
| ReadLink (p : path) : call (io_result path)
| PathExists (p : path) : call bool
| Access (p : str) : call Z
| Glob (pattern : str) : call (list (io_result path))
| Sysconf (name : Z) : call Z
| GetErrno : call Z
| SetErrno (e : Z) : call unit
| Kill (pid sig : Z) : call Z
| Waitpid (pid : Z) : call Z
| Getpriority (pid : Z) : call Z
| Setpriority (pid value : Z) : call Z
| Getpid : call Z
| Getloadavg : call (Z * (float * float * float))
| Now : call Z
| Sleep (ms : Z) : call unit
| Uname : call (Z * (str * str * str * str * str))
| Statvfs (p : str) : call (Z * (Z * Z * Z * Z * Z))
(** [sysctl] into a buffer of the given number of bytes ([None]: no buffer),
    told that there are [size]: the status, the bytes that lie in the buffer
    after the call, and the size it stored. *)
| Sysctl (name : list Z) (buffer : option Z) (size : Z) : call (Z * (str * Z))
(** The crate darwin_libproc. *)
| PidPath (pid : Z) : call (io_result path)
| PidCwd (pid : Z) : call (io_result path)
| TaskInfo (pid : Z) : call (io_result (Z * Z * Z * Z * Z * Z))
| PidRusage (pid : Z) : call (io_result (Z * Z))
(** The Windows API (WinCalls). *)
| Win {R : Type} (c : win_call R) : call R
(** mach, IOKit and what only macOS has (MacCalls). *)
| Mac {R : Type} (c : mac_call R) : call R.

Inductive prog (A : Type) : Type :=
| Ret (a : A)
| Do {R : Type} (c : call R) (k : R -> prog A).
Arguments Ret {_} _.
Arguments Do {_ _} _ _.

Fixpoint prog_bind {A B} (p : prog A) (f : A -> prog B) : prog B :=
  match p with
  | Ret a => f a
  | Do c k => Do c (fun r => prog_bind (k r) f)
  end.

Definition os {R} (c : call R) : prog R := Do c Ret.

(** ** Handlers, runs and traces *)

Definition handler (W : Type) : Type := forall R, call R -> W -> R * W.

Fixpoint exec {W A} (h : handler W) (p : prog A) (w : W) : A * W :=
  match p with
  | Ret a => (a, w)
  | Do c k => let '(r, w') := h _ c w in exec h (k r) w'
  end.
Definition result_of {W A} (h : handler W) (p : prog A) (w : W) : A := fst (exec h p w).

(** The calls, without their answers. *)
Inductive event :=
| EvRead (p : path)
| EvReadLines (p : path)
| EvReadDir (p : path)
| EvReadLink (p : path)
| EvPathExists (p : path)
| EvAccess (p : str)
| EvGlob (p : str)
| EvSysconf (name : Z)
| EvErrno
| EvSetErrno (e : Z)
| EvKill (pid sig : Z)
| EvWaitpid (pid : Z)
| EvGetpriority (pid : Z)
| EvSetpriority (pid value : Z)
| EvSysctl (name : list Z) (buffer : option Z) (size : Z)
| EvWin {R : Type} (c : win_call R)
| EvMac {R : Type} (c : mac_call R)
| EvOther.

Definition event_of {R} (c : call R) : event :=
  match c with
  | ReadToString p => EvRead p
  | Read p => EvRead p
  | ReadLines p => EvReadLines p
  | ReadDir p => EvReadDir p
  | ReadLink p => EvReadLink p
  | PathExists p => EvPathExists p
  | Access p => EvAccess p
  | Glob p => EvGlob p
  | Sysconf n => EvSysconf n
  | GetErrno => EvErrno
  | SetErrno e => EvSetErrno e
  | Kill pid sig => EvKill pid sig
  | Waitpid pid => EvWaitpid pid
  | Getpriority pid => EvGetpriority pid
  | Setpriority pid v => EvSetpriority pid v
  | Sysctl name buffer size => EvSysctl name buffer size
  | Win c => EvWin c
  | Mac c => EvMac c
  | Getpid | Getloadavg | Now | Sleep _ | Uname | Statvfs _
  | PidPath _ | PidCwd _ | TaskInfo _ | PidRusage _ => EvOther
  end.

Fixpoint trace {W A} (h : handler W) (p : prog A) (w : W) : list event :=
  match p with
  | Ret _ => []
  | Do c k => let '(r, w') := h _ c w in event_of c :: trace h (k r) w'
  end.

Lemma exec_bind {W A B} (h : handler W) (p : prog A) (f : A -> prog B) w :
  exec h (prog_bind p f) w = let '(a, w') := exec h p w in exec h (f a) w'.
Proof.
  revert w. induction p as [a|R c k IH]; intros w; cbn; [done|].
  destruct (h R c w) as [r w']. apply IH.
Qed.

Lemma trace_bind {W A B} (h : handler W) (p : prog A) (f : A -> prog B) w :
  trace h (prog_bind p f) w =
  trace h p w ++ (let '(a, w') := exec h p w in trace h (f a) w').
Proof.
  revert w. induction p as [a|R c k IH]; intros w; cbn; [done|].
  destruct (h R c w) as [r w']. cbn. by rewrite IH.
Qed.

(** ** Programs with a result *)

Definition io (E A : Type) : Type := prog (res E A).

#[export] Instance io_ret E : MRet (io E) := fun A a => Ret (Ok a).
#[export] Instance io_bind E : MBind (io E) := fun A B f p =>
  prog_bind p (fun r => match r with
                        | Ok a => f a
                        | Err e => Ret (Err e)
                        | Panic => Ret Panic
                        end).

#[export] Instance io_fmap E : FMap (io E) := fun A B f p => prog_bind p (fun r => Ret (f <$> r)).

(** A pure outcome as a program, and a call whose answer is the value. *)
Definition lift {E A} (r : res E A) : io E A := Ret r.
Definition fails {E A} (e : E) : io E A := Ret (Err e).
Definition ask {E R} (c : call R) : io E R := Do c (fun r => Ret (Ok r)).

(** The result itself: what [match fut.await { Ok .., Err .. }] inspects; a
    panic still ends the program. *)
Definition attempt {E F A} (p : io E A) : io F (E + A) :=
  prog_bind p (fun r => match r with
                        | Ok a => Ret (Ok (inr a))
                        | Err e => Ret (Ok (inl e))
                        | Panic => Ret Panic
                        end).

Definition io_map_err {E F A} (f : E -> F) (p : io E A) : io F A :=
  prog_bind p (fun r => Ret (map_err f r)).

(** [fut.or_else(|_| g)]. *)
Definition or_else {E F A} (p : io E A) (q : E -> io F A) : io F A :=
  prog_bind p (fun r => match r with
                        | Ok a => Ret (Ok a)
                        | Err e => q e
                        | Panic => Ret Panic
                        end).

Section exec_io.
Context {W : Type} (h : handler W).

Lemma exec_io_bind {E A B} (p : io E A) (f : A -> io E B) w :
  exec h (p ≫= f) w =
  match exec h p w with
  | (Ok a, w') => exec h (f a) w'
  | (Err e, w') => (Err e, w')
  | (Panic, w') => (Panic, w')
  end.
Proof. unfold mbind, io_bind. rewrite exec_bind. by destruct (exec h p w) as [[]]. Qed.

Lemma trace_io_bind {E A B} (p : io E A) (f : A -> io E B) w :
  trace h (p ≫= f) w =
  trace h p w ++ match exec h p w with
                 | (Ok a, w') => trace h (f a) w'
                 | _ => []
                 end.
Proof.
  unfold mbind, io_bind. rewrite trace_bind. f_equal. by destruct (exec h p w) as [[]].
Qed.

Lemma exec_attempt {E F A} (p : io E A) w :
  exec h (attempt (F := F) p) w =
  match exec h p w with
  | (Ok a, w') => (Ok (inr a), w')
  | (Err e, w') => (Ok (inl e), w')
  | (Panic, w') => (Panic, w')
  end.
Proof. unfold attempt. rewrite exec_bind. by destruct (exec h p w) as [[]]. Qed.

Lemma trace_attempt {E F A} (p : io E A) w :
  trace h (attempt (F := F) p) w = trace h p w.
Proof.
  unfold attempt. rewrite trace_bind. destruct (exec h p w) as [[]]; cbn; apply app_nil_r.
Qed.

Lemma exec_map_err {E F A} (f : E -> F) (p : io E A) w :
  exec h (io_map_err f p) w = let '(r, w') := exec h p w in (map_err f r, w').
Proof. unfold io_map_err. rewrite exec_bind. by destruct (exec h p w). Qed.

Lemma trace_map_err {E F A} (f : E -> F) (p : io E A) w :
  trace h (io_map_err f p) w = trace h p w.
Proof.
  unfold io_map_err. rewrite trace_bind. destruct (exec h p w); cbn. apply app_nil_r.
Qed.

Lemma exec_or_else {E F A} (p : io E A) (q : E -> io F A) w :
  exec h (or_else p q) w =
  match exec h p w with
  | (Ok a, w') => (Ok a, w')
  | (Err e, w') => exec h (q e) w'
  | (Panic, w') => (Panic, w')
  end.
Proof. unfold or_else. rewrite exec_bind. by destruct (exec h p w) as [[]]. Qed.
End exec_io.

(** ** Concurrency

    [future::try_join(p, q)]: both are polled until both are ready or one has
    failed, and then the other is dropped.  Which of the two makes the next
    call depends on when the system answers: the [schedule] says whose turn it
    is, [true] for the second; when it is used up the first one runs. *)
Fixpoint try_join {E A B} (p : io E A) : io E B -> list bool -> io E (A * B) :=
  fix join_q (q : io E B) (schedule : list bool) : io E (A * B) :=
    match p with
    | Ret (Ok a) => prog_bind q (fun r => Ret (pair a <$> r))
    | Ret (Err e) => Ret (Err e)
    | Ret Panic => Ret Panic
    | Do c k =>
        match q with
        | Ret (Ok b) => prog_bind (Do c k) (fun r => Ret ((fun a => (a, b)) <$> r))
        | Ret (Err e) => Ret (Err e)
        | Ret Panic => Ret Panic
        | Do c' k' =>
            match schedule with
            | true :: s => Do c' (fun r => join_q (k' r) s)
            | _ :: s => Do c (fun r => try_join (k r) q s)
            | [] => Do c (fun r => try_join (k r) q [])
            end
        end
    end.

(** A handler whose answers do not change: one world. *)
Definition steady {W} (h : handler W) (w : W) : Prop := forall R (c : call R), snd (h R c w) = w.

Section try_join.
Context {W E A B : Type} (h : handler W) (w : W).
Hypothesis Hsteady : steady h w.

Lemma exec_do {R C} (c : call R) (k : R -> prog C) : exec h (Do c k) w = exec h (k (fst (h R c w))) w.
Proof. cbn. pose proof (Hsteady R c) as Hc. by destruct (h R c w); cbn in *; subst. Qed.

Lemma exec_steady {C} (p : prog C) : snd (exec h p w) = w.
Proof. induction p as [c|R c k IH]; [done|]. rewrite exec_do. apply IH. Qed.

Definition joins (a : res E A) (b : res E B) (r : res E (A * B)) : Prop :=
  match a, b with
  | Ok a, Ok b => r = Ok (a, b)
  | _, _ => (exists e, a = Err e /\ r = Err e) \/ (exists e, b = Err e /\ r = Err e)
            \/ ((a = Panic \/ b = Panic) /\ r = Panic)
  end.

Lemma result_do {R C} (c : call R) (k : R -> prog C) :
  result_of h (Do c k) w = result_of h (k (fst (h R c w))) w.
Proof. unfold result_of. by rewrite exec_do. Qed.

Lemma result_bind {C D} (p : prog C) (f : C -> prog D) :
  result_of h (prog_bind p f) w = result_of h (f (result_of h p w)) w.
Proof.
  unfold result_of. rewrite exec_bind. pose proof (exec_steady p) as Hs.
  destruct (exec h p w) as [c w']. cbn in *. by subst.
Qed.

(** Whatever the schedule: both values when both succeed, otherwise the
    error of one that fails. *)
Lemma try_join_results (p : io E A) (q : io E B) schedule :
  joins (result_of h p w) (result_of h q w) (result_of h (try_join p q schedule) w).
Proof.
  revert q schedule. induction p as [a|R c k IHp]; intros q schedule.
  - destruct a as [a|e|].
    + assert (try_join (Ret (Ok a)) q schedule = prog_bind q (fun r => Ret (pair a <$> r))) as ->
        by by destruct q.
      rewrite result_bind. cbn. destruct (result_of h q w); cbn; naive_solver.
    + assert (try_join (Ret (Err e)) q schedule = Ret (Err e)) as -> by by destruct q.
      cbn. naive_solver.
    + assert (try_join (Ret Panic) q schedule = Ret Panic) as -> by by destruct q.
      cbn. naive_solver.
  - revert schedule. induction q as [b|R' c' k' IHq]; intros schedule.
    + destruct b as [b|e|].
      * change (try_join (Do c k) (Ret (Ok b)) schedule)
          with (prog_bind (Do c k) (fun r => Ret ((fun a : A => (a, b)) <$> r))).
        rewrite result_bind. destruct (result_of h (Do c k) w); cbn; naive_solver.
      * cbn [try_join]. destruct (result_of h (Do c k) w); cbn; naive_solver.
      * cbn [try_join]. destruct (result_of h (Do c k) w); cbn; naive_solver.
    + destruct schedule as [|[] s]; cbn [try_join].
      * rewrite (result_do c k), (result_do c _). apply IHp.
      * rewrite (result_do c' k'), (result_do c' _). apply IHq.
      * rewrite (result_do c k), (result_do c _). apply IHp.
Qed.

(** Results of composed programs, when the answers do not change. *)
Lemma result_io_bind {F C D} (p : io F C) (f : C -> io F D) :
  result_of h (p ≫= f) w = (result_of h p w ≫= fun c => result_of h (f c) w).
Proof. unfold mbind at 1, io_bind. rewrite result_bind. by destruct (result_of h p w). Qed.

Lemma result_os {R} (c : call R) : result_of h (os c) w = fst (h R c w).
Proof. unfold os. by rewrite result_do. Qed.

Lemma result_ask {F R} (c : call R) : result_of h (ask (E := F) c) w = Ok (fst (h R c w)).
Proof. unfold ask. by rewrite result_do. Qed.

Lemma result_ret {C} (c : C) : result_of h (Ret c) w = c.
Proof. done. Qed.
Lemma result_lift {F C} (r : res F C) : result_of h (lift r) w = r.
Proof. done. Qed.
Lemma result_mret {F C} (c : C) : result_of h (mret c : io F C) w = Ok c.
Proof. done. Qed.
Lemma result_fails {F C} (e : F) : result_of h (fails e : io F C) w = Err e.
Proof. done. Qed.

(** What the measurements do: join two queries, then take the time. *)
Definition measured {C} (value : A -> B -> Z -> C) (a : res E A) (b : res E B) (r : res E C) : Prop :=
  match a, b with
  | Ok a, Ok b => r = Ok (value a b (fst (h _ Now w)))
  | a, b => (exists e, a = Err e /\ r = Err e) \/ (exists e, b = Err e /\ r = Err e)
            \/ ((a = Panic \/ b = Panic) /\ r = Panic)
  end.
Lemma try_join_measured {C} (p : io E A) (q : io E B) (value : A -> B -> Z -> C) schedule :
  measured value (result_of h p w) (result_of h q w)
    (result_of h ('(a, b) ← try_join p q schedule; now ← ask Now; mret (value a b now)) w).
Proof.
  pose proof (try_join_results p q schedule) as Hj. rewrite result_io_bind.
  unfold joins in Hj. unfold measured.
  destruct (result_of h p w), (result_of h q w); cbv beta iota in Hj |- *;
    first [ rewrite Hj; cbn [mbind res_bind]; by rewrite result_io_bind, result_ask
          | destruct Hj as [(e' & He & ->)|[(e' & He & ->)|[Hp ->]]];
            [left; by exists e' | right; left; by exists e' | right; right; done] ].
Qed.

Lemma result_map_err {F G C} (f : F -> G) (p : io F C) :
  result_of h (io_map_err f p) w = map_err f (result_of h p w).
Proof. unfold io_map_err. by rewrite result_bind. Qed.

Lemma result_fmap {F C D} (f : C -> D) (p : io F C) :
  result_of h (f <$> p) w = f <$> result_of h p w.
Proof. unfold fmap at 1, io_fmap. by rewrite result_bind. Qed.

Lemma result_attempt {F G C} (p : io F C) :
  result_of h (attempt (F := G) p) w =
  match result_of h p w with Ok c => Ok (inr c) | Err e => Ok (inl e) | Panic => Panic end.
Proof. unfold attempt. rewrite result_bind. by destruct (result_of h p w). Qed.

Lemma result_or_else {F G C} (p : io F C) (q : F -> io G C) :
  result_of h (or_else p q) w =
  match result_of h p w with
  | Ok c => Ok c
  | Err e => result_of h (q e) w
  | Panic => Panic
  end.
Proof. unfold or_else. rewrite result_bind. by destruct (result_of h p w). Qed.
End try_join.

(** Evaluates the result of a composed program, with [steady] at hand. *)
Ltac run :=
  repeat first
    [ rewrite result_io_bind by done | rewrite result_map_err by done | rewrite result_os by done
    | rewrite result_ask by done | rewrite result_attempt by done | rewrite result_or_else by done
    | rewrite result_fmap by done | rewrite result_lift | rewrite result_mret
    | rewrite result_fails | rewrite result_ret
    | progress cbn [map_err mbind res_bind fmap res_fmap] ].

(** A snapshot of the files: an instance for the witnesses.  The calls that
    are no reads answer 0. *)
Definition snapshot (read : path -> io_result str) (glob : str -> list path) : handler unit :=
  fun R c w =>
    (match c in call R return R with
     | ReadToString p => read p
     | Read p => read p
     | ReadLines p => (fun s => map Ok (lines s)) <$> read p
     | ReadDir p => Err (Os errno.ENOENT)
     | ReadLink p => Err (Os errno.ENOENT)
     | PathExists p => is_ok (read p)
     | Glob pattern => map Ok (glob pattern)
     | Getloadavg => (0%Z, (f64_zero, f64_zero, f64_zero))
     | Uname => (0%Z, ([], [], [], [], []))
     | Statvfs p => (0%Z, (0%Z, 0%Z, 0%Z, 0%Z, 0%Z))
     | Sysctl _ _ _ => (0%Z, ([], 0%Z))
     | PidPath _ | PidCwd _ => Err (Os errno.ESRCH)
     | TaskInfo _ => Err (Os errno.ESRCH)
     | PidRusage _ => Err (Os errno.ESRCH)
     | SetErrno e => tt
     | Sleep ms => tt
     | Win c => win_refused c
     | Mac c => mac_refused c
     | Access _ | Sysconf _ | GetErrno | Kill _ _ | Waitpid _ | Getpriority _
     | Setpriority _ _ | Getpid | Now => 0%Z
     end, w).
Lemma snapshot_steady read glob w : steady (snapshot read glob) w.
Proof. by intros R []. Qed.

(** A Windows system that answers the same call in the same way. *)
Definition windows (answer : forall R, win_call R -> R) : handler unit :=
  fun R c w =>
    (match c in call R return R with
     | Win c => answer _ c
     | c => fst (snapshot (fun _ => Err (Os errno.ENOENT)) (fun _ => []) _ c tt)
     end, w).
Lemma windows_steady answer w : steady (windows answer) w.
Proof. by intros R []. Qed.

(** The same for macOS. *)
Definition darwin (answer : forall R, mac_call R -> R) : handler unit :=
  fun R c w =>
    (match c in call R return R with
     | Mac c => answer _ c
     | c => fst (snapshot (fun _ => Err (Os errno.ENOENT)) (fun _ => []) _ c tt)
     end, w).
Lemma darwin_steady answer w : steady (darwin answer) w.
Proof. by intros R []. Qed.

(** ** Programs that do the same

    Two programs are equivalent when they make the same calls and have the
    same result under every handler.  The monad laws hold up to it. *)
Definition prog_equiv {A} (p q : prog A) : Prop :=
  forall W (h : handler W) w, exec h p w = exec h q w /\ trace h p w = trace h q w.
Infix "≈" := prog_equiv (at level 70).

#[export] Instance prog_equiv_equivalence {A} : Equivalence (@prog_equiv A).
Proof.
  split; intros p; [done|intros q Hpq W h w|intros q r Hpq Hqr W h w].
  - by destruct (Hpq W h w) as [-> ->].
  - destruct (Hpq W h w) as [-> ->]. apply Hqr.
Qed.
#[export] Instance prog_bind_proper {A B} :
  Proper (prog_equiv ==> pointwise_relation A prog_equiv ==> prog_equiv) (@prog_bind A B).
Proof.
  intros p q Hpq f g Hfg W h w. rewrite !exec_bind, !trace_bind. destruct (Hpq W h w) as [-> ->].
  destruct (exec h q w) as [a w']. by destruct (Hfg a W h w') as [-> ->].
Qed.
#[export] Instance io_bind_proper {E A B} :
  Proper (pointwise_relation A prog_equiv ==> prog_equiv ==> prog_equiv) (@mbind (io E) _ A B).
Proof.
  intros f g Hfg p q Hpq. unfold mbind, io_bind. apply prog_bind_proper; [done|].
  intros [a|e|]; [apply Hfg|done..].
Qed.

Lemma prog_bind_assoc {A B C} (p : prog A) (f : A -> prog B) (g : B -> prog C) :
  prog_bind (prog_bind p f) g ≈ prog_bind p (fun a => prog_bind (f a) g).
Proof.
  intros W h w. rewrite !exec_bind, !trace_bind, !exec_bind. destruct (exec h p w) as [a w'].
  rewrite exec_bind, trace_bind. by rewrite app_assoc.
Qed.
Lemma io_bind_assoc {E A B C} (p : io E A) (f : A -> io E B) (g : B -> io E C) :
  (p ≫= f) ≫= g ≈ p ≫= (fun a => f a ≫= g).
Proof.
  unfold mbind, io_bind. rewrite prog_bind_assoc. apply prog_bind_proper; [done|].
  intros [a|e|]; done.
Qed.
Lemma io_fmap_bind {E A B C} (k : A -> B) (p : io E A) (f : B -> io E C) :
  (k <$> p) ≫= f ≈ p ≫= (fun a => f (k a)).
Proof.
  unfold fmap, io_fmap, mbind, io_bind. rewrite prog_bind_assoc. apply prog_bind_proper; [done|].
  intros [a|e|]; done.
Qed.
(** ** Which calls a program makes

    [calls P p]: whatever the system answers, [p] makes only calls that
    satisfy [P]. *)
Definition calls {A} (P : event -> Prop) (p : prog A) : Prop :=
  forall W (h : handler W) w, Forall P (trace h p w).

Section calls.
Context (P : event -> Prop).

Lemma calls_ret {A} (a : A) : calls P (Ret a).
Proof. intros W h w. constructor. Qed.
Lemma calls_os {R} (c : call R) : P (event_of c) -> calls P (os c).
Proof. intros Hc W h w. cbn. destruct (h R c w). by repeat constructor. Qed.
Lemma calls_ask {E R} (c : call R) : P (event_of c) -> calls P (ask (E := E) c).
Proof. intros Hc W h w. cbn. destruct (h R c w). by repeat constructor. Qed.
Lemma calls_prog_bind {A B} (p : prog A) (f : A -> prog B) :
  calls P p -> (forall a, calls P (f a)) -> calls P (prog_bind p f).
Proof.
  intros Hp Hf W h w. rewrite trace_bind. apply Forall_app. split; [apply Hp|].
  destruct (exec h p w). apply Hf.
Qed.
Lemma calls_bind {E A B} (p : io E A) (f : A -> io E B) :
  calls P p -> (forall a, calls P (f a)) -> calls P (p ≫= f).
Proof. intros Hp Hf. apply calls_prog_bind; [done|]. intros []; [apply Hf|apply calls_ret..]. Qed.
Lemma calls_attempt {E F A} (p : io E A) : calls P p -> calls P (attempt (F := F) p).
Proof. intros Hp W h w. rewrite trace_attempt. apply Hp. Qed.
Lemma calls_fmap {E A B} (f : A -> B) (p : io E A) : calls P p -> calls P (f <$> p).
Proof. intros Hp. apply calls_prog_bind; [done|]. intros a; apply calls_ret. Qed.
Lemma calls_map_err {E F A} (f : E -> F) (p : io E A) : calls P p -> calls P (io_map_err f p).
Proof. intros Hp W h w. rewrite trace_map_err. apply Hp. Qed.
End calls.

(** Follows a program down to its calls. *)
Ltac calls_step :=
  first [ apply calls_ret | apply calls_os | apply calls_ask | apply calls_attempt
        | apply calls_map_err | apply calls_fmap | apply calls_bind; [|intros ?] | apply calls_prog_bind; [|intros ?] ].

(** ** Streams

    A stream that is drained is a program that gives the list of its items.
    A [Panic] is its last item: the task that polls it has unwound.
    [try_filter_map] is the one with an asynchronous function, [then_items] is
    [and_then]: error items pass through. *)
Fixpoint then_items {E A B} (f : A -> io E B) (l : list (res E A)) : prog (list (res E B)) :=
  match l with
  | [] => Ret []
  | x :: l' =>
      prog_bind (match x with Ok a => f a | Err e => Ret (Err e) | Panic => Ret Panic end) (fun r =>
      match r with
      | Panic => Ret [Panic]
      | r => prog_bind (then_items f l') (fun rs => Ret (r :: rs))
      end)
  end.

(** [try_filter_map] with an asynchronous function: error items pass through,
    an item whose function fails is replaced by the error. *)
Fixpoint try_filter_map {E A B} (f : A -> io E (option B)) (l : list (res E A)) : prog (list (res E B)) :=
  match l with
  | [] => Ret []
  | x :: l' =>
      prog_bind (match x with Ok a => f a | Err e => Ret (Err e) | Panic => Ret Panic end) (fun r =>
      match r with
      | Ok (Some b) => prog_bind (try_filter_map f l') (fun rs => Ret (Ok b :: rs))
      | Ok None => try_filter_map f l'
      | Err e => prog_bind (try_filter_map f l') (fun rs => Ret (Err e :: rs))
      | Panic => Ret [Panic]
      end)
  end.

(** The item that a stream keeps of an optional result, and the items up to
    the first panic. *)
Definition item_of {E A} (r : res E (option A)) : option (res E A) :=
  match r with Ok None => None | Ok (Some a) => Some (Ok a) | Err e => Some (Err e) | Panic => Some Panic end.
Fixpoint until_panic {E A} (l : list (res E A)) : list (res E A) :=
  match l with
  | [] => []
  | Panic :: _ => [Panic]
  | r :: l' => r :: until_panic l'
  end.
Lemma until_panic_all {E A} (l : list (res E A)) : Panic ∉ l -> until_panic l = l.
Proof.
  induction l as [|r l IH]; [done|]. intros Hl. apply not_elem_of_cons in Hl as [Hr Hl].
  destruct r; cbn; [by rewrite IH..|done].
Qed.
Lemma result_try_filter_map {W E A B} (h : handler W) w (f : A -> io E (option B)) l :
  steady h w ->
  result_of h (try_filter_map f l) w = until_panic (omap (fun x => item_of (x ≫= fun a => result_of h (f a) w)) l).
Proof.
  intros Hs. induction l as [|x l IH]; [done|]. cbn [try_filter_map omap list_omap].
  rewrite !result_bind by done. destruct x as [a|e|]; cbn [mbind res_bind];
    rewrite ?result_ret; [destruct (result_of h (f a) w) as [[b|]|e|]|..];
    rewrite ?result_bind, ?IH by done; done.
Qed.

(** [try_filter] with a pure predicate. *)
Definition try_filter {E A} (p : A -> bool) (l : list (res E A)) : list (res E A) :=
  List.filter (fun r => match r with Ok a => p a | _ => true end) l.

(** [Err(Error::last_os_error())], and with [.with_ffi(name)]. *)
Definition last_error {F A} (from : Error -> F) : io F A :=
  e ← ask GetErrno; fails (from (last_os_error e)).
Definition last_ffi_error {F A} (from : Error -> F) (name : string) : io F A :=
  e ← ask GetErrno; fails (from (with_ffi (last_os_error e) (lit name))).

(** ** heim-runtime/src/lib.rs

    A computation on another thread, which is awaited. *)
Definition spawn {R} (f : prog R) : prog R := f.
Definition spawn_blocking {R} (f : prog R) : prog R := f.

(** ** heim-runtime/src/fs.rs *)

Definition path_exists (p : path) : prog bool := os (PathExists p).

Section fs.
Context {E : Type} (from : io_error -> E).

Definition read_to_string (p : path) : io E str :=
  io_map_err from (os (ReadToString p)).

(** [read_into]: the whole file, parsed. *)
Definition read_into {R} (parse : str -> res E R) (p : path) : io E R :=
  s ← read_to_string p; lift (parse s).

Definition read_lines (p : path) : io E (list (io_result str)) :=
  io_map_err from (os (ReadLines p)).

(** [read_lines_into]: the stream of the parsed lines. *)
Definition read_lines_into {R} (parse : str -> res E R) (p : path) : io E (list (res E R)) :=
  ls ← read_lines p;
  mret (map (fun l => map_err from l ≫= parse) ls).

Definition read_first_line (p : path) : io E str :=
  ls ← read_lines p;
  lift match ls with
       | Ok l :: _ => Ok l
       | Err e :: _ => Err (from e)
       | Panic :: _ => Panic
       | [] => Err (from (Simple InvalidData))
       end.
End fs.

(** ** heim-runtime/src/linux.rs

    The roots are process-wide cells that are set once.  The cell is the one
    of the once_cell crate: [get_or_init] gives the value and the new cell. *)
Class OnceCell := {
  cell : Type;
  cell_new : cell;
  get_or_init : cell -> path -> path * cell;
}.
Class OnceCellLaws `{OnceCell} : Prop := {
  get_or_init_new v : fst (get_or_init cell_new v) = v;
  get_or_init_again c v v' : fst (get_or_init (snd (get_or_init c v)) v') = fst (get_or_init c v);
}.

Section roots.
Context `{OnceCell}.

Definition set_procfs_root (root : path) (c : cell) : cell := snd (get_or_init c root).
Definition procfs_root_cell (c : cell) : path * cell := get_or_init c (lit "/proc").
Definition set_sysfs_root (root : path) (c : cell) : cell := snd (get_or_init c root).
Definition sysfs_root_cell (c : cell) : path * cell := get_or_init c (lit "/sys").
End roots.

Definition option_cell : OnceCell := {|
  cell := option path;
  cell_new := None;
  get_or_init c v := match c with Some p => (p, c) | None => (v, Some v) end;
|}.
Lemma option_cell_laws : @OnceCellLaws option_cell.
Proof. split; [done|]. by intros [p|] v v'. Qed.

(** The roots that a program runs with: once read they stay the same. *)
Class Roots := { procfs_root : path; sysfs_root : path }.
Definition default_roots : Roots := {| procfs_root := lit "/proc"; sysfs_root := lit "/sys" |}.
