(* ===== verification/Ownership.v ===== *)
(** * Who owns what the system gave out

    Handles, ports and kernel objects must be used only while they are open,
    and be given back exactly once.  A [Ledger] is an abstract account of what
    is open: which calls it permits, how each call changes it, and what it
    means to hold, gain and lose an entry.  [Accounts] says that a handler
    keeps such an account.  [keeps P p] is the contract of a program: from
    every account that satisfies [P] it makes only permitted calls and leaves
    the account as it found it - whatever the system answers.  The rules
    follow a program down to its calls; WinHandles instantiates them with the
    handle table of Windows, MacPorts with the ports and objects of macOS. *)

From S2P Require Import Prelude RustStr RustFloat Errors Sys.

Class Ledger (T K V : Type) := {
  account_step {R} : call R -> R -> T -> T -> Prop;
  allowed {R} : call R -> T -> Prop;
  held : K -> V -> T -> Prop;
  gains : K -> V -> T -> T -> Prop;
  loses : K -> V -> T -> T -> Prop;
}.
#[export] Hint Mode Ledger ! - - : typeclass_instances.
#[export] Hint Mode Ledger - - ! : typeclass_instances.
Class LedgerLaws (T K V : Type) `{Ledger T K V} : Prop := {
  gains_held (k : K) (v : V) (t t' : T) : gains k v t t' -> held k v t';
  gains_loses (k : K) (v : V) (t t1 t2 : T) : gains k v t t1 -> loses k v t1 t2 -> t2 = t;
}.

Class Accounts {T K V} `{Ledger T K V} {W} (h : handler W) (table_of : W -> T) : Prop :=
  handle_step R (c : call R) w : account_step c (fst (h R c w)) (table_of w) (table_of (snd (h R c w))).

Lemma snd_exec_bind {W A B} (h : handler W) (p : prog A) (f : A -> prog B) w :
  snd (exec h (prog_bind p f) w) = snd (exec h (f (fst (exec h p w))) (snd (exec h p w))).
Proof. rewrite exec_bind. by destruct (exec h p w). Qed.
Lemma fst_exec_bind {W A B} (h : handler W) (p : prog A) (f : A -> prog B) w :
  fst (exec h (prog_bind p f) w) = fst (exec h (f (fst (exec h p w))) (snd (exec h p w))).
Proof. rewrite exec_bind. by destruct (exec h p w). Qed.

(** The rest of a program whose first part returns a value. *)
Lemma exec_ok_bind {W E A B} (h : handler W) (p : io E A) (f : A -> io E B) w a :
  fst (exec h p w) = Ok a -> exec h (p ≫= f) w = exec h (f a) (snd (exec h p w)).
Proof.
  intros Hp. unfold mbind, io_bind. rewrite exec_bind.
  destruct (exec h p w) as [r w1]. cbn in *. by subst.
Qed.

Section respects.
Context {T K V : Type} `{Ledger T K V} {W : Type} (h : handler W) (table_of : W -> T).

(** Every call of a run is allowed where it is made. *)
Fixpoint respects {A} (p : prog A) (w : W) : Prop :=
  match p with
  | Ret _ => True
  | Do c k => allowed c (table_of w) /\ let '(r, w') := h _ c w in respects (k r) w'
  end.

Lemma respects_bind {A B} (p : prog A) (f : A -> prog B) w :
  respects (prog_bind p f) w <->
  respects p w /\ respects (f (fst (exec h p w))) (snd (exec h p w)).
Proof.
  revert w. induction p as [a|R c k IH]; intros w; cbn; [tauto|].
  destruct (h R c w) as [r w']. rewrite IH. tauto.
Qed.

Lemma respects_ok_bind {E A B} (p : io E A) (f : A -> io E B) w a :
  fst (exec h p w) = Ok a ->
  (respects (p ≫= f) w <-> respects p w /\ respects (f a) (snd (exec h p w))).
Proof. intros Hp. unfold mbind, io_bind. by rewrite respects_bind, Hp. Qed.
End respects.

(** ** Contracts *)

Section contracts.
Context {T K V : Type} `{Ledger T K V}.

(** From an account with [P], [p] makes permitted calls and ends with an
    account that is [F] of its result and the first one. *)
Definition hoare {A} (P : T -> Prop) (p : prog A) (F : A -> T -> T -> Prop) : Prop :=
  forall W (h : handler W) table_of (_ : Accounts h table_of) w, P (table_of w) ->
  respects h table_of p w /\
  F (fst (exec h p w)) (table_of w) (table_of (snd (exec h p w))).

Definition keeps {A} (P : T -> Prop) (p : prog A) : Prop := hoare P p (fun _ t t' => t' = t).
(** [p] gives the entry back, and does nothing else. *)
Definition gives_back {A} (P : T -> Prop) (k : K) (v : V) (p : prog A) : Prop :=
  hoare P p (fun _ t t' => loses k v t t').
(** [p] opens what its result has, if it has something. *)
Definition opens_from {A} (P : T -> Prop) (v : V) (get : A -> option K) (p : prog A) : Prop :=
  hoare P p (fun a t t' => match get a with Some k => gains k v t t' | None => t' = t end).
Definition opens {A} : V -> (A -> option K) -> prog A -> Prop := opens_from (fun _ => True).
(** The call that gives an entry back. *)
Definition releases {R} (c : call R) (k : K) (v : V) : Prop :=
  forall t : T, held k v t -> allowed c t /\ forall r (t' : T), account_step c r t t' -> loses k v t t'.
End contracts.

(** What a program leaves, whether or not its calls are permitted: for the
    programs that break the rules of a ledger. *)
Section leaves.
Context {T K V : Type} `{Ledger T K V}.

Definition leaves {A} (P : T -> Prop) (p : prog A) (F : A -> T -> T -> Prop) : Prop :=
  forall W (h : handler W) table_of (_ : Accounts h table_of) w, P (table_of w) ->
  F (fst (exec h p w)) (table_of w) (table_of (snd (exec h p w))).

Lemma leaves_ret {A} (P : T -> Prop) (a : A) (F : A -> T -> T -> Prop) :
  (forall t, P t -> F a t t) -> leaves P (Ret a) F.
Proof. intros HF W h table_of Ht w Hw. by apply HF. Qed.

Lemma leaves_prog_bind {A B} (P : T -> Prop) (Q : A -> T -> T -> Prop) (p : prog A) (f : A -> prog B)
    (F : B -> T -> T -> Prop) :
  leaves P p Q ->
  (forall a t, P t -> leaves (Q a t) (f a) (fun b _ t' => F b t t')) -> leaves P (prog_bind p f) F.
Proof.
  intros Hp Hf W h table_of Ht w Hw. rewrite fst_exec_bind, snd_exec_bind.
  apply (Hf _ _ Hw W h table_of Ht). by apply (Hp W h table_of Ht).
Qed.

Lemma leaves_os {R} (P : T -> Prop) (c : call R) : leaves P (os c) (fun r => account_step c r).
Proof.
  intros W h table_of Ht w Hw. pose proof (Ht R c w) as Hstep. cbn. by destruct (h R c w) as [r w'].
Qed.

Lemma leaves_ask {E R A} (P : T -> Prop) (c : call R) (f : R -> io E A) (F : res E A -> T -> T -> Prop) :
  (forall r t, P t -> leaves (account_step c r t) (f r) (fun b _ t' => F b t t')) -> leaves P (ask c ≫= f) F.
Proof. intros Hf. change (ask c ≫= f) with (prog_bind (os c) f). apply (leaves_prog_bind P _ _ _ _ (leaves_os P c) Hf). Qed.

Lemma leaves_bind {E A B} (P : T -> Prop) (Q : res E A -> T -> T -> Prop) (G : res E B -> T -> T -> Prop)
    (p : io E A) (f : A -> io E B) :
  leaves P p Q ->
  (forall a t, P t -> leaves (Q (Ok a) t) (f a) (fun b _ t' => G b t t')) ->
  (forall e t t', P t -> Q (Err e) t t' -> G (Err e) t t') ->
  (forall t t', P t -> Q Panic t t' -> G Panic t t') -> leaves P (p ≫= f) G.
Proof.
  intros Hp Hf He Hpanic. apply (leaves_prog_bind P Q); [done|].
  intros [a|e|] t Ht; [by apply Hf|apply leaves_ret; intros t'; by auto..].
Qed.

Lemma leaves_weaken {A} (P Q : T -> Prop) (F G : A -> T -> T -> Prop) (p : prog A) :
  leaves Q p F -> (forall t, P t -> Q t) -> (forall a t t', P t -> F a t t' -> G a t t') -> leaves P p G.
Proof. intros Hp HPQ HFG W h table_of Ht w Hw. apply HFG; [done|]. by apply Hp, HPQ. Qed.
(** A fact that does not depend on the state. *)
Lemma leaves_pure {A} (P : T -> Prop) (fact : Prop) (F : A -> T -> T -> Prop) (p : prog A) :
  (fact -> leaves P p F) -> leaves (fun t => P t /\ fact) p F.
Proof. intros Hp W h table_of Ht w [Hw Hf]. by apply Hp. Qed.
End leaves.

Section rules.
Context {T K V : Type} `{LedgerLaws T K V} (P : T -> Prop).

Lemma keeps_ret {A} (a : A) : keeps P (Ret a).
Proof. by intros W h t Ht w Hw. Qed.

Lemma keeps_os {R} (c : call R) :
  (forall t, P t -> allowed c t) -> (forall r (t t' : T), account_step c r t t' -> t' = t) -> keeps P (os c).
Proof.
  intros Ha Hs W h t Ht w Hw. pose proof (Ht R c w) as Hstep. cbn.
  destruct (h R c w) as [r w']. cbn in *. eauto.
Qed.

Lemma keeps_ask {E R} (c : call R) :
  (forall t, P t -> allowed c t) -> (forall r (t t' : T), account_step c r t t' -> t' = t) ->
  keeps P (ask (E := E) c).
Proof.
  intros Ha Hs W h t Ht w Hw. pose proof (Ht R c w) as Hstep. cbn.
  destruct (h R c w) as [r w']. cbn in *. eauto.
Qed.

Lemma keeps_prog_bind {A B} (p : prog A) (f : A -> prog B) :
  keeps P p -> (forall a, keeps P (f a)) -> keeps P (prog_bind p f).
Proof.
  intros Hp Hf W h t Ht w Hw. rewrite respects_bind, snd_exec_bind.
  destruct (Hp W h t Ht w Hw) as [Hr Ht']. rewrite <- Ht' in Hw.
  destruct (Hf (fst (exec h p w)) W h t Ht _ Hw) as [Hr' Ht'']. by rewrite Ht'', Ht'.
Qed.

Lemma keeps_bind {E A B} (p : io E A) (f : A -> io E B) :
  keeps P p -> (forall a, keeps P (f a)) -> keeps P (p ≫= f).
Proof. intros Hp Hf. apply keeps_prog_bind; [done|]. intros []; [apply Hf|apply keeps_ret..]. Qed.
Lemma keeps_attempt {E F A} (p : io E A) : keeps P p -> keeps P (attempt (F := F) p).
Proof. intros Hp. apply keeps_prog_bind; [done|]. intros []; apply keeps_ret. Qed.
Lemma keeps_map_err {E F A} (f : E -> F) (p : io E A) : keeps P p -> keeps P (io_map_err f p).
Proof. intros Hp. apply keeps_prog_bind; [done|]. intros a; apply keeps_ret. Qed.
Lemma keeps_fmap {E A B} (f : A -> B) (p : io E A) : keeps P p -> keeps P (f <$> p).
Proof. intros Hp. apply keeps_prog_bind; [done|]. intros a; apply keeps_ret. Qed.

(** What is opened is used and given back. *)
Lemma keeps_opened_in {A B} v (get : A -> option K) (Q : K -> T -> Prop) (p : prog A) (f : A -> prog B) :
  opens_from P v get p -> (forall k (t t' : T), P t -> gains k v t t' -> Q k t') ->
  (forall a, match get a with Some k => gives_back (Q k) k v (f a) | None => keeps P (f a) end) ->
  keeps P (prog_bind p f).
Proof.
  intros Hp HQ Hf W h t Ht w Hw. rewrite respects_bind, snd_exec_bind.
  destruct (Hp W h t Ht w Hw) as [Hr Ho]. specialize (Hf (fst (exec h p w))).
  destruct (get (fst (exec h p w))) as [k|].
  - destruct (Hf W h t Ht (snd (exec h p w))) as [Hr' Hd]; [by eapply HQ|].
    split; [done|]. by eapply gains_loses.
  - rewrite <- Ho in Hw. destruct (Hf W h t Ht _ Hw) as [Hr' Hd]. split; [done|congruence].
Qed.

Lemma opens_any {A} v (get : A -> option K) (p : prog A) : opens v get p -> opens_from P v get p.
Proof. intros Hp W h t Ht w _. by apply Hp. Qed.

Lemma keeps_opened {A B} (v : V) (get : A -> option K) (p : prog A) (f : A -> prog B) :
  opens v get p ->
  (forall a, match get a with Some k => gives_back (held k v) k v (f a) | None => keeps P (f a) end) ->
  keeps P (prog_bind p f).
Proof. intros Hp. apply (keeps_opened_in v get (fun k => held k v)); [by apply opens_any|]. intros k t t' _. apply gains_held. Qed.

Lemma gives_back_bind_in {E A B} (Q : T -> Prop) k v (p : io E A) (f : A -> io E B) :
  gives_back P k v p -> (forall t t', P t -> loses k v t t' -> Q t') ->
  (forall a, keeps Q (f a)) -> gives_back P k v (p ≫= f).
Proof.
  intros Hp HQ Hf W h t Ht w Hw. unfold mbind, io_bind. rewrite respects_bind, snd_exec_bind.
  destruct (Hp W h t Ht w Hw) as [Hr Hd]. destruct (fst (exec h p w)) as [a|e|]; [|done..].
  destruct (Hf a W h t Ht (snd (exec h p w))) as [Hr' Hd']; [by eapply HQ|]. by rewrite Hd'.
Qed.
Lemma gives_back_bind {E A B} k v (p : io E A) (f : A -> io E B) :
  gives_back P k v p -> (forall a, keeps (fun _ : T => True) (f a)) -> gives_back P k v (p ≫= f).
Proof. intros Hp. by apply gives_back_bind_in. Qed.
Lemma gives_back_attempt {E F A} k v (p : io E A) :
  gives_back P k v p -> gives_back P k v (attempt (F := F) p).
Proof.
  intros Hp W h t Ht w Hw. unfold attempt. rewrite respects_bind, snd_exec_bind.
  destruct (Hp W h t Ht w Hw) as [Hr Hd]. by destruct (fst (exec h p w)).
Qed.

(** The drop at the end of a scope, whatever is made of the answer. *)
Lemma gives_back_drop {R A B} (c : call R) k v (body : prog A) (rest : A -> R -> prog B) :
  releases c k v -> (forall t, P t -> held k v t) -> keeps P body ->
  (forall a r, keeps (fun _ : T => True) (rest a r)) ->
  gives_back P k v (prog_bind body (fun a => prog_bind (os c) (rest a))).
Proof.
  intros Hc HP Hb Hrest W h t Ht w Hw. rewrite respects_bind, snd_exec_bind.
  destruct (Hb W h t Ht w Hw) as [Hr Hd]. set (a := fst (exec h body w)).
  set (w1 := snd (exec h body w)) in *. rewrite <- Hd in Hw |- *. cbn.
  destruct (Hc _ (HP _ Hw)) as [Hallowed Hlost]. pose proof (Ht _ c w1) as Hstep.
  destruct (h R c w1) as [r w2]. cbn in *.
  destruct (Hrest a r W h t Ht w2 I) as [Hr2 Hd2]. rewrite Hd2. eauto.
Qed.

(** An entry that is given back in the middle of a program. *)
Lemma gives_back_after {E A B} k v (p : io E A) (f : A -> io E B) :
  keeps P p -> (forall a, gives_back P k v (f a)) ->
  (forall W (h : handler W) w, exists a, fst (exec h p w) = Ok a) -> gives_back P k v (p ≫= f).
Proof.
  intros Hp Hf Hok W h t Ht w Hw. unfold mbind, io_bind. rewrite respects_bind, snd_exec_bind.
  destruct (Hp W h t Ht w Hw) as [Hr Hd]. destruct (Hok W h w) as [a ->]. rewrite <- Hd in Hw.
  destruct (Hf a W h t Ht _ Hw) as [Hr' Hd']. by rewrite <- Hd.
Qed.

Lemma gives_back_ask {E R A} (c : call R) k v (f : R -> io E A) :
  releases c k v -> (forall t, P t -> held k v t) -> (forall r, keeps (fun _ : T => True) (f r)) ->
  gives_back P k v (ask c ≫= f).
Proof.
  intros Hc HP Hf W h t Ht w Hw. destruct (Hc _ (HP _ Hw)) as [Hallowed Hlost].
  pose proof (Ht _ c w) as Hstep. cbn. destruct (h R c w) as [r w1]. cbn in *.
  destruct (Hf r W h t Ht w1 I) as [Hr Hd]. rewrite Hd. eauto.
Qed.
End rules.

Section more_rules.
Context {T K V : Type} `{LedgerLaws T K V}.

Lemma keeps_weaken {A} (P Q : T -> Prop) (p : prog A) :
  (forall t, P t -> Q t) -> keeps Q p -> keeps P p.
Proof. intros HPQ Hq W h t Ht w Hw. apply Hq; auto. Qed.

(** A call that opens something answers with it. *)
Lemma opens_os {R} (P : T -> Prop) (c : call R) (v : V) (get : R -> option K) :
  (forall t, P t -> allowed c t) ->
  (forall r (t t' : T), account_step c r t t' ->
     match get r with Some k => gains k v t t' | None => t' = t end) ->
  opens_from P v get (os c).
Proof.
  intros Ha Hs W h table_of Ht w Hw. pose proof (Ht R c w) as Hstep. cbn.
  destruct (h R c w) as [r w']. cbn in *. split; [eauto|]. by apply Hs.
Qed.

(** The rest of a program, from the accounts that an answer leaves. *)
Lemma hoare_ask {E R A} (P : T -> Prop) (c : call R) (f : R -> io E A) (F : res E A -> T -> T -> Prop) :
  (forall t, P t -> allowed c t) ->
  (forall r t, P t -> hoare (fun t' => account_step c r t t') (f r) (fun a _ t' => F a t t')) ->
  hoare P (ask c ≫= f) F.
Proof.
  intros Ha Hf W h table_of Ht w Hw. pose proof (Ht R c w) as Hstep.
  change (ask c ≫= f) with (prog_bind (os c) f).
  rewrite respects_bind, snd_exec_bind, fst_exec_bind. cbn.
  destruct (h R c w) as [r w']. cbn in *.
  destruct (Hf r _ Hw W h table_of Ht w' Hstep) as [Hr HF]. repeat split; auto.
Qed.

(** A program that opens something after others that keep the account. *)
Lemma opens_after {E A B} (P : T -> Prop) (v : V) (get : res E B -> option K) (p : io E A) (f : A -> io E B) :
  (forall e, get (Err e) = None) -> get Panic = None ->
  keeps P p -> (forall a, opens_from P v get (f a)) -> opens_from P v get (p ≫= f).
Proof.
  intros He Hpanic Hp Hf W h t Ht w Hw. unfold mbind, io_bind.
  rewrite respects_bind, snd_exec_bind, fst_exec_bind.
  destruct (Hp W h t Ht w Hw) as [Hr Hd]. rewrite <- Hd in Hw |- *.
  destruct (fst (exec h p w)) as [a|e|]; cbn.
  - by destruct (Hf a W h t Ht _ Hw).
  - by rewrite He.
  - by rewrite Hpanic.
Qed.

(** What a result has. *)
Definition ok_handle {E A} (get : A -> K) (r : res E A) : option K :=
  match r with Ok a => Some (get a) | _ => None end.
Definition attempted_handle {E F A} (get : A -> K) (r : res F (E + A)) : option K :=
  match r with Ok (inr a) => Some (get a) | _ => None end.

Lemma keeps_scope_in {E A B} (P : T -> Prop) (Q : K -> T -> Prop) (v : V) (get : A -> K) (p : io E A) (f : A -> io E B) :
  opens_from P v (ok_handle get) p -> (forall k (t t' : T), P t -> gains k v t t' -> Q k t') ->
  (forall a, gives_back (Q (get a)) (get a) v (f a)) -> keeps P (p ≫= f).
Proof.
  intros Hp HQ Hf. apply (keeps_opened_in P v (ok_handle get) Q); [done..|].
  intros [a|e|]; cbn; [apply Hf|apply keeps_ret..].
Qed.
Lemma keeps_scope {E A B} (P : T -> Prop) (v : V) (get : A -> K) (p : io E A) (f : A -> io E B) :
  opens v (ok_handle get) p -> (forall a, gives_back (held (get a) v) (get a) v (f a)) ->
  keeps P (p ≫= f).
Proof.
  intros Hp. apply (keeps_scope_in P (fun k => held k v)); [by apply opens_any|]. intros k t t' _. apply gains_held.
Qed.

Lemma opens_attempt {E F A} (v : V) (get : A -> K) (p : io E A) :
  opens v (ok_handle get) p -> opens v (attempted_handle get) (attempt (F := F) p).
Proof.
  intros Hp W h t Ht w Hw. unfold attempt. rewrite respects_bind, snd_exec_bind, fst_exec_bind.
  destruct (Hp W h t Ht w I) as [Hr Ho]. by destruct (fst (exec h p w)).
Qed.

Lemma keeps_attempted {E F A B} (P : T -> Prop) (v : V) (get : A -> K) (p : io E A) (f : E + A -> io F B) :
  opens v (ok_handle get) p -> (forall a, gives_back (held (get a) v) (get a) v (f (inr a))) ->
  (forall e, keeps P (f (inl e))) -> keeps P (attempt p ≫= f).
Proof.
  intros Hp Ha He.
  apply (keeps_opened_in P v (attempted_handle get) (fun k => held k v)); [by apply opens_any, opens_attempt| |].
  - intros k t t' _. apply gains_held.
  - intros [[e|a]|e|]; cbn; [apply He|apply Ha|apply keeps_ret..].
Qed.
End more_rules.

(** Follows a program down to its calls; what is held is in the precondition.
    [keeps_call] shows that one call is permitted and changes nothing: each
    ledger defines its own; [keeps_helper] unfolds what it wants followed. *)
Ltac keeps_call := fail.
Ltac keeps_helper := fail.
Ltac keeps_step :=
  match goal with
  | |- keeps _ (Ret _) => apply keeps_ret
  | |- keeps _ (mret _) => apply keeps_ret
  | |- keeps _ (lift _) => apply keeps_ret
  | |- keeps _ (fails _) => apply keeps_ret
  | |- keeps _ (os _) => apply keeps_os; keeps_call
  | |- keeps _ (ask _) => apply keeps_ask; keeps_call
  | |- keeps _ (_ ≫= _) => apply keeps_bind; [|intros ?]
  | |- keeps _ (attempt _) => apply keeps_attempt
  | |- keeps _ (io_map_err _ _) => apply keeps_map_err
  | |- keeps _ (_ <$> _) => apply keeps_fmap
  | |- keeps _ (prog_bind _ _) => apply keeps_prog_bind; [|intros ?]
  | |- keeps _ (match ?x with _ => _ end) => destruct x
  | |- keeps _ (let _ := _ in _) => cbv zeta
  | |- keeps _ _ => keeps_helper
  end.
Ltac keeps_all := repeat keeps_step.

Section streams.
Context {T K V : Type} `{LedgerLaws T K V} (P : T -> Prop).

Lemma keeps_try_filter_map {E A B} (f : A -> io E (option B)) l :
  (forall a, keeps P (f a)) -> keeps P (try_filter_map f l).
Proof. intros Hf. induction l as [|[a|e|] l IH]; cbn [try_filter_map]; keeps_all; done. Qed.
Lemma keeps_then_items {E A B} (f : A -> io E B) l :
  (forall a, keeps P (f a)) -> keeps P (then_items f l).
Proof. intros Hf. induction l as [|[a|e|] l IH]; cbn [then_items]; keeps_all; done. Qed.
End streams.
