(* ===== verification/WinCommon.v ===== *)
(** * heim-common on Windows: handles, times, wide strings, error codes

    heim-common/src/sys/windows, and what the Rust library does on Windows
    with error codes, UTF-16 and paths.  [OsString] and [PathBuf] are their
    16-bit units, as [from_wide] and [encode_wide] convert them. *)

From S2P Require Import Prelude RustStr Layout RustFloat Units Errors WinCalls Sys.

(** ** Error codes and statuses *)

Module winerror.
Definition NO_ERROR : Z := 0.
Definition ERROR_INVALID_FUNCTION : Z := 1.
Definition ERROR_FILE_NOT_FOUND : Z := 2.
Definition ERROR_PATH_NOT_FOUND : Z := 3.
Definition ERROR_ACCESS_DENIED : Z := 5.
Definition ERROR_NO_MORE_FILES : Z := 18.
Definition ERROR_NOT_SUPPORTED : Z := 50.
Definition ERROR_FILE_EXISTS : Z := 80.
Definition ERROR_INVALID_PARAMETER : Z := 87.
Definition ERROR_BROKEN_PIPE : Z := 109.
Definition ERROR_BUFFER_OVERFLOW : Z := 111.
Definition ERROR_INSUFFICIENT_BUFFER : Z := 122.
Definition ERROR_ALREADY_EXISTS : Z := 183.
Definition ERROR_NO_DATA : Z := 232.
Definition ERROR_PARTIAL_COPY : Z := 299.
Definition ERROR_OPERATION_ABORTED : Z := 995.
Definition ERROR_PRIVILEGE_NOT_HELD : Z := 1314.
Definition WSAEACCES : Z := 10013.
End winerror.

Module ntstatus.
Definition STATUS_SUCCESS : Z := 0.
Definition STATUS_INFO_LENGTH_MISMATCH : Z := -1073741820.
Definition STATUS_BUFFER_TOO_SMALL : Z := -1073741789.
Definition FACILITY_NT_BIT : Z := 268435456.
End ntstatus.

(** [decode_error_kind] of [std] on Windows, for the codes of files and of
    processes; a socket code other than [WSAEACCES] is not told apart. *)
Definition win_decode_error_kind (c : Z) : error_kind :=
  if (c =? winerror.ERROR_ACCESS_DENIED)%Z then PermissionDenied
  else if ((c =? winerror.ERROR_ALREADY_EXISTS) || (c =? winerror.ERROR_FILE_EXISTS))%Z then AlreadyExists
  else if ((c =? winerror.ERROR_BROKEN_PIPE) || (c =? winerror.ERROR_NO_DATA))%Z then BrokenPipe
  else if ((c =? winerror.ERROR_FILE_NOT_FOUND) || (c =? winerror.ERROR_PATH_NOT_FOUND))%Z then NotFound
  else if (c =? winerror.ERROR_INVALID_PARAMETER)%Z then InvalidInput
  else if (c =? winerror.ERROR_OPERATION_ABORTED)%Z then TimedOut
  else if (c =? winerror.WSAEACCES)%Z then PermissionDenied
  else Other.
Definition win_kind (e : Error) : error_kind :=
  match source e with
  | Os c => win_decode_error_kind c
  | Simple k => k
  | Custom k _ => k
  end.

(** ** handle.rs *)

Definition handle_new {E} (h : HANDLE) : res E HANDLE :=
  if (h =? INVALID_HANDLE_VALUE)%Z then Panic else Ok h.

(** The rest of the scope that owns the handle, then its [Drop]: the scope
    may return early or unwind, the handle is closed all the same, and an
    answer of 0 fails the assertion. *)
Definition with_handle {E A} (h : HANDLE) (body : io E A) : io E A :=
  prog_bind body (fun r =>
    prog_bind (os (Win (CloseHandle h))) (fun result => Ret (if (result =? 0)%Z then Panic else r))).

(** [close] takes [self], which is dropped at its end. *)
Definition handle_close (h : HANDLE) : io Error () :=
  with_handle h (
    result ← ask (Win (CloseHandle h));
    if (result =? 0)%Z then last_ffi_error id "Closehandle" else mret ()).

(** ** time.rs *)

Section time.
Context `{Units}.

Definition HI_T : float := f_of_decimal 53 1024 false 4294967296 (-7).
Definition LO_T : float := f_of_decimal 53 1024 false 1 (-7).

Definition filetime_into_time (t : FILETIME) : Time :=
  let low := f64_mul LO_T (f64_of_int (dwLowDateTime t)) in
  let value := f64_mul_add HI_T (f64_of_int (dwHighDateTime t)) low in
  time_second value.

Definition large_integer_into_time (t : LARGE_INTEGER) : Time :=
  let low := f64_mul LO_T (f64_of_int (LowPart t)) in
  let value := f64_mul_add HI_T (f64_of_int (HighPart t)) low in
  time_second value.

(** The seconds between the epochs of Windows and of Unix. *)
Definition unix_epoch_delta : Time := time_second (f64_of_int 11644473600).
End time.

(** ** Wide strings *)

Definition is_high_surrogate (u : Z) : bool := ((55296 <=? u) && (u <? 56320))%Z.
Definition is_low_surrogate (u : Z) : bool := ((56320 <=? u) && (u <? 57344))%Z.

(** [char::decode_utf16]; [None] is an unpaired surrogate. *)
Fixpoint decode_utf16 (units : wide) : list (option Z) :=
  match units with
  | [] => []
  | u :: rest =>
      if is_high_surrogate u then
        match rest with
        | v :: rest' =>
            if is_low_surrogate v
            then Some (65536 + (u - 55296) * 1024 + (v - 56320))%Z :: decode_utf16 rest'
            else None :: decode_utf16 rest
        | [] => [None]
        end
      else if is_low_surrogate u then None :: decode_utf16 rest
      else Some u :: decode_utf16 rest
  end.

Definition utf8_encode (c : Z) : str :=
  map of_code
    (if (c <? 128)%Z then [c]
     else if (c <? 2048)%Z then [192 + c / 64; 128 + c mod 64]%Z
     else if (c <? 65536)%Z then [224 + c / 4096; 128 + c / 64 mod 64; 128 + c mod 64]%Z
     else [240 + c / 262144; 128 + c / 4096 mod 64; 128 + c / 64 mod 64; 128 + c mod 64]%Z).

(** [String::from_utf16_lossy], and [to_string_lossy] of an [OsString]. *)
Definition from_utf16_lossy (units : wide) : str :=
  concat (map (fun c => match c with Some c => utf8_encode c | None => REPLACEMENT end)
              (decode_utf16 units)).

(** [chars.iter().position(|c| *c == 0).unwrap_or(0)]: without a null there
    is nothing before it. *)
Definition first_null (chars : wide) : nat :=
  default 0%nat (fst <$> list_find (fun c => c = 0%Z) chars).
Definition up_to_null (chars : wide) : wide := take (first_null chars) chars.

(** The units that lie in a buffer of [u16], and the bytes of units. *)
Fixpoint units_of (bytes : str) : wide :=
  match bytes with
  | lo :: hi :: rest => (code lo + 256 * code hi)%Z :: units_of rest
  | _ => []
  end.
Definition wide_bytes (units : wide) : str := concat (map (uint_bytes 2) units).

Lemma length_wide_bytes units : length (wide_bytes units) = 2 * length units.
Proof.
  unfold wide_bytes. induction units as [|u units IH]; [done|]. cbn [map concat length].
  rewrite length_app, length_uint_bytes, IH. lia.
Qed.
Lemma units_of_wide_bytes units : Forall (fun u => 0 <= u < 65536)%Z units -> units_of (wide_bytes units) = units.
Proof.
  intros Hu. induction Hu as [|u units Hu Hus IH]; [done|].
  pose proof (le_bytes_ok 2 u) as [_ Hr]. pose proof (le_bytes_value 2 u) as Hv.
  rewrite Z.mod_small in Hv by done. unfold wide_bytes in *. cbn [map concat].
  pose proof (code_bytes (le_bytes 2 u) Hr) as Hc. unfold uint_bytes. cbn [le_bytes map app units_of] in *.
  injection Hc as -> ->. cbn [of_le_bytes] in Hv. f_equal; [lia|exact IH].
Qed.

Lemma up_to_null_app (s rest : wide) : 0%Z ∉ s -> up_to_null (s ++ 0%Z :: rest) = s.
Proof.
  intros Hs. unfold up_to_null, first_null.
  assert (Hf : list_find (fun c => c = 0%Z) (s ++ 0%Z :: rest) = Some (length s, 0%Z)).
  { apply list_find_app_Some. right. split; [done|split].
    - apply list_find_None, Forall_forall. intros x Hx ->. done.
    - cbn. by rewrite Nat.sub_diag. }
  rewrite Hf. cbn. apply take_app_length.
Qed.

(** ** [Path::file_name] *)

Definition BACKSLASH : Z := 92.
Definition win_sep (verbatim : bool) (u : Z) : bool :=
  (u =? BACKSLASH)%Z || (negb verbatim && (u =? 47)%Z).
Definition wide_lit (s : string) : wide := map code (lit s).

Fixpoint split_sep (verbatim : bool) (w : wide) : list wide :=
  match w with
  | [] => [[]]
  | u :: w' =>
      if win_sep verbatim u then [] :: split_sep verbatim w'
      else match split_sep verbatim w' with
           | p :: ps => (u :: p) :: ps
           | [] => [[u]]
           end
  end.
Definition first_part (verbatim : bool) (w : wide) : nat :=
  match split_sep verbatim w with p :: _ => length p | [] => O end.
Definition wide_alpha (u : Z) : bool := ((65 <=? u) && (u <=? 90) || (97 <=? u) && (u <=? 122))%Z.
Definition is_drive (w : wide) : bool :=
  match w with u :: c :: _ => wide_alpha u && (c =? 58)%Z | _ => false end.

(** The two parts of a share: their lengths with the separator between. *)
Definition two_parts (verbatim : bool) (w : wide) : nat * nat :=
  let server := first_part verbatim w in
  (server, first_part verbatim (drop (S server) w)).

(** The length of the prefix, and whether it is a verbatim one. *)
Definition win_prefix (p : wide) : nat * bool :=
  if decide (wide_lit "\\?\UNC\" `prefix_of` p) then
    let '(server, share) := two_parts true (drop 8 p) in
    (8 + server + (if decide (share = 0) then 0 else S share), true)
  else if decide (wide_lit "\\?\" `prefix_of` p) then
    let rest := drop 4 p in
    (if is_drive rest && bool_decide (first_part true rest = 2) then 6
     else 4 + first_part true rest, true)
  else if decide (wide_lit "\\.\" `prefix_of` p) then (4 + first_part true (drop 4 p), false)
  else if decide (wide_lit "\\" `prefix_of` p) then
    let '(server, share) := two_parts false (drop 2 p) in
    (if decide (server = 0 \/ share = 0) then 0 else 2 + server + S share, false)
  else if is_drive p then (2, false)
  else (0, false).

Definition win_file_name (p : wide) : option wide :=
  let '(n, verbatim) := win_prefix p in
  let parts := List.filter (fun c => bool_decide (c <> [] /\ (verbatim = true \/ c <> wide_lit ".")))
                 (split_sep verbatim (drop n p)) in
  match last parts with
  | Some c => if decide (c = wide_lit ".." \/ c = wide_lit ".") then None else Some c
  | None => None
  end.

(** ** [Vec::reserve]: room for [additional] elements of [size] bytes after the
    [len] that the vector holds, and at least twice the room when it has to
    grow; the first room is not tiny. *)
Definition min_non_zero_cap (size : Z) : Z :=
  if (size =? 1)%Z then 8 else if (size <=? 1024)%Z then 4 else 1.
Definition vec_reserve (size len capacity additional : Z) : Z :=
  if (additional <=? capacity - len)%Z then capacity
  else Z.max (min_non_zero_cap size) (Z.max (2 * capacity) (len + additional)).

Example file_name_drive : win_file_name (wide_lit "C:\Windows\cmd.exe") = Some (wide_lit "cmd.exe").
Proof. by vm_compute. Qed.
Example file_name_share : win_file_name (wide_lit "\\host\share") = None.
Proof. by vm_compute. Qed.
Example file_name_verbatim : win_file_name (wide_lit "\\?\C:\a/b") = Some (wide_lit "a/b").
Proof. by vm_compute. Qed.
