(* ===== verification/Streams.v ===== *)
(** * heim-common/src/utils: fallible iterators and [choose_chain]

    An iterator over parsed text is the list of the items it still has; a
    step gives the item and the iterator after it.  A [futures] stream is a
    state with a [poll_next] function, which may answer [Pending]. *)

From S2P Require Import Prelude RustStr RustFloat Errors.

(** ** utils/iter.rs *)

Module Iter.
Section iter.
Context {I : Type}.

Definition next (it : list I) : option I * list I :=
  match it with [] => (None, []) | x :: it' => (Some x, it') end.

(** [TryIterator::try_next]. *)
Definition try_next (it : list I) : result (I * list I) :=
  match it with
  | [] => Err (from_io (Simple InvalidData))
  | x :: it' => Ok (x, it')
  end.

(** [TryIterator::try_from_next], for a conversion [f] with error [E]. *)
Definition try_from_next {R E} (f : I -> res E R) (from : E -> Error)
    (it : list I) : result (R * list I) :=
  '(value, it') ← try_next it;
  r ← map_err from (f value);
  Ok (r, it').
End iter.

(** [ParseIterator::try_parse_next], for a [FromStr] with error [E]. *)
Definition try_parse_next {R E} (from_str : str -> res E R) (from : E -> Error)
    (it : list str) : result (R * list str) :=
  '(value, it') ← try_next it;
  r ← map_err from (from_str value);
  Ok (r, it').

Definition try_parse_u64 : list str -> result (Z * list str) :=
  try_parse_next parse_u64 from_parse_int.
Definition try_parse_u32 : list str -> result (Z * list str) :=
  try_parse_next parse_u32 from_parse_int.
Definition try_parse_i64 : list str -> result (Z * list str) :=
  try_parse_next parse_i64 from_parse_int.
Definition try_parse_i32 : list str -> result (Z * list str) :=
  try_parse_next parse_i32 from_parse_int.

Section parse_lemmas.
Local Open Scope Z_scope.

Lemma try_parse_u64_show z it :
  0 <= z < 2 ^ 64 -> try_parse_u64 (show_int z :: it) = Ok (z, it).
Proof. intros Hz. unfold try_parse_u64, try_parse_next. cbn. by rewrite parse_u64_show. Qed.
Lemma try_parse_u32_show z it :
  0 <= z < 2 ^ 32 -> try_parse_u32 (show_int z :: it) = Ok (z, it).
Proof. intros Hz. unfold try_parse_u32, try_parse_next. cbn. by rewrite parse_u32_show. Qed.
Lemma try_parse_i64_show z it :
  - 2 ^ 63 <= z < 2 ^ 63 -> try_parse_i64 (show_int z :: it) = Ok (z, it).
Proof. intros Hz. unfold try_parse_i64, try_parse_next. cbn. by rewrite parse_i64_show. Qed.
Lemma try_parse_i32_show z it :
  - 2 ^ 31 <= z < 2 ^ 31 -> try_parse_i32 (show_int z :: it) = Ok (z, it).
Proof. intros Hz. unfold try_parse_i32, try_parse_next. cbn. by rewrite parse_i32_show. Qed.

Lemma try_parse_next_not_panic {R E} (f : str -> res E R) from it :
  (forall s, f s <> Panic) -> try_parse_next f from it <> Panic.
Proof.
  intros Hf. unfold try_parse_next. destruct it as [|s it]; cbn; [done|].
  specialize (Hf s). by destruct (f s).
Qed.
Lemma try_parse_u64_not_panic it : try_parse_u64 it <> Panic.
Proof. apply try_parse_next_not_panic, parse_unsigned_not_panic. Qed.
Lemma try_parse_u32_not_panic it : try_parse_u32 it <> Panic.
Proof. apply try_parse_next_not_panic, parse_unsigned_not_panic. Qed.
Lemma try_parse_i64_not_panic it : try_parse_i64 it <> Panic.
Proof. apply try_parse_next_not_panic, parse_int_not_panic. Qed.
Lemma try_parse_i32_not_panic it : try_parse_i32 it <> Panic.
Proof. apply try_parse_next_not_panic, parse_int_not_panic. Qed.
End parse_lemmas.
End Iter.

#[export] Hint Rewrite Iter.try_parse_u64_show Iter.try_parse_u32_show
  Iter.try_parse_i64_show Iter.try_parse_i32_show using lia : heim_rw.

(** ** utils/stream/choose_chain.rs *)

Inductive poll (A : Type) : Type :=
| Pending
| Ready (a : A).
Arguments Pending {_}.
Arguments Ready {_} _.

(** What [poll_next] of a stream with items [A] and state [S] does. *)
Definition poll_fn (S A : Type) : Type := S -> poll (option A) * S.

(** A consumer that polls until the end gets the items [l]. *)
Inductive drains {S A} (p : poll_fn S A) : S -> list A -> S -> Prop :=
| drains_pending s s' l t : p s = (Pending, s') -> drains p s' l t -> drains p s l t
| drains_item s s' x l t : p s = (Ready (Some x), s') -> drains p s' l t -> drains p s (x :: l) t
| drains_end s s' : p s = (Ready None, s') -> drains p s [] s'.

Lemma drains_fun {S A} (p : poll_fn S A) s l t l' t' :
  drains p s l t -> drains p s l' t' -> l = l' /\ t = t'.
Proof.
  intros H. revert l' t'.
  induction H as [s s' l t Hp H IH|s s' x l t Hp H IH|s s' Hp]; intros l' t' H';
    inversion H'; subst; rewrite_same; try done.
  - eauto.
  - edestruct IH as [-> ->]; eauto.
Qed.

Module ChooseChain.
Section choose_chain.
Context {St1 St2 A : Type}.
Context (poll1 : poll_fn St1 A) (poll2 : poll_fn St2 A).

Record t := mk { first : option St1; first_yielded : bool; second : St2 }.

Definition new (s1 : St1) (s2 : St2) : t := mk (Some s1) false s2.

(** [FusedStream::is_terminated], from the one of the second stream. *)
Definition is_terminated (terminated2 : St2 -> bool) (c : t) : bool :=
  match first c with None => terminated2 (second c) | Some _ => false end.

(** What [poll_next] does once the first stream is gone. *)
Definition poll_second (c : t) : poll (option A) * t :=
  if first_yielded c then (Ready None, mk None (first_yielded c) (second c))
  else let '(r, s2) := poll2 (second c) in (r, mk None (first_yielded c) s2).

Definition poll_next (c : t) : poll (option A) * t :=
  match first c with
  | Some s1 =>
      match poll1 s1 with
      | (Pending, s1') => (Pending, mk (Some s1') (first_yielded c) (second c))
      | (Ready (Some item), s1') => (Ready (Some item), mk (Some s1') true (second c))
      | (Ready None, _) => poll_second c
      end
  | None => poll_second c
  end.

(** The contract of [choose_chain]: the first stream's items when it has
    any, and then the second is never polled; otherwise the second's. *)
Definition chooses (s1 : St1) (s2 : St2) (l : list A) (s2' : St2) : Prop :=
  (exists x l' s1', drains poll1 s1 (x :: l') s1' /\ l = x :: l' /\ s2' = s2)
  \/ (exists s1', drains poll1 s1 [] s1' /\ drains poll2 s2 l s2').

Lemma drain_rest y s1 s2 l s1' :
  drains poll1 s1 l s1' -> (y = true \/ l <> []) ->
  drains poll_next (mk (Some s1) y s2) l (mk None true s2).
Proof.
  intros H. revert y. induction H as [s s' l t Hp H IH|s s' x l t Hp H IH|s s' Hp];
    intros y Hy.
  - eapply drains_pending; [unfold poll_next; cbn; by rewrite Hp|]. by apply IH.
  - eapply drains_item; [unfold poll_next; cbn; by rewrite Hp|]. apply IH. by left.
  - destruct Hy as [->|]; [|done].
    apply drains_end. unfold poll_next, poll_second. cbn. by rewrite Hp.
Qed.

Lemma drain_second s2 l s2' :
  drains poll2 s2 l s2' -> drains poll_next (mk None false s2) l (mk None false s2').
Proof.
  induction 1 as [s s' l t Hp H IH|s s' x l t Hp H IH|s s' Hp].
  - eapply drains_pending; [unfold poll_next, poll_second; cbn; by rewrite Hp|done].
  - eapply drains_item; [unfold poll_next, poll_second; cbn; by rewrite Hp|done].
  - apply drains_end. unfold poll_next, poll_second. cbn. by rewrite Hp.
Qed.

Lemma drain_switch s1 s2 s1' l s2' l1 :
  drains poll1 s1 l1 s1' -> l1 = [] -> drains poll2 s2 l s2' ->
  drains poll_next (mk (Some s1) false s2) l (mk None false s2').
Proof.
  intros H. induction H as [s s' l1 t Hp H IH|s s' x l1 t Hp H IH|s s' Hp];
    intros Hl H2; [|done|].
  - eapply drains_pending; [unfold poll_next; cbn; by rewrite Hp|]. auto.
  - inversion H2 as [? ? ? ? Hp2 Hd2|? ? ? ? ? Hp2 Hd2|? ? Hp2]; subst.
    + eapply drains_pending; [unfold poll_next, poll_second; cbn; by rewrite Hp, Hp2|].
      by apply drain_second.
    + eapply drains_item; [unfold poll_next, poll_second; cbn; by rewrite Hp, Hp2|].
      by apply drain_second.
    + apply drains_end. unfold poll_next, poll_second. cbn. by rewrite Hp, Hp2.
Qed.

(** A drain of the combined stream, followed through the phases. *)
Lemma drain_inv c l c' :
  drains poll_next c l c' ->
  match first c with
  | None => if first_yielded c then l = [] /\ second c' = second c
            else drains poll2 (second c) l (second c')
  | Some s1 => exists l1 s1', drains poll1 s1 l1 s1' /\
      (if first_yielded c || bool_decide (l1 <> []) then l = l1 /\ second c' = second c
       else drains poll2 (second c) l (second c'))
  end.
Proof.
  induction 1 as [c c1 l c' Hp H IH|c c1 x l c' Hp H IH|c c1 Hp];
    destruct c as [[s1|] y s2]; cbn in *; unfold poll_next, poll_second in Hp; cbn in Hp.
  - destruct (poll1 s1) as [[|[x|]] s1'] eqn:E1; simplify_eq/=.
    + destruct IH as (l1 & t & Hd & IH). exists l1, t. split; [by eapply drains_pending|done].
    + exists [], s1'. split; [by apply drains_end|].
      destruct y; [done|]. cbn. destruct (poll2 s2) eqn:E2; simplify_eq/=.
      by eapply drains_pending.
  - destruct y; [done|]. destruct (poll2 s2) eqn:E2; simplify_eq/=. by eapply drains_pending.
  - destruct (poll1 s1) as [[|[z|]] s1'] eqn:E1; simplify_eq/=.
    + destruct IH as (l1 & t & Hd & -> & Hs). exists (x :: l1), t.
      split; [by eapply drains_item|].
      rewrite bool_decide_eq_true_2 by done. by rewrite orb_true_r.
    + exists [], s1'. split; [by apply drains_end|].
      destruct y; [done|]. cbn. destruct (poll2 s2) eqn:E2; simplify_eq/=.
      by eapply drains_item.
  - destruct y; [done|]. destruct (poll2 s2) eqn:E2; simplify_eq/=. by eapply drains_item.
  - destruct (poll1 s1) as [[|[z|]] s1'] eqn:E1; simplify_eq/=.
    exists [], s1'. split; [by apply drains_end|].
    destruct y; simplify_eq/=; [done|].
    destruct (poll2 s2) eqn:E2; simplify_eq/=. by apply drains_end.
  - destruct y; simplify_eq/=; [done|].
    destruct (poll2 s2) eqn:E2; simplify_eq/=. by apply drains_end.
Qed.

(** C3: draining the combined stream gives exactly what the contract says,
    for every pair of streams and however often they are not ready: the
    first stream's items when it yields any, and then the second stream is
    never polled (its state is untouched); otherwise the second's items. *)
Theorem choose_chain_contract s1 s2 l s2' :
  (exists c', drains poll_next (new s1 s2) l c' /\ second c' = s2')
  <-> chooses s1 s2 l s2'.
Proof.
  split.
  - intros (c' & Hd & <-). apply drain_inv in Hd. cbn in Hd.
    destruct Hd as (l1 & s1' & Hd1 & Hd). destruct l1 as [|x l1]; cbn in Hd.
    + right. eauto.
    + destruct Hd as [-> ->]. left. naive_solver.
  - intros [(x & l' & s1' & Hd & -> & ->)|(s1' & Hd1 & Hd2)].
    + eexists. split; [eapply drain_rest; [exact Hd|by right]|done].
    + eexists. split; [by eapply drain_switch|done].
Qed.
End choose_chain.
Arguments t : clear implicits.

(** [HeimStreamExt::choose_chain] of heim-common/src/utils/stream.rs. *)
Definition choose_chain {St1 St2} (self : St1) (other : St2) : t St1 St2 := new self other.
End ChooseChain.
