(* ===== verification/StreamIo.v ===== *)
(** * Streams that call the operating system

    What the streams of futures are as far as heim uses them: a [strm] yields
    items and makes calls, and is not ready while a call is not answered.  The
    combinators are the ones of [StreamExt] and [TryStreamExt]; [drive] is the
    task that polls a stream to its end and lets the calls be answered. *)

From S2P Require Import Prelude RustStr RustFloat Errors Sys Streams.

Inductive strm (A : Type) : Type :=
| SEnd
| SItem (a : A) (s : strm A)
| SCall {R : Type} (c : call R) (k : R -> strm A).
Arguments SEnd {_}.
Arguments SItem {_} _ _.
Arguments SCall {_ _} _ _.

(** [Stream::poll_next]. *)
Definition poll_strm {A} : poll_fn (strm A) A := fun s =>
  match s with
  | SEnd => (Ready None, SEnd)
  | SItem a s' => (Ready (Some a), s')
  | SCall c k => (Pending, SCall c k)
  end.

(** ** Combinators *)

(** A stream behind a future: [TryFutureExt::try_flatten_stream] and the like. *)
Fixpoint strm_await {A B} (p : prog A) (f : A -> strm B) : strm B :=
  match p with
  | Ret a => f a
  | Do c k => SCall c (fun r => strm_await (k r) f)
  end.
Fixpoint strm_list {A} (l : list A) : strm A :=
  match l with [] => SEnd | a :: l' => SItem a (strm_list l') end.
Fixpoint strm_app {A} (s1 s2 : strm A) : strm A :=
  match s1 with
  | SEnd => s2
  | SItem a s => SItem a (strm_app s s2)
  | SCall c k => SCall c (fun r => strm_app (k r) s2)
  end.
(** [StreamExt::map]. *)
Fixpoint strm_map {A B} (f : A -> B) (s : strm A) : strm B :=
  match s with
  | SEnd => SEnd
  | SItem a s => SItem (f a) (strm_map f s)
  | SCall c k => SCall c (fun r => strm_map f (k r))
  end.
(** [try_filter] whose future makes calls. *)
Fixpoint strm_try_filter {E A} (p : A -> prog bool) (s : strm (res E A)) : strm (res E A) :=
  match s with
  | SEnd => SEnd
  | SItem (Ok a) s =>
      strm_await (p a) (fun keep => if keep : bool then SItem (Ok a) (strm_try_filter p s) else strm_try_filter p s)
  | SItem r s => SItem r (strm_try_filter p s)
  | SCall c k => SCall c (fun r => strm_try_filter p (k r))
  end.
(** [and_then(inner).try_flatten()], for an inner stream that is ready. *)
Fixpoint strm_try_flatten {E A B} (f : A -> strm (res E B)) (s : strm (res E A)) : strm (res E B) :=
  match s with
  | SEnd => SEnd
  | SItem (Ok a) s => strm_app (f a) (strm_try_flatten f s)
  | SItem (Err e) s => SItem (Err e) (strm_try_flatten f s)
  | SItem Panic s => SItem Panic (strm_try_flatten f s)
  | SCall c k => SCall c (fun r => strm_try_flatten f (k r))
  end.
(** [and_then]. *)
Fixpoint strm_and_then {E A B} (f : A -> io E B) (s : strm (res E A)) : strm (res E B) :=
  match s with
  | SEnd => SEnd
  | SItem (Ok a) s => strm_await (f a) (fun r => SItem r (strm_and_then f s))
  | SItem (Err e) s => SItem (Err e) (strm_and_then f s)
  | SItem Panic s => SItem Panic (strm_and_then f s)
  | SCall c k => SCall c (fun r => strm_and_then f (k r))
  end.
(** [try_fold]. *)
Fixpoint strm_try_fold {E A B} (f : B -> A -> io E B) (acc : B) (s : strm (res E A)) : io E B :=
  match s with
  | SEnd => mret acc
  | SItem (Ok a) s => acc ← f acc a; strm_try_fold f acc s
  | SItem (Err e) _ => fails e
  | SItem Panic _ => Ret Panic
  | SCall c k => Do c (fun r => strm_try_fold f acc (k r))
  end.

(** [stream::select]: what is next of either stream, as they get ready; a turn
    is [true] for the second, and without turns the first one runs. *)
Fixpoint select {A} (s1 : strm A) : strm A -> list bool -> strm A :=
  fix select_second (s2 : strm A) (turns : list bool) : strm A :=
    match s1, s2 with
    | SEnd, _ => s2
    | _, SEnd => s1
    | _, _ =>
        match turns, s1, s2 with
        | true :: turns, _, SItem b s2' => SItem b (select_second s2' turns)
        | true :: turns, _, SCall c k => SCall c (fun r => select_second (k r) turns)
        | _, SItem a s1', _ => SItem a (select s1' s2 (tail turns))
        | _, SCall c k, _ => SCall c (fun r => select (k r) s2 (tail turns))
        | _, _, _ => SEnd
        end
    end.

(** ** The task *)

(** What the call does that a stream waits for. *)
Definition strm_answered {A} (s : strm A) : option (prog (strm A)) :=
  match s with SCall c k => Some (Do c (fun r => Ret (k r))) | _ => None end.
Definition chain_answered {A} (c : ChooseChain.t (strm A) (strm A)) : option (prog (ChooseChain.t (strm A) (strm A))) :=
  match ChooseChain.first c with
  | Some s1 =>
      option_map (fun p => prog_bind p (fun s1' =>
        Ret (ChooseChain.mk (Some s1') (ChooseChain.first_yielded c) (ChooseChain.second c)))) (strm_answered s1)
  | None =>
      option_map (fun p => prog_bind p (fun s2' =>
        Ret (ChooseChain.mk None (ChooseChain.first_yielded c) s2'))) (strm_answered (ChooseChain.second c))
  end.

(** The items of a stream with this [poll_next], polled to its end or to a
    panic; whenever it is not ready the call it waits for is answered.  [None]:
    the fuel is used up. *)
Fixpoint drive {S E A} (poll : poll_fn S (res E A)) (answered : S -> option (prog S)) (fuel : nat) (s : S)
    : prog (option (list (res E A))) :=
  match fuel with
  | O => Ret None
  | Datatypes.S fuel =>
      match poll s with
      | (Ready None, _) => Ret (Some [])
      | (Ready (Some Panic), _) => Ret (Some [Panic])
      | (Ready (Some item), s') => prog_bind (drive poll answered fuel s') (fun l => Ret (cons item <$> l))
      | (Pending, s') =>
          match answered s' with
          | Some p => prog_bind p (drive poll answered fuel)
          | None => Ret None
          end
      end
  end.

Definition drive_chain {E A} (fuel : nat) (c : ChooseChain.t (strm (res E A)) (strm (res E A))) : prog (option (list (res E A))) :=
  drive (ChooseChain.poll_next poll_strm poll_strm) chain_answered fuel c.

(** ** In a system whose answers do not change *)

(** The lists whose items are those of both, each in its own order. *)
Inductive merges {A} : list A -> list A -> list A -> Prop :=
| merges_nil : merges [] [] []
| merges_first a l1 l2 l : merges l1 l2 l -> merges (a :: l1) l2 (a :: l)
| merges_second a l1 l2 l : merges l1 l2 l -> merges l1 (a :: l2) (a :: l).

Lemma merges_left {A} (l : list A) : merges l [] l.
Proof. induction l; by constructor. Qed.
Lemma merges_right {A} (l : list A) : merges [] l l.
Proof. induction l; by constructor. Qed.
Lemma merges_omap {A B} (f : A -> option B) l1 l2 l : merges l1 l2 l -> merges (omap f l1) (omap f l2) (omap f l).
Proof. induction 1; cbn; [constructor|..]; destruct (f a); solve [by constructor | done]. Qed.
Lemma merges_length {A} (l1 l2 l : list A) : merges l1 l2 l -> length l = length l1 + length l2.
Proof. induction 1; cbn; lia. Qed.

Section system.
Context {W : Type} (h : handler W) (w : W).

(** The items a stream yields, and the calls it makes. *)
Fixpoint items {A} (s : strm A) : list A :=
  match s with
  | SEnd => []
  | SItem a s => a :: items s
  | SCall c k => items (k (fst (h _ c w)))
  end.
Fixpoint asked {A} (s : strm A) : list event :=
  match s with
  | SEnd => []
  | SItem a s => asked s
  | SCall c k => event_of c :: asked (k (fst (h _ c w)))
  end.
Definition polls {A} (s : strm A) : nat := length (asked s) + length (items s).

(** Both, in their order. *)
Fixpoint steps {A} (s : strm A) : list (event + A) :=
  match s with
  | SEnd => []
  | SItem a s => inr a :: steps s
  | SCall c k => inl (event_of c) :: steps (k (fst (h _ c w)))
  end.
Lemma items_steps {A} (s : strm A) : items s = omap (fun x => match x with inr a => Some a | inl _ => None end) (steps s).
Proof. induction s as [|a s IH|R c k IH]; cbn; [done|by rewrite IH|by rewrite IH]. Qed.
Lemma asked_steps {A} (s : strm A) : asked s = omap (fun x => match x with inl e => Some e | inr _ => None end) (steps s).
Proof. induction s as [|a s IH|R c k IH]; cbn; [done|by rewrite IH|by rewrite IH]. Qed.

Lemma select_steps {A} (s1 : strm A) : forall s2 turns, merges (steps s1) (steps s2) (steps (select s1 s2 turns)).
Proof.
  induction s1 as [|a s1 IH1|R c k IH1].
  - intros s2 turns. replace (select SEnd s2 turns) with s2 by (by destruct s2). apply merges_right.
  - induction s2 as [|b s2 IH2|R' c' k' IH2]; intros turns; [apply merges_left|..];
      (destruct turns as [|[] turns]; [apply merges_first, IH1|apply merges_second, IH2|apply merges_first, IH1]).
  - induction s2 as [|b s2 IH2|R' c' k' IH2]; intros turns; [apply merges_left|..];
      (destruct turns as [|[] turns]; [apply merges_first, IH1|apply merges_second, IH2|apply merges_first, IH1]).
Qed.
Lemma select_items {A} (s1 s2 : strm A) turns : merges (items s1) (items s2) (items (select s1 s2 turns)).
Proof. rewrite !items_steps. apply merges_omap, select_steps. Qed.
Lemma select_asked {A} (s1 s2 : strm A) turns : merges (asked s1) (asked s2) (asked (select s1 s2 turns)).
Proof. rewrite !asked_steps. apply merges_omap, select_steps. Qed.
Lemma select_polls {A} (s1 s2 : strm A) turns : polls (select s1 s2 turns) = polls s1 + polls s2.
Proof.
  unfold polls. rewrite (merges_length _ _ _ (select_items s1 s2 turns)), (merges_length _ _ _ (select_asked s1 s2 turns)). lia.
Qed.

Hypothesis Hsteady : steady h w.

(** A run ends with these items; if no item is a panic it makes these calls. *)
Definition yields {E A} (p : prog (option (list (res E A)))) (l : list (res E A)) (calls : list event) : Prop :=
  result_of h p w = Some (until_panic l) /\ (Panic ∉ l -> trace h p w = calls).
Lemma yields_do {E A R} (c : call R) (f : R -> prog (option (list (res E A)))) l calls :
  yields (f (fst (h R c w))) l calls -> yields (Do c f) l (event_of c :: calls).
Proof.
  intros [Hr Ht]. split; [by rewrite (result_do h w Hsteady)|]. intros Hl. specialize (Ht Hl).
  cbn. pose proof (Hsteady R c) as Hc. destruct (h R c w) as [r w']. cbn in *. by subst.
Qed.
Lemma yields_item {E A} (r : res E A) (p : prog (option (list (res E A)))) l calls :
  yields p l calls ->
  yields match r with Panic => Ret (Some [Panic]) | r => prog_bind p (fun l => Ret (cons r <$> l)) end (r :: l) calls.
Proof.
  intros [Hr Ht]. destruct r as [a|e|].
  3: { split; [done|]. intros []%not_elem_of_cons; done. }
  all: split; [by rewrite result_bind, Hr by done|]; intros [_ Hl]%not_elem_of_cons;
    rewrite trace_bind; destruct (exec h p w); cbn; rewrite app_nil_r; auto.
Qed.

Lemma drive_second {E A} (s2 : strm (res E A)) : forall fuel, polls s2 < fuel ->
  yields (drive_chain fuel (ChooseChain.mk None false s2)) (items s2) (asked s2).
Proof.
  unfold polls. induction s2 as [|a s IH|R c k IH]; intros [|fuel] Hf; try (cbn in Hf; lia); [done|..].
  - change (yields match a with Panic => Ret (Some [Panic]) | r =>
      prog_bind (drive_chain fuel (ChooseChain.mk None false s)) (fun l => Ret (cons r <$> l)) end (a :: items s) (asked s)).
    apply yields_item, IH. cbn in Hf. lia.
  - apply (yields_do c (fun r => drive_chain fuel (ChooseChain.mk None false (k r)))), IH. cbn in Hf. lia.
Qed.
Lemma drive_first {E A} (s1 s2 : strm (res E A)) : forall y fuel, polls s1 + polls s2 < fuel ->
  let c := ChooseChain.mk (Some s1) y s2 in
  if y || bool_decide (items s1 <> [])
  then yields (drive_chain fuel c) (items s1) (asked s1)
  else yields (drive_chain fuel c) (items s2) (asked s1 ++ asked s2).
Proof.
  unfold polls at 1. induction s1 as [|a s IH|R c k IH]; intros y [|fuel] Hf; try (cbn in Hf; lia).
  - destruct y; [done|]. cbn [orb items]. rewrite bool_decide_eq_false_2 by tauto.
    apply (drive_second s2 (Datatypes.S fuel)). cbn in Hf. lia.
  - cbn [items]. rewrite bool_decide_eq_true_2, orb_true_r by done.
    change (yields match a with Panic => Ret (Some [Panic]) | r =>
      prog_bind (drive_chain fuel (ChooseChain.mk (Some s) true s2)) (fun l => Ret (cons r <$> l)) end (a :: items s) (asked s)).
    apply yields_item, (IH true). cbn in Hf. lia.
  - assert (Hk := IH (fst (h R c w)) y fuel). cbv zeta in Hk |- *. cbn [items asked] in *.
    destruct (y || _);
      apply (yields_do c (fun r => drive_chain fuel (ChooseChain.mk (Some (k r)) y s2))), Hk; cbn in Hf; lia.
Qed.

(** What the combinators yield. *)
Lemma items_await {A B} (p : prog A) (f : A -> strm B) : items (strm_await p f) = items (f (result_of h p w)).
Proof.
  induction p as [a|R c k IH]; [done|]. rewrite (result_do h w Hsteady). cbn. apply IH.
Qed.
Lemma items_list {A} (l : list A) : items (strm_list l) = l.
Proof. induction l as [|a l IH]; cbn; by rewrite ?IH. Qed.
Lemma items_app {A} (s1 s2 : strm A) : items (strm_app s1 s2) = items s1 ++ items s2.
Proof. induction s1 as [|a s IH|R c k IH]; cbn; by rewrite ?IH. Qed.
Lemma items_map {A B} (f : A -> B) s : items (strm_map f s) = map f (items s).
Proof. induction s as [|a s IH|R c k IH]; cbn; by rewrite ?IH. Qed.
Lemma items_try_filter {E A} (p : A -> prog bool) (s : strm (res E A)) :
  items (strm_try_filter p s) = try_filter (fun a => result_of h (p a) w) (items s).
Proof.
  induction s as [|[a|e|] s IH|R c k IH]; cbn; rewrite ?IH; try done.
  rewrite items_await. destruct (result_of h (p a) w); cbn; by rewrite IH.
Qed.
Lemma items_try_flatten {E A B} (f : A -> strm (res E B)) (s : strm (res E A)) :
  items (strm_try_flatten f s) =
  flat_map (fun r => match r with Ok a => items (f a) | Err e => [Err e] | Panic => [Panic] end) (items s).
Proof. induction s as [|[a|e|] s IH|R c k IH]; cbn; by rewrite ?items_app, ?IH. Qed.
Lemma items_and_then {E A B} (f : A -> io E B) (s : strm (res E A)) :
  items (strm_and_then f s) = map (fun r => r ≫= fun a => result_of h (f a) w) (items s).
Proof. induction s as [|[a|e|] s IH|R c k IH]; cbn; by rewrite ?items_await; cbn; rewrite ?IH. Qed.
End system.
