(* ===== verification/ProcFs.v ===== *)
(** * heim-process on Linux: the procfs parsers

    heim-process/src/sys/linux/process/procfs/*.rs and the environment parser
    heim-process/src/sys/unix/env.rs.  [Stat], [Memory], [IoCounters],
    [Command] and [Environment] are the records that [/proc/<pid>/stat],
    [statm], [io], [cmdline] and [environ] are parsed into. *)

From S2P Require Import Prelude RustStr RustFloat Units Errors Sys Streams.

(** The crate memchr: the first occurrence of a byte. *)
Class Memchr := memchr : byte -> str -> option nat.
Class MemchrLaws `{Memchr} : Prop := {
  memchr_some c s i : memchr c s = Some i -> s !! i = Some c /\ c ∉ take i s;
  memchr_none c s : memchr c s = None -> c ∉ s;
}.

Definition find_byte : Memchr := fun c s => fst <$> list_find (fun x => x = c) s.
Lemma find_byte_laws : @MemchrLaws find_byte.
Proof.
  split; unfold memchr, find_byte; intros c s.
  - intros i Hi. destruct (list_find _ s) as [[j x]|] eqn:Hf; simplify_eq/=.
    apply list_find_Some in Hf as (Hl & -> & Hj). split; [done|].
    intros (k & Hk)%list_elem_of_lookup. apply lookup_take_Some in Hk as [Hk Hki].
    by eapply Hj.
  - destruct (list_find _ s) eqn:Hf; [done|]. intros _ Hin.
    apply list_find_None in Hf. rewrite Forall_forall in Hf. by eapply Hf.
Qed.

Section memchr_facts.
Context `{MemchrLaws}.

Lemma memchr_app c a b : c ∉ a -> memchr c (a ++ c :: b) = Some (length a).
Proof.
  intros Hc. destruct (memchr c (a ++ c :: b)) as [i|] eqn:Hm.
  - apply memchr_some in Hm as [Hl Ht]. f_equal.
    destruct (Nat.lt_trichotomy i (length a)) as [Hi|[->|Hi]]; [|done|].
    + rewrite lookup_app_l in Hl by done. apply list_elem_of_lookup_2 in Hl. done.
    + rewrite take_app_ge in Ht by lia. exfalso. apply Ht, elem_of_app. right.
      destruct (i - length a) eqn:?; [lia|]. cbn. left.
  - apply memchr_none in Hm. set_solver.
Qed.

Lemma memchr_plain c a : c ∉ a -> memchr c a = None.
Proof.
  intros Hc. destruct (memchr c a) as [i|] eqn:Hm; [|done].
  apply memchr_some in Hm as [Hl _]. apply list_elem_of_lookup_2 in Hl. done.
Qed.
End memchr_facts.

(** ** procfs/paths.rs *)

Definition process_file_path `{Roots} (pid : Z) (filename : str) : path :=
  path_join (path_join procfs_root (show_int pid)) filename.

(** ** procfs/stat.rs *)

(** heim-process/src/process/status.rs *)
Inductive Status :=
| Running | Sleeping | Waiting | Zombie | Stopped | Tracing | Dead
| Wakekill | Waking | Parked | Idle.
#[export] Instance status_dec : EqDecision Status.
Proof. solve_decision. Defined.

(** A [char] is its UTF-8 encoding. *)
Definition try_from_char (value : str) : result Status :=
  if decide (value = lit "R") then Ok Running
  else if decide (value = lit "S") then Ok Sleeping
  else if decide (value = lit "D") then Ok Waiting
  else if decide (value = lit "Z") then Ok Zombie
  else if decide (value = lit "T") then Ok Stopped
  else if decide (value = lit "t") then Ok Tracing
  else if decide (value = lit "X" \/ value = lit "x") then Ok Dead
  else if decide (value = lit "K") then Ok Wakekill
  else if decide (value = lit "W") then Ok Waking
  else if decide (value = lit "P") then Ok Parked
  else if decide (value = lit "I") then Ok Idle
  else Err (with_message (from_io (Simple InvalidData)) (lit "Unknown process state " ++ value)).

Record Stat := mkStat {
  pid : Z;
  name : str;
  state : Status;
  ppid : Z;
  create_time : Time;
  utime : Time;
  stime : Time;
  cutime : Time;
  cstime : Time;
}.

(** The statics that are computed on first use (lazy_static): the clock ticks
    per second and the page size. *)
Class Statics := { CLOCK_TICKS : Z; PAGE_SIZE : Z }.

(** heim-common/src/sys/unix.rs: what [CLOCK_TICKS] is initialised from. *)
Definition SC_CLK_TCK : Z := 2.
Definition clock_ticks : io Error Z :=
  result ← ask (Sysconf SC_CLK_TCK);
  if (0 <? result)%Z then mret result
  else e ← ask GetErrno; fails (with_sysconf (last_os_error e) SC_CLK_TCK).

Definition CLOSE : byte := ")"%char.

Section stat.
Context `{Profile, Units, Statics}.

(** [Time::new::<second>(v as f64 / ticks)]. *)
Definition ticks_to_time (v : Z) : Time :=
  time_second (f64_div (f64_of_int v) (f64_of_int CLOCK_TICKS)).

Definition stat_from_str (s : str) : result Stat :=
  let parts := splitn 2 SP s in
  '(pid, parts) ← Iter.try_parse_i32 parts;
  '(leftover, _) ← Iter.try_next parts;
  comm_end ← ok_or (from_io (Simple InvalidData)) (rfind CLOSE leftover);
  name ← str_slice leftover 1 comm_end;
  tail ← str_from leftover (comm_end + 2);
  let parts := split_whitespace tail in
  '(chars, parts) ← Iter.try_next parts;
  chr ← ok_or (from_io (Simple InvalidData)) (chars_next chars);
  state ← try_from_char chr;
  '(ppid, parts) ← Iter.try_parse_i32 parts;
  '(_pgrp, parts) ← Iter.try_parse_i32 parts;
  '(_session_id, parts) ← Iter.try_parse_i32 parts;
  '(_tty_nr, parts) ← Iter.try_parse_i32 parts;
  '(_tpgid, parts) ← Iter.try_parse_i32 parts;
  '(_flags, parts) ← Iter.try_parse_u32 parts;
  '(_minflt, parts) ← Iter.try_parse_u64 parts;
  '(_cminflt, parts) ← Iter.try_parse_u64 parts;
  '(_majflt, parts) ← Iter.try_parse_u64 parts;
  '(_cmajflt, parts) ← Iter.try_parse_u64 parts;
  '(utime, parts) ← Iter.try_parse_u64 parts;
  '(stime, parts) ← Iter.try_parse_u64 parts;
  '(cutime, parts) ← Iter.try_parse_u64 parts;
  '(cstime, parts) ← Iter.try_parse_u64 parts;
  '(_priority, parts) ← Iter.try_parse_i64 parts;
  '(_nice, parts) ← Iter.try_parse_i64 parts;
  '(_num_threads, parts) ← Iter.try_parse_i64 parts;
  '(_itrealvalue, parts) ← Iter.try_parse_i64 parts;
  '(start_time, parts) ← Iter.try_parse_u64 parts;
  '(_vsize, parts) ← Iter.try_parse_i64 parts;
  '(_rss, parts) ← Iter.try_parse_i64 parts;
  '(_rsslim, parts) ← Iter.try_parse_u64 parts;
  let ticks := f64_of_int CLOCK_TICKS in
  let start_time := f64_div (f64_of_int start_time) ticks in
  (* debug_assert!(!start_time.is_nan()) *)
  if overflow_checks && is_nan start_time then Panic else
  Ok {| pid := pid; name := name; state := state; ppid := ppid;
        create_time := time_second start_time;
        utime := ticks_to_time utime; stime := ticks_to_time stime;
        cutime := ticks_to_time cutime; cstime := ticks_to_time cstime |}.
End stat.

(** ** procfs/statm.rs *)

Record Memory := mkMemory {
  size : Information;
  resident : Information;
  shared : Information;
  text : Information;
  data : Information;
}.
Definition rss (m : Memory) : Information := resident m.
Definition vms (m : Memory) : Information := size m.
Definition memory_shared (m : Memory) : Information := shared m.
Definition memory_text (m : Memory) : Information := text m.
Definition memory_data (m : Memory) : Information := data m.

Section statm.
Context `{Profile, Units, Statics}.

Definition pages (v : Z) : result Information :=
  b ← mul_u64 v PAGE_SIZE; Ok (information_byte b).

Definition memory_from_str (value : str) : result Memory :=
  let parts := split_ascii_whitespace value in
  '(v, parts) ← Iter.try_parse_u64 parts;
  size ← pages v;
  '(v, parts) ← Iter.try_parse_u64 parts;
  resident ← pages v;
  '(v, parts) ← Iter.try_parse_u64 parts;
  shared ← pages v;
  '(v, parts) ← Iter.try_parse_u64 parts;
  text ← pages v;
  let '(_lib, parts) := Iter.next parts in
  '(v, parts) ← Iter.try_parse_u64 parts;
  data ← pages v;
  Ok {| size := size; resident := resident; shared := shared; text := text; data := data |}.
End statm.

(** ** procfs/io.rs *)

Record IoCounters := mkIoCounters {
  rchar : Z;
  wchar : Z;
  syscr : Z;
  syscw : Z;
  read_bytes : Z;
  write_bytes : Z;
  cancelled_write_bytes : Z;
}.
Definition io_counters_default : IoCounters := mkIoCounters 0 0 0 0 0 0 0.

(** The field a key of the file selects ([&mut counters.rchar] and so on), as
    the assignment to it. *)
Definition io_field (key : str) : option (Z -> IoCounters -> IoCounters) :=
  if decide (key = lit "rchar:") then
    Some (fun v c => mkIoCounters v (wchar c) (syscr c) (syscw c) (read_bytes c)
                       (write_bytes c) (cancelled_write_bytes c))
  else if decide (key = lit "wchar:") then
    Some (fun v c => mkIoCounters (rchar c) v (syscr c) (syscw c) (read_bytes c)
                       (write_bytes c) (cancelled_write_bytes c))
  else if decide (key = lit "syscr:") then
    Some (fun v c => mkIoCounters (rchar c) (wchar c) v (syscw c) (read_bytes c)
                       (write_bytes c) (cancelled_write_bytes c))
  else if decide (key = lit "syscw:") then
    Some (fun v c => mkIoCounters (rchar c) (wchar c) (syscr c) v (read_bytes c)
                       (write_bytes c) (cancelled_write_bytes c))
  else if decide (key = lit "read_bytes:") then
    Some (fun v c => mkIoCounters (rchar c) (wchar c) (syscr c) (syscw c) v
                       (write_bytes c) (cancelled_write_bytes c))
  else if decide (key = lit "write_bytes:") then
    Some (fun v c => mkIoCounters (rchar c) (wchar c) (syscr c) (syscw c) (read_bytes c)
                       v (cancelled_write_bytes c))
  else if decide (key = lit "cancelled_write_bytes:") then
    Some (fun v c => mkIoCounters (rchar c) (wchar c) (syscr c) (syscw c) (read_bytes c)
                       (write_bytes c) v)
  else None.

Fixpoint io_loop (counters : IoCounters) (ls : list str) : result IoCounters :=
  match ls with
  | [] => Ok counters
  | line :: ls' =>
      '(key, parts) ← Iter.try_next (split_ascii_whitespace line);
      match io_field key with
      | None => io_loop counters ls'
      | Some set =>
          '(raw, _) ← Iter.try_next parts;
          v ← map_err from_parse_int (parse_u64 raw);
          io_loop (set v counters) ls'
      end
  end.
Definition io_counters_from_str (s : str) : result IoCounters :=
  io_loop io_counters_default (lines s).

Section io_accessors.
Context `{Units}.
Definition chars_read (c : IoCounters) : Information := information_byte (rchar c).
Definition chars_written (c : IoCounters) : Information := information_byte (wchar c).
Definition read_syscalls (c : IoCounters) : Z := syscr c.
Definition write_syscalls (c : IoCounters) : Z := syscw c.
Definition bytes_read (c : IoCounters) : Information := information_byte (read_bytes c).
Definition bytes_written (c : IoCounters) : Information := information_byte (write_bytes c).
Definition cancelled_bytes (c : IoCounters) : Information :=
  information_byte (cancelled_write_bytes c).
End io_accessors.

(** ** procfs/cpu_times.rs *)

Record CpuTime := mkCpuTime {
  cpu_utime : Time;
  cpu_stime : Time;
  children_utime : Time;
  children_stime : Time;
}.
Definition cpu_time_from_stat (s : Stat) : CpuTime :=
  mkCpuTime (utime s) (stime s) (cutime s) (cstime s).
Definition cpu_user (t : CpuTime) : Time := cpu_utime t.
Definition cpu_system (t : CpuTime) : Time := cpu_stime t.

(** ** procfs/command.rs *)

Inductive Delimiter := DNull | DSpace.
#[export] Instance delimiter_dec : EqDecision Delimiter.
Proof. solve_decision. Defined.

Definition as_char (d : Delimiter) : byte :=
  match d with DNull => NUL | DSpace => SP end.
(** [From<char>] and [From<u8>]: any other byte falls back to the null byte. *)
Definition delimiter_from (raw : byte) : Delimiter :=
  if decide (raw = NUL) then DNull
  else if decide (raw = SP) then DSpace
  else DNull.

Record Command := mkCommand { line : str; delimiter : Delimiter }.

Definition command_from (os_string : str) : Command :=
  mkCommand os_string match last os_string with
                      | Some chr => delimiter_from chr
                      | None => DNull
                      end.

Definition with_spaces (l : str) : str :=
  (* Dropping trailing delimiter: bytes.pop() *)
  removelast (map (fun b => if decide (b = NUL) then SP else b) l).

Definition to_os_string (c : Command) : str :=
  match delimiter c with DSpace => line c | DNull => with_spaces (line c) end.
Definition into_os_string (c : Command) : str :=
  match delimiter c with DSpace => line c | DNull => with_spaces (line c) end.

Record CommandIter := mkCommandIter {
  ci_line : str;
  ci_delimiter : Delimiter;
  position : nat;
}.
Definition into_iter (c : Command) : CommandIter := mkCommandIter (line c) (delimiter c) 0.

Section command.
Context `{Memchr}.

Definition command_next (it : CommandIter) : option str * CommandIter :=
  if bool_decide (length (ci_line it) <= position it) then (None, it)
  else
    let bytes := drop (position it) (ci_line it) in
    match memchr (as_char (ci_delimiter it)) bytes with
    | Some offset =>
        (Some (take offset bytes),
         mkCommandIter (ci_line it) (ci_delimiter it) (position it + (offset + 1)))
    | None => (None, it)
    end.

(** [iter.collect()]: [next] until it gives [None]. *)
Fixpoint command_collect (fuel : nat) (it : CommandIter) : option (list str) :=
  match fuel with
  | O => None
  | S k => match command_next it with
           | (None, _) => Some []
           | (Some a, it') => cons a <$> command_collect k it'
           end
  end.
Definition command_args (c : Command) : option (list str) :=
  command_collect (S (length (line c))) (into_iter c).
End command.

(** ** heim-process/src/sys/unix/env.rs *)

Definition EQUALS : byte := "="%char.

Definition bytes_slice {E} (s : str) (a b : nat) : res E str :=
  if bool_decide (a <= b <= length s) then Ok (take (b - a) (drop a s)) else Panic.

(** [Environment] is its list of variables. *)
Definition Environment : Type := list (str * str).

Section environment.
Context `{Memchr}.

(** The key and the value of a variable; the first byte is part of the key. *)
Definition env_entry {E} (kv : str) : res E (option (str * str)) :=
  kv1 ← bytes_from kv 1;
  match memchr EQUALS kv1 with
  | Some delimiter =>
      let delimiter := delimiter + 1 in
      key ← bytes_slice kv 0 delimiter;
      value ← bytes_from kv (delimiter + 1);
      Ok (Some (key, value))
  | None => Ok None
  end.

(** The loop of [from_bytes]: the outer [None] is the fuel running out. *)
Fixpoint env_loop {E} (fuel : nat) (bytes : str) (position : nat)
    (result : list (str * str)) : option (res E Environment) :=
  match fuel with
  | O => None
  | S k =>
      match bytes_from (E := E) bytes position with
      | Ok rest =>
          match memchr NUL rest with
          | None => Some (Ok result)
          | Some offset =>
              if decide (offset = 0) then Some (Ok result)
              else
                match bytes_slice (E := E) bytes position (position + offset) ≫= env_entry with
                | Ok (Some e) => env_loop k bytes (position + (offset + 1)) (result ++ [e])
                | Ok None => env_loop k bytes (position + (offset + 1)) result
                | Err e => Some (Err e)
                | Panic => Some Panic
                end
          end
      | Err e => Some (Err e)
      | Panic => Some Panic
      end
  end.

Definition env_from_bytes {E} (bytes : str) : option (res E Environment) :=
  env_loop (S (length bytes)) bytes 0 [].
End environment.

(** [EnvironmentIter] and [IntoEnvironmentIter] walk the list. *)
Definition env_iter (e : Environment) : list (str * str) := e.
Definition env_next (it : list (str * str)) : option (str * str) * list (str * str) := Iter.next it.
Definition env_size_hint (it : list (str * str)) : nat * option nat :=
  (length it, Some (length it)).

(** ** Reading the files *)

Section reads.
Context `{Profile, Units, Statics, Roots, Memchr}.

(** procfs/statm.rs [stat_memory] *)
Definition stat_memory (pid : Z) : io ProcessError Memory :=
  io_map_err LoadError
    (read_into from_io memory_from_str (process_file_path pid (lit "statm"))).

(** procfs/command.rs [command] *)
Definition command (pid : Z) : io ProcessError Command :=
  r ← attempt (E := io_error) (os (ReadToString (process_file_path pid (lit "cmdline"))));
  match r with
  | inr contents => mret (command_from contents)
  | inl e => if decide (io_kind e = NotFound) then fails (NoSuchProcess pid)
             else fails (process_from_io e)
  end.

(** procfs/io.rs [io] *)
Definition io_counters (pid : Z) : io ProcessError IoCounters :=
  r ← attempt (E := io_error) (os (ReadToString (process_file_path pid (lit "io"))));
  match r with
  | inr contents => lift (map_err LoadError (io_counters_from_str contents))
  | inl e => if decide (io_raw_os_error e = Some errno.EACCES) then fails (AccessDenied pid)
             else fails (process_from_io e)
  end.

(** procfs/env.rs [environment]; a loop that ran out of fuel would panic
    here, which [env_from_bytes_spec] excludes. *)
Definition environment (pid : Z) : io ProcessError Environment :=
  r ← attempt (E := io_error) (os (Read (process_file_path pid (lit "environ"))));
  match r with
  | inr contents => lift (default Panic (env_from_bytes contents))
  | inl e => if decide (io_kind e = NotFound) then fails (NoSuchProcess pid)
             else if decide (io_kind e = PermissionDenied) then fails (AccessDenied pid)
             else fails (process_from_io e)
  end.
End reads.
