(* ===== verification/ProcFsSpec.v ===== *)
(** * The procfs formats and what the parsers of [ProcFs] make of them

    For each file a record of what the kernel writes, its text, and the
    theorem that the parser gives the record back. *)

From S2P Require Import Prelude RustStr RustFloat Units Errors Sys Streams ProcFs.
From Stdlib Require Import SpecFloat.
Local Open Scope Z_scope.

(** The ticks of [sysconf(_SC_CLK_TCK)] make a float that is neither zero nor
    infinite; the page size is a positive 64-bit number. *)
Class StaticsLaws `{Statics} : Prop := {
  ticks_finite : is_finite_nonzero (f64_of_int CLOCK_TICKS) = true;
  page_size_range : 0 < PAGE_SIZE < 2 ^ 64;
}.
Definition linux_statics : Statics := {| CLOCK_TICKS := 100; PAGE_SIZE := 4096 |}.
Lemma linux_statics_laws : @StaticsLaws linux_statics.
Proof. by split. Qed.

(** Steps a parser over the next printed number. *)
Ltac parse_step :=
  first [ rewrite Iter.try_parse_u64_show by lia
        | rewrite Iter.try_parse_i32_show by lia
        | rewrite Iter.try_parse_u32_show by lia
        | rewrite Iter.try_parse_i64_show by lia ];
  cbn [mbind res_bind].

(** ** /proc/<pid>/stat *)

Record raw_stat := {
  r_pid : Z; r_comm : str; r_state : Status;
  r_ppid : Z; r_pgrp : Z; r_session : Z; r_tty : Z; r_tpgid : Z;
  r_flags : Z;
  r_minflt : Z; r_cminflt : Z; r_majflt : Z; r_cmajflt : Z;
  r_utime : Z; r_stime : Z; r_cutime : Z; r_cstime : Z;
  r_priority : Z; r_nice : Z; r_threads : Z; r_itreal : Z;
  r_start : Z;
  r_vsize : Z; r_rss : Z;
  r_rsslim : Z;
  r_more : list str;  (* the fields after rsslim, which heim does not read *)
}.

Definition state_char (s : Status) : byte :=
  match s with
  | Running => "R" | Sleeping => "S" | Waiting => "D" | Zombie => "Z" | Stopped => "T"
  | Tracing => "t" | Dead => "X" | Wakekill => "K" | Waking => "W" | Parked => "P" | Idle => "I"
  end%char.

Definition i32 (z : Z) : Prop := - 2 ^ 31 <= z < 2 ^ 31.
Definition u32 (z : Z) : Prop := 0 <= z < 2 ^ 32.
Definition i64 (z : Z) : Prop := - 2 ^ 63 <= z < 2 ^ 63.
Definition u64 (z : Z) : Prop := 0 <= z < 2 ^ 64.
#[export] Instance i32_dec z : Decision (i32 z) := _.
#[export] Instance u32_dec z : Decision (u32 z) := _.
#[export] Instance i64_dec z : Decision (i64 z) := _.
#[export] Instance u64_dec z : Decision (u64 z) := _.

Definition stat_numbers (r : raw_stat) : list Z :=
  [r_ppid r; r_pgrp r; r_session r; r_tty r; r_tpgid r; r_flags r;
   r_minflt r; r_cminflt r; r_majflt r; r_cmajflt r;
   r_utime r; r_stime r; r_cutime r; r_cstime r;
   r_priority r; r_nice r; r_threads r; r_itreal r; r_start r;
   r_vsize r; r_rss r; r_rsslim r].

Definition stat_words (r : raw_stat) : list str :=
  [state_char (r_state r)] :: map show_int (stat_numbers r) ++ r_more r.

(** [pid (comm) S ppid ...] and a newline.  The name may hold spaces,
    parentheses and newlines: it must only be text (its first byte starts a
    character). *)
Definition stat_text (r : raw_stat) : str :=
  show_int (r_pid r) ++ SP :: ("("%char :: r_comm r ++ CLOSE :: SP :: unwords (stat_words r) ++ [LF]).

Definition raw_stat_ok (r : raw_stat) : Prop :=
  i32 (r_pid r) /\ match r_comm r with c :: _ => is_continuation c = false | [] => True end /\
  i32 (r_ppid r) /\ i32 (r_pgrp r) /\ i32 (r_session r) /\ i32 (r_tty r) /\ i32 (r_tpgid r) /\
  u32 (r_flags r) /\
  u64 (r_minflt r) /\ u64 (r_cminflt r) /\ u64 (r_majflt r) /\ u64 (r_cmajflt r) /\
  u64 (r_utime r) /\ u64 (r_stime r) /\ u64 (r_cutime r) /\ u64 (r_cstime r) /\
  i64 (r_priority r) /\ i64 (r_nice r) /\ i64 (r_threads r) /\ i64 (r_itreal r) /\
  u64 (r_start r) /\ i64 (r_vsize r) /\ i64 (r_rss r) /\ u64 (r_rsslim r) /\
  Forall (fun w => word w /\ (CLOSE ∉ w)) (r_more r).
#[export] Instance raw_stat_ok_dec r : Decision (raw_stat_ok r).
Proof.
  unfold raw_stat_ok. repeat apply and_dec; try apply _.
  destruct (r_comm r); apply _.
Defined.

Lemma close_not_in_int z : CLOSE ∉ show_int z.
Proof.
  intros Hin. unfold show_int in Hin.
  assert (Hd : forall y, 0 <= y -> CLOSE ∉ show_nonneg y).
  { intros y Hy Hc. pose proof (show_nonneg_digits y Hy) as Hf.
    rewrite Forall_forall in Hf. apply Hf in Hc. by destruct Hc. }
  case_match; [|by apply (Hd z); [lia|]].
  apply elem_of_cons in Hin as [Hc|Hin]; [done|]. by apply (Hd (- z)); [lia|].
Qed.

Lemma not_in_unwords c ws : c <> SP -> Forall (fun w => c ∉ w) ws -> c ∉ unwords ws.
Proof.
  intros Hc. induction 1 as [|w ws Hw Hws IH]; [set_solver|].
  destruct ws as [|w' ws]; [done|].
  change (unwords (w :: w' :: ws)) with (w ++ SP :: unwords (w' :: ws)). set_solver.
Qed.

Lemma stat_words_ok r : raw_stat_ok r ->
  Forall word (stat_words r) /\ Forall (fun w => CLOSE ∉ w) (stat_words r).
Proof.
  intros (_ & _ & Hr). do 22 destruct Hr as [_ Hr].
  unfold stat_words. rewrite !Forall_cons, !Forall_app, !Forall_fmap.
  assert (word [state_char (r_state r)] /\ (CLOSE ∉ [state_char (r_state r)])) as [Hs1 Hs2].
  { destruct (r_state r); split; by apply (bool_decide_unpack _). }
  split; (split; [done|]); split.
  - apply Forall_forall. intros z _. apply show_int_word.
  - eapply Forall_impl; [done|]. naive_solver.
  - apply Forall_forall. intros z _. apply close_not_in_int.
  - eapply Forall_impl; [done|]. naive_solver.
Qed.

Lemma try_from_char_state s : try_from_char [state_char s] = Ok s.
Proof. by destruct s. Qed.

Section stat.
Context `{Profile, Units, StaticsLaws}.

Definition stat_of_raw (r : raw_stat) : Stat := {|
  pid := r_pid r; name := r_comm r; state := r_state r; ppid := r_ppid r;
  create_time := ticks_to_time (r_start r);
  utime := ticks_to_time (r_utime r); stime := ticks_to_time (r_stime r);
  cutime := ticks_to_time (r_cutime r); cstime := ticks_to_time (r_cstime r) |}.

(** The four steps that isolate the name. *)
Lemma stat_split r : raw_stat_ok r ->
  let leftover := "("%char :: r_comm r ++ CLOSE :: SP :: unwords (stat_words r) ++ [LF] in
  let k := S (length (r_comm r)) in
  splitn 2 SP (stat_text r) = [show_int (r_pid r); leftover]
  /\ rfind CLOSE leftover = Some k
  /\ str_slice (E := Error) leftover 1 k = Ok (r_comm r)
  /\ str_from (E := Error) leftover (k + 2) = Ok (unwords (stat_words r) ++ [LF]).
Proof.
  intros Hr leftover k. pose proof (stat_words_ok r Hr) as [Hw Hc].
  destruct Hr as (Hpid & Hcomm & _).
  assert (Hlf : leftover = ("("%char :: r_comm r) ++ CLOSE :: SP :: unwords (stat_words r) ++ [LF])
    by done.
  assert (Hnot : CLOSE ∉ SP :: unwords (stat_words r) ++ [LF]).
  { apply (not_in_unwords CLOSE) in Hc; [|done]. set_solver. }
  split_and!.
  - unfold stat_text. fold leftover. cbn [splitn].
    rewrite split_once_app by apply word_no_space, show_int_word. done.
  - rewrite Hlf, rfind_app by done. done.
  - unfold str_slice. rewrite bool_decide_eq_true_2 by lia.
    assert (is_char_boundary leftover 1 = true) as ->.
    { unfold is_char_boundary, leftover. cbn. destruct (r_comm r); cbn in *; [done|].
      by rewrite Hcomm. }
    assert (is_char_boundary leftover k = true) as ->.
    { rewrite Hlf. change k with (length ("("%char :: r_comm r)).
      by apply is_char_boundary_app. }
    cbn [andb]. f_equal. unfold leftover, k. cbn [drop].
    rewrite Nat.sub_succ, Nat.sub_0_r. apply take_app_length.
  - unfold str_from.
    assert (leftover = ("("%char :: r_comm r ++ [CLOSE; SP]) ++ (unwords (stat_words r) ++ [LF])) as ->
      by (unfold leftover; by rewrite <- app_comm_cons, <- app_assoc).
    assert ((k + 2)%nat = length ("("%char :: r_comm r ++ [CLOSE; SP])) as ->
      by (unfold k; cbn [length]; rewrite length_app; cbn; lia).
    rewrite drop_app_length.
    assert (exists t, unwords (stat_words r) ++ [LF] = state_char (r_state r) :: t) as [t ->]
      by (eexists; reflexivity).
    rewrite is_char_boundary_app; [done|]. by destruct (r_state r).
Qed.

(** C1: a line the kernel writes to [/proc/<pid>/stat] is parsed to exactly
    the fields it was written from, whatever bytes the process name holds
    (spaces, parentheses, [") R 1"]): the name is never confused with the
    fields around it, and parsing neither fails nor panics. *)
Theorem stat_from_str_text r :
  raw_stat_ok r -> stat_from_str (stat_text r) = Ok (stat_of_raw r).
Proof.
  intros Hr. destruct (stat_split r Hr) as (Hsp & Hrf & Hsl & Hfr).
  pose proof (stat_words_ok r Hr) as [Hw _].
  unfold stat_from_str. rewrite Hsp.
  destruct Hr as (Hpid & _ & Hr). unfold i32, u32, i64, u64 in *. repeat destruct Hr as [? Hr].
  parse_step. cbn [Iter.try_next mbind res_bind]. rewrite Hrf. cbn [ok_or mbind res_bind].
  rewrite Hsl. cbn [mbind res_bind]. rewrite Hfr. cbn [mbind res_bind].
  unfold split_whitespace. rewrite words_unwords_newline by done.
  unfold stat_words. cbn [app map stat_numbers Iter.try_next mbind res_bind chars_next].
  replace (char_len (state_char (r_state r))) with 1%nat by (by destruct (r_state r)).
  cbn [take ok_or mbind res_bind]. rewrite try_from_char_state. cbn [mbind res_bind].
  do 22 parse_step.
  unfold f64_div, f64_of_int at 1. rewrite f_div_int_not_nan by apply ticks_finite.
  rewrite andb_false_r. done.
Qed.
End stat.

(** A process named [") R 1 ("], as a kernel with 100 ticks a second shows it. *)
Definition tricky_stat : raw_stat := {|
  r_pid := 4242; r_comm := lit ") R 1 ("; r_state := Sleeping;
  r_ppid := 1; r_pgrp := 4242; r_session := 4242; r_tty := 0; r_tpgid := -1;
  r_flags := 4194560; r_minflt := 100; r_cminflt := 0; r_majflt := 2; r_cmajflt := 0;
  r_utime := 150; r_stime := 50; r_cutime := 0; r_cstime := 0;
  r_priority := 20; r_nice := 0; r_threads := 1; r_itreal := 0;
  r_start := 12345; r_vsize := 10000000; r_rss := 250; r_rsslim := 18446744073709551615;
  r_more := [lit "1"; lit "1"; lit "0"];
|}.

Lemma stat_from_str_text_witness :
  raw_stat_ok tricky_stat /\
  @stat_from_str true si_units linux_statics (stat_text tricky_stat)
  = Ok (@stat_of_raw si_units linux_statics tricky_stat).
Proof.
  assert (Hok : raw_stat_ok tricky_stat) by (apply (bool_decide_unpack _); vm_compute; exact I).
  split; [exact Hok|].
  exact (@stat_from_str_text true si_units linux_statics linux_statics_laws tricky_stat Hok).
Defined.

Section stat_panic.
Context `{!Profile, !Units, !Statics, Hlaws : !StaticsLaws}.

Lemma bind_panic_pair {E A B C} (r : res E (A * B)) (f : A -> B -> res E C) :
  r <> Panic -> (forall a b, f a b <> Panic) -> ('(a, b) ← r; f a b) <> Panic.
Proof. intros Hr Hf. destruct r as [[a b]| |]; cbn; [apply Hf|done..]. Qed.

Ltac no_panic :=
  first [ apply Iter.try_parse_u64_not_panic | apply Iter.try_parse_i32_not_panic
        | apply Iter.try_parse_u32_not_panic | apply Iter.try_parse_i64_not_panic ].

Lemma try_from_char_not_panic c : try_from_char c <> Panic.
Proof. unfold try_from_char. repeat case_decide; done. Qed.

Lemma close_boundary s k : rfind CLOSE s = Some k -> is_char_boundary s k = true.
Proof. intros (a & b & -> & -> & _)%rfind_Some. by apply is_char_boundary_app. Qed.

(** The only inputs on which the parser panics are those whose name part
    cannot be sliced: the last closing parenthesis comes first after the pid,
    the byte after the opening one continues a character, or nothing that
    starts a character follows two bytes after the closing one.  Missing or
    malformed fields are errors, not panics. *)
Theorem stat_from_str_panics s :
  stat_from_str s = Panic <->
  exists pid_text leftover pid k,
    splitn 2 SP s = [pid_text; leftover] /\ parse_i32 pid_text = Ok pid /\
    rfind CLOSE leftover = Some k /\
    (k = 0%nat \/ is_char_boundary leftover 1 = false
     \/ is_char_boundary leftover (k + 2) = false).
Proof.
  unfold stat_from_str. split.
  - intros Hp.
    destruct (splitn 2 SP s) as [|pid_text parts] eqn:Hs; [done|].
    unfold Iter.try_parse_i32 at 1, Iter.try_parse_next in Hp. cbn in Hp.
    destruct (parse_i32 pid_text) as [pid| |] eqn:Hpid; cbn in Hp; [|done|];
      [|by apply parse_int_not_panic in Hpid].
    destruct parts as [|leftover parts]; cbn in Hp; [done|].
    assert (parts = []) as ->.
    { cbn in Hs. destruct (split_once SP s) as [[a b]|]; by simplify_eq. }
    destruct (rfind CLOSE leftover) as [k|] eqn:Hk; cbn in Hp; [|done].
    exists pid_text, leftover, pid, k. split_and!; [done..|].
    unfold str_slice, str_from in Hp.
    destruct (bool_decide_reflect (1 <= k)%nat); [|left; lia].
    destruct (is_char_boundary leftover 1); [|by auto].
    rewrite (close_boundary _ _ Hk) in Hp.
    destruct (is_char_boundary leftover (k + 2)); [|by auto].
    exfalso. revert Hp. cbn [andb mbind res_bind].
    destruct (split_whitespace _) as [|w ws]; [done|]. cbn [Iter.try_next mbind res_bind].
    destruct (chars_next w) as [chr|]; [|done]. cbn [ok_or mbind res_bind].
    pose proof (try_from_char_not_panic chr). destruct (try_from_char chr); [|done..].
    cbn [mbind res_bind].
    repeat (apply bind_panic_pair; [no_panic|intros ? ?]).
    unfold f64_div, f64_of_int at 1. rewrite f_div_int_not_nan by apply ticks_finite.
    by rewrite andb_false_r.
  - intros (pid_text & leftover & pid & k & Hs & Hpid & Hk & Hbad). rewrite Hs.
    unfold Iter.try_parse_i32 at 1, Iter.try_parse_next. cbn. rewrite Hpid. cbn. rewrite Hk. cbn.
    unfold str_slice, str_from.
    destruct Hbad as [->|[->| ->]]; cbn; [done|by rewrite andb_false_r|].
    by case_match.
Qed.
End stat_panic.

Lemma stat_from_str_panics_witness : @stat_from_str true si_units linux_statics (lit "1 )") = Panic.
Proof.
  apply (@stat_from_str_panics true si_units linux_statics linux_statics_laws).
  exists (lit "1"), (lit ")"), 1, 0%nat. repeat split; left; reflexivity.
Defined.
