(* ===== verification/ProcFsText.v ===== *)
(** * cmdline, environ, io and statm: reference definitions and round trips

    The loops of [ProcFs] walk byte offsets with [memchr]; here they are shown
    equal to definitions by splitting, which say at a glance what is read. *)

From S2P Require Import Prelude RustStr RustFloat Units Errors Sys Streams ProcFs ProcFsSpec.

Lemma memchr_split `{MemchrLaws} c s i :
  memchr c s = Some i ->
  exists a b, s = a ++ c :: b /\ i = length a /\ c ∉ a.
Proof.
  intros [Hl Hn]%memchr_some. exists (take i s), (drop (S i) s).
  split_and!; [by rewrite take_drop_middle| |done].
  rewrite length_take_le; [done|]. apply lookup_lt_Some in Hl. lia.
Qed.

Lemma removelast_cons {A} (x : A) l : l <> [] -> removelast (x :: l) = x :: removelast l.
Proof. by destruct l. Qed.

(** ** cmdline *)

(** The arguments of a command line: what the delimiter ends. *)
Definition cmdline_args (c : Command) : list str :=
  removelast (split_on (as_char (delimiter c)) (line c)).

Section command.
Context `{MemchrLaws}.

Lemma command_collect_spec fuel l d p s :
  drop p l = s -> length s < fuel ->
  command_collect fuel (mkCommandIter l d p) = Some (removelast (split_on (as_char d) s)).
Proof.
  revert p s. induction fuel as [|fuel IH]; intros p s Hs Hf; [lia|].
  cbn [command_collect]. unfold command_next. cbn [ci_line ci_delimiter position].
  rewrite Hs. case_bool_decide as Hp.
  - rewrite drop_ge in Hs by done. by subst s.
  - destruct (memchr (as_char d) s) as [i|] eqn:Hm.
    + apply memchr_split in Hm as (a & b & Hab & -> & Ha). rewrite Hab at 1.
      rewrite take_app_length. rewrite (IH _ b).
      * rewrite Hab, split_on_app by done.
        rewrite removelast_cons by apply split_on_nil. done.
      * rewrite <- drop_drop, Hs, Hab. replace (length a + 1) with (length (a ++ [as_char d]))
          by (rewrite length_app; cbn; lia).
        rewrite (cons_middle _ a b), app_assoc. apply drop_app_length.
      * rewrite Hab, length_app in Hf. cbn in Hf. lia.
    + apply memchr_none in Hm. by rewrite split_on_plain.
Qed.

(** C28: iterating over a process command line ends, and gives exactly the
    pieces that the delimiter closes: an argument which nothing closes at the
    end of the file is not among them. *)
Theorem command_iter_spec c : command_args c = Some (cmdline_args c).
Proof. apply command_collect_spec; [done|]. cbn. lia. Qed.
End command.

Lemma command_iter_spec_witness :
  @command_args find_byte (command_from (lit "a b c")) = Some [].
Proof. exact (@command_iter_spec find_byte find_byte_laws (command_from (lit "a b c"))). Defined.

(** What the kernel writes: each argument closed by a null byte. *)
Definition cmdline_text (args : list str) : str := concat (map (fun a => a ++ [NUL]) args).

Lemma cmdline_text_cons a args : cmdline_text (a :: args) = a ++ NUL :: cmdline_text args.
Proof. unfold cmdline_text. cbn. by rewrite <- app_assoc. Qed.

Lemma cmdline_text_last args : args <> [] -> last (cmdline_text args) = Some NUL.
Proof.
  induction args as [|a args IH]; [done|]. intros _. rewrite cmdline_text_cons, last_app_cons.
  destruct args as [|a' args]; [done|]. rewrite last_cons, IH; done.
Qed.

Lemma command_from_text args : delimiter (command_from (cmdline_text args)) = DNull.
Proof.
  unfold command_from. cbn. destruct args as [|a args]; [done|].
  by rewrite cmdline_text_last.
Qed.

Lemma split_cmdline_text args :
  Forall (fun a => NUL ∉ a) args -> split_on NUL (cmdline_text args) = args ++ [[]].
Proof.
  induction 1 as [|a args Ha Hargs IH]; [done|]. rewrite cmdline_text_cons, split_on_app by done.
  by rewrite IH.
Qed.

Lemma map_nul_plain a : NUL ∉ a -> map (fun b => if decide (b = NUL) then SP else b) a = a.
Proof.
  induction a as [|x a IH]; intros Ha; [done|]. cbn. rewrite decide_False by set_solver.
  rewrite IH by set_solver. done.
Qed.

Lemma with_spaces_text args :
  Forall (fun a => NUL ∉ a) args -> with_spaces (cmdline_text args) = unwords args.
Proof.
  unfold with_spaces. induction 1 as [|a args Ha Hargs IH]; [done|].
  rewrite cmdline_text_cons, map_app, map_nul_plain by done. cbn [map].
  rewrite decide_True by done. destruct args as [|a' args].
  - cbn. by rewrite removelast_last.
  - rewrite removelast_app by done.
    change (unwords (a :: a' :: args)) with (a ++ SP :: unwords (a' :: args)).
    rewrite removelast_cons, IH; [done|].
    rewrite cmdline_text_cons, map_app. cbn. by destruct (map _ a').
Qed.

(** C6: a command line that was written from a list of arguments gives the
    same list back, empty arguments and blanks inside arguments included, and
    its display form is the arguments joined by single spaces, from a reference
    as well as consumed. *)
Theorem command_roundtrip `{MemchrLaws} args :
  Forall (fun a => NUL ∉ a) args ->
  command_args (command_from (cmdline_text args)) = Some args /\
  to_os_string (command_from (cmdline_text args)) = unwords args /\
  into_os_string (command_from (cmdline_text args)) = unwords args.
Proof.
  intros Hargs. unfold to_os_string, into_os_string, command_args.
  rewrite command_from_text. split_and!; [|by apply with_spaces_text..].
  unfold into_iter. rewrite command_from_text.
  rewrite (command_collect_spec _ _ _ _ (cmdline_text args)); [|done|cbn; lia].
  cbn [as_char]. rewrite split_cmdline_text by done. by rewrite removelast_last.
Qed.

Lemma command_roundtrip_witness :
  @command_args find_byte (command_from (cmdline_text [lit "sh"; lit "-c"; lit "a b"; []]))
  = Some [lit "sh"; lit "-c"; lit "a b"; []].
Proof.
  apply (@command_roundtrip find_byte find_byte_laws).
  apply (bool_decide_unpack _). vm_compute. exact I.
Defined.

(** [with_spaces] drops its last byte even when that is no delimiter: a title
    that a process wrote over its arguments loses its last letter. *)
Lemma with_spaces_loses_byte :
  to_os_string (command_from (lit "nginx: master")) = lit "nginx: maste".
Proof. vm_compute. reflexivity. Qed.

(** ** environ *)

(** A variable: its name is not empty, so the first byte is never the
    separator. *)
Definition env_var (kv : str) : option (str * str) :=
  match kv with
  | [] => None
  | c :: kv' => '(k, v) ← split_once EQUALS kv'; Some (c :: k, v)
  end.
Fixpoint until_empty (l : list str) : list str :=
  match l with
  | [] => []
  | x :: l' => match x with [] => [] | _ => x :: until_empty l' end
  end.
(** The variables of a block: up to the first empty piece, those that are
    closed by a null byte and hold a separator. *)
Definition env_vars (bytes : str) : Environment :=
  omap env_var (until_empty (removelast (split_on NUL bytes))).

Section environment.
Context `{MemchrLaws}.

Lemma env_entry_var {E} c kv : env_entry (E := E) (c :: kv) = Ok (env_var (c :: kv)).
Proof.
  unfold env_entry, bytes_from. rewrite bool_decide_eq_true_2 by (cbn; lia).
  cbn [skipn mbind res_bind]. rewrite drop_0.
  destruct (memchr EQUALS kv) as [i|] eqn:Hm.
  - apply memchr_split in Hm as (a & b & -> & -> & Ha). unfold env_var.
    rewrite split_once_app by done. cbv beta iota zeta. unfold bytes_slice.
    rewrite !bool_decide_eq_true_2 by (cbn; rewrite length_app; cbn; lia).
    cbn [mbind res_bind]. rewrite Nat.sub_0_r.
    replace (length a + 1) with (S (length a)) by lia. cbn [drop take].
    rewrite take_app_length.
    replace (S (length a) + 1) with (length ((c :: a) ++ [EQUALS]))
      by (rewrite length_app; cbn; lia).
    rewrite (app_comm_cons a), (cons_middle _ (c :: a) b), app_assoc, drop_app_length. done.
  - apply memchr_none in Hm. unfold env_var. by rewrite split_once_none.
Qed.

Lemma env_loop_spec {E} fuel bytes p rest acc :
  drop p bytes = rest -> p <= length bytes -> length rest < fuel ->
  env_loop (E := E) fuel bytes p acc =
  Some (Ok (acc ++ omap env_var (until_empty (removelast (split_on NUL rest))))).
Proof.
  revert p rest acc. induction fuel as [|fuel IH]; intros p rest acc Hr Hp Hf; [lia|].
  cbn [env_loop]. unfold bytes_from at 1. rewrite bool_decide_eq_true_2 by done. rewrite Hr.
  destruct (memchr NUL rest) as [i|] eqn:Hm; [|apply memchr_none in Hm;
    rewrite split_on_plain by done; cbn; by rewrite app_nil_r].
  apply memchr_split in Hm as (a & b & Hab & -> & Ha).
  rewrite Hab, split_on_app, removelast_cons by (done || apply split_on_nil).
  destruct a as [|c a]; cbn [until_empty length].
  { rewrite decide_True by done. cbn. by rewrite app_nil_r. }
  rewrite decide_False by done.
  assert (Hlen : length bytes = p + (S (length a) + S (length b))).
  { rewrite <- (take_drop p bytes), length_app, length_take_le, Hr, Hab by done.
    rewrite length_app. done. }
  unfold bytes_slice at 1. rewrite bool_decide_eq_true_2 by lia.
  rewrite Hr, Hab. replace (p + S (length a) - p) with (length (c :: a)) by (cbn; lia).
  rewrite take_app_length. cbn [mbind res_bind]. rewrite env_entry_var.
  assert (Hd : drop (p + (S (length a) + 1)) bytes = b).
  { rewrite <- drop_drop, Hr, Hab.
    replace (S (length a) + 1) with (length ((c :: a) ++ [NUL])) by (rewrite length_app; cbn; lia).
    by rewrite (cons_middle _ (c :: a) b), app_assoc, drop_app_length. }
  assert (length b < fuel) by (rewrite Hab, length_app in Hf; cbn in Hf; lia).
  cbn [omap list_omap]. destruct (env_var (c :: a)) as [e|];
    rewrite (IH _ b) by (done || lia); [|done].
  by rewrite <- app_assoc.
Qed.

(** C15: the environment parser ends on every block of bytes, never slices
    out of range, and gives the variables of the reference definition: those
    before the first empty piece, in order, split at the first separator
    after the first byte. *)
Theorem env_from_bytes_spec {E} bytes :
  env_from_bytes (E := E) bytes = Some (Ok (env_vars bytes)).
Proof. unfold env_from_bytes. rewrite (env_loop_spec _ _ _ bytes); [done|done|lia|lia]. Qed.
End environment.

Lemma env_from_bytes_spec_witness :
  @env_from_bytes find_byte Error (lit "A=1") = Some (Ok []).
Proof. exact (@env_from_bytes_spec find_byte find_byte_laws Error (lit "A=1")). Defined.

Definition env_text (env : Environment) : str :=
  concat (map (fun '(k, v) => k ++ EQUALS :: v ++ [NUL]) env).

(** A variable that can be told from its text. *)
Definition env_wf (kv : str * str) : Prop :=
  match kv with
  | ([], _) => False
  | (c :: k, v) => (NUL ∉ c :: k ++ v) /\ (EQUALS ∉ k)
  end.
#[export] Instance env_wf_dec kv : Decision (env_wf kv).
Proof. destruct kv as [[|c k] v]; apply _. Defined.

Lemma split_env_text env :
  Forall env_wf env ->
  split_on NUL (env_text env) = map (fun '(k, v) => k ++ EQUALS :: v) env ++ [[]].
Proof.
  induction 1 as [|[[|c k] v] env Hkv Henv IH]; [done..|]. destruct Hkv as [Hn He].
  unfold env_text. cbn [map concat]. fold (env_text env).
  replace (((c :: k) ++ EQUALS :: v ++ [NUL]) ++ env_text env)
    with (((c :: k) ++ EQUALS :: v) ++ NUL :: env_text env)
    by (rewrite <- !app_assoc; cbn; by rewrite <- app_assoc).
  rewrite split_on_app by set_solver. by rewrite IH.
Qed.

Lemma env_text_parses `{MemchrLaws} {E} env :
  Forall env_wf env -> env_from_bytes (E := E) (env_text env) = Some (Ok env).
Proof.
  intros Henv. unfold env_from_bytes. rewrite (env_loop_spec _ _ _ (env_text env)) by (done || lia).
  rewrite split_env_text by done. rewrite removelast_last. do 2 f_equal. cbn [app].
  induction Henv as [|[[|c k] v] env Hkv Henv IH]; [done..|].
  cbn [map app until_empty omap list_omap]. destruct Hkv as [_ He]. unfold env_var at 1.
  rewrite split_once_app by done. cbn. by rewrite IH.
Qed.

(** A well-formed environment survives the round trip through its text:
    values may hold separators and may be empty. *)
Theorem env_roundtrip `{MemchrLaws} {E} env :
  Forall env_wf env -> env_from_bytes (E := E) (env_text env) = Some (Ok env).
Proof. apply env_text_parses. Qed.

Lemma env_roundtrip_witness :
  @env_from_bytes find_byte Error (env_text [(lit "PATH", lit "/bin:/usr/bin"); (lit "=x", lit "a=b"); (lit "E", [])])
  = Some (Ok [(lit "PATH", lit "/bin:/usr/bin"); (lit "=x", lit "a=b"); (lit "E", [])]).
Proof.
  apply (@env_roundtrip find_byte find_byte_laws).
  apply (bool_decide_unpack _). vm_compute. exact I.
Defined.

(** Every variable that the parser gives is well-formed. *)
Lemma env_vars_wf bytes : Forall env_wf (env_vars bytes).
Proof.
  unfold env_vars. assert (Hp : Forall (fun p => NUL ∉ p) (removelast (split_on NUL bytes))).
  { apply Forall_forall. intros p Hp. apply list_elem_of_In in Hp.
    pose proof (split_on_pieces NUL bytes) as Hs. rewrite Forall_forall in Hs. apply Hs, list_elem_of_In.
    rewrite (app_removelast_last [] (split_on_nil NUL bytes)). apply in_or_app. by left. }
  induction Hp as [|[|c p] ps Hnul Hps IH]; [constructor..|].
  cbn [until_empty omap list_omap env_var]. destruct (split_once EQUALS p) as [[k v]|] eqn:Hs; cbn; [|done].
  apply split_once_Some in Hs as [-> Hk]. constructor; [|done]. split; [|done]. set_solver.
Qed.

(** C16: whatever bytes the environment of a process holds, what is parsed
    is well-formed - no name is empty, a separator is at most its first byte,
    there is no null byte anywhere - and its text parses back to it, so the
    result is a normal form of the block. *)
Theorem env_from_bytes_wf `{MemchrLaws} {E} bytes :
  exists env, env_from_bytes (E := E) bytes = Some (Ok env) /\ Forall env_wf env /\
    env_from_bytes (E := E) (env_text env) = Some (Ok env).
Proof.
  exists (env_vars bytes). split; [|split; [apply env_vars_wf|apply env_text_parses, env_vars_wf]].
  unfold env_from_bytes. by rewrite (env_loop_spec _ _ _ bytes) by (done || lia).
Qed.
Lemma env_from_bytes_wf_witness :
  exists env, @env_from_bytes find_byte Error (lit "a=b=c" ++ NUL :: lit "x" ++ NUL :: lit "=y=" ++ [NUL]) = Some (Ok env) /\
    Forall env_wf env /\ @env_from_bytes find_byte Error (env_text env) = Some (Ok env).
Proof. apply (@env_from_bytes_wf find_byte find_byte_laws). Defined.

(** ** io *)

(** What the kernel writes: one counter a line. *)
Definition io_line (kv : str * Z) : str := unwords [kv.1; show_int kv.2].
Definition io_text (kvs : list (str * Z)) : str := unlines (map io_line kvs).

(** One line of the file, as the change it makes to the record. *)
Definition io_assign (counters : IoCounters) (kv : str * Z) : IoCounters :=
  match io_field kv.1 with Some set => set kv.2 counters | None => counters end.

Definition io_line_ok (kv : str * Z) : Prop := word kv.1 /\ u64 kv.2.
#[export] Instance io_line_ok_dec kv : Decision (io_line_ok kv) := _.

Lemma io_loop_text kvs counters :
  Forall io_line_ok kvs -> io_loop counters (map io_line kvs) = Ok (foldl io_assign counters kvs).
Proof.
  intros Hkvs. revert counters. induction Hkvs as [|[k v] kvs [Hk Hv] Hkvs IH]; intros counters; [done|].
  cbn [map io_loop foldl]. change (io_line (k, v)) with (unwords [k; show_int v]). unfold split_ascii_whitespace.
  rewrite words_unwords by (solve_words).
  cbn [Iter.try_next mbind res_bind fst snd] in *.
  change (io_assign counters (k, v))
    with (match io_field k with Some set => set v counters | None => counters end).
  destruct (io_field k); [|apply IH]. rewrite parse_u64_show by done. apply IH.
Qed.

(** The counters of a record as the kernel lists them. *)
Definition io_lines_of (c : IoCounters) : list (str * Z) :=
  [(lit "rchar:", rchar c); (lit "wchar:", wchar c); (lit "syscr:", syscr c);
   (lit "syscw:", syscw c); (lit "read_bytes:", read_bytes c);
   (lit "write_bytes:", write_bytes c);
   (lit "cancelled_write_bytes:", cancelled_write_bytes c)].

(** The lines of [c], in any order, among lines with other keys. *)
Definition io_lines_for (c : IoCounters) (kvs : list (str * Z)) : Prop :=
  Forall io_line_ok kvs /\
  Forall (fun kv => kv ∈ io_lines_of c \/ ~ is_Some (io_field kv.1)) kvs /\
  Forall (fun kv => kv ∈ kvs) (io_lines_of c).
#[export] Instance io_lines_for_dec c kvs : Decision (io_lines_for c kvs) := _.

Lemma io_counters_ext c d :
  rchar c = rchar d -> wchar c = wchar d -> syscr c = syscr d -> syscw c = syscw d ->
  read_bytes c = read_bytes d -> write_bytes c = write_bytes d ->
  cancelled_write_bytes c = cancelled_write_bytes d -> c = d.
Proof. destruct c, d. cbn. congruence. Qed.

Ltac io_get k Hknown Hall :=
  apply (foldl_field io_assign _ id k);
  [ intros; reflexivity
  | intros ? ? ? Hne; unfold io_assign, io_field; cbn [fst snd];
    repeat (case_decide; [subst; first [done | reflexivity]|]); done
  | intros v Hv; unfold id; destruct (Hknown _ Hv) as [Hin|Hin];
    [ unfold io_lines_of in Hin;
      repeat (apply elem_of_cons in Hin as [Hin|Hin]; [by inversion Hin|]); by inversion Hin
    | destruct Hin; eexists; reflexivity ]
  | left; eexists; apply Hall; unfold io_lines_of;
    repeat first [apply list_elem_of_here | apply list_elem_of_further] ].

(** The counters file in any order of lines, with any unknown lines among
    them, sets every counter of the record that wrote the known lines: no
    counter is taken for another and none keeps its default. *)
Theorem io_counters_roundtrip kvs c :
  io_lines_for c kvs -> io_counters_from_str (io_text kvs) = Ok c.
Proof.
  intros (Hok & Hknown & Hall). unfold io_counters_from_str, io_text.
  rewrite lines_unlines.
  2:{ apply Forall_fmap. eapply Forall_impl; [exact Hok|]. intros [k v] [Hk _].
      apply unwords_is_line. solve_words. }
  rewrite io_loop_text by done. f_equal.
  rewrite Forall_forall in Hknown. rewrite Forall_forall in Hall.
  apply io_counters_ext;
    [ io_get (lit "rchar:") Hknown Hall | io_get (lit "wchar:") Hknown Hall
    | io_get (lit "syscr:") Hknown Hall | io_get (lit "syscw:") Hknown Hall
    | io_get (lit "read_bytes:") Hknown Hall | io_get (lit "write_bytes:") Hknown Hall
    | io_get (lit "cancelled_write_bytes:") Hknown Hall ].
Qed.

Lemma io_counters_roundtrip_witness :
  io_counters_from_str (io_text
    [(lit "wchar:", 2%Z); (lit "rchar:", 1%Z); (lit "syscr:", 3%Z); (lit "new_key:", 9%Z);
     (lit "syscw:", 4%Z); (lit "read_bytes:", 5%Z); (lit "write_bytes:", 6%Z);
     (lit "cancelled_write_bytes:", 7%Z)]) = Ok (mkIoCounters 1 2 3 4 5 6 7).
Proof.
  apply io_counters_roundtrip. apply (bool_decide_unpack _). vm_compute. exact I.
Defined.

(** ** statm *)

Section statm.
Context `{!Profile, !Units, !Statics, !UnitsLaws, !StaticsLaws}.
Local Open Scope Z_scope.

Definition memory_of_pages (size resident shared text data : Z) : Memory :=
  mkMemory (size * PAGE_SIZE) (resident * PAGE_SIZE) (shared * PAGE_SIZE)
    (text * PAGE_SIZE) (data * PAGE_SIZE).

Lemma pages_small v : 0 <= v * PAGE_SIZE < 2 ^ 64 -> pages v = Ok (v * PAGE_SIZE).
Proof.
  intros Hv. unfold pages, mul_u64. rewrite arith_u64_small by done. cbn.
  by rewrite information_byte_id.
Qed.

Lemma pages_overflow v : 2 ^ 64 <= v * PAGE_SIZE -> overflow_checks = true -> pages v = Panic.
Proof.
  intros Hv Hc. unfold pages, mul_u64, arith_u64. rewrite decide_False by lia. by rewrite Hc.
Qed.

(** [statm] counts are multiplied by the page size without rounding as
    long as the product fits in 64 bits, whatever the unused [lib] field
    holds; a first field above that bound panics where overflow is checked. *)
Theorem memory_from_str_bounds size resident shared text lib data rest :
  Forall u64 [size; resident; shared; text; data] -> u64 (size * PAGE_SIZE) ->
  word lib -> Forall word rest ->
  Forall (fun v => v <= size) [resident; shared; text; data] ->
  let file size := unwords (map show_int [size; resident; shared; text] ++ lib :: show_int data :: rest) ++ [LF] in
  memory_from_str (file size) = Ok (memory_of_pages size resident shared text data)
  /\ (overflow_checks = true -> forall big, u64 big -> 2 ^ 64 <= big * PAGE_SIZE ->
      memory_from_str (file big) = Panic).
Proof.
  intros Hu Hs Hlib Hrest Hle file. repeat setoid_rewrite Forall_cons in Hu.
  repeat setoid_rewrite Forall_cons in Hle. unfold u64 in *. pose proof page_size_range as Hps.
  assert (Hw : forall z, Forall word (map show_int [z; resident; shared; text] ++ lib :: show_int data :: rest)).
  { intros z. cbn [map app]. solve_words. done. }
  unfold memory_from_str, file, split_ascii_whitespace. split.
  - rewrite words_unwords_newline by done. cbn [map app].
    do 4 (parse_step; rewrite pages_small by nia; cbn [mbind res_bind]).
    cbn [Iter.next]. parse_step. rewrite pages_small by nia. done.
  - intros Hc big Hb Hbig. rewrite words_unwords_newline by done. cbn [map app].
    parse_step. by rewrite pages_overflow.
Qed.
End statm.

Lemma memory_from_str_bounds_witness :
  @memory_from_str true si_units linux_statics (lit "2000 300 100 50 0 700 0" ++ [LF])
  = Ok (mkMemory 8192000 1228800 409600 204800 2867200).
Proof.
  refine (proj1 (@memory_from_str_bounds true si_units linux_statics si_units_laws
    linux_statics_laws 2000 300 100 50 (lit "0") 700 [lit "0"] _ _ _ _ _));
    apply (bool_decide_unpack _); vm_compute; exact I.
Defined.
