(* ===== verification/Cpu.v ===== *)
(** * heim-cpu on Linux: statistics, times, counts, frequencies

    heim-cpu/src/sys/linux and heim-cpu/src/sys/unix.rs. *)

From S2P Require Import Prelude RustStr RustFloat Units Errors Sys Streams ProcFs.
From stdpp Require Import gmap.

(** The path of a file of procfs. *)
Definition proc_path `{Roots} (name : str) : path := path_join procfs_root name.

(** The text of [format!("{:?}/stat", rt::linux::procfs_root())]. *)
Definition debug_stat `{Roots, Fmt} : str := debug_path procfs_root ++ lit "/stat".

(** ** stats.rs *)

Record CpuStats := mkCpuStats { ctx_switches : Z; interrupts : Z; soft_interrupts : Z }.
Definition cpu_stats_default : CpuStats := mkCpuStats 0 0 0.

Section stats.
Context `{Roots, Fmt}.

(** The name and the field that the first part of a line selects. *)
Definition stats_field (first : str) : option (str * (Z -> CpuStats -> CpuStats)) :=
  if decide (first = lit "ctxt") then
    Some (lit "ctxt", fun v s => mkCpuStats v (interrupts s) (soft_interrupts s))
  else if decide (first = lit "intr") then
    Some (lit "intr", fun v s => mkCpuStats (ctx_switches s) v (soft_interrupts s))
  else if decide (first = lit "softirq") then
    Some (lit "softirq", fun v s => mkCpuStats (ctx_switches s) (interrupts s) v)
  else None.

Fixpoint stats_loop (stats : CpuStats) (matched_lines : nat) (ls : list str) : result CpuStats :=
  match ls with
  | [] => Ok stats
  | line :: ls' =>
      match split_on SP line with
      | first :: parts =>
          match stats_field first with
          | None => stats_loop stats matched_lines ls'
          | Some (name, set) =>
              match parts with
              | raw_value :: _ =>
                  value ← map_err from_parse_int (parse_u64 (trim_end raw_value));
                  let matched_lines := S matched_lines in
                  let stats := set value stats in
                  if decide (matched_lines = 3) then Ok stats
                  else stats_loop stats matched_lines ls'
              | [] => Err (missing_key name debug_stat)
              end
          end
      | [] => stats_loop stats matched_lines ls'
      end
  end.
Definition cpu_stats_from_str (s : str) : result CpuStats := stats_loop cpu_stats_default 0 (lines s).

Definition stats : io Error CpuStats :=
  read_into from_io cpu_stats_from_str (proc_path (lit "stat")).
End stats.

(** ** times.rs *)

Record CpuTimes := mkCpuTimes {
  ct_user : Time;
  ct_nice : Time;
  ct_system : Time;
  ct_idle : Time;
  ct_io_wait : Time;
  ct_irq : Time;
  ct_soft_irq : Time;
  ct_steal : Time;
  ct_guest : option Time;
  ct_guest_nice : option Time;
}.
Definition cpu_times_default : CpuTimes :=
  let z := f64_zero in mkCpuTimes z z z z z z z z None None.

(** [times.<field> = value], by the index of the field. *)
Definition set_time (idx : nat) (v : Time) (t : CpuTimes) : option CpuTimes :=
  let 'mkCpuTimes a b c d e f g h i j := t in
  match idx with
  | 0 => Some (mkCpuTimes v b c d e f g h i j)
  | 1 => Some (mkCpuTimes a v c d e f g h i j)
  | 2 => Some (mkCpuTimes a b v d e f g h i j)
  | 3 => Some (mkCpuTimes a b c v e f g h i j)
  | 4 => Some (mkCpuTimes a b c d v f g h i j)
  | 5 => Some (mkCpuTimes a b c d e v g h i j)
  | 6 => Some (mkCpuTimes a b c d e f v h i j)
  | 7 => Some (mkCpuTimes a b c d e f g v i j)
  | 8 => Some (mkCpuTimes a b c d e f g h (Some v) j)
  | 9 => Some (mkCpuTimes a b c d e f g h i (Some v))
  | _ => None
  end.

Section times.
Context `{Units, Statics, Roots, Fmt}.

Definition time_part (part : str) : result Time :=
  (fun value => time_second (f64_div value (f64_of_int CLOCK_TICKS)))
    <$> map_err from_parse_float (parse_f64 part).

(** [for (idx, part) in parts.enumerate()]: a part is parsed before its
    index is looked at, and the eleventh ends the loop. *)
Fixpoint times_loop (idx : nat) (times : CpuTimes) (parts : list str) : result CpuTimes :=
  match parts with
  | [] => Ok times
  | part :: parts' =>
      value ← time_part part;
      match set_time idx value times with
      | Some times => times_loop (S idx) times parts'
      | None => Ok times
      end
  end.
Definition cpu_times_from_str (value : str) : result CpuTimes :=
  times_loop 0 cpu_times_default (drop 1 (split_whitespace value)).

Definition time : io Error CpuTimes :=
  ls ← read_lines_into from_io cpu_times_from_str (proc_path (lit "stat"));
  match ls with
  | l :: _ => lift l
  | [] => fails (missing_key (lit "cumulative time line") debug_stat)
  end.

Definition times_item (try_line : io_result str) : option (result CpuTimes) :=
  match try_line with
  | Ok line => if starts_with line (lit "cpu") then Some (cpu_times_from_str line) else None
  | Err e => Some (Err (from_io e))
  | Panic => Some Panic
  end.
(** The items of the stream. *)
Definition times : io Error (list (result CpuTimes)) :=
  ls ← read_lines from_io (proc_path (lit "stat"));
  mret (omap times_item (drop 1 ls)).
End times.

(** ** count/logical.rs *)

Definition SC_NPROCESSORS_ONLN : Z := 84.

(** The loops over the lines of a file: [line?.starts_with(prefix)]. *)
Fixpoint count_lines `{Profile} (prefix : str) (count : Z) (ls : list (io_result str)) : result Z :=
  match ls with
  | [] => Ok count
  | line :: ls' =>
      l ← map_err from_io line;
      count ← (if starts_with l prefix then add_u64 count 1 else Ok count);
      count_lines prefix count ls'
  end.

Section logical.
Context `{Profile, Roots}.

Definition sysconf : io Error Z :=
  result ← ask (Sysconf SC_NPROCESSORS_ONLN);
  if (result <? 0)%Z then
    e ← ask GetErrno; fails (with_sysconf (last_os_error e) SC_NPROCESSORS_ONLN)
  else mret result.

Definition cpuinfo : io Error Z :=
  ls ← read_lines from_io (proc_path (lit "cpuinfo"));
  lift (count_lines (lit "processor") 0 ls).

Definition stat_count : io Error Z :=
  ls ← read_lines from_io (proc_path (lit "stat"));
  lift (count_lines (lit "cpu") 0 (drop 1 ls)).

Definition logical_count : io Error Z :=
  or_else sysconf (fun _ => or_else cpuinfo (fun _ => stat_count)).
End logical.

(** ** count/physical.rs *)

Definition COLON : byte := ":"%char.

Definition topology_pattern : str := lit "devices/system/cpu/cpu[0-9]/topology/core_id".

(** One entry of the glob: its file as a number. *)
Definition core_id_of (entry : io_result path) : io Error Z :=
  entry ← lift (map_err from_io entry);
  contents ← read_to_string from_io entry;
  lift (map_err from_parse_int (parse_u64 (trim contents))).

Fixpoint topology_loop (acc : gset Z) (entries : list (io_result path)) : io Error (gset Z) :=
  match entries with
  | [] => mret acc
  | entry :: entries' => core_id ← core_id_of entry; topology_loop ({[core_id]} ∪ acc) entries'
  end.

Definition topology `{Roots} : io Error Z :=
  entries ← ask (Glob (path_join sysfs_root topology_pattern));
  acc ← topology_loop ∅ entries;
  if decide (acc = ∅) then fails (from_io (Simple InvalidData))
  else mret (Z.of_nat (base.size acc)).

Record Collector := mkCollector { physical_id : option Z; group : gset (Z * Z) }.

Definition parse_line (line : str) : result Z :=
  value ← ok_or (from_io (Simple InvalidData)) (trim <$> split_on COLON line !! 2);
  map_err from_parse_int (parse_u64 value).

(** One line of cpuinfo. *)
Definition collect_line (l : str) (acc : Collector) : result Collector :=
  if starts_with l (lit "physical id") then
    core_id ← parse_line l;
    match physical_id acc with
    | None => Ok (mkCollector (Some core_id) (group acc))
    | Some _ => Panic
    end
  else if starts_with l (lit "core id") then
    core_id ← parse_line l;
    match physical_id acc with
    | Some physical_id => Ok (mkCollector None ({[(physical_id, core_id)]} ∪ group acc))
    | None => Panic
    end
  else Ok acc.

Fixpoint collect_lines (acc : Collector) (ls : list (io_result str)) : result Collector :=
  match ls with
  | [] => Ok acc
  | line :: ls' => l ← map_err from_io line; acc ← collect_line l acc; collect_lines acc ls'
  end.

Definition cpu_info `{Roots} : io Error (option Z) :=
  ls ← read_lines from_io (proc_path (lit "cpuinfo"));
  acc ← lift (collect_lines (mkCollector None ∅) ls);
  mret (if decide (group acc = ∅) then None else Some (Z.of_nat (base.size (group acc)))).

Definition physical_count `{Roots} : io Error (option Z) :=
  or_else (Some <$> topology) (fun _ => cpu_info).

(** ** freq.rs *)

Record CpuFrequency := mkCpuFrequency {
  freq_current : Frequency;
  freq_min : option Frequency;
  freq_max : option Frequency;
}.
Definition cpu_frequency_default : CpuFrequency := mkCpuFrequency 0 None None.

Definition freq_pattern : str := lit "devices/system/cpu/cpu[0-9]/cpufreq/".

Section freq.
Context `{Profile, Units, Roots}.

(** [Option<Frequency>] addition: an absent side counts as nothing. *)
Definition add_option (l r : option Frequency) : result (option Frequency) :=
  match l, r with
  | Some l, Some r => Some <$> add_u64 l r
  | Some l, None => Ok (Some l)
  | None, Some r => Ok (Some r)
  | None, None => Ok None
  end.

Definition freq_add (self rhs : CpuFrequency) : result CpuFrequency :=
  current ← add_u64 (freq_current self) (freq_current rhs);
  min ← add_option (freq_min self) (freq_min rhs);
  max ← add_option (freq_max self) (freq_max rhs);
  Ok (mkCpuFrequency current min max).

Definition read_freq (p : path) : io Error Frequency :=
  contents ← read_to_string from_io p;
  value ← lift (map_err from_parse_int (parse_u64 (trim_end contents)));
  mret (frequency_kilohertz value).

Definition current_freq (p : path) : io Error Frequency :=
  read_freq (path_join p (lit "scaling_cur_freq")).
Definition ok_freq (p : io Error Frequency) : io Error (option Frequency) :=
  or_else (Some <$> p) (fun _ => mret None).
Definition max_freq (p : path) : io Error (option Frequency) :=
  ok_freq (read_freq (path_join p (lit "scaling_max_freq"))).
Definition min_freq (p : path) : io Error (option Frequency) :=
  ok_freq (read_freq (path_join p (lit "scaling_min_freq"))).

(** One item of the iterator. *)
Definition freq_item (try_path : io_result path) : io Error CpuFrequency :=
  p ← lift (map_err from_io try_path);
  current ← current_freq p;
  max ← max_freq p;
  min ← min_freq p;
  mret (mkCpuFrequency current min max).

(** [_frequencies]: the entries; each is read when the iterator gets to it. *)
Definition freq_entries {E} : io E (list (io_result path)) :=
  ask (Glob (path_join sysfs_root freq_pattern)).

Fixpoint collect_items (entries : list (io_result path)) : prog (list (result CpuFrequency)) :=
  match entries with
  | [] => Ret []
  | e :: entries' =>
      prog_bind (freq_item e) (fun r => prog_bind (collect_items entries') (fun rs => Ret (r :: rs)))
  end.
Definition frequencies : io Error (list (result CpuFrequency)) :=
  entries ← freq_entries; prog_bind (collect_items entries) (fun l => Ret (Ok l)).

Fixpoint freq_loop (acc : CpuFrequency) (amount : Z) (entries : list (io_result path))
    : io Error (CpuFrequency * Z) :=
  match entries with
  | [] => mret (acc, amount)
  | e :: entries' =>
      freq ← freq_item e;
      acc ← lift (freq_add acc freq);
      amount ← lift (add_u64 amount 1);
      freq_loop acc amount entries'
  end.

Definition frequency : io Error CpuFrequency :=
  entries ← freq_entries;
  '(acc, amount) ← freq_loop cpu_frequency_default 0 entries;
  if (0 <? amount)%Z then
    mret (mkCpuFrequency (freq_current acc / amount)%Z
            ((fun value => value / amount)%Z <$> freq_min acc)
            ((fun value => value / amount)%Z <$> freq_max acc))
  else fails (with_message (from_io (Simple InvalidData))
                (lit "No CPU frequencies was found, running in VM?")).
End freq.

(** ** heim-cpu/src/sys/unix.rs *)

Definition loadavg `{Units} : io Error (Ratio * Ratio * Ratio) :=
  '(result, (a, b, c)) ← ask Getloadavg;
  if (result =? 3)%Z then
    mret (ratio_ratio (f32_of_f64 a), ratio_ratio (f32_of_f64 b), ratio_ratio (f32_of_f64 c))
  else e ← ask GetErrno; fails (with_ffi (last_os_error e) (lit "getloadavg")).
