(* ===== verification/CpuSpec.v ===== *)
(** * heim-cpu: what the readers give

    The files of [Cpu] as the kernel writes them, and the counts and averages
    against their definitions on lists and sets. *)

From S2P Require Import Prelude RustStr RustFloat Units Errors Sys Streams ProcFs ProcFsSpec Cpu.
From stdpp Require Import gmap.

(** ** /proc/stat *)

Section stats.
Context `{Roots, Fmt}.

(** A line that is none of the three. *)
Definition noise (l : str) : Prop :=
  is_line l /\ match split_on SP l with
               | first :: _ => stats_field first = None
               | [] => True
               end.
#[export] Instance noise_dec l : Decision (noise l).
Proof.
  apply and_dec; [apply _|]. destruct (split_on SP l) as [|f ?]; [apply _|].
  destruct (stats_field f); [right; done|left; done].
Defined.

Definition stat_line (name : str) (value : Z) (more : list str) : str :=
  unwords (name :: show_int value :: more).

Lemma stats_loop_noise ls : Forall noise ls ->
  forall st n rest, stats_loop st n (ls ++ rest) = stats_loop st n rest.
Proof.
  induction 1 as [|l ls [_ Hl] Hls IH]; intros st n rest; [done|]. cbn [app stats_loop].
  destruct (split_on SP l); [apply IH|]. rewrite Hl. apply IH.
Qed.

Lemma split_stat_line name value more : word name ->
  exists rest, split_on SP (stat_line name value more) = name :: show_int value :: rest.
Proof.
  intros Hn. unfold stat_line.
  change (unwords (name :: show_int value :: more)) with (name ++ SP :: unwords (show_int value :: more)).
  rewrite split_on_app by by apply word_no_space.
  destruct more as [|m more]; cbn [unwords].
  - rewrite split_on_plain; [by exists []|]. apply word_no_space, show_int_word.
  - rewrite split_on_app; [eexists; done|]. apply word_no_space, show_int_word.
Qed.

Lemma stats_loop_line name set f value more st n rest :
  stats_field name = Some (f, set) -> word name -> u64 value ->
  stats_loop st n (stat_line name value more :: rest) =
  if decide (S n = 3) then Ok (set value st) else stats_loop (set value st) (S n) rest.
Proof.
  intros Hf Hn Hv. cbn [stats_loop].
  destruct (split_stat_line name value more Hn) as [ps ->]. rewrite Hf.
  rewrite trim_end_of_word by apply show_int_word. rewrite parse_u64_show by done. done.
Qed.

(** The counters of [/proc/stat] are read from their own lines, whatever
    other lines stand between them, and nothing after the third is looked
    at: the rest of the file may be any bytes. *)
Theorem cpu_stats_text n1 n2 n3 intr more1 ctxt more2 softirq more3 rest :
  Forall noise (n1 ++ n2 ++ n3) -> Forall word (more1 ++ more2 ++ more3) ->
  Forall u64 [intr; ctxt; softirq] ->
  cpu_stats_from_str
    (unlines (n1 ++ [stat_line (lit "intr") intr more1] ++
              n2 ++ [stat_line (lit "ctxt") ctxt more2] ++
              n3 ++ [stat_line (lit "softirq") softirq more3]) ++ rest)
  = Ok (mkCpuStats ctxt intr softirq).
Proof.
  rewrite !Forall_app, !Forall_cons. intros (H1 & H2 & H3) (Hm1 & Hm2 & Hm3) (Hi & Hc & Hs & _).
  assert (Hl : forall l, Forall noise l -> Forall is_line l).
  { intros l Hl. eapply Forall_impl; [exact Hl|]. by intros ? []. }
  unfold cpu_stats_from_str. rewrite lines_unlines_app.
  2:{ rewrite !Forall_app, !Forall_singleton.
      split_and!; auto; apply unwords_is_line; solve_words; done. }
  rewrite <- !app_assoc. rewrite stats_loop_noise by done. cbn [app].
  erewrite stats_loop_line by (done || by apply (bool_decide_unpack _); vm_compute). cbn [decide]. rewrite decide_False by done.
  rewrite stats_loop_noise by done. cbn [app].
  erewrite stats_loop_line by (done || by apply (bool_decide_unpack _); vm_compute). rewrite decide_False by done.
  rewrite stats_loop_noise by done. cbn [app].
  erewrite stats_loop_line by (done || by apply (bool_decide_unpack _); vm_compute). by rewrite decide_True.
Qed.
End stats.

Lemma cpu_stats_text_witness :
  @cpu_stats_from_str default_roots (Build_Fmt show_int (fun p => p))
    (lit "cpu  1 2" ++ LF :: lit "intr 900 0 3" ++ LF :: lit "ctxt 55" ++ LF :: lit "softirq 7" ++
     LF :: lit "ctxt oops")
  = Ok (mkCpuStats 55 900 7).
Proof.
  apply (@cpu_stats_text default_roots (Build_Fmt show_int (fun p => p)) [lit "cpu  1 2"] [] []
    900 [lit "0"; lit "3"] 55 [] 7 [] (lit "ctxt oops"));
    apply (bool_decide_unpack _); vm_compute; exact I.
Defined.

Section times.
Context `{Units, Statics}.

Lemma time_part_show v : (0 <= v)%Z -> time_part (show_int v) = Ok (ticks_to_time v).
Proof. intros Hv. unfold time_part. by rewrite parse_f64_show. Qed.

(** The columns as the kernel numbers them; a missing one is zero, a missing
    guest column is absent. *)
Definition times_of_columns (vs : list Z) : CpuTimes :=
  let column i := default f64_zero (ticks_to_time <$> vs !! i) in
  mkCpuTimes (column 0) (column 1) (column 2) (column 3) (column 4) (column 5) (column 6) (column 7)
    (ticks_to_time <$> vs !! 8) (ticks_to_time <$> vs !! 9).

(** Every column of a [cpu] line, however many spaces separate them,
    lands in its own field; missing columns keep the default and columns
    after the tenth are ignored. *)
Theorem cpu_times_columns s w vs :
  split_whitespace s = w :: map show_int vs -> Forall (fun v => 0 <= v)%Z vs ->
  cpu_times_from_str s = Ok (times_of_columns vs).
Proof.
  intros Hs Hvs. unfold cpu_times_from_str. rewrite Hs. cbn [skipn]. rewrite drop_0.
  do 11 (destruct vs as [|? vs]; [reflexivity|];
         apply Forall_cons in Hvs as [? Hvs]; cbn [map times_loop];
         rewrite time_part_show by done; cbn [mbind res_bind set_time cpu_times_default]).
  reflexivity.
Qed.
End times.

(** The line of issue 233, which has two spaces after its name. *)
Lemma cpu_times_columns_witness :
  @cpu_times_from_str si_units linux_statics (lit "cpu  465552918 3813058 111153634 9065060137 5821166 0 4346876 0 0 0" ++ [LF])
  = Ok (@times_of_columns si_units linux_statics
          [465552918; 3813058; 111153634; 9065060137; 5821166; 0; 4346876; 0; 0; 0]%Z).
Proof.
  apply (@cpu_times_columns si_units linux_statics _ (lit "cpu")).
  - vm_compute. reflexivity.
  - apply (bool_decide_unpack _). vm_compute. exact I.
Defined.

(** ** Counts *)

Definition count_of (prefix : str) (ls : list str) : Z :=
  Z.of_nat (length (List.filter (fun l => starts_with l prefix) ls)).

Lemma count_lines_ok `{Profile} prefix ls : forall n,
  (0 <= n)%Z -> (n + Z.of_nat (length ls) < 2 ^ 64)%Z ->
  count_lines prefix n (map Ok ls) = Ok (n + count_of prefix ls)%Z.
Proof.
  unfold count_of. induction ls as [|l ls IH]; intros n Hn Hlen; cbn [map count_lines].
  - cbn. by rewrite Z.add_0_r.
  - cbn [map_err mbind res_bind length List.filter] in *.
    destruct (starts_with l prefix); cbn [mbind res_bind length].
    + unfold add_u64. rewrite arith_u64_small by lia. cbn [mbind res_bind].
      rewrite IH by lia. f_equal. lia.
    + rewrite IH by lia. done.
Qed.

Section logical.
Context `{Profile, Roots}.
Context {W : Type} (h : handler W) (w : W).

(** The number of logical CPUs comes from [sysconf], and then no file
    is opened; only when that fails are the [processor] lines of cpuinfo
    counted, and only when cpuinfo cannot be opened the [cpuN] lines of
    stat, without its first, cumulative line. *)
Theorem logical_count_sources :
  steady h w ->
  let n := fst (h _ (Sysconf SC_NPROCESSORS_ONLN) w) in
  let info := fst (h _ (ReadLines (proc_path (lit "cpuinfo"))) w) in
  let stat := fst (h _ (ReadLines (proc_path (lit "stat"))) w) in
  ((0 <= n)%Z -> result_of h logical_count w = Ok n /\
     trace h logical_count w = [EvSysconf SC_NPROCESSORS_ONLN]) /\
  ((n < 0)%Z -> forall ls, info = Ok (map Ok ls) -> (Z.of_nat (length ls) < 2 ^ 64)%Z ->
     result_of h logical_count w = Ok (count_of (lit "processor") ls)) /\
  ((n < 0)%Z -> forall e ls, info = Err e -> stat = Ok (map Ok ls) -> (Z.of_nat (length ls) < 2 ^ 64)%Z ->
     result_of h logical_count w = Ok (count_of (lit "cpu") (drop 1 ls))).
Proof.
  intros Hst n info stat.
  assert (Hsys : result_of h sysconf w =
    if (n <? 0)%Z then Err (with_sysconf (last_os_error (fst (h _ GetErrno w))) SC_NPROCESSORS_ONLN) else Ok n).
  { unfold sysconf. rewrite result_io_bind, result_ask by done. cbn [mbind res_bind].
    fold n. case_match; [|done]. by rewrite result_io_bind, result_ask by done. }
  assert (Hfile : forall name prefix f,
    result_of h (ls ← read_lines from_io (proc_path name); lift (count_lines prefix 0 (f ls))) w =
    (ls ← map_err from_io (fst (h _ (ReadLines (proc_path name)) w)); count_lines prefix 0 (f ls))).
  { intros name prefix f. unfold read_lines. by rewrite result_io_bind, result_map_err, result_os by done. }
  split_and!.
  - intros Hn. unfold logical_count. split.
    + rewrite result_or_else by done. rewrite Hsys.
      destruct (Z.ltb_spec n 0); [lia|done].
    + unfold or_else, sysconf, ask. cbn. pose proof (Hst _ (Sysconf SC_NPROCESSORS_ONLN)) as Hw.
      unfold n in Hn. destruct (h _ (Sysconf SC_NPROCESSORS_ONLN) w) as [r w'] eqn:Hr. cbn in *.
      destruct (Z.ltb_spec r 0); [lia|done].
  - intros Hn ls Hinfo Hlen. unfold logical_count, cpuinfo. rewrite !result_or_else, Hsys by done.
    rewrite (Hfile _ _ (fun ls => ls)). fold info. rewrite Hinfo.
    destruct (Z.ltb_spec n 0); [|lia]. cbn [map_err mbind res_bind].
    by rewrite count_lines_ok.
  - intros Hn e ls Hinfo Hstat Hlen. unfold logical_count, cpuinfo, stat_count.
    rewrite !result_or_else, Hsys by done.
    rewrite (Hfile _ _ (fun ls => ls)), (Hfile _ _ (fun ls => drop 1 ls)). fold info stat.
    rewrite Hinfo, Hstat. destruct (Z.ltb_spec n 0); [|lia]. cbn [map_err mbind res_bind].
    rewrite skipn_map. rewrite count_lines_ok; [done|done|]. rewrite length_drop. lia.
Qed.
End logical.

Lemma logical_count_sources_witness :
  @result_of unit _ (snapshot (fun _ => Err (Os 2)) (fun _ => []))
    (@logical_count true default_roots) tt = Ok 0%Z.
Proof.
  refine (proj1 (proj1 (@logical_count_sources true default_roots unit
    (snapshot (fun _ => Err (Os 2)) (fun _ => [])) tt (snapshot_steady _ _ tt)) _)).
  vm_compute. discriminate.
Defined.

Section physical.
Context `{Roots}.
Context {W : Type} (h : handler W) (w : W).
Hypothesis Hsteady : steady h w.

Lemma topology_loop_ids entries ids acc :
  Forall2 (fun e id => result_of h (core_id_of e) w = Ok id) entries ids ->
  result_of h (topology_loop acc entries) w = Ok (list_to_set ids ∪ acc).
Proof.
  intros Hids. revert acc. induction Hids as [|e id entries ids He Hids IH]; intros acc.
  - cbn. unfold result_of. cbn. f_equal. set_solver.
  - cbn [topology_loop]. rewrite result_io_bind, He by done. cbn [mbind res_bind].
    rewrite IH. f_equal. set_solver.
Qed.

Lemma topology_ids entries ids :
  fst (h _ (Glob (path_join sysfs_root topology_pattern)) w) = entries ->
  Forall2 (fun e id => result_of h (core_id_of e) w = Ok id) entries ids ->
  result_of h topology w =
  if decide (ids = []) then Err (from_io (Simple InvalidData))
  else Ok (Z.of_nat (base.size (list_to_set (C := gset Z) ids))).
Proof.
  intros Hglob Hids. unfold topology. rewrite result_io_bind, result_ask by done.
  cbn [mbind res_bind]. rewrite Hglob, result_io_bind, (topology_loop_ids _ ids) by done.
  cbn [mbind res_bind]. rewrite union_empty_r_L.
  destruct ids as [|id ids]; cbn [list_to_set].
  - by rewrite !decide_True.
  - rewrite (decide_False (P := _ :: _ = [])) by done. rewrite decide_False by set_solver. done.
Qed.

(** When the topology files can be read, the number of physical CPUs is
    the number of distinct [core_id]s among the entries of the glob; a
    repeated id, from a hyper-thread or from another package, counts once. *)
Theorem physical_count_distinct entries ids :
  fst (h _ (Glob (path_join sysfs_root topology_pattern)) w) = entries ->
  Forall2 (fun e id => result_of h (core_id_of e) w = Ok id) entries ids ->
  ids <> [] ->
  result_of h physical_count w = Ok (Some (Z.of_nat (base.size (list_to_set (C := gset Z) ids)))).
Proof.
  intros Hglob Hids Hne. unfold physical_count. rewrite result_or_else, result_fmap by done.
  rewrite (topology_ids entries ids) by done. by rewrite decide_False.
Qed.
End physical.

(** Two packages of two cores, four CPUs in all: two are counted. *)
Definition four_cores : handler unit :=
  snapshot (fun p => Ok (if decide (p = lit "cpu0") then lit "0" ++ [LF]
                         else if decide (p = lit "cpu1") then lit "1" ++ [LF]
                         else if decide (p = lit "cpu2") then lit "0" ++ [LF] else lit "1" ++ [LF]))
           (fun _ => [lit "cpu0"; lit "cpu1"; lit "cpu2"; lit "cpu3"]).

Lemma physical_count_distinct_witness :
  result_of four_cores (@physical_count default_roots) tt = Ok (Some 2%Z).
Proof.
  refine (@physical_count_distinct default_roots unit four_cores tt (snapshot_steady _ _ tt)
    (map Ok [lit "cpu0"; lit "cpu1"; lit "cpu2"; lit "cpu3"]) [0; 1; 0; 1]%Z eq_refl _ _).
  - repeat constructor.
  - discriminate.
Defined.

(** The lines of cpuinfo hold one colon. *)
Definition colons (l : str) : nat := length (List.filter (fun c => bool_decide (c = COLON)) l).

Lemma split_colons l : length (split_on COLON l) = S (colons l).
Proof.
  unfold colons. induction l as [|c l IH]; [done|]. cbn [split_on List.filter].
  case_bool_decide; case_decide; subst; try done; cbn [length]; [by rewrite IH|].
  destruct (split_on COLON l) eqn:Hs; [by apply split_on_nil in Hs|]. done.
Qed.

Lemma parse_line_one_colon l : colons l <= 1 -> parse_line l = Err (from_io (Simple InvalidData)).
Proof.
  intros Hl. unfold parse_line. rewrite lookup_ge_None_2; [done|]. rewrite split_colons. lia.
Qed.

Lemma collect_lines_one_colon ls acc :
  Forall (fun l => colons l <= 1) ls -> physical_id acc = None ->
  collect_lines acc (map Ok ls) = Ok acc
  \/ collect_lines acc (map Ok ls) = Err (from_io (Simple InvalidData)).
Proof.
  intros Hls Hacc. induction Hls as [|l ls Hl Hls IH]; [by left|].
  cbn [map collect_lines map_err mbind res_bind]. unfold collect_line.
  rewrite parse_line_one_colon by done.
  destruct (starts_with l (lit "physical id")); [by right|].
  destruct (starts_with l (lit "core id")); [by right|]. apply IH.
Qed.

(** On a cpuinfo in the format of the kernel, [key : value], the
    fall-back never gives a number: it is an error as soon as one line names a
    physical id or a core id, since the third piece of such a line is read. *)
Theorem cpu_info_one_colon `{Roots} {W} (h : handler W) w ls :
  steady h w ->
  fst (h _ (ReadLines (proc_path (lit "cpuinfo"))) w) = Ok (map Ok ls) ->
  Forall (fun l => colons l <= 1) ls ->
  result_of h cpu_info w = Ok None
  \/ result_of h cpu_info w = Err (from_io (Simple InvalidData)).
Proof.
  intros Hst Hls Hcol. unfold cpu_info, read_lines.
  rewrite result_io_bind, result_map_err, result_os, Hls by done. cbn [map_err mbind res_bind].
  rewrite result_io_bind by done. unfold lift, result_of at 1. cbn [exec fst].
  destruct (collect_lines_one_colon ls (mkCollector None ∅) Hcol eq_refl) as [-> | ->];
    [left|by right]. cbn [mbind res_bind]. by destruct (decide (group (mkCollector None ∅) = ∅)).
Qed.

Definition cpuinfo_file : str :=
  unlines [lit "processor : 0"; lit "physical id : 0"; lit "core id : 0"].

Lemma cpu_info_one_colon_witness :
  result_of (snapshot (fun _ => Ok cpuinfo_file) (fun _ => [])) (@cpu_info default_roots) tt = Ok None
  \/ result_of (snapshot (fun _ => Ok cpuinfo_file) (fun _ => [])) (@cpu_info default_roots) tt
     = Err (from_io (Simple InvalidData)).
Proof.
  apply (@cpu_info_one_colon default_roots unit _ tt (lines cpuinfo_file));
    [apply snapshot_steady|reflexivity|].
  apply (bool_decide_unpack _). vm_compute. exact I.
Defined.

(** ** Frequencies *)

Fixpoint sum_list (l : list Z) : Z := match l with [] => 0 | x :: l' => x + sum_list l' end%Z.
Definition sum_option (l : list (option Z)) : option Z :=
  match omap id l with [] => None | vs => Some (sum_list vs) end.

Definition freqs_in_range (fs : list CpuFrequency) : Prop :=
  let fits (vs : list Z) := Forall (fun v => 0 <= v)%Z vs /\ (sum_list vs < 2 ^ 64)%Z in
  fits (map freq_current fs) /\ fits (omap freq_min fs) /\ fits (omap freq_max fs) /\
  (Z.of_nat (length fs) < 2 ^ 64)%Z.
#[export] Instance freqs_in_range_dec fs : Decision (freqs_in_range fs) := _.

Lemma sum_list_app a b : sum_list (a ++ b) = (sum_list a + sum_list b)%Z.
Proof. induction a as [|x a IH]; cbn; [done|]. rewrite IH. lia. Qed.

Lemma sum_list_nonneg l : Forall (fun v => 0 <= v)%Z l -> (0 <= sum_list l)%Z.
Proof. induction 1; cbn; lia. Qed.

Lemma freqs_in_range_app a b : freqs_in_range (a ++ b) -> freqs_in_range a.
Proof.
  unfold freqs_in_range. rewrite map_app, !omap_app, !sum_list_app, !Forall_app, length_app.
  intros ([[? Hb1%sum_list_nonneg] ?] & [[? Hb2%sum_list_nonneg] ?] & [[? Hb3%sum_list_nonneg] ?] & ?).
  split_and!; done || lia.
Qed.

Lemma omap_id_map {A} (f : CpuFrequency -> option A) fs : omap id (map f fs) = omap f fs.
Proof. induction fs as [|x fs IH]; cbn; [done|]. unfold id at 1. destruct (f x); by rewrite <- IH. Qed.

Definition total (fs : list CpuFrequency) : CpuFrequency :=
  mkCpuFrequency (sum_list (map freq_current fs)) (sum_option (map freq_min fs)) (sum_option (map freq_max fs)).

Section freq.
Context `{Profile, Units, Roots}.

Lemma add_option_total (g : CpuFrequency -> option Frequency) fs f :
  Forall (fun v => 0 <= v)%Z (omap g (fs ++ [f])) -> (sum_list (omap g (fs ++ [f])) < 2 ^ 64)%Z ->
  add_option (sum_option (map g fs)) (g f) = Ok (sum_option (map g (fs ++ [f]))).
Proof.
  unfold sum_option. rewrite !omap_id_map, omap_app, Forall_app, sum_list_app.
  change (omap g [f]) with (match g f with Some v => [v] | None => [] end).
  intros [Hl%sum_list_nonneg Hr%sum_list_nonneg] Hs. destruct (g f) as [v|].
  - destruct (omap g fs) as [|u us]; cbn [app add_option]; [cbn; by rewrite Z.add_0_r|].
    unfold add_u64. rewrite arith_u64_small by (cbn [sum_list] in *; lia).
    cbn [fmap res_fmap]. rewrite app_comm_cons, sum_list_app. cbn [sum_list].
    by rewrite Z.add_0_r.
  - rewrite app_nil_r. by destruct (omap g fs).
Qed.

Lemma freq_add_total fs f :
  freqs_in_range (fs ++ [f]) -> freq_add (total fs) f = Ok (total (fs ++ [f])).
Proof.
  intros ([Hc Hcs] & [Hm Hms] & [Hx Hxs] & _). unfold freq_add, total, add_u64.
  cbn [freq_current freq_min freq_max]. rewrite map_app, sum_list_app in Hcs. rewrite map_app, Forall_app in Hc.
  destruct Hc as [Hc1%sum_list_nonneg Hc2%sum_list_nonneg]. cbn in Hcs, Hc2.
  rewrite arith_u64_small by lia. cbn [mbind res_bind].
  rewrite (add_option_total freq_min) by done. cbn [mbind res_bind].
  rewrite (add_option_total freq_max) by done. cbn [mbind res_bind].
  rewrite (map_app freq_current), sum_list_app. cbn [map sum_list]. by rewrite Z.add_0_r.
Qed.
End freq.

Section average.
Context `{Profile, Units, Roots}.
Context {W : Type} (h : handler W) (w : W).
Hypothesis Hsteady : steady h w.

(** What the iterator gives for an entry. *)
Definition item_is (e : io_result path) (f : CpuFrequency) : Prop :=
  result_of h (freq_item e) w = Ok f.

Lemma freq_loop_total entries seen fs rest :
  Forall2 item_is entries fs -> freqs_in_range (seen ++ fs) ->
  result_of h (freq_loop (total seen) (Z.of_nat (length seen)) (entries ++ rest)) w =
  result_of h (freq_loop (total (seen ++ fs)) (Z.of_nat (length (seen ++ fs))) rest) w.
Proof.
  intros Hfs. revert seen. induction Hfs as [|e f entries fs He Hfs IH]; intros seen Hr.
  - by rewrite app_nil_r.
  - cbn [app freq_loop]. rewrite result_io_bind, He by done. cbn [mbind res_bind].
    rewrite (cons_middle f), app_assoc in Hr.
    rewrite freq_add_total by by eapply freqs_in_range_app. unfold lift, add_u64.
    rewrite arith_u64_small by (destruct Hr as (_ & _ & _ & Hr); rewrite !length_app in Hr; cbn in Hr; lia).
    cbn [mbind io_bind prog_bind].
    replace (Z.of_nat (length seen) + 1)%Z with (Z.of_nat (length (seen ++ [f])))
      by (rewrite length_app; cbn; lia).
    rewrite IH by done. by rewrite <- app_assoc.
Qed.

Lemma frequency_result entries :
  fst (h _ (Glob (path_join sysfs_root freq_pattern)) w) = entries ->
  result_of h frequency w =
  ('(acc, amount) ← result_of h (freq_loop (total []) 0 entries) w;
   if (0 <? amount)%Z then
     Ok (mkCpuFrequency (freq_current acc / amount)%Z
           ((fun value => value / amount)%Z <$> freq_min acc)
           ((fun value => value / amount)%Z <$> freq_max acc))
   else Err (with_message (from_io (Simple InvalidData))
               (lit "No CPU frequencies was found, running in VM?"))).
Proof.
  intros Hg. unfold frequency, freq_entries. rewrite result_io_bind, result_ask by done.
  rewrite Hg. cbn [mbind res_bind]. rewrite result_io_bind by done.
  change cpu_frequency_default with (total []).
  destruct (result_of h (freq_loop (total []) 0 entries) w) as [[acc amount]| |]; [|done..].
  cbn [mbind res_bind]. by case_match.
Qed.

(** [frequency] is the sum of the current frequencies divided by the
    number of CPUs; a minimum or maximum that only some CPUs have is summed
    over those and still divided by the number of all.  The first CPU whose
    frequency cannot be read makes the whole an error, and no CPU at all is
    an error with a message. *)
Theorem frequency_average entries fs :
  fst (h _ (Glob (path_join sysfs_root freq_pattern)) w) = entries ->
  freqs_in_range fs ->
  let n := Z.of_nat (length fs) in
  (Forall2 item_is entries fs -> fs <> [] ->
   result_of h frequency w =
   Ok (mkCpuFrequency (sum_list (map freq_current fs) / n)
         ((fun v => v / n) <$> sum_option (map freq_min fs))
         ((fun v => v / n) <$> sum_option (map freq_max fs)))%Z) /\
  (forall good bad rest e, entries = good ++ bad :: rest -> Forall2 item_is good fs ->
   result_of h (freq_item bad) w = Err e -> result_of h frequency w = Err e) /\
  (entries = [] -> exists m, result_of h frequency w = Err (with_message (from_io (Simple InvalidData)) m)).
Proof.
  intros Hg Hr n. rewrite (frequency_result entries) by done.
  change (freq_loop (total []) 0) with (freq_loop (total []) (Z.of_nat (length (@nil CpuFrequency)))).
  split_and!.
  - intros Hfs Hne. rewrite <- (app_nil_r entries).
    rewrite (freq_loop_total entries [] fs []) by done. unfold result_of. cbn.
    fold n. destruct (Z.ltb_spec 0 n); [done|]. destruct fs; [done|]. cbn in n. lia.
  - intros good bad rest e -> Hfs Hbad. rewrite (freq_loop_total good [] fs) by done.
    cbn [freq_loop]. by rewrite result_io_bind, Hbad by done.
  - intros ->. by eexists.
Qed.
End average.

(** Two CPUs, of which only one has limits. *)
Definition two_freqs : handler unit :=
  snapshot (fun p => if decide (p = lit "/a/scaling_cur_freq") then Ok (lit "1000" ++ [LF])
                     else if decide (p = lit "/b/scaling_cur_freq") then Ok (lit "3000" ++ [LF])
                     else if decide (p = lit "/a/scaling_min_freq") then Ok (lit "800" ++ [LF])
                     else Err (Os errno.ENOENT))
           (fun _ => [lit "/a"; lit "/b"]).

Lemma frequency_average_witness :
  result_of two_freqs (@frequency true si_units default_roots) tt
  = Ok (mkCpuFrequency 2000000 (Some 400000%Z) None).
Proof.
  refine (proj1 (@frequency_average true si_units default_roots unit two_freqs tt
    (snapshot_steady _ _ tt) [Ok (lit "/a"); Ok (lit "/b")]
    [mkCpuFrequency 1000000 (Some 800000%Z) None; mkCpuFrequency 3000000 None None]
    eq_refl _) _ _).
  - apply (bool_decide_unpack _). vm_compute. exact I.
  - repeat constructor.
  - discriminate.
Defined.
