(* ===== verification/SysMemory.v ===== *)
(** * heim-memory on Linux: meminfo and vmstat

    heim-memory/src/sys/linux/memory.rs, swap.rs, and [MemoryExt] of
    heim-memory/src/os/linux.rs.  [Memory::from_str] and [Swap::parse_str]
    are the same loop over meminfo with other keys; the loop is written once
    ([meminfo_loop]). *)

From S2P Require Import Prelude RustStr RustFloat Units Errors Sys Streams ProcFs Cpu.

(** The loop over the lines of meminfo: [wanted] are the two-byte prefixes
    that are looked at, [field] the field of a key, [needed] the number of
    matched lines after which the state is returned. *)
Section meminfo.
Context `{Units, Roots} {S : Type}.
Context (wanted : list str) (field : str -> option (Information -> S -> S)) (needed : nat).

(** [value.trim_start().splitn(2, ' ').next()], parsed as kilobytes. *)
Definition kilobytes (value : str) : option (result Information) :=
  match splitn 2 SP (trim_start value) with
  | kbytes :: _ =>
      Some (information_kilobyte <$> map_err from_parse_int (parse_u64 kbytes))
  | [] => None
  end.

Definition missing_meminfo : Error :=
  with_file (from_io (Simple InvalidData)) (proc_path (lit "meminfo")).

Fixpoint meminfo_loop (state : S) (matched_lines : nat) (ls : list str) : result S :=
  match ls with
  | [] => Err missing_meminfo
  | line :: ls' =>
      first_bytes ← bytes_to line 2;
      if decide (first_bytes ∈ wanted) then
        match splitn 2 COLON line with
        | key :: parts =>
            match field key, parts with
            | Some set, value :: _ =>
                match kilobytes value with
                | Some parsed =>
                    v ← parsed;
                    let state := set v state in
                    let matched_lines := Datatypes.S matched_lines in
                    if decide (matched_lines = needed) then Ok state
                    else meminfo_loop state matched_lines ls'
                | None => meminfo_loop state matched_lines ls'
                end
            | _, _ => meminfo_loop state matched_lines ls'
            end
        | [] => meminfo_loop state matched_lines ls'
        end
      else meminfo_loop state matched_lines ls'
  end.
End meminfo.

(** ** memory.rs *)

Record SysMemory := mkSysMemory {
  mem_total : Information;
  mem_free : Information;
  mem_available : Information;
  mem_buffers : Information;
  mem_cached : Information;
  mem_active : Information;
  mem_inactive : Information;
  mem_shared : Information;
}.
Definition sys_memory_default : SysMemory := mkSysMemory 0 0 0 0 0 0 0 0.

Definition mem_wanted : list str :=
  [lit "Me"; lit "Ac"; lit "In"; lit "Bu"; lit "Ca"; lit "Sh"].

Definition mem_field (key : str) : option (Information -> SysMemory -> SysMemory) :=
  if decide (key = lit "MemTotal") then
    Some (fun v '(mkSysMemory _ b c d e f g h) => mkSysMemory v b c d e f g h)
  else if decide (key = lit "MemFree") then
    Some (fun v '(mkSysMemory a _ c d e f g h) => mkSysMemory a v c d e f g h)
  else if decide (key = lit "MemAvailable") then
    Some (fun v '(mkSysMemory a b _ d e f g h) => mkSysMemory a b v d e f g h)
  else if decide (key = lit "Buffers") then
    Some (fun v '(mkSysMemory a b c _ e f g h) => mkSysMemory a b c v e f g h)
  else if decide (key = lit "Cached") then
    Some (fun v '(mkSysMemory a b c d _ f g h) => mkSysMemory a b c d v f g h)
  else if decide (key = lit "Active") then
    Some (fun v '(mkSysMemory a b c d e _ g h) => mkSysMemory a b c d e v g h)
  else if decide (key = lit "Inactive") then
    Some (fun v '(mkSysMemory a b c d e f _ h) => mkSysMemory a b c d e f v h)
  else if decide (key = lit "Shmem") then
    Some (fun v '(mkSysMemory a b c d e f g _) => mkSysMemory a b c d e f g v)
  else None.

Section memory.
Context `{Profile, Units, Roots}.

Definition sys_memory_from_str (meminfo : str) : result SysMemory :=
  meminfo_loop mem_wanted mem_field 8 sys_memory_default 0 (lines meminfo).

Definition memory : io Error SysMemory :=
  read_into from_io sys_memory_from_str (proc_path (lit "meminfo")).

(** heim-memory/src/os/linux.rs [MemoryExt::used]. *)
Definition mem_used {E} (m : SysMemory) : res E Information :=
  a ← sub_u64 (mem_total m) (mem_free m);
  b ← sub_u64 a (mem_cached m);
  used ← sub_u64 b (mem_buffers m);
  if (used <=? information_byte 0)%Z then sub_u64 (mem_total m) (mem_free m) else Ok used.
End memory.

(** ** swap.rs *)

Record VmStat := mkVmStat { swap_in : option Information; swap_out : option Information }.
Definition vm_stat_default : VmStat := mkVmStat None None.

Definition vm_stat_field (key : str) : option (option Information -> VmStat -> VmStat) :=
  if decide (key = lit "pswpin") then Some (fun v s => mkVmStat v (swap_out s))
  else if decide (key = lit "pswpout") then Some (fun v s => mkVmStat (swap_in s) v)
  else None.

Section vm_stat.
Context `{Profile, Units}.

Fixpoint vm_stat_loop (stat : VmStat) (ls : list str) : result VmStat :=
  match ls with
  | [] => Ok stat
  | line :: ls' =>
      first_bytes ← bytes_to line 2;
      if decide (first_bytes = lit "ps") then
        match splitn 2 SP line with
        | key :: parts =>
            match vm_stat_field key, parts with
            | Some set, value :: _ =>
                match splitn 2 SP (trim_start value) with
                | kbytes :: _ =>
                    value ← map_err from_parse_int (parse_u64 kbytes);
                    bytes ← mul_u64 4 value;
                    vm_stat_loop (set (Some (information_kilobyte bytes)) stat) ls'
                | [] => vm_stat_loop stat ls'
                end
            | _, _ => vm_stat_loop stat ls'
            end
        | [] => vm_stat_loop stat ls'
        end
      else vm_stat_loop stat ls'
  end.
Definition vm_stat_from_str (vmstat : str) : result VmStat :=
  vm_stat_loop vm_stat_default (lines vmstat).
End vm_stat.

Record Swap := mkSwap { swap_total : Information; swap_free : Information; vm_stat : VmStat }.

Definition swap_wanted : list str := [lit "Sw"].
Definition swap_field (key : str) : option (Information -> Swap -> Swap) :=
  if decide (key = lit "SwapTotal") then Some (fun v s => mkSwap v (swap_free s) (vm_stat s))
  else if decide (key = lit "SwapFree") then Some (fun v s => mkSwap (swap_total s) v (vm_stat s))
  else None.

Section swap.
Context `{Profile, Units, Roots}.

Definition swap_used {E} (s : Swap) : res E Information := sub_u64 (swap_total s) (swap_free s).
Definition swap_sin (s : Swap) : option Information := swap_in (vm_stat s).
Definition swap_sout (s : Swap) : option Information := swap_out (vm_stat s).

Definition swap_parse_str (meminfo : str) (vm_stat : VmStat) : result Swap :=
  let swap := mkSwap (information_byte 0) (information_byte 0) vm_stat in
  meminfo_loop swap_wanted swap_field 2 swap 0 (lines meminfo).

Definition swap : io Error Swap :=
  meminfo ← read_to_string from_io (proc_path (lit "meminfo"));
  vmstat ← read_to_string from_io (proc_path (lit "vmstat"));
  vmstat ← lift (vm_stat_from_str vmstat);
  lift (swap_parse_str meminfo vmstat).
End swap.
