(* ===== verification/SysMemorySpec.v ===== *)
(** * heim-memory: meminfo against its format *)

From S2P Require Import Prelude RustStr RustFloat Units Errors Sys Streams ProcFs ProcFsSpec Cpu SysMemory.
Local Open Scope Z_scope.

(** ** A meminfo file

    A line with a key, padding and kilobytes, or any other line. *)
Inductive entry :=
| Keyed (key : str) (pad : nat) (kb : Z)
| Plain (l : str).

Definition entry_line (e : entry) : str :=
  match e with
  | Keyed key pad kb => key ++ COLON :: replicate pad SP ++ unwords [show_int kb; lit "kB"]
  | Plain l => l
  end.
Definition meminfo_text (es : list entry) : str := unlines (map entry_line es).

Definition keyed (e : entry) : option (str * Z) :=
  match e with Keyed key _ kb => Some (key, kb) | Plain _ => None end.

Section meminfo.
Context `{!Units, !UnitsLaws, !Roots} {S : Type}.
Context (wanted : list str) (field : str -> option (Information -> S -> S)) (needed : nat).

(** An entry of the file as the loop sees it: a key that it looks for, or a
    line that it skips. *)
Definition entry_ok (e : entry) : Prop :=
  match e with
  | Keyed key pad kb =>
      word key /\ (COLON ∉ key) /\ (2 <= length key)%nat /\ 0 <= 1000 * kb < 2 ^ 64
      /\ take 2 key ∈ wanted /\ is_Some (field key)
  | Plain l =>
      is_line l /\ (2 <= length l)%nat /\
      (take 2 l ∈ wanted -> match splitn 2 COLON l with k :: _ => field k = None | [] => True end)
  end.

Definition assign_kb (s : S) (kv : str * Z) : S :=
  match field kv.1 with Some set => set (1000 * kv.2) s | None => s end.

Lemma keyed_line key pad kb :
  entry_ok (Keyed key pad kb) -> is_line (entry_line (Keyed key pad kb)).
Proof.
  intros (Hw & _). apply line_bytes_is_line. cbn [entry_line]. apply word_line_bytes in Hw.
  rewrite Forall_app, Forall_cons, Forall_app. split_and!; [done|done| |].
  - apply Forall_replicate. done.
  - apply unwords_line_bytes. solve_words.
Qed.

Lemma entries_lines es : Forall entry_ok es -> Forall is_line (map entry_line es).
Proof.
  intros Hes. apply Forall_fmap. eapply Forall_impl; [exact Hes|].
  intros [key pad kb|l] He; [by apply keyed_line|by apply He].
Qed.

Lemma trim_start_pad pad s : trim_start (replicate pad SP ++ s) = trim_start s.
Proof. induction pad as [|pad IH]; [done|]. cbn [replicate app]. by rewrite trim_start_space. Qed.

Lemma kilobytes_entry pad kb : 0 <= 1000 * kb < 2 ^ 64 ->
  kilobytes (replicate pad SP ++ unwords [show_int kb; lit "kB"]) = Some (Ok (1000 * kb)).
Proof.
  intros Hkb. unfold kilobytes. rewrite trim_start_pad.
  change (unwords [show_int kb; lit "kB"]) with (show_int kb ++ SP :: lit "kB").
  rewrite trim_start_of_word by apply show_int_word.
  cbn [splitn]. rewrite split_once_app by apply word_no_space, show_int_word.
  rewrite parse_u64_show by lia. cbn. by rewrite information_kilobyte_1000.
Qed.

Lemma loop_plain l ls s n : entry_ok (Plain l) ->
  meminfo_loop wanted field needed s n (l :: ls) = meminfo_loop wanted field needed s n ls.
Proof.
  intros (_ & Hlen & Hl). cbn [meminfo_loop]. unfold bytes_to at 1.
  rewrite bool_decide_eq_true_2 by done. cbn [mbind res_bind].
  case_decide as Hw; [|done]. specialize (Hl Hw).
  destruct (splitn 2 COLON l) as [|k parts]; [done|]. by rewrite Hl.
Qed.

Lemma loop_keyed key pad kb ls s n : entry_ok (Keyed key pad kb) ->
  meminfo_loop wanted field needed s n (entry_line (Keyed key pad kb) :: ls) =
  if decide (Datatypes.S n = needed) then Ok (assign_kb s (key, kb))
  else meminfo_loop wanted field needed (assign_kb s (key, kb)) (Datatypes.S n) ls.
Proof.
  intros (_ & Hc & Hlen & Hkb & Hw & [set Hset]). cbn [meminfo_loop entry_line].
  unfold bytes_to at 1. rewrite bool_decide_eq_true_2 by (rewrite length_app; lia).
  cbn [mbind res_bind]. rewrite take_app_le by done. rewrite decide_True by done.
  cbn [splitn]. rewrite split_once_app by done. rewrite Hset, kilobytes_entry by done.
  cbn [mbind res_bind]. unfold assign_kb. cbn [fst snd]. by rewrite Hset.
Qed.

(** The loop on a file: all keys found, or the error. *)
Lemma meminfo_loop_text es rest s n :
  Forall entry_ok es -> (n + length (omap keyed es) = needed)%nat -> (n < needed)%nat ->
  meminfo_loop wanted field needed s n (map entry_line es ++ rest) =
  Ok (foldl assign_kb s (omap keyed es)).
Proof.
  intros Hes. revert s n. induction Hes as [|[key pad kb|l] es He Hes IH]; intros s n Hn Hlt.
  - cbn in Hn. lia.
  - cbn [map app]. rewrite loop_keyed by done. cbn [omap list_omap keyed length foldl] in *.
    case_decide.
    + destruct (omap keyed es) as [|x l]; [done|cbn in Hn; lia].
    + apply IH; lia.
  - cbn [map app]. rewrite loop_plain by done. by apply IH.
Qed.

Lemma meminfo_loop_missing es s n :
  Forall entry_ok es -> (n + length (omap keyed es) < needed)%nat ->
  meminfo_loop wanted field needed s n (map entry_line es) = Err missing_meminfo.
Proof.
  intros Hes. revert s n. induction Hes as [|[key pad kb|l] es He Hes IH]; intros s n Hn.
  - done.
  - cbn [map]. rewrite loop_keyed by done. cbn [omap list_omap keyed length] in Hn.
    rewrite decide_False by lia. apply IH. lia.
  - cbn [map]. rewrite loop_plain by done. by apply IH.
Qed.

Lemma loop_short es l rest s n :
  Forall entry_ok es -> (n + length (omap keyed es) < needed)%nat -> (length l < 2)%nat ->
  meminfo_loop wanted field needed s n (map entry_line es ++ l :: rest) = Panic.
Proof.
  intros Hes Hn Hl. revert s n Hn. induction Hes as [|[key pad kb|l'] es He Hes IH]; intros s n Hn.
  - cbn [map app meminfo_loop]. unfold bytes_to. by rewrite bool_decide_eq_false_2 by lia.
  - cbn [map app]. rewrite loop_keyed by done. cbn [omap list_omap keyed length] in Hn.
    rewrite decide_False by lia. apply IH. lia.
  - cbn [map app]. rewrite loop_plain by done. by apply IH.
Qed.

#[export] Instance entry_ok_dec `{forall key, Decision (is_Some (field key))}
  `{forall key, Decision (field key = None)} e : Decision (entry_ok e).
Proof.
  destruct e as [key pad kb|l]; unfold entry_ok; [apply _|].
  repeat apply and_dec; try apply _. apply impl_dec; [apply _|].
  destruct (splitn 2 COLON l); apply _.
Defined.
End meminfo.

(** ** Memory *)

#[export] Instance mem_field_none_dec key : Decision (mem_field key = None).
Proof. destruct (mem_field key); [right|left]; done. Defined.
#[export] Instance swap_field_none_dec key : Decision (swap_field key = None).
Proof. destruct (swap_field key); [right|left]; done. Defined.

Definition mem_ok : entry -> Prop := entry_ok mem_wanted mem_field.
#[export] Instance mem_ok_dec e : Decision (mem_ok e) := entry_ok_dec _ _ e.
Definition swap_ok : entry -> Prop := entry_ok swap_wanted swap_field.
#[export] Instance swap_ok_dec e : Decision (swap_ok e) := entry_ok_dec _ _ e.

(** The eight keys with the values of [m], which is in kilobytes. *)
Definition mem_keys (m : SysMemory) : list (str * Z) :=
  [(lit "MemTotal", mem_total m); (lit "MemFree", mem_free m); (lit "MemAvailable", mem_available m);
   (lit "Buffers", mem_buffers m); (lit "Cached", mem_cached m); (lit "Active", mem_active m);
   (lit "Inactive", mem_inactive m); (lit "Shmem", mem_shared m)].

Definition scale (m : SysMemory) : SysMemory :=
  mkSysMemory (1000 * mem_total m) (1000 * mem_free m) (1000 * mem_available m)
    (1000 * mem_buffers m) (1000 * mem_cached m) (1000 * mem_active m)
    (1000 * mem_inactive m) (1000 * mem_shared m).

Lemma sys_memory_ext m m' :
  mem_total m = mem_total m' -> mem_free m = mem_free m' -> mem_available m = mem_available m' ->
  mem_buffers m = mem_buffers m' -> mem_cached m = mem_cached m' -> mem_active m = mem_active m' ->
  mem_inactive m = mem_inactive m' -> mem_shared m = mem_shared m' -> m = m'.
Proof. destruct m, m'. cbn. congruence. Qed.

(** One field of the fold, from the permutation [Hp] of the keys. *)
Ltac keyed_get field keys k Hp :=
  apply (foldl_field (assign_kb field) _ (fun v => 1000 * v) k);
  [ intros v [] ; reflexivity
  | intros k' v [] Hne; unfold assign_kb, field; cbn [fst snd];
    repeat (case_decide; [subst; first [done | reflexivity]|]); done
  | intros v Hv; rewrite Hp in Hv; unfold keys in Hv;
    repeat (apply elem_of_cons in Hv as [Hv|Hv]; [by inversion Hv|]); by inversion Hv
  | left; eexists; rewrite Hp; unfold keys;
    repeat first [apply list_elem_of_here | apply list_elem_of_further] ].

Lemma mem_fold kvs m s : kvs ≡ₚ mem_keys m -> foldl (assign_kb mem_field) s kvs = scale m.
Proof.
  intros Hp. apply sys_memory_ext; unfold scale; cbn [mem_total mem_free mem_available
    mem_buffers mem_cached mem_active mem_inactive mem_shared];
    [ keyed_get mem_field mem_keys (lit "MemTotal") Hp | keyed_get mem_field mem_keys (lit "MemFree") Hp
    | keyed_get mem_field mem_keys (lit "MemAvailable") Hp | keyed_get mem_field mem_keys (lit "Buffers") Hp
    | keyed_get mem_field mem_keys (lit "Cached") Hp | keyed_get mem_field mem_keys (lit "Active") Hp
    | keyed_get mem_field mem_keys (lit "Inactive") Hp | keyed_get mem_field mem_keys (lit "Shmem") Hp ].
Qed.

Section memory.
Context `{!Profile, !Units, !UnitsLaws, !Roots}.

(** C22: a meminfo with the eight keys, in any order, with any padding and
    any other lines of at least two bytes among them, gives all eight values
    in units of 1000 bytes, and nothing after the eighth is looked at.  With
    fewer keys the result is an error that names the file, and a line
    shorter than two bytes that is reached before then panics. *)
Theorem sys_memory_text es :
  Forall mem_ok es ->
  (forall m rest, omap keyed es ≡ₚ mem_keys m ->
     sys_memory_from_str (meminfo_text es ++ rest) = Ok (scale m)) /\
  ((length (omap keyed es) < 8)%nat ->
     sys_memory_from_str (meminfo_text es) = Err missing_meminfo /\
     forall l rest, is_line l -> (length l < 2)%nat ->
       sys_memory_from_str (meminfo_text es ++ unlines [l] ++ rest) = Panic).
Proof.
  intros Hes. unfold sys_memory_from_str, meminfo_text.
  pose proof (entries_lines _ _ _ Hes) as Hlines. split.
  - intros m rest Hp. rewrite lines_unlines_app by done.
    rewrite meminfo_loop_text; [by rewrite (mem_fold _ m)|done| |lia].
    by rewrite Hp.
  - intros Hlen. split.
    + rewrite lines_unlines by done. by apply meminfo_loop_missing.
    + intros l rest Hl Hshort. rewrite lines_unlines_app, lines_unlines_app by auto.
      by apply loop_short.
Qed.
End memory.

Definition meminfo_entries : list entry :=
  [Keyed (lit "MemTotal") 8 16; Keyed (lit "MemFree") 9 2; Keyed (lit "MemAvailable") 4 7;
   Keyed (lit "Buffers") 1 1; Keyed (lit "Cached") 0 5; Plain (lit "SwapCached:  0 kB");
   Plain (lit "HugePages_Total:  0"); Keyed (lit "Active") 3 6; Keyed (lit "Inactive") 2 4;
   Plain (lit "Active(anon):  3 kB"); Keyed (lit "Shmem") 2 3].

Lemma sys_memory_text_witness :
  @sys_memory_from_str si_units default_roots (meminfo_text meminfo_entries)
  = Ok (mkSysMemory 16000 2000 7000 1000 5000 6000 4000 3000).
Proof.
  rewrite <- (app_nil_r (meminfo_text meminfo_entries)).
  apply (proj1 (@sys_memory_text si_units si_units_laws default_roots meminfo_entries
    ltac:(apply (bool_decide_unpack _); vm_compute; exact I))
    (mkSysMemory 16 2 7 1 5 6 4 3)).
  reflexivity.
Defined.

Section used.
Context `{!Profile, !Units, !UnitsLaws}.

(** [used] is total minus free, cached and buffers while that is
    positive, and total minus free when it is exactly zero.  When free,
    cached and buffers together exceed the total, as in a container, the
    fall-back is not reached: the subtraction has already overflowed, which
    panics or gives a number beyond the total. *)
Theorem mem_used_bounds {E} m :
  Forall u64 [mem_total m; mem_free m; mem_cached m; mem_buffers m] ->
  mem_free m + mem_cached m <= mem_total m ->
  let rest := mem_total m - mem_free m - mem_cached m - mem_buffers m in
  (0 < rest -> mem_used (E := E) m = Ok rest) /\
  (rest = 0 -> mem_used (E := E) m = Ok (mem_total m - mem_free m)) /\
  (rest < 0 -> overflow_checks = true -> mem_used (E := E) m = Panic) /\
  (rest < 0 -> overflow_checks = false -> mem_total m < 2 ^ 63 -> mem_buffers m < 2 ^ 63 ->
     exists v, mem_used (E := E) m = Ok v /\ mem_total m < v).
Proof.
  intros Hu Hle rest. repeat setoid_rewrite Forall_cons in Hu. unfold u64 in *.
  destruct Hu as (Ht & Hf & Hc & Hb & _). unfold mem_used, sub_u64.
  rewrite (arith_u64_small (mem_total m - mem_free m)) by lia. cbn [mbind res_bind].
  rewrite (arith_u64_small (mem_total m - mem_free m - mem_cached m)) by lia. cbn [mbind res_bind].
  fold rest. rewrite information_byte_id by lia. split_and!.
  - intros Hr. rewrite arith_u64_small by lia. cbn [mbind res_bind].
    destruct (Z.leb_spec rest 0); [lia|done].
  - intros Hr. rewrite arith_u64_small by lia. cbn [mbind res_bind].
    destruct (Z.leb_spec rest 0); [done|lia].
  - intros Hr Hck. unfold arith_u64. rewrite decide_False by lia. by rewrite Hck.
  - intros Hr Hck Ht63 Hb63. unfold arith_u64 at 1. rewrite decide_False by lia. rewrite Hck.
    cbn [mbind res_bind].
    assert (wrap 64 rest = rest + 2 ^ 64) as ->.
    { unfold wrap. symmetry. apply Z.mod_unique with (q := -1); lia. }
    destruct (Z.leb_spec (rest + 2 ^ 64) 0); [lia|]. eexists. split; [done|]. lia.
Qed.
End used.

Lemma mem_used_bounds_witness :
  exists v, @mem_used false si_units Error (mkSysMemory 100 10 0 50 60 0 0 0) = Ok v /\ 100 < v.
Proof.
  refine (proj2 (proj2 (proj2 (@mem_used_bounds false si_units si_units_laws Error
    (mkSysMemory 100 10 0 50 60 0 0 0) _ _))) _ _ _ _);
    first [ reflexivity | cbn; lia | apply (bool_decide_unpack _); vm_compute; exact I ].
Defined.

(** ** Swap *)

Definition swap_keys (total free : Z) : list (str * Z) :=
  [(lit "SwapTotal", total); (lit "SwapFree", free)].

Lemma swap_fold_vm_stat kvs s : vm_stat (foldl (assign_kb swap_field) s kvs) = vm_stat s.
Proof.
  revert s. induction kvs as [|[k v] kvs IH]; intros s; cbn [foldl]; [done|]. rewrite IH.
  unfold assign_kb, swap_field. cbn [fst snd]. repeat case_decide; done.
Qed.

Section swap.
Context `{!Profile, !Units, !UnitsLaws, !Roots}.

(** The swap of a meminfo, in units of 1000 bytes, and its used part;
    the fields of vmstat are kept as they were given. *)
Theorem swap_text es total free rest vm :
  Forall swap_ok es -> omap keyed es ≡ₚ swap_keys total free -> free <= total ->
  exists s, swap_parse_str (meminfo_text es ++ rest) vm = Ok s /\
    swap_total s = 1000 * total /\ swap_free s = 1000 * free /\ vm_stat s = vm /\
    swap_used (E := Error) s = Ok (1000 * (total - free)).
Proof.
  intros Hes Hp Hle. unfold swap_parse_str, meminfo_text.
  rewrite lines_unlines_app by (eapply entries_lines; exact Hes).
  rewrite meminfo_loop_text; [|exact Hes|by rewrite Hp|lia].
  assert (Hr : forall k v, (k, v) ∈ omap keyed es -> 0 <= 1000 * v < 2 ^ 64).
  { intros k v Hin. apply list_elem_of_omap in Hin as (e & He & Hk).
    rewrite Forall_forall in Hes. apply Hes in He. destruct e; simplify_eq/=. by apply He. }
  assert (0 <= 1000 * total < 2 ^ 64) by (apply (Hr (lit "SwapTotal")); rewrite Hp; left).
  assert (0 <= 1000 * free < 2 ^ 64) by (apply (Hr (lit "SwapFree")); rewrite Hp; right; left).
  eexists. split; [reflexivity|]. set (s := foldl _ _ _).
  assert (Ht : swap_total s = 1000 * total) by keyed_get swap_field swap_keys (lit "SwapTotal") Hp.
  assert (Hf : swap_free s = 1000 * free) by keyed_get swap_field swap_keys (lit "SwapFree") Hp.
  split_and!; [done|done| |].
  - apply swap_fold_vm_stat.
  - unfold swap_used, sub_u64. rewrite Ht, Hf, arith_u64_small by lia. f_equal. lia.
Qed.
End swap.

Lemma swap_text_witness :
  exists s, @swap_parse_str si_units default_roots
    (meminfo_text [Plain (lit "MemTotal: 8 kB"); Keyed (lit "SwapTotal") 6 8; Keyed (lit "SwapFree") 7 3] ++ [])
    vm_stat_default = Ok s /\
    swap_total s = 8000 /\ swap_free s = 3000 /\ vm_stat s = vm_stat_default /\
    @swap_used true Error s = Ok 5000.
Proof.
  apply (@swap_text true si_units si_units_laws default_roots
    [Plain (lit "MemTotal: 8 kB"); Keyed (lit "SwapTotal") 6 8; Keyed (lit "SwapFree") 7 3] 8 3 []
    vm_stat_default).
  - apply (bool_decide_unpack _). vm_compute. exact I.
  - reflexivity.
  - lia.
Defined.
