(* ===== verification/Disk.v ===== *)
(** * heim-disk on Linux: partitions, diskstats, usage

    heim-disk/src/filesystem.rs, src/sys/linux/partitions.rs,
    src/sys/linux/counters.rs and src/sys/unix/usage.rs. *)

From S2P Require Import Prelude RustStr RustFloat Units Errors Sys Streams ProcFs Cpu.

(** ** filesystem.rs *)

Inductive FileSystem :=
| Ext2 | Ext3 | Ext4 | VFat | ExFat | F2fs | Ntfs | Zfs | Hfs | HfsPlus | Jfs | Reiser3 | Reiser4
| Btrfs | Minix | Nilfs | Xfs | Apfs | FuseBlk
| OtherFs (name : str).
#[export] Instance file_system_dec : EqDecision FileSystem.
Proof. solve_decision. Defined.

Definition is_physical (fs : FileSystem) : bool :=
  match fs with OtherFs _ => false | _ => true end.
Definition is_virtual (fs : FileSystem) : bool := negb (is_physical fs).

Definition fs_as_str (fs : FileSystem) : str :=
  match fs with
  | Ext2 => lit "ext2"
  | Ext3 => lit "ext3"
  | Ext4 => lit "ext4"
  | VFat => lit "vfat"
  | Ntfs => lit "ntfs"
  | Zfs => lit "zfs"
  | Hfs => lit "hfs"
  | Reiser3 => lit "reiserfs"
  | Reiser4 => lit "reiser4"
  | FuseBlk => lit "fuseblk"
  | ExFat => lit "exfat"
  | F2fs => lit "f2fs"
  | HfsPlus => lit "hfs+"
  | Jfs => lit "jfs"
  | Btrfs => lit "btrfs"
  | Minix => lit "minix"
  | Nilfs => lit "nilfs"
  | Xfs => lit "xfs"
  | Apfs => lit "apfs"
  | OtherFs name => name
  end.

(** The arms of the match, in its order. *)
Definition fs_names : list (str * FileSystem) :=
  [(lit "ext2", Ext2); (lit "ext3", Ext3); (lit "ext4", Ext4); (lit "vfat", VFat);
   (lit "ntfs", Ntfs); (lit "zfs", Zfs); (lit "hfs", Hfs); (lit "reiserfs", Reiser3);
   (lit "reiser4", Reiser4); (lit "exfat", ExFat); (lit "f2fs", F2fs); (lit "hfsplus", HfsPlus);
   (lit "jfs", Jfs); (lit "btrfs", Btrfs); (lit "minix", Minix); (lit "nilfs", Nilfs);
   (lit "xfs", Xfs); (lit "apfs", Apfs); (lit "fuseblk", FuseBlk)].

Fixpoint fs_match (s : str) (arms : list (str * FileSystem)) : FileSystem :=
  match arms with
  | [] => OtherFs s
  | (name, fs) :: arms' => if eq_ignore_ascii_case s name then fs else fs_match s arms'
  end.
Definition fs_from_str {E} (s : str) : res E FileSystem := Ok (fs_match s fs_names).

(** ** sys/linux/partitions.rs *)

Record Partition := mkPartition {
  device : option str;
  mount_point : path;
  fs_type : FileSystem;
  options : str;
}.

Section partitions.
Context `{Roots}.

(** [format!("{}", mount_root.display())]. *)
Definition mount_root : str := to_string_lossy (proc_path (lit "mounts")).

Definition partition_from_str (line : str) : result Partition :=
  let parts := splitn 5 SP line in
  '(device, parts) ← match parts with
                     | device :: parts =>
                         Ok (if decide (device = lit "none") then None else Some device, parts)
                     | [] => Err (missing_key (lit "device") mount_root)
                     end;
  '(mount_point, parts) ← match parts with
                          | point :: parts => Ok (point, parts)
                          | [] => Err (missing_key (lit "mount point") mount_root)
                          end;
  '(fs_type, parts) ← match parts with
                      | fs :: parts => fs ← fs_from_str fs; Ok (fs, parts)
                      | [] => Err (missing_key (lit "file-system type") mount_root)
                      end;
  options ← match parts with
            | opts :: _ => Ok opts
            | [] => Err (missing_key (lit "options") mount_root)
            end;
  Ok (mkPartition device mount_point fs_type options).

Definition TAB : byte := "009"%char.

(** One line of [/proc/filesystems]: [None] is [continue]. *)
Definition filesystem_line (line : str) : option FileSystem :=
  let parts := splitn 2 TAB line in
  let nodev := match parts with p :: _ => bool_decide (p = lit "nodev") | [] => false end in
  match drop 1 parts with
  | filesystem :: _ =>
      if bool_decide (filesystem = lit "zfs") && nodev then Some (fs_match (lit "zfs") fs_names)
      else if negb nodev then Some (fs_match filesystem fs_names)
      else None
  | [] => None
  end.

(** The hash set is the list of what was inserted. *)
Fixpoint filesystems_loop (acc : list FileSystem) (ls : list (io_result str)) : result (list FileSystem) :=
  match ls with
  | [] => Ok acc
  | line :: ls' =>
      l ← map_err from_io line;
      match filesystem_line l with
      | Some fs => filesystems_loop (fs :: acc) ls'
      | None => filesystems_loop acc ls'
      end
  end.

Definition known_filesystems : io Error (list FileSystem) :=
  ls ← read_lines from_io (proc_path (lit "filesystems"));
  lift (filesystems_loop [] ls).

(** An item of the stream: lines that do not parse are left out. *)
Definition partition_item (l : io_result str) : option (result Partition) :=
  match l with
  | Ok line => match partition_from_str line with
               | Ok p => Some (Ok p)
               | Err _ => None
               | Panic => Some Panic
               end
  | Err e => Some (Err (from_io e))
  | Panic => Some Panic
  end.
Definition partitions : io Error (list (result Partition)) :=
  ls ← read_lines from_io (proc_path (lit "mounts"));
  mret (omap partition_item ls).

Definition physical_item (filesystems : list FileSystem) (part : result Partition)
    : option (result Partition) :=
  match part with
  | Ok partition =>
      match device partition with
      | None => None
      | Some _ => if decide (fs_type partition ∈ filesystems) then Some (Ok partition) else None
      end
  | Err e => Some (Err e)
  | Panic => Some Panic
  end.
Definition partitions_physical : io Error (list (result Partition)) :=
  filesystems ← known_filesystems;
  stream ← partitions;
  mret (omap (physical_item filesystems) stream).
End partitions.

(** ** sys/linux/counters.rs *)

Definition DISK_SECTOR_SIZE : Z := 512.

Record DiskCounters := mkDiskCounters {
  disk_name : str;
  disk_read_count : Z;
  disk_write_count : Z;
  disk_read_bytes : Information;
  disk_write_bytes : Information;
  busy_time : Time;
  read_merged_count : Z;
  write_merged_count : Z;
}.

Section counters.
Context `{Profile, Units, Roots}.

(** [try_parse_next().map(|bytes: u64| ... bytes * DISK_SECTOR_SIZE)]. *)
Definition parse_sectors (parts : list str) : result (Information * list str) :=
  '(bytes, parts) ← Iter.try_parse_u64 parts;
  b ← mul_u64 bytes DISK_SECTOR_SIZE;
  Ok (information_byte b, parts).

Definition disk_counters_from_str (s : str) : result DiskCounters :=
  let parts := drop 2 (split_whitespace s) in
  '(name, parts) ← Iter.try_next parts;
  '(read_count, parts) ← Iter.try_parse_u64 parts;
  '(read_merged_count, parts) ← Iter.try_parse_u64 parts;
  '(read_bytes, parts) ← parse_sectors parts;
  let parts := drop 1 parts in
  '(write_count, parts) ← Iter.try_parse_u64 parts;
  '(write_merged_count, parts) ← Iter.try_parse_u64 parts;
  '(write_bytes, parts) ← parse_sectors parts;
  let parts := drop 2 parts in
  '(seconds, _) ← Iter.try_parse_u64 parts;
  let busy_time := time_second (f64_of_int seconds) in
  Ok {| disk_name := name; disk_read_count := read_count; disk_write_count := write_count;
        disk_read_bytes := read_bytes; disk_write_bytes := write_bytes; busy_time := busy_time;
        read_merged_count := read_merged_count; write_merged_count := write_merged_count |}.

Definition BANG : byte := "!"%char.

Definition is_storage_device (c : DiskCounters) : io Error bool :=
  let name := map (fun b => if decide (b = SLASH) then BANG else b) (disk_name c) in
  path ← lift (map_err from_nul_error (cstring_new (to_string_lossy sysfs_root ++ lit "/block/" ++ name)));
  result ← ask (Access path);
  mret (bool_decide (result = 0%Z)).

Definition disk_io_counters : io Error (list (result DiskCounters)) :=
  read_lines_into from_io disk_counters_from_str (proc_path (lit "diskstats")).

Definition disk_io_counters_physical : io Error (list (result DiskCounters)) :=
  counters ← disk_io_counters;
  prog_bind (try_filter_map (fun device =>
    storage ← is_storage_device device;
    mret (if storage : bool then Some device else None)) counters) (fun l => Ret (Ok l)).
End counters.

(** ** sys/unix/usage.rs *)

(** [libc::statvfs]. *)
Record statvfs := mkStatvfs { f_frsize : Z; f_blocks : Z; f_bfree : Z; f_bavail : Z; f_flag : Z }.

(** os/unix/usage.rs: the constants of libc, and the target the crate is built
    for, which decides which of them [Flags] has. *)
Class MountFlags := {
  ST_MANDLOCK : Z;
  ST_NOATIME : Z;
  ST_NODEV : Z;
  ST_NODIRATIME : Z;
  ST_NOEXEC : Z;
  ST_NOSUID : Z;
  ST_RDONLY : Z;
  ST_RELATIME : Z;
  ST_SYNCHRONOUS : Z;
  target_macos : bool;
  target_musl : bool;
}.
Definition ST_FLAGS `{MountFlags} : list Z :=
  (if target_macos then [] else [ST_MANDLOCK; ST_NOATIME; ST_NODEV; ST_NODIRATIME; ST_NOEXEC]) ++
  [ST_NOSUID; ST_RDONLY] ++
  (if target_macos || target_musl then [] else [ST_RELATIME]) ++
  (if target_macos then [] else [ST_SYNCHRONOUS]).

Section usage.
Context `{Profile, Units} {E : Type}.

Definition usage_total (u : statvfs) : res E Information :=
  value ← mul_u64 (f_blocks u) (f_frsize u);
  Ok (information_byte value).

Definition usage_used (u : statvfs) : res E Information :=
  avail_to_root ← mul_u64 (f_bfree u) (f_frsize u);
  total ← usage_total u;
  sub_u64 total (information_byte avail_to_root).

Definition usage_free (u : statvfs) : res E Information :=
  value ← mul_u64 (f_bavail u) (f_frsize u);
  Ok (information_byte value).

Definition usage_ratio (u : statvfs) : res E Ratio :=
  used ← usage_used u;
  let used := f32_of_int (information_get_byte used) in
  avail_to_user ← mul_u64 (f_bavail u) (f_frsize u);
  let total_user := f32_add used (f32_of_int avail_to_user) in
  Ok (ratio_ratio (f32_div used total_user)).

Definition usage_flags `{MountFlags} (u : statvfs) : Z := Z.land (f_flag u) (foldr Z.lor 0%Z ST_FLAGS).
End usage.

Definition disk_usage (p : path) : io Error statvfs :=
  path ← io_map_err (fun e => with_message (from_io e) (lit "Invalid path"))
    (lift (if from_utf8 p then map_err (fun _ => Simple InvalidInput) (cstring_new p)
           else Err (Simple InvalidInput)));
  '(result, (frsize, blocks, bfree, bavail, flag)) ← ask (Statvfs path);
  if (result =? 0)%Z then mret (mkStatvfs frsize blocks bfree bavail flag)
  else e ← ask GetErrno; fails (with_ffi (last_os_error e) (lit "statvfs")).
