(* ===== verification/DiskSpec.v ===== *)
(** * heim-disk: round trips, filters and bounds *)

From S2P Require Import Prelude RustStr RustFloat Units Errors Sys Streams ProcFs ProcFsSpec Cpu Disk.
Local Open Scope Z_scope.

(** ** File system names *)

Lemma fs_match_spec s arms :
  (exists name fs, (name, fs) ∈ arms /\ eq_ignore_ascii_case s name = true /\ fs_match s arms = fs)
  \/ (Forall (fun a => eq_ignore_ascii_case s a.1 = false) arms /\ fs_match s arms = OtherFs s).
Proof.
  induction arms as [|[name fs] arms IH]; [by right|]. cbn [fs_match].
  destruct (eq_ignore_ascii_case s name) eqn:He.
  - left. exists name, fs. split_and!; [left|done|done].
  - destruct IH as [(n & f & Hin & Hn & Hf)|[Hall Hf]].
    + left. exists n, f. split_and!; [by right|done|done].
    + right. split; [by constructor|done].
Qed.

Lemma fs_names_physical name fs : (name, fs) ∈ fs_names -> is_physical fs = true.
Proof.
  intros Hin. assert (Forall (fun a => is_physical a.2 = true) fs_names) as Hf by (repeat constructor).
  rewrite Forall_forall in Hf. exact (Hf _ Hin).
Qed.

(** Which file systems survive the round trip through their name: all of
    them, except HFS+, whose name is not the one that is parsed, and virtual
    ones whose name is that of a known file system in any letter case. *)
Theorem file_system_roundtrip fs :
  fs_from_str (E := Error) (fs_as_str fs) = Ok fs <->
  fs <> HfsPlus /\
  (forall s, fs = OtherFs s -> Forall (fun a => eq_ignore_ascii_case s a.1 = false) fs_names).
Proof.
  unfold fs_from_str. split.
  - intros Heq. split; [intros ->; by vm_compute in Heq|]. intros s ->. cbn [fs_as_str] in Heq.
    destruct (fs_match_spec s fs_names) as [(name & fs & Hin & _ & Hf)|[Hall _]]; [|done].
    apply fs_names_physical in Hin. rewrite Hf in Heq. by injection Heq as ->.
  - intros [Hne Ho]. destruct fs; try done; try (vm_compute; done).
    specialize (Ho _ eq_refl). cbn [fs_as_str].
    destruct (fs_match_spec name fs_names) as [(n & fs & Hin & Hn & _)|[_ ->]]; [|done].
    rewrite Forall_forall in Ho. apply Ho in Hin. cbn in Hin. congruence.
Qed.

(** ** mounts and filesystems *)

Lemma splitn_app n c a b : c ∉ a -> splitn (S (S n)) c (a ++ c :: b) = a :: splitn (S n) c b.
Proof. intros Ha. cbn [splitn]. by rewrite split_once_app. Qed.

Lemma splitn_plain n c a : c ∉ a -> splitn (S (S n)) c a = [a].
Proof. intros Ha. cbn [splitn]. by rewrite split_once_none. Qed.

(** A line of mounts: what comes after the options is not read. *)
Definition mounts_line (dev mp fs opts rest : str) : str :=
  dev ++ SP :: mp ++ SP :: fs ++ SP :: opts ++ SP :: rest.

Section mounts.
Context `{Roots}.

(** The four fields of a line of mounts, each up to the next space; the
    device name [none] is no device; with fewer than four fields the result
    is the error that names the first missing one. *)
Theorem partition_line dev mp fs opts rest :
  Forall (fun f => SP ∉ f) [dev; mp; fs; opts] ->
  partition_from_str (mounts_line dev mp fs opts rest) =
    Ok (mkPartition (if decide (dev = lit "none") then None else Some dev) mp (fs_match fs fs_names) opts)
  /\ partition_from_str (dev ++ SP :: mp ++ SP :: fs) = Err (missing_key (lit "options") mount_root)
  /\ partition_from_str (dev ++ SP :: mp) = Err (missing_key (lit "file-system type") mount_root)
  /\ partition_from_str dev = Err (missing_key (lit "mount point") mount_root).
Proof.
  intros Hf. repeat setoid_rewrite Forall_cons in Hf. destruct Hf as (Hd & Hm & Hfs & Ho & _).
  unfold partition_from_str, mounts_line. split_and!.
  - rewrite !splitn_app by done. done.
  - rewrite !splitn_app, splitn_plain by done. done.
  - rewrite splitn_app, splitn_plain by done. done.
  - rewrite splitn_plain by done. done.
Qed.
End mounts.

Lemma partition_line_witness :
  @partition_from_str default_roots
    (mounts_line (lit "/dev/sda3") (lit "/home") (lit "ext4") (lit "rw,relatime,data=ordered") (lit "0 0"))
  = Ok (mkPartition (Some (lit "/dev/sda3")) (lit "/home") Ext4 (lit "rw,relatime,data=ordered")).
Proof.
  refine (proj1 (@partition_line default_roots _ _ _ _ _ _)).
  apply (bool_decide_unpack _). vm_compute. exact I.
Defined.

Section physical.
Context `{Roots}.
Context {W : Type} (h : handler W) (w : W).
Hypothesis Hsteady : steady h w.

(** A file system that the kernel backs by a device, or zfs. *)
Definition backed (fs_lines : list str) (fs : FileSystem) : Prop :=
  (exists l first name, l ∈ fs_lines /\ splitn 2 TAB l = [first; name] /\ first <> lit "nodev" /\
     fs = fs_match name fs_names)
  \/ (fs = Zfs /\ lit "nodev" ++ TAB :: lit "zfs" ∈ fs_lines).

Lemma splitn_2 c s :
  splitn 2 c s = [s] \/ exists a b, splitn 2 c s = [a; b] /\ s = a ++ c :: b /\ c ∉ a.
Proof.
  cbn [splitn]. destruct (split_once c s) as [[a b]|] eqn:Hs; [|by left].
  apply split_once_Some in Hs as [-> Ha]. right. eauto.
Qed.

Lemma filesystem_line_backed l fs : filesystem_line l = Some fs <-> backed [l] fs.
Proof.
  assert (Hz : splitn 2 TAB (lit "nodev" ++ TAB :: lit "zfs") = [lit "nodev"; lit "zfs"])
    by (vm_compute; done).
  unfold filesystem_line, backed. split.
  - destruct (splitn_2 TAB l) as [-> |(a & b & Hs & Hl & _)]; [done|].
    rewrite Hs. cbn [skipn]. rewrite ?drop_0.
    destruct (bool_decide_reflect (a = lit "nodev")) as [-> |Ha];
      destruct (bool_decide_reflect (b = lit "zfs")) as [-> |Hb]; cbn [andb negb]; intros Hf; simplify_eq.
    + right. split; [by vm_compute|left].
    + left. exists (a ++ TAB :: lit "zfs"), a, (lit "zfs"). split_and!; [left|done|done|done].
    + left. exists (a ++ TAB :: b), a, b. split_and!; [left|done|done|done].
  - intros [(l' & a & b & Hl & Hs & Ha & ->)|[-> Hl]].
    + apply list_elem_of_singleton in Hl as ->. rewrite Hs. cbn [skipn]. rewrite ?drop_0.
      rewrite (bool_decide_eq_false_2 (a = lit "nodev")) by done.
      by rewrite andb_false_r.
    + apply list_elem_of_singleton in Hl as <-. rewrite Hz. by vm_compute.
Qed.

Lemma backed_cons l ls fs : backed (l :: ls) fs <-> backed [l] fs \/ backed ls fs.
Proof.
  unfold backed. setoid_rewrite elem_of_cons. setoid_rewrite elem_of_nil. naive_solver.
Qed.

Lemma filesystems_loop_ok acc ls :
  exists known, filesystems_loop acc (map Ok ls) = Ok known /\
    forall fs, fs ∈ known <-> fs ∈ acc \/ backed ls fs.
Proof.
  revert acc. induction ls as [|l ls IH]; intros acc.
  - exists acc. split; [done|]. intros fs. unfold backed. set_solver.
  - cbn [map filesystems_loop map_err mbind res_bind].
    destruct (filesystem_line l) as [f|] eqn:Hf.
    + destruct (IH (f :: acc)) as (known & -> & Hk). exists known. split; [done|]. intros fs.
      rewrite Hk, backed_cons, <- filesystem_line_backed, Hf, elem_of_cons. naive_solver.
    + destruct (IH acc) as (known & -> & Hk). exists known. split; [done|]. intros fs.
      rewrite Hk, backed_cons, <- filesystem_line_backed, Hf. naive_solver.
Qed.

Definition keep (known : list FileSystem) (p : Partition) : option Partition :=
  match device p with
  | None => None
  | Some _ => if decide (fs_type p ∈ known) then Some p else None
  end.
Definition parsed (l : str) : option Partition :=
  match partition_from_str l with Ok p => Some p | _ => None end.

Lemma partition_from_str_not_panic l : partition_from_str l <> Panic.
Proof.
  unfold partition_from_str. destruct (splitn 5 SP l) as [|a [|b [|c [|d ?]]]]; by cbn.
Qed.

Lemma items_keep known ls :
  omap (physical_item known) (omap partition_item (map Ok ls)) = map Ok (omap (keep known) (omap parsed ls)).
Proof.
  induction ls as [|l ls IH]; [done|]. cbn [map omap list_omap partition_item].
  unfold parsed at 1. pose proof (partition_from_str_not_panic l).
  destruct (partition_from_str l) as [p| |]; [|done..].
  cbn [omap list_omap physical_item]. unfold keep at 1.
  destruct (device p); [case_decide|]; cbn [map]; unfold omap in *; by rewrite IH.
Qed.

Lemma omap_keep_sublist known ps : omap (keep known) ps `sublist_of` ps.
Proof.
  induction ps as [|p ps IH]; [constructor|]. cbn [omap list_omap]. unfold keep at 1.
  destruct (device p); [case_decide|]; by constructor.
Qed.

(** The physical partitions are exactly the lines of mounts that parse,
    have a device, and whose file system stands in [/proc/filesystems]
    without [nodev] (or is zfs), in the order of the file. *)
Theorem partitions_physical_spec fs_lines mounts :
  fst (h _ (ReadLines (proc_path (lit "filesystems"))) w) = Ok (map Ok fs_lines) ->
  fst (h _ (ReadLines (proc_path (lit "mounts"))) w) = Ok (map Ok mounts) ->
  exists parts,
    result_of h partitions_physical w = Ok (map Ok parts) /\
    parts `sublist_of` omap parsed mounts /\
    forall p, p ∈ parts <->
      (exists l, l ∈ mounts /\ partition_from_str l = Ok p) /\ device p <> None /\
      backed fs_lines (fs_type p).
Proof.
  intros Hfs Hm. destruct (filesystems_loop_ok [] fs_lines) as (known & Hknown & Hk).
  unfold partitions_physical, known_filesystems, partitions, read_lines.
  run. rewrite Hfs. run. rewrite Hknown. run. rewrite Hm. run.
  exists (omap (keep known) (omap parsed mounts)). split_and!.
  - f_equal. apply items_keep.
  - apply omap_keep_sublist.
  - intros p. rewrite list_elem_of_omap. setoid_rewrite list_elem_of_omap.
    unfold keep, parsed. split.
    + intros (p' & (l & Hl & Hp) & Hkeep). destruct (partition_from_str l) eqn:Hpl; simplify_eq.
      destruct (device p') eqn:Hd; [|done]. case_decide as Hin; simplify_eq.
      apply Hk in Hin. rewrite Hd. split_and!; [eauto|done|set_solver].
    + intros ((l & Hl & Hp) & Hd & Hb). exists p. split; [exists l; by rewrite Hp|].
      destruct (device p); [|done]. rewrite decide_True; [done|]. apply Hk. by right.
Qed.
End physical.

(** One ext4 disk, one tmpfs, one disk whose file system is not known. *)
Definition mounts_files (p : path) : io_result str :=
  if decide (p = lit "/proc/mounts") then
    Ok (unlines [lit "/dev/sda1 / ext4 rw 0 0"; lit "tmpfs /tmp tmpfs rw 0 0"; lit "none /x ext4 rw 0 0";
                 lit "/dev/sdb1 /b xfs rw 0 0"; lit "broken line"])
  else Ok (unlines [lit "nodev" ++ TAB :: lit "tmpfs"; TAB :: lit "ext4"; lit "nodev" ++ TAB :: lit "zfs"]).

Lemma partitions_physical_spec_witness :
  exists parts,
    result_of (snapshot mounts_files (fun _ => [])) (@partitions_physical default_roots) tt = Ok (map Ok parts)
    /\ mkPartition (Some (lit "/dev/sda1")) (lit "/") Ext4 (lit "rw") ∈ parts.
Proof.
  destruct (@partitions_physical_spec default_roots unit (snapshot mounts_files (fun _ => [])) tt
    (snapshot_steady _ _ tt)
    [lit "nodev" ++ TAB :: lit "tmpfs"; TAB :: lit "ext4"; lit "nodev" ++ TAB :: lit "zfs"]
    [lit "/dev/sda1 / ext4 rw 0 0"; lit "tmpfs /tmp tmpfs rw 0 0"; lit "none /x ext4 rw 0 0";
     lit "/dev/sdb1 /b xfs rw 0 0"; lit "broken line"] ltac:(vm_compute; reflexivity)
    ltac:(vm_compute; reflexivity)) as (parts & Hr & _ & Hp).
  exists parts. split; [exact Hr|]. apply Hp. split; [|split].
  - exists (lit "/dev/sda1 / ext4 rw 0 0"). split; [left|vm_compute; reflexivity].
  - discriminate.
  - left. exists (TAB :: lit "ext4"), [], (lit "ext4").
    split; [right; left|split; [vm_compute; reflexivity|split; [discriminate|vm_compute; reflexivity]]].
Defined.

(** ** diskstats *)

Record raw_disk := {
  rd_major : Z; rd_minor : Z; rd_name : str;
  rd_reads : Z; rd_reads_merged : Z; rd_sectors_read : Z; rd_ms_reading : Z;
  rd_writes : Z; rd_writes_merged : Z; rd_sectors_written : Z; rd_ms_writing : Z;
  rd_in_flight : Z; rd_ms_busy : Z; rd_ms_weighted : Z;
  rd_discards : list Z;  (* the columns since Linux 4.18 *)
}.

Definition disk_words (r : raw_disk) : list str :=
  map show_int [rd_major r; rd_minor r] ++ rd_name r ::
  map show_int ([rd_reads r; rd_reads_merged r; rd_sectors_read r; rd_ms_reading r; rd_writes r;
    rd_writes_merged r; rd_sectors_written r; rd_ms_writing r; rd_in_flight r; rd_ms_busy r;
    rd_ms_weighted r] ++ rd_discards r).

Definition raw_disk_ok (r : raw_disk) : Prop :=
  word (rd_name r) /\
  Forall u64 [rd_reads r; rd_reads_merged r; rd_writes r; rd_writes_merged r; rd_ms_busy r;
              512 * rd_sectors_read r; 512 * rd_sectors_written r].
#[export] Instance raw_disk_ok_dec r : Decision (raw_disk_ok r) := _.

Section diskstats.
Context `{!Profile, !Units, !UnitsLaws}.

(** The counters of a line of diskstats: the sectors are counted as 512
    bytes each without overflow, the columns in between and after are not
    read, and the busy time is the column that the kernel gives in
    milliseconds, taken as seconds. *)
Theorem disk_counters_line r :
  raw_disk_ok r ->
  disk_counters_from_str (unwords (disk_words r)) =
  Ok {| disk_name := rd_name r; disk_read_count := rd_reads r; disk_write_count := rd_writes r;
        disk_read_bytes := 512 * rd_sectors_read r; disk_write_bytes := 512 * rd_sectors_written r;
        busy_time := f64_of_int (rd_ms_busy r);
        read_merged_count := rd_reads_merged r; write_merged_count := rd_writes_merged r |}.
Proof.
  intros [Hn Hu]. repeat setoid_rewrite Forall_cons in Hu. unfold u64 in *.
  destruct Hu as (? & ? & ? & ? & ? & ? & ? & _).
  assert (Hs : forall z rest, 0 <= 512 * z < 2 ^ 64 ->
    parse_sectors (show_int z :: rest) = Ok (512 * z, rest)).
  { intros z rest Hz. unfold parse_sectors. parse_step. unfold mul_u64, DISK_SECTOR_SIZE.
    rewrite arith_u64_small by lia. cbn [mbind res_bind]. rewrite information_byte_id by lia.
    by rewrite Z.mul_comm. }
  unfold disk_counters_from_str, split_whitespace. rewrite words_unwords.
  2:{ unfold disk_words. rewrite Forall_app, Forall_cons. split_and!; [solve_words|done|].
      apply Forall_fmap, Forall_forall. intros ? _. apply show_int_word. }
  unfold disk_words. cbn [map app skipn Iter.try_next mbind res_bind]. rewrite ?drop_0.
  cbn [Iter.try_next mbind res_bind].
  do 2 parse_step. rewrite Hs by done. cbn [mbind res_bind skipn]. rewrite ?drop_0.
  do 2 parse_step. rewrite Hs by done. cbn [mbind res_bind skipn]. rewrite ?drop_0.
  parse_step. by rewrite time_second_id.
Qed.
End diskstats.

Definition sda : raw_disk := {|
  rd_major := 8; rd_minor := 0; rd_name := lit "sda"; rd_reads := 100; rd_reads_merged := 3;
  rd_sectors_read := 2000; rd_ms_reading := 40; rd_writes := 50; rd_writes_merged := 7;
  rd_sectors_written := 1000; rd_ms_writing := 30; rd_in_flight := 0; rd_ms_busy := 60;
  rd_ms_weighted := 70; rd_discards := [0; 0; 0; 0] |}.

Lemma disk_counters_line_witness :
  @disk_counters_from_str true si_units (lit "8 0 sda 100 3 2000 40 50 7 1000 30 0 60 70 0 0 0 0")
  = Ok {| disk_name := lit "sda"; disk_read_count := 100; disk_write_count := 50;
          disk_read_bytes := 1024000; disk_write_bytes := 512000; busy_time := f64_of_int 60;
          read_merged_count := 3; write_merged_count := 7 |}.
Proof.
  exact (@disk_counters_line true si_units si_units_laws sda
    ltac:(apply (bool_decide_unpack _); vm_compute; exact I)).
Defined.

(** ** Usage *)

Section usage.
Context `{!Profile, !Units, !UnitsLaws}.
Context {W : Type} (h : handler W) (w : W).

(** A path that holds a null byte, or that is not UTF-8, is refused
    before any system call; otherwise [statvfs] is asked about that very
    path, a failure carries its [errno], and on success, when the blocks fit
    in 64 bits, total, used and free are the products of the block counts
    with the fragment size, and used and free never exceed total. *)
Theorem disk_usage_spec p frsize blocks bfree bavail flag r :
  steady h w -> fst (h _ (Statvfs p) w) = (r, (frsize, blocks, bfree, bavail, flag)) ->
  0 <= frsize -> 0 <= bavail <= bfree -> bfree <= blocks -> blocks * frsize < 2 ^ 64 ->
  (from_utf8 p = false \/ NUL ∈ p ->
     trace h (disk_usage p) w = [] /\
     result_of h (disk_usage p) w =
       Err (with_message (from_io (Simple InvalidInput)) (lit "Invalid path"))) /\
  (from_utf8 p = true -> NUL ∉ p -> r <> 0 ->
     result_of h (disk_usage p) w =
       Err (with_ffi (last_os_error (fst (h _ GetErrno w))) (lit "statvfs"))) /\
  (from_utf8 p = true -> NUL ∉ p -> r = 0 ->
     exists u, result_of h (disk_usage p) w = Ok u /\
       usage_total (E := Error) u = Ok (blocks * frsize) /\
       usage_used (E := Error) u = Ok ((blocks - bfree) * frsize) /\
       usage_free (E := Error) u = Ok (bavail * frsize)).
Proof.
  intros Hst Hv Hf Ha Hb Hm.
  assert (Hnul : forall s, NUL ∉ s -> cstring_new s = Ok s).
  { intros s Hs. unfold cstring_new. rewrite span_until_none; [done|].
    apply Forall_forall. intros y Hy. case_bool_decide; [subst|]; done. }
  assert (Hnul' : forall s, NUL ∈ s -> exists n, cstring_new s = Err n).
  { intros s (a & b & -> & Hn)%list_elem_of_split_l. unfold cstring_new.
    rewrite span_until_app; [eauto| |by case_bool_decide].
    apply Forall_forall. intros y Hy. case_bool_decide; [subst|]; done. }
  split_and!.
  - intros Hbad. unfold disk_usage. split.
    + destruct (from_utf8 p); [|done]. destruct Hbad as [|Hin]; [done|].
      by destruct (Hnul' _ Hin) as [n ->].
    + run. destruct (from_utf8 p); [|done]. destruct Hbad as [|Hin]; [done|].
      by destruct (Hnul' _ Hin) as [n ->].
  - intros Hu8 Hp Hr. unfold disk_usage. rewrite Hu8. run. rewrite Hnul by done. run. rewrite Hv.
    destruct (Z.eqb_spec r 0); [done|]. by run.
  - intros Hu8 Hp ->. exists (mkStatvfs frsize blocks bfree bavail flag). split_and!.
    + unfold disk_usage. rewrite Hu8. run. rewrite Hnul by done. run. by rewrite Hv.
    + unfold usage_total, mul_u64. cbn. rewrite arith_u64_small by nia. cbn.
      by rewrite information_byte_id by nia.
    + unfold usage_used, usage_total, mul_u64, sub_u64. cbn. rewrite !arith_u64_small by nia. cbn.
      rewrite !information_byte_id by nia. rewrite arith_u64_small by nia. f_equal. lia.
    + unfold usage_free, mul_u64. cbn. rewrite arith_u64_small by nia. cbn.
      by rewrite information_byte_id by nia.
Qed.
End usage.

(** A disk of 10 blocks of 4096 bytes. *)
Definition statvfs_handler : handler unit :=
  fun R c w => match c in call R return R * unit with
               | Statvfs p => ((0, (4096, 10, 4, 3, 0)), w)
               | c => snapshot (fun _ => Err (Os 2)) (fun _ => []) _ c w
               end.
Lemma disk_usage_spec_witness :
  exists u, result_of statvfs_handler (disk_usage (lit "/")) tt = Ok u /\
    @usage_total true si_units Error u = Ok 40960 /\
    @usage_used true si_units Error u = Ok 24576 /\ @usage_free true si_units Error u = Ok 12288.
Proof.
  refine (proj2 (proj2 (@disk_usage_spec true si_units si_units_laws unit statvfs_handler tt (lit "/")
    4096 10 4 3 0 0 _ eq_refl _ _ _ _)) _ _ _); try lia; try reflexivity.
  - intros R c. by destruct c.
  - apply (bool_decide_unpack _). vm_compute. exact I.
Defined.
