(* ===== verification/Net.v ===== *)
(** * heim-net on Linux: interface counters and addresses

    heim-net/src/sys/linux/counters.rs and heim-net/src/sys/unix/nic.rs. *)

From S2P Require Import Prelude RustStr RustFloat Units Errors Sys Streams ProcFs Cpu.

(** ** sys/linux/counters.rs *)

Record NetCounters := mkNetCounters {
  interface : str;
  rx_bytes : Information;
  rx_packets : Z;
  rx_errs : Z;
  rx_drop : Z;
  rx_fifo : Z;
  rx_frame : Z;
  rx_compressed : Z;
  rx_multicast : Z;
  tx_bytes : Information;
  tx_packets : Z;
  tx_errs : Z;
  tx_drop : Z;
  tx_fifo : Z;
  tx_frame : Z;
  tx_compressed : Z;
  tx_multicast : Z;
}.
Definition bytes_sent (c : NetCounters) : Information := tx_bytes c.
Definition bytes_recv (c : NetCounters) : Information := rx_bytes c.
Definition packets_sent (c : NetCounters) : Z := tx_packets c.
Definition packets_recv (c : NetCounters) : Z := rx_packets c.
Definition errors_sent (c : NetCounters) : Z := tx_errs c.
Definition errors_recv (c : NetCounters) : Z := rx_errs c.
Definition drop_recv (c : NetCounters) : Z := rx_drop c.
Definition drop_sent (c : NetCounters) : Z := tx_drop c.

Section counters.
Context `{Units, Roots}.

Definition net_counters_from_str (s : str) : result NetCounters :=
  let parts := split_whitespace s in
  '(interface, parts) ←
    match Iter.next parts with
    | (Some s, parts) => Ok (trim_end_matches COLON s, parts)
    | (None, _) => Err (missing_key (lit "Interface") (to_string_lossy procfs_root ++ lit "/net/dev"))
    end;
  '(rx_bytes, parts) ← Iter.try_parse_u64 parts;
  '(rx_packets, parts) ← Iter.try_parse_u64 parts;
  '(rx_errs, parts) ← Iter.try_parse_u64 parts;
  '(rx_drop, parts) ← Iter.try_parse_u64 parts;
  '(rx_fifo, parts) ← Iter.try_parse_u64 parts;
  '(rx_frame, parts) ← Iter.try_parse_u64 parts;
  '(rx_compressed, parts) ← Iter.try_parse_u64 parts;
  '(rx_multicast, parts) ← Iter.try_parse_u64 parts;
  '(tx_bytes, parts) ← Iter.try_parse_u64 parts;
  '(tx_packets, parts) ← Iter.try_parse_u64 parts;
  '(tx_errs, parts) ← Iter.try_parse_u64 parts;
  '(tx_drop, parts) ← Iter.try_parse_u64 parts;
  '(tx_fifo, parts) ← Iter.try_parse_u64 parts;
  '(tx_frame, parts) ← Iter.try_parse_u64 parts;
  '(tx_compressed, parts) ← Iter.try_parse_u64 parts;
  '(tx_multicast, _) ← Iter.try_parse_u64 parts;
  Ok {| interface := interface;
        rx_bytes := information_byte rx_bytes; rx_packets := rx_packets; rx_errs := rx_errs;
        rx_drop := rx_drop; rx_fifo := rx_fifo; rx_frame := rx_frame;
        rx_compressed := rx_compressed; rx_multicast := rx_multicast;
        tx_bytes := information_byte tx_bytes; tx_packets := tx_packets; tx_errs := tx_errs;
        tx_drop := tx_drop; tx_fifo := tx_fifo; tx_frame := tx_frame;
        tx_compressed := tx_compressed; tx_multicast := tx_multicast |}.

Definition inner (p : path) : io Error (list (result NetCounters)) :=
  ls ← io_map_err (fun e => with_file (from_io e) p) (os (ReadLines p));
  mret (map (fun l => map_err from_io l ≫= net_counters_from_str) (drop 2 ls)).

Definition net_io_counters : io Error (list (result NetCounters)) :=
  inner (proc_path (lit "net/dev")).

Definition io_counters_for_pid (pid : Z) : io Error (list (result NetCounters)) :=
  inner (path_join (proc_path (show_int pid)) (lit "net/dev")).
End counters.

(** ** sys/unix/nic.rs *)

(** The nix crate: an interface as [getifaddrs] gives it, the families of its
    socket addresses, and the bits of its flags. *)
Class Nix := {
  SocketAddrV4 : Type;
  SocketAddrV6 : Type;
  MacAddr : Type;
  if_nametoindex : str -> option Z;
  IFF_UP : Z;
  IFF_RUNNING : Z;
  IFF_BROADCAST : Z;
  IFF_LOOPBACK : Z;
  IFF_POINTOPOINT : Z;
  IFF_MULTICAST : Z;
}.

Section nic.
Context `{Nix}.

(** [nix::sys::socket::SockAddr]. *)
Inductive SockAddr :=
| SockInet4 (a : SocketAddrV4)
| SockInet6 (a : SocketAddrV6)
| SockLink (a : MacAddr)
| SockOther (family : Z).

Record InterfaceAddress := mkInterfaceAddress {
  interface_name : str;
  if_flags : Z;
  if_address : option SockAddr;
  if_netmask : option SockAddr;
  if_broadcast : option SockAddr;
  if_destination : option SockAddr;
}.

Inductive Address :=
| AInet (a : SocketAddrV4)
| AInet6 (a : SocketAddrV6)
| ALink (a : MacAddr).

(** [From<&SockAddr>]: [unimplemented!] on other families. *)
Definition address_from {E} (s : SockAddr) : res E Address :=
  match s with
  | SockInet4 a => Ok (AInet a)
  | SockInet6 a => Ok (AInet6 a)
  | SockLink a => Ok (ALink a)
  | SockOther _ => Panic
  end.

(** [opt.as_ref().map(Into::into)]. *)
Definition option_address {E} (o : option SockAddr) : res E (option Address) :=
  match o with
  | Some s => Some <$> address_from s
  | None => Ok None
  end.

Definition nic_name (n : InterfaceAddress) : str := interface_name n.
Definition nic_index (n : InterfaceAddress) : option Z := if_nametoindex (nic_name n).
Definition nic_address {E} (n : InterfaceAddress) : res E Address :=
  s ← expect (if_address n); address_from s.
Definition nic_netmask {E} (n : InterfaceAddress) : res E (option Address) :=
  option_address (if_netmask n).
Definition nic_broadcast {E} (n : InterfaceAddress) : res E (option Address) :=
  option_address (if_broadcast n).
Definition nic_destination {E} (n : InterfaceAddress) : res E (option Address) :=
  option_address (if_destination n).

(** [flags.contains(bits)]. *)
Definition contains_flag (flags bits : Z) : bool := bool_decide (Z.land flags bits = bits).
Definition nic_is_up (n : InterfaceAddress) : bool := contains_flag (if_flags n) IFF_UP.
Definition nic_is_running (n : InterfaceAddress) : bool := contains_flag (if_flags n) IFF_RUNNING.
Definition nic_is_broadcast (n : InterfaceAddress) : bool := contains_flag (if_flags n) IFF_BROADCAST.
Definition nic_is_loopback (n : InterfaceAddress) : bool := contains_flag (if_flags n) IFF_LOOPBACK.
Definition nic_is_point_to_point (n : InterfaceAddress) : bool :=
  contains_flag (if_flags n) IFF_POINTOPOINT.
Definition nic_is_multicast (n : InterfaceAddress) : bool := contains_flag (if_flags n) IFF_MULTICAST.

(** [nic()], from what [getifaddrs] answered. *)
Definition nic (text : str) (getifaddrs : nix_error + list InterfaceAddress)
    : result (list (result InterfaceAddress)) :=
  match getifaddrs with
  | inl e => Err (from_nix text e)
  | inr iter =>
      Ok (omap (fun addr => match if_address addr with
                            | Some _ => Some (Ok addr)
                            | None => None
                            end) iter)
  end.
End nic.
