(* ===== verification/NetSpec.v ===== *)
(** * heim-net: the counters of net/dev, and which interfaces have an address *)

From S2P Require Import Prelude RustStr RustFloat Units Errors Sys Streams ProcFs ProcFsSpec Cpu Net.
Local Open Scope Z_scope.

Section counters.
Context `{!Units, !UnitsLaws, !Roots}.

Definition net_numbers (c : NetCounters) : list Z :=
  [rx_bytes c; rx_packets c; rx_errs c; rx_drop c; rx_fifo c; rx_frame c; rx_compressed c;
   rx_multicast c; tx_bytes c; tx_packets c; tx_errs c; tx_drop c; tx_fifo c; tx_frame c;
   tx_compressed c; tx_multicast c].

(** [wlp3s0: 550608563 390526 ...], after any padding. *)
Definition net_line (pad : nat) (c : NetCounters) : str :=
  replicate pad SP ++ unwords ((interface c ++ [COLON]) :: map show_int (net_numbers c)).

Definition net_ok (c : NetCounters) : Prop :=
  word (interface c) /\ (COLON ∉ interface c) /\ Forall u64 (net_numbers c).
#[export] Instance net_ok_dec c : Decision (net_ok c) := _.

Lemma net_line_words c : net_ok c -> Forall word ((interface c ++ [COLON]) :: map show_int (net_numbers c)).
Proof.
  intros ([Hne Hw] & _ & _). constructor.
  - split; [by destruct (interface c)|]. apply Forall_app. split; [done|].
    apply (bool_decide_unpack _). by vm_compute.
  - apply Forall_fmap, Forall_forall. intros ? _. apply show_int_word.
Qed.

Lemma words_pad pad s : split_whitespace (replicate pad SP ++ s) = split_whitespace s.
Proof.
  induction pad as [|pad IH]; [done|]. unfold split_whitespace in *. cbn [replicate app words_go].
  cbn. exact IH.
Qed.

Lemma net_counters_line pad c : net_ok c -> net_counters_from_str (net_line pad c) = Ok c.
Proof.
  intros Hc. pose proof (net_line_words c Hc) as Hw. destruct Hc as (_ & Hcol & Hu).
  unfold net_numbers in Hu. repeat setoid_rewrite Forall_cons in Hu. unfold u64 in *.
  destruct_and! Hu. unfold net_counters_from_str, net_line. rewrite words_pad.
  unfold split_whitespace. rewrite words_unwords by done. cbn [Iter.next].
  rewrite trim_end_matches_app by done. cbn [mbind res_bind map net_numbers].
  do 16 parse_step. rewrite !information_byte_id by lia. by destruct c.
Qed.

(** After the two header lines, whatever they hold, each interface of
    [net/dev] gives its sixteen counters, every column in its own field, the
    name without its colon; the order is kept, and a line that cannot be read
    is an error in its place which does not end the stream. *)
Theorem net_io_counters_file {W} (h : handler W) w h1 h2 entries tail :
  steady h w ->
  Forall (fun e => net_ok e.2) entries ->
  fst (h _ (ReadLines (proc_path (lit "net/dev"))) w) =
    Ok (h1 :: h2 :: map (fun e => Ok (net_line e.1 e.2)) entries ++ tail) ->
  result_of h net_io_counters w =
  Ok (map (fun e => Ok e.2) entries ++
      map (fun l => map_err from_io l ≫= net_counters_from_str) tail).
Proof.
  intros Hst Hok Hf. unfold net_io_counters, inner. run. rewrite Hf. run.
  cbn [skipn]. rewrite ?drop_0, map_app. do 2 f_equal. rewrite map_map. apply map_ext_in.
  intros [pad c] Hin%list_elem_of_In. rewrite Forall_forall in Hok. cbn.
  by apply net_counters_line, (Hok (pad, c)).
Qed.
End counters.

Definition lo : NetCounters := mkNetCounters (lit "lo") 10 1 0 0 0 0 0 0 10 1 0 0 0 0 0 0.
Definition wlp : NetCounters :=
  mkNetCounters (lit "wlp3s0") 550608563 390526 0 0 0 61962 0 0 14822919 103337 0 0 0 0 0 0.
Definition net_dev : str :=
  unlines [lit "Inter-|   Receive"; lit " face |bytes"; net_line 4 lo; net_line 0 wlp; lit "x: ten"].

Lemma net_io_counters_file_witness :
  result_of (snapshot (fun _ => Ok net_dev) (fun _ => [])) (@net_io_counters si_units default_roots) tt
  = Ok [Ok lo; Ok wlp; Err (from_parse_int InvalidDigit)].
Proof.
  refine (@net_io_counters_file si_units si_units_laws default_roots unit _ tt
    (Ok (lit "Inter-|   Receive")) (Ok (lit " face |bytes")) [(4%nat, lo); (0%nat, wlp)]
    [Ok (lit "x: ten")] (snapshot_steady _ _ tt) _ _).
  - apply (bool_decide_unpack _). vm_compute. exact I.
  - vm_compute. reflexivity.
Defined.

Section nic.
Context `{Nix}.

Definition addressed (a : InterfaceAddress) : option InterfaceAddress :=
  match if_address a with Some _ => Some a | None => None end.

Lemma nic_items text addrs : nic text (inr addrs) = Ok (map Ok (omap addressed addrs)).
Proof.
  unfold nic. f_equal. induction addrs as [|a addrs IH]; [done|]. cbn.
  unfold addressed at 1. destruct (if_address a); cbn; by rewrite <- IH.
Qed.

Lemma addressed_sublist addrs : omap addressed addrs `sublist_of` addrs.
Proof.
  induction addrs as [|a addrs IH]; [constructor|]. cbn. unfold addressed at 1.
  destruct (if_address a); by constructor.
Qed.

Lemma addressed_in n (addrs : list InterfaceAddress) : n ∈ omap addressed addrs <-> n ∈ addrs /\ if_address n <> None.
Proof.
  rewrite list_elem_of_omap. unfold addressed. split.
  - intros (a & Ha & Hn). destruct (if_address a) eqn:He; simplify_eq. by rewrite He.
  - intros [Ha Hn]. exists n. by destruct (if_address n).
Qed.

(** The stream of interfaces is those with an address, in order, and
    [address] never meets the missing one: it can only panic on a family that
    is neither IPv4, IPv6 nor a link address. *)
Theorem nic_has_address text addrs :
  exists nics, nic text (inr addrs) = Ok (map Ok nics) /\ nics `sublist_of` addrs /\
    (forall n, n ∈ nics <-> n ∈ addrs /\ if_address n <> None) /\
    (forall n, n ∈ nics ->
       (exists family, if_address n = Some (SockOther family)) \/ exists a, nic_address (E := Error) n = Ok a).
Proof.
  exists (omap addressed addrs). split_and!;
    [apply nic_items|apply addressed_sublist|intros n; apply (addressed_in n)|].
  intros n [_ Hn]%addressed_in. unfold nic_address.
  destruct (if_address n) as [[a|a|a|f]|]; [right; by eexists..|left; by eexists|done].
Qed.
End nic.
