(* ===== verification/Host.v ===== *)
(** * heim-host on Linux: boot time, uptime, platform, users

    heim-host/src/sys/linux and heim-host/src/sys/unix. *)

From S2P Require Import Prelude RustStr Layout RustFloat Units Errors Sys Streams ProcFs Cpu.

Section times.
Context `{Units, Roots}.

(** [format!("{}/stat", rt::linux::procfs_root().display())]. *)
Definition display_root (name : str) : str := to_string_lossy procfs_root ++ name.

(** ** sys/linux/boot_time.rs *)

Fixpoint btime_loop (ls : list str) : result Time :=
  match ls with
  | [] => Err (missing_key (lit "btime") (display_root (lit "/stat")))
  | line :: ls' =>
      if starts_with line (lit "btime ") then
        match drop 1 (splitn 2 SP line) with
        | raw_value :: _ => time_second <$> map_err from_parse_float (parse_f64 raw_value)
        | [] => Err (missing_key (lit "btime") (display_root (lit "/stat")))
        end
      else btime_loop ls'
  end.
Definition boot_time : io Error Time :=
  contents ← read_to_string from_io (proc_path (lit "stat"));
  lift (btime_loop (lines contents)).

(** ** sys/linux/uptime.rs *)

Definition parse_uptime (contents : str) : result Time :=
  match splitn 2 SP contents with
  | raw_value :: _ =>
      seconds ← map_err from_parse_float (parse_f64 raw_value);
      Ok (time_second seconds)
  | [] => Err (missing_key (lit "uptime") (display_root (lit "/uptime")))
  end.
Definition uptime : io Error Time :=
  contents ← read_to_string from_io (proc_path (lit "uptime"));
  lift (parse_uptime contents).
End times.

(** ** sys/unix/platform.rs *)

(** The crate platforms: the architectures and the parser of their names. *)
Class Platforms := {
  Arch : Type;
  arch_from_str : str -> option Arch;
  ARM : Arch;
  POWERPC64 : Arch;
  Unknown : Arch;
}.

Section platform.
Context `{Platforms}.

Record Platform := mkPlatform {
  system : str;
  release : str;
  version : str;
  hostname : str;
  architecture : Arch;
}.

Definition arch_from_uname (raw : str) : option Arch :=
  match arch_from_str raw with
  | Some arch => Some arch
  | None =>
      if decide (raw = lit "armv7" \/ raw = lit "armv7l" \/ raw = lit "arm64") then Some ARM
      else if decide (raw = lit "ppc64" \/ raw = lit "ppc64le") then Some POWERPC64
      else None
  end.

(** [CStr::from_ptr(..).to_string_lossy()] of a character array. *)
Definition c_string (chars : str) : str := to_string_lossy (c_str chars).

(** The fields of [utsname] are sysname, nodename, release, version and
    machine; an architecture that is not known is logged and [Unknown]. *)
Definition platform : io Error Platform :=
  '(result, (sysname, nodename, release, version, machine)) ← ask Uname;
  if (result =? 0)%Z then
    let raw_arch := c_string machine in
    let arch := default Unknown (arch_from_uname raw_arch) in
    mret (mkPlatform (c_string sysname) (c_string release) (c_string version) (c_string nodename) arch)
  else e ← ask GetErrno; fails (with_ffi (last_os_error e) (lit "uname")).
End platform.

(** ** sys/unix/users.rs *)

(** [IpAddr], as its octets in the order they are written. *)
Inductive IpAddr :=
| V4 (octets : list Z)
| V6 (octets : list Z).

Section ut_addr.
Context `{Endian}.

(** [addr] is the array of four [i32]; [copy_nonoverlapping] copies its
    sixteen bytes to the memory of the [u128]. *)
Definition from_ut_addr_v6 (addr : Z * Z * Z * Z) : option IpAddr :=
  let '(a, b, c, d) := addr in
  if decide (a = 0 /\ b = 0 /\ c = 0 /\ d = 0)%Z then None
  else if decide (b = 0 /\ c = 0 /\ d = 0)%Z then Some (V4 (be_bytes 4 (wrap 32 a)))
  else
    let raw_ip := of_memory (concat (map (fun w => to_memory 4 (wrap 32 w)) [a; b; c; d])) in
    Some (V6 (be_bytes 16 raw_ip)).
End ut_addr.

(** [libc::utmpx], the fields that are read. *)
Record utmpx := mkUtmpx {
  ut_type : Z;
  ut_pid : Z;
  ut_line : str;
  ut_id : str;
  ut_user : str;
  ut_host : str;
  ut_session : Z;
  ut_addr_v6 : Z * Z * Z * Z;
}.
Definition USER_PROCESS : Z := 7.

(** [get_users], from the entries that [getutxent] gives before null. *)
Fixpoint get_users {T} (from : utmpx -> T) (entries : list utmpx) : list T :=
  match entries with
  | [] => []
  | entry :: entries' =>
      if decide (ut_type entry = USER_PROCESS) then from entry :: get_users from entries'
      else get_users from entries'
  end.

(** ** sys/linux/users/other.rs *)

Record User := mkUser {
  username : str;
  terminal : str;
  user_id : str;
  user_hostname : str;
  user_pid : Z;
  user_address : option IpAddr;
  session_id : Z;
}.

Section users.
Context `{Endian}.

Definition user_from (entry : utmpx) : User := {|
  username := c_string (ut_user entry);
  terminal := c_string (ut_line entry);
  user_id := c_string (ut_id entry);
  user_hostname := c_string (ut_host entry);
  user_pid := ut_pid entry;
  session_id := ut_session entry;
  user_address := from_ut_addr_v6 (ut_addr_v6 entry);
|}.

Definition users {E} (entries : list utmpx) : res E (list (res E User)) :=
  Ok (map Ok (get_users user_from entries)).
End users.
