(* ===== verification/HostSpec.v ===== *)
(** * heim-host: boot time and the addresses of users *)

From S2P Require Import Prelude RustStr Layout RustFloat Units Errors Sys Streams ProcFs ProcFsSpec Cpu Host.
Local Open Scope Z_scope.

Section boot_time.
Context `{!Units, !Roots}.

Lemma btime_loop_noise ls rest :
  Forall (fun l => starts_with l (lit "btime ") = false) ls ->
  btime_loop (ls ++ rest) = btime_loop rest.
Proof. induction 1 as [|l ls Hl Hls IH]; [done|]. cbn [app btime_loop]. by rewrite Hl. Qed.

(** The boot time is the number of the first line of stat that begins
    with [btime] and a space, whatever precedes it and follows it; without
    such a line the missing key and the file are named, and a file that
    cannot be read is the error of reading it. *)
Theorem boot_time_spec {W} (h : handler W) w before t rest :
  steady h w -> Forall is_line before ->
  Forall (fun l => starts_with l (lit "btime ") = false) before -> 0 <= t ->
  let stat := fst (h _ (ReadToString (proc_path (lit "stat"))) w) in
  (stat = Ok (unlines (before ++ [unwords [lit "btime"; show_int t]]) ++ rest) ->
     result_of h boot_time w = Ok (time_second (f64_of_int t))) /\
  (stat = Ok (unlines before) ->
     result_of h boot_time w = Err (missing_key (lit "btime") (display_root (lit "/stat")))) /\
  (forall e, stat = Err e -> result_of h boot_time w = Err (from_io e)).
Proof.
  intros Hst Hl Hb Ht stat. unfold boot_time, read_to_string. run. fold stat. split_and!.
  - intros ->. run. rewrite lines_unlines_app.
    2:{ apply Forall_app. split; [done|]. apply Forall_singleton, unwords_is_line. solve_words. }
    rewrite <- app_assoc, btime_loop_noise by done. cbn [app btime_loop].
    change (unwords [lit "btime"; show_int t]) with (lit "btime" ++ SP :: show_int t).
    assert (starts_with (lit "btime" ++ SP :: show_int t) (lit "btime ") = true) as ->.
    { apply starts_with_true. exists (show_int t). done. }
    cbn [splitn]. rewrite split_once_app by (apply (bool_decide_unpack _); by vm_compute).
    cbn [skipn]. rewrite ?drop_0. by rewrite parse_f64_show.
  - intros ->. run. rewrite lines_unlines by done.
    rewrite <- (app_nil_r before). by rewrite btime_loop_noise.
  - intros e ->. done.
Qed.
End boot_time.

Definition stat_file : str := unlines [lit "cpu 1"; lit "btime 1600000000"; lit "processes 3"].
Lemma boot_time_spec_witness :
  result_of (snapshot (fun _ => Ok stat_file) (fun _ => [])) (@boot_time si_units default_roots) tt
  = Ok (f64_of_int 1600000000).
Proof.
  refine (proj1 (@boot_time_spec si_units default_roots unit _ tt [lit "cpu 1"] 1600000000
    (lit "processes 3" ++ [LF]) (snapshot_steady _ _ tt) _ _ _) _);
    first [ lia | reflexivity | apply (bool_decide_unpack _); vm_compute; exact I ].
Defined.

(** ** Addresses *)

Definition byte_list (l : list Z) : Prop := Forall (fun b => 0 <= b < 256) l.

Lemma of_le_bytes_range l : byte_list l -> 0 <= of_le_bytes l < 256 ^ Z.of_nat (length l).
Proof.
  induction 1 as [|b l Hb Hl IH]; [done|]. cbn [of_le_bytes length].
  rewrite Nat2Z.inj_succ, Z.pow_succ_r by lia. lia.
Qed.

Lemma le_bytes_of l : byte_list l -> le_bytes (length l) (of_le_bytes l) = l.
Proof.
  induction 1 as [|b l Hb Hl IH]; [done|]. cbn [length le_bytes of_le_bytes].
  rewrite Z.mul_comm, Z.mod_add, Z.mod_small by lia.
  rewrite Z.div_add, Z.div_small by lia. by rewrite Z.add_0_l, IH.
Qed.

Lemma be_bytes_of l : byte_list l -> be_bytes (length l) (of_le_bytes l) = rev l.
Proof.
  induction 1 as [|b l Hb Hl IH]; [done|]. cbn [length be_bytes of_le_bytes rev].
  rewrite Z.mul_comm, Z.mod_add, Z.mod_small by lia.
  rewrite Z.div_add, Z.div_small by lia. by rewrite Z.add_0_l, IH.
Qed.

Lemma byte_list_rev l : byte_list l -> byte_list (rev l).
Proof. unfold byte_list. rewrite !List.Forall_forall. intros Hl x Hx. apply Hl. by rewrite in_rev. Qed.

Section ut_addr.
Context `{Endian}.

Definition signed32 (z : Z) : Z := if z <? 2 ^ 31 then z else z - 2 ^ 32.
(** The [i32] whose memory is the group [g]. *)
Definition i32_at (g : list Z) : Z := signed32 (of_memory g).

Definition group_of (g : list Z) : Prop := byte_list g /\ length g = 4%nat.

Lemma of_memory_range g : group_of g -> 0 <= of_memory g < 2 ^ 32.
Proof.
  intros [Hg Hl]. unfold of_memory. change (2 ^ 32) with (256 ^ Z.of_nat 4).
  destruct little_endian; [rewrite <- Hl|rewrite <- Hl, <- length_rev]; apply of_le_bytes_range; [done|].
  by apply byte_list_rev.
Qed.

Lemma wrap_i32_at g : group_of g -> wrap 32 (i32_at g) = of_memory g.
Proof.
  intros Hg. pose proof (of_memory_range g Hg) as Hr. unfold wrap, i32_at, signed32.
  destruct (Z.ltb_spec (of_memory g) (2 ^ 31)); [apply Z.mod_small; lia|].
  symmetry. apply Z.mod_unique with (q := -1); lia.
Qed.

Lemma memory_word g : group_of g -> to_memory 4 (wrap 32 (i32_at g)) = g.
Proof.
  intros Hg. rewrite wrap_i32_at by done. destruct Hg as [Hb Hl].
  unfold to_memory, of_memory. destruct little_endian; rewrite <- Hl.
  - by apply le_bytes_of.
  - rewrite <- (length_rev g) at 1. rewrite be_bytes_of by by apply byte_list_rev.
    apply rev_involutive.
Qed.

Lemma i32_at_zero g : group_of g -> (i32_at g = 0 <-> g = [0; 0; 0; 0]).
Proof.
  intros Hg. split.
  - intros Hz. rewrite <- (memory_word g Hg), Hz. unfold to_memory. by destruct little_endian.
  - intros ->. unfold i32_at, of_memory. by destruct little_endian.
Qed.

Lemma be_bytes_memory l : byte_list l ->
  be_bytes (length l) (of_memory l) = if little_endian then rev l else l.
Proof.
  intros Hl. unfold of_memory. destruct little_endian.
  - by apply be_bytes_of.
  - rewrite <- (length_rev l) at 1. rewrite be_bytes_of by by apply byte_list_rev.
    apply rev_involutive.
Qed.

(** The address of a utmp entry, from the sixteen bytes it occupies
    (utmp keeps addresses in network order, most significant first): none
    when all are zero, IPv4 when only the first four are used, else IPv6.
    The octets are the bytes in memory on a big-endian machine; on a
    little-endian one they come out in reverse. *)
Theorem ut_addr_octets a b c d :
  group_of a -> group_of b -> group_of c -> group_of d ->
  let zero := [0; 0; 0; 0] in
  let ordered l := if little_endian then rev l else l in
  from_ut_addr_v6 (i32_at a, i32_at b, i32_at c, i32_at d) =
  if decide (b = zero /\ c = zero /\ d = zero) then
    if decide (a = zero) then None else Some (V4 (ordered a))
  else Some (V6 (ordered (a ++ b ++ c ++ d))).
Proof.
  intros Ha Hb Hc Hd zero ordered. unfold from_ut_addr_v6.
  pose proof (i32_at_zero a Ha) as Ha0. pose proof (i32_at_zero b Hb) as Hb0.
  pose proof (i32_at_zero c Hc) as Hc0. pose proof (i32_at_zero d Hd) as Hd0.
  fold zero in Ha0, Hb0, Hc0, Hd0. cbn [map concat].
  rewrite !memory_word by done. rewrite app_nil_r.
  assert (H4 : be_bytes 4 (wrap 32 (i32_at a)) = ordered a).
  { rewrite wrap_i32_at by done. destruct Ha as [Hba Hla]. rewrite <- Hla.
    by apply be_bytes_memory. }
  assert (H16 : be_bytes 16 (of_memory (a ++ b ++ c ++ d)) = ordered (a ++ b ++ c ++ d)).
  { unfold group_of in *. destruct_and!.
    transitivity (be_bytes (length (a ++ b ++ c ++ d)) (of_memory (a ++ b ++ c ++ d))).
    - f_equal. rewrite !length_app. lia.
    - apply be_bytes_memory. unfold byte_list in *. rewrite !Forall_app. done. }
  rewrite H4, H16. repeat case_decide; naive_solver.
Qed.
End ut_addr.

(** 192.168.0.1 on a little-endian machine. *)
Lemma ut_addr_octets_witness :
  @from_ut_addr_v6 true (@i32_at true [192; 168; 0; 1], 0, 0, 0) = Some (V4 [1; 0; 168; 192]).
Proof.
  refine (@ut_addr_octets true [192; 168; 0; 1] [0; 0; 0; 0] [0; 0; 0; 0] [0; 0; 0; 0] _ _ _ _);
    (split; [apply (bool_decide_unpack _); vm_compute; exact I|reflexivity]).
Defined.
