(* ===== verification/WinHost.v ===== *)
(** * heim-host on Windows: boot time, uptime, platform, users

    heim-host/src/sys/windows. *)

From S2P Require Import Prelude RustStr Layout RustFloat Units Errors WinCalls Sys Streams ProcFs Cpu Host.
From S2P Require Import WinCommon CLayout.

Section times.
Context `{Units}.

(** ** boot_time.rs, uptime.rs *)

Definition win_boot_time : io Error Time :=
  filetime ← ask (Win GetSystemTimeAsFileTime);
  let time := filetime_into_time filetime in
  mret (f64_sub time unix_epoch_delta).

Definition win_uptime : io Error Time :=
  ms ← ask (Win GetTickCount64);
  mret (time_millisecond (f64_of_int ms)).
End times.

(** ** platform.rs *)

(** winnt *)
Definition VER_NT_WORKSTATION : Z := 1.
Definition VER_NT_DOMAIN_CONTROLLER : Z := 2.
Definition VER_NT_SERVER : Z := 3.
Definition VER_SUITE_WH_SERVER : Z := 32768.
Definition PROCESSOR_ARCHITECTURE_INTEL : Z := 0.
Definition PROCESSOR_ARCHITECTURE_ARM : Z := 5.
Definition PROCESSOR_ARCHITECTURE_IA64 : Z := 6.
Definition PROCESSOR_ARCHITECTURE_AMD64 : Z := 9.
Definition PROCESSOR_ARCHITECTURE_ARM64 : Z := 12.
(** sysinfoapi *)
Definition ComputerNameDnsHostname : Z := 1.
Definition ComputerNameDnsDomain : Z := 2.

(** The other architectures of the crate platforms. *)
Class WinPlatforms `{Platforms} := { X86 : Arch; X86_64 : Arch; AARCH64 : Arch }.

Record WinPlatform := mkWinPlatform {
  sysinfo : Z;
  os_version : OSVERSIONINFOEXW;
  win_hostname : str;
  win_domain : str;
  build : str;
}.
Definition win_platform_hostname (p : WinPlatform) : str := win_hostname p.
Definition win_platform_domain (p : WinPlatform) : str := win_domain p.
(** The part of [SYSTEM_INFO] that is kept. *)
Definition system_info_from (info : SYSTEM_INFO) : Z := wProcessorArchitecture info.

Definition win_system {E} (p : WinPlatform) : res E str :=
  let product := wProductType (os_version p) in
  if (product =? VER_NT_WORKSTATION)%Z then Ok (lit "Windows")
  else if (product =? VER_NT_SERVER)%Z then Ok (lit "Windows Server")
  else if (product =? VER_NT_DOMAIN_CONTROLLER)%Z then Ok (lit "Windows Domain Controller")
  else Panic.

Definition win_release (p : WinPlatform) : str :=
  let major := dwMajorVersion (os_version p) in
  let minor := dwMinorVersion (os_version p) in
  let suite_mask := wSuiteMask (os_version p) in
  let is_workstation := (wProductType (os_version p) =? VER_NT_WORKSTATION)%Z in
  let nt (a b : nat) := ((major =? Z.of_nat a) && (minor =? Z.of_nat b))%Z in
  if nt 10 0 then lit "10"
  else if nt 6 3 then lit "8.1"
  else if nt 6 2 && is_workstation then lit "8"
  else if nt 6 2 && negb is_workstation then lit "2012"
  else if nt 6 1 && is_workstation then lit "7"
  else if nt 6 1 && negb is_workstation then lit "2008 R2"
  else if nt 6 0 && is_workstation then lit "Vista"
  else if nt 6 0 && negb is_workstation then lit "2008"
  else if nt 5 2 && (suite_mask =? VER_SUITE_WH_SERVER)%Z then lit "Home Server"
  else if nt 5 2 && is_workstation then lit "XP Professional x64 Edition"
  else if nt 5 2 then lit "2003"
  else if nt 5 1 then lit "XP"
  else if nt 5 0 then lit "2000"
  else lit "unknown".

Definition win_version (p : WinPlatform) : str := build p.

Definition win_architecture `{WinPlatforms} (p : WinPlatform) : Arch :=
  let arch := sysinfo p in
  if (arch =? PROCESSOR_ARCHITECTURE_AMD64)%Z then X86_64
  else if (arch =? PROCESSOR_ARCHITECTURE_ARM)%Z then ARM
  else if (arch =? PROCESSOR_ARCHITECTURE_ARM64)%Z then AARCH64
  else if (arch =? PROCESSOR_ARCHITECTURE_IA64)%Z then Unknown
  else if (arch =? PROCESSOR_ARCHITECTURE_INTEL)%Z then X86
  else Unknown.

Section platform.
Context `{Profile}.

Definition get_native_system_info : io Error Z :=
  info ← ask (Win GetNativeSystemInfo); mret (system_info_from info).

Definition rtl_get_version : io Error OSVERSIONINFOEXW :=
  '(result, osinfo) ← ask (Win RtlGetVersion);
  if overflow_checks && negb (result =? ntstatus.STATUS_SUCCESS)%Z then lift Panic else mret osinfo.

Definition get_value_from_get_computer_name_ex_w (kind : Z) : io Error str :=
  '(result, (_, required_size)) ← ask (Win (GetComputerNameExW kind None 0));
  if negb (result =? 0)%Z then last_ffi_error id "GetComputerNameEx"
  else
    buffer_len ← lift (add_u32 required_size 1);
    '(result, (buffer, size)) ← ask (Win (GetComputerNameExW kind (Some buffer_len) buffer_len));
    if (result =? 0)%Z then last_ffi_error id "GetComputerNameEx"
    else if (required_size <? size)%Z then
      fails (from_io (Custom Other (PText (lit "Invalid value returned by GetComputerNameExW"))))
    else if (buffer_len <? size)%Z then lift Panic
    else mret (from_utf16_lossy (take (Z.to_nat size) buffer)).

Definition get_computer_name : io Error str :=
  get_value_from_get_computer_name_ex_w ComputerNameDnsHostname.
Definition get_computer_domain : io Error str :=
  get_value_from_get_computer_name_ex_w ComputerNameDnsDomain.

Definition win_platform : io Error WinPlatform :=
  version ← rtl_get_version;
  sysinfo ← get_native_system_info;
  hostname ← get_computer_name;
  domain ← get_computer_domain;
  mret (mkWinPlatform sysinfo version hostname domain (show_int (dwBuildNumber version))).
End platform.

(** ** bindings/wtsapi32.rs

    The structures of the terminal services, as they are declared.  Pointers
    have eight bytes; [LARGE_INTEGER] is a type of winapi of eight bytes. *)

Definition DWORD_t : ctype := CInt 4.
Definition WCHAR_t : ctype := CInt 2.
Definition BYTE_t : ctype := CInt 1.
Definition pointer_t : ctype := CInt 8.
Definition large_t : ctype := COpaque 8 8.
Definition USERNAME_LENGTH : nat := 20.
Definition WINSTATIONNAME_LENGTH : nat := 32.
Definition DOMAIN_LENGTH : nat := 17.

(** [ENUM!]: a [DWORD], numbered from 0. *)
Inductive WTS_CONNECTSTATE_CLASS :=
| WTSActive | WTSConnected | WTSConnectQuery | WTSShadow | WTSDisconnected | WTSIdle | WTSListen | WTSReset
| WTSDown | WTSInit.
Inductive WTS_INFO_CLASS :=
| WTSInitialProgram | WTSApplicationName | WTSWorkingDirectory | WTSOEMId | WTSSessionId | WTSUserName
| WTSWinStationName | WTSDomainName | WTSConnectState | WTSClientBuildNumber | WTSClientName
| WTSClientDirectory | WTSClientProductId | WTSClientHardwareId | WTSClientAddress | WTSClientDisplay
| WTSClientProtocolType | WTSIdleTime | WTSLogonTime | WTSIncomingBytes | WTSOutgoingBytes
| WTSIncomingFrames | WTSOutgoingFrames | WTSClientInfo | WTSSessionInfo | WTSSessionInfoEx | WTSConfigInfo
| WTSValidationInfo | WTSSessionAddressV4 | WTSIsRemoteSession.
Definition info_class (c : WTS_INFO_CLASS) : DWORD :=
  match c with
  | WTSInitialProgram => 0 | WTSApplicationName => 1 | WTSWorkingDirectory => 2 | WTSOEMId => 3
  | WTSSessionId => 4 | WTSUserName => 5 | WTSWinStationName => 6 | WTSDomainName => 7
  | WTSConnectState => 8 | WTSClientBuildNumber => 9 | WTSClientName => 10 | WTSClientDirectory => 11
  | WTSClientProductId => 12 | WTSClientHardwareId => 13 | WTSClientAddress => 14 | WTSClientDisplay => 15
  | WTSClientProtocolType => 16 | WTSIdleTime => 17 | WTSLogonTime => 18 | WTSIncomingBytes => 19
  | WTSOutgoingBytes => 20 | WTSIncomingFrames => 21 | WTSOutgoingFrames => 22 | WTSClientInfo => 23
  | WTSSessionInfo => 24 | WTSSessionInfoEx => 25 | WTSConfigInfo => 26 | WTSValidationInfo => 27
  | WTSSessionAddressV4 => 28 | WTSIsRemoteSession => 29
  end%Z.

Definition WTS_SESSION_INFOW_t : ctype := CStruct
  [("SessionId", DWORD_t); ("pWinStationName", pointer_t); ("State", DWORD_t)]%string.
Definition WTS_PROCESS_INFOW_t : ctype := CStruct
  [("SessionId", DWORD_t); ("ProcessId", DWORD_t); ("pProcessName", pointer_t); ("pUserSid", pointer_t)]%string.
Definition WTS_CLIENT_ADDRESS_t : ctype := CStruct
  [("AddressFamily", DWORD_t); ("Address", CArray BYTE_t 20)]%string.
Definition WTSINFOW_t : ctype := CStruct
  [("State", DWORD_t); ("SessionId", DWORD_t); ("IncomingBytes", DWORD_t); ("OutgoingBytes", DWORD_t);
   ("IncomingFrames", DWORD_t); ("OutgoingFrames", DWORD_t); ("IncomingCompressedBytes", DWORD_t);
   ("OutgoingCompressedBytes", DWORD_t); ("WinStationName", CArray WCHAR_t WINSTATIONNAME_LENGTH);
   ("Domain", CArray WCHAR_t DOMAIN_LENGTH); ("UserName", CArray WCHAR_t (USERNAME_LENGTH + 1));
   ("ConnectTime", large_t); ("DisconnectTime", large_t); ("LastInputTime", large_t); ("LogonTime", large_t);
   ("CurrentTime", large_t)]%string.

(** The fields that are used, read from where they lie. *)
Record WTS_SESSION_INFOW := mkSessionInfo { SessionId : DWORD }.
Record WTSINFOW := mkWtsInfo { wts_Domain : wide; wts_UserName : wide }.
Record WTS_CLIENT_ADDRESS := mkClientAddress { AddressFamily : DWORD; wts_Address : list Z }.

Section blocks.
Context {E : Type}.
Local Open Scope string_scope.

Definition session_info_at (b : str) : res E WTS_SESSION_INFOW :=
  id ← c_uint WTS_SESSION_INFOW_t ["SessionId"] b; Ok (mkSessionInfo id).
Definition wtsinfow_at (b : str) : res E WTSINFOW :=
  domain ← c_bytes WTSINFOW_t ["Domain"] b;
  user ← c_bytes WTSINFOW_t ["UserName"] b;
  Ok (mkWtsInfo (units_of domain) (units_of user)).
Definition client_address_at (b : str) : res E WTS_CLIENT_ADDRESS :=
  family ← c_uint WTS_CLIENT_ADDRESS_t ["AddressFamily"] b;
  address ← c_bytes WTS_CLIENT_ADDRESS_t ["Address"] b;
  Ok (mkClientAddress family (map code address)).
End blocks.

(** ** wrappers/wts_info.rs *)

Definition wts_from_wide (chars : wide) : str := from_utf16_lossy (up_to_null chars).
Definition wts_username (info : WTSINFOW) : option str :=
  if (nth 0 (wts_UserName info) 0 =? 0)%Z then None else Some (wts_from_wide (wts_UserName info)).
Definition wts_domain (info : WTSINFOW) : str := wts_from_wide (wts_UserName info).

(** A value that is dropped at the end of a scope, also when it unwinds:
    [WTSFreeMemory] gets [memory]. *)
Definition freeing {E A} (memory : Z) (body : io E A) : io E A :=
  prog_bind body (fun r => prog_bind (os (Win (WTSFreeMemory memory))) (fun _ => Ret r)).

(** [WtsInfo] is a copy of the block that the system gave out.  It is a local
    variable: it lies at an address of the program, and its [Drop] frees that
    address. *)
Class Frame := wts_info_place : Z.
Definition drop_wts_info `{Frame} {E A} (body : io E A) : io E A := freeing wts_info_place body.

(** ** wrappers/session.rs *)

(** ws2def *)
Definition AF_UNSPEC : Z := 0.
Definition AF_INET : Z := 2.
Definition AF_IPX : Z := 6.
Definition AF_NETBIOS : Z := 17.
Definition AF_INET6 : Z := 23.

Definition session_info (session_id : DWORD) : io Error WTSINFOW :=
  '(result, (_, buffer)) ← ask (Win (WTSQuerySessionInformationW session_id (info_class WTSSessionInfo)));
  if (result =? 0)%Z then last_ffi_error id "WTSQuerySessionInformationW" else lift (wtsinfow_at buffer).

(** The array has twenty bytes. *)
Definition session_ip {E} (address : WTS_CLIENT_ADDRESS) : res E (option IpAddr) :=
  let family := AddressFamily address in
  let bytes := wts_Address address in
  if (family =? AF_INET)%Z then Ok (Some (V4 (take 4 (drop 2 bytes))))
  else if (family =? AF_INET6)%Z then Ok (Some (V6 (take 16 (drop 2 bytes))))
  else if ((family =? AF_IPX) || (family =? AF_NETBIOS) || (family =? AF_UNSPEC))%Z then Ok None
  else Panic.

Definition session_address (session_id : DWORD) : io Error (option IpAddr) :=
  '(result, (address_ptr, contents)) ← ask (Win (WTSQuerySessionInformationW session_id (info_class WTSClientAddress)));
  if (result =? 0)%Z then last_ffi_error id "WTSQuerySessionInformationW"
  else
    address ← lift (client_address_at contents ≫= session_ip);
    _ ← ask (Win (WTSFreeMemory address_ptr));
    mret address.

(** ** wrappers/sessions.rs *)

Record Sessions := mkSessions {
  sessions_ptr : Z;
  sessions_info : list WTS_SESSION_INFOW;
  sessions_current : DWORD;
  sessions_count : DWORD;
}.

(** [slice::from_raw_parts_mut(info, count)]: the contents are the [count]
    entries at the address. *)
Definition sessions_new : io Error Sessions :=
  '(result, (ptr, (count, memory))) ← ask (Win WTSEnumerateSessionsW);
  if (result =? 0)%Z then last_ffi_error id "WTSEnumerateSessionsW"
  else
    info ← lift (structs_at (size_of WTS_SESSION_INFOW_t) session_info_at (Z.to_nat count) memory);
    mret (mkSessions ptr info 0 count).

(** The index is below the count, an addition of 32 bits cannot overflow. *)
Definition sessions_next {E} (self : Sessions) : res E (option DWORD * Sessions) :=
  if (sessions_current self <? sessions_count self)%Z then
    match sessions_info self !! Z.to_nat (sessions_current self) with
    | Some session =>
        Ok (Some (SessionId session),
            mkSessions (sessions_ptr self) (sessions_info self) (sessions_current self + 1) (sessions_count self))
    | None => Panic
    end
  else Ok (None, self).

Definition drop_sessions {E A} (self : Sessions) (body : io E A) : io E A := freeing (sessions_ptr self) body.

(** [stream::iter(sessions).map(Ok)]: the items that are left. *)
Fixpoint sessions_items (fuel : nat) (self : Sessions) : list (result DWORD) :=
  match fuel with
  | O => []
  | S fuel =>
      match sessions_next self with
      | Ok (Some session, self) => Ok session :: sessions_items fuel self
      | Ok (None, _) => []
      | Err e => [Err e]
      | Panic => [Panic]
      end
  end.
Definition sessions_stream (self : Sessions) : list (result DWORD) :=
  sessions_items (S (Z.to_nat (sessions_count self))) self.

(** ** users.rs *)

Record WinUser := mkWinUser { user_domain : str; win_username : str; win_address : option IpAddr }.
Definition win_user_domain (u : WinUser) : str := user_domain u.
Definition win_user_username (u : WinUser) : str := win_username u.
Definition win_user_address (u : WinUser) : option IpAddr := win_address u.

Section users.
Context `{Frame}.

Definition from_session (session : DWORD) : io Error (option WinUser) :=
  info ← session_info session;
  drop_wts_info
    match wts_username info with
    | None => mret None
    | Some username =>
        let domain := wts_domain info in
        address ← session_address session;
        mret (Some (mkWinUser domain username address))
    end.

(** The stream, drained: it owns the iterator over the sessions, which is
    dropped at its end. *)
Definition win_users : io Error (list (result WinUser)) :=
  sessions ← sessions_new;
  drop_sessions sessions
    (prog_bind (try_filter_map from_session (sessions_stream sessions)) (fun l => Ret (Ok l))).
End users.
