(* ===== verification/WinHostSpec.v ===== *)
(** * heim-host on Windows: the users and the memory of their sessions

    Theorems about WinHost: what [win_users] reports of the sessions, and what
    becomes of the memory that the terminal services gave out for them. *)

From S2P Require Import Prelude RustStr Layout RustFloat Units Errors WinCalls Sys Streams ProcFs Cpu Host.
From S2P Require Import WinCommon CLayout Ownership WinHost.
From stdpp Require Import gmap.

(** ** The account of the terminal services *)

(** The blocks that are given out, how many sessions were described, and how
    many times memory was freed that is no block. *)
Record account := mkAccount { blocks : gset Z; described : nat; astray : nat }.

Section ledger.
Context `{Frame}.

(** A block is new, and is not where the program has its variables. *)
Definition given (memory : Z) (sessions : nat) (t t' : account) : Prop :=
  (memory ∉ blocks t) /\ memory <> wts_info_place /\
  t' = mkAccount ({[memory]} ∪ blocks t) (described t + sessions) (astray t).
(** A block has the size of what it holds. *)
Definition answered {A} (holds : A -> Prop) (r : Z * (Z * A)) (sessions : nat) (t t' : account) : Prop :=
  if (fst r =? 0)%Z then t' = t else given (fst (snd r)) sessions t t' /\ holds (snd (snd r)).
Definition holds_struct (c : ctype) (b : str) : Prop := size_of c <= length b.
Definition holds_sessions (b : DWORD * str) : Prop :=
  (0 <= fst b)%Z /\ Z.to_nat (fst b) * size_of WTS_SESSION_INFOW_t <= length (snd b).
Definition freed (memory : Z) (t : account) : account :=
  if decide (memory ∈ blocks t) then mkAccount (blocks t ∖ {[memory]}) (described t) (astray t)
  else mkAccount (blocks t) (described t) (S (astray t)).

Definition wts_step {R} (c : win_call R) : R -> account -> account -> Prop :=
  match c in win_call R return R -> account -> account -> Prop with
  | WTSEnumerateSessionsW => fun r => answered holds_sessions r 0
  | WTSQuerySessionInformationW _ class => fun r =>
      if decide (class = info_class WTSSessionInfo) then answered (holds_struct WTSINFOW_t) r 1
      else if decide (class = info_class WTSClientAddress) then answered (holds_struct WTS_CLIENT_ADDRESS_t) r 0
      else answered (fun _ => True) r 0
  | WTSFreeMemory memory => fun _ t t' => t' = freed memory t
  | _ => fun _ t t' => t' = t
  end.
Definition account_of {R} (c : call R) : R -> account -> account -> Prop :=
  match c in call R return R -> account -> account -> Prop with
  | Win c => wts_step c
  | _ => fun _ t t' => t' = t
  end.
Definition may_free {R} (c : call R) (t : account) : Prop :=
  match c with Win (WTSFreeMemory memory) => memory ∈ blocks t | _ => True end.

#[export] Instance wts_ledger : Ledger account Z () := {|
  account_step := @account_of;
  allowed := @may_free;
  held memory _ t := memory ∈ blocks t;
  gains memory _ := given memory 0;
  loses memory _ t t' := t' = freed memory t;
|}.
End ledger.

(** ** What is left behind *)

Section memory.
Context `{Frame}.

Definition away (t : account) : Prop := wts_info_place ∉ blocks t.

(** [n] sessions were described, and their blocks and [extra] more are lost;
    each description was freed where no block is. *)
Definition left_behind (n extra : nat) (t t' : account) : Prop :=
  exists lost, lost ## blocks t /\ (wts_info_place ∉ lost) /\ size lost = n + extra /\
    t' = mkAccount (lost ∪ blocks t) (described t + n) (astray t + n).

Lemma left_nothing t : left_behind 0 0 t t.
Proof.
  exists ∅. split_and!; [set_solver..|done|]. destruct t as [b d a]. cbn. f_equal; [set_solver|lia..].
Qed.
Lemma left_away n extra t t' : away t -> left_behind n extra t t' -> away t'.
Proof. intros Ha (lost & Hl & Hp & _ & ->). unfold away in *. cbn. set_solver. Qed.
Lemma left_trans n1 e1 n2 e2 t t1 t2 :
  left_behind n1 e1 t t1 -> left_behind n2 e2 t1 t2 -> left_behind (n1 + n2) (e1 + e2) t t2.
Proof.
  intros (l1 & H1 & P1 & S1 & ->) (l2 & H2 & P2 & S2 & ->). cbn in *.
  exists (l2 ∪ l1). split_and!; [set_solver..| |].
  - rewrite size_union by set_solver. lia.
  - f_equal; [set_solver|lia..].
Qed.
Lemma left_given memory t t1 : given memory 0 t t1 -> left_behind 0 1 t t1.
Proof.
  intros (Hn & Hp & ->). exists {[memory]}. split_and!; [set_solver..|by rewrite size_singleton|].
  f_equal; lia.
Qed.
Lemma given_freed memory t t1 : given memory 0 t t1 -> freed memory t1 = t.
Proof.
  intros (Hn & _ & ->). unfold freed. cbn. rewrite decide_True by set_solver.
  destruct t as [b d a]. cbn in *. f_equal; [set_solver|lia].
Qed.
(** The copy is freed instead of the block. *)
Lemma left_described memory t t1 extra t2 : away t -> given memory 1 t t1 -> left_behind 0 extra t1 t2 ->
  left_behind 1 extra t (freed wts_info_place t2).
Proof.
  intros Ha (Hn & Hp & ->) (lost & Hd & Hpl & Hs & ->). unfold away, freed in *. cbn in *.
  rewrite decide_False by set_solver. exists (lost ∪ {[memory]}). split_and!; [set_solver..| |].
  - rewrite size_union, size_singleton by set_solver. lia.
  - f_equal; [set_solver|lia..].
Qed.

(** ** The blocks *)

Lemma wtsinfow_at_long {E} b : holds_struct WTSINFOW_t b -> exists info, wtsinfow_at (E := E) b = Ok info.
Proof.
  intros Hb. unfold wtsinfow_at.
  destruct (c_bytes_long (E := E) WTSINFOW_t ["Domain"%string] 96 (CArray WCHAR_t 17) b) as [d ->]; [done..|].
  destruct (c_bytes_long (E := E) WTSINFOW_t ["UserName"%string] 130 (CArray WCHAR_t 21) b) as [u ->]; [done..|].
  by eexists.
Qed.
Lemma client_address_at_long {E} b : holds_struct WTS_CLIENT_ADDRESS_t b ->
  exists address, client_address_at (E := E) b = Ok address.
Proof.
  intros Hb. unfold client_address_at. rewrite (c_uint_bytes _ _ 0 4) by done.
  destruct (c_bytes_long (E := E) WTS_CLIENT_ADDRESS_t ["AddressFamily"%string] 0 DWORD_t b) as [f ->]; [done..|].
  destruct (c_bytes_long (E := E) WTS_CLIENT_ADDRESS_t ["Address"%string] 4 (CArray BYTE_t 20) b) as [a ->]; [done..|].
  by eexists.
Qed.
Lemma session_infos_at_long {E} b : holds_sessions b ->
  exists info, structs_at (E := E) (size_of WTS_SESSION_INFOW_t) session_info_at (Z.to_nat (fst b)) (snd b) = Ok info /\
    fst b = Z.of_nat (length info).
Proof.
  intros [Hc Hb].
  destruct (structs_at_long (E := E) (size_of WTS_SESSION_INFOW_t) session_info_at (Z.to_nat (fst b)) (snd b))
    as (info & -> & Hn); [|done|exists info; split; [done|lia]].
  intros s Hs. unfold session_info_at. rewrite (c_uint_bytes _ _ 0 4) by done.
  destruct (c_bytes_long (E := E) WTS_SESSION_INFOW_t ["SessionId"%string] 0 DWORD_t s) as [i ->]; [done..|].
  by eexists.
Qed.

(** ** The operations *)

Definition panicked {E A} (r : res E A) : nat := match r with Panic => 1 | _ => 0 end.

Lemma leaves_ffi_error {A} (P : account -> Prop) name :
  leaves P (@last_ffi_error Error A id name) (fun r t t' => t' = t /\ exists e, r = Err e).
Proof.
  apply leaves_ask. intros e t _. apply leaves_ret. cbn. intros t' ->. split; [done|by eexists].
Qed.

(** The block of the address is lost where its family is not known. *)
Lemma leaves_session_address (session : DWORD) :
  leaves away (session_address session) (fun r t t' => left_behind 0 (panicked r) t t').
Proof.
  apply leaves_ask. intros [result [memory contents]] t Ha. cbn [account_step wts_ledger account_of wts_step].
  unfold answered. cbn [fst snd]. destruct (result =? 0)%Z.
  - eapply leaves_weaken; [apply (leaves_ffi_error (fun t' => t' = t))|done|].
    intros r t' t'' -> [-> [e ->]]. apply left_nothing.
  - apply leaves_pure. intros Hc. unfold lift.
    destruct (client_address_at_long (E := Error) contents Hc) as [a ->]. cbn [mbind res_bind].
    destruct (session_ip a) as [address|e|] eqn:He.
    + change (leaves (given memory 0 t) (ask (Win (WTSFreeMemory memory)) ≫= fun _ => mret address)
        (fun (b : res Error _) _ t' => left_behind 0 (panicked b) t t')).
      apply leaves_ask. intros [] t1 H1. apply leaves_ret. cbn. intros t' ->.
      rewrite (given_freed _ t t1) by done. apply left_nothing.
    + by unfold session_ip in He; repeat case_match.
    + apply leaves_ret. intros t' Ht. by eapply left_given.
Qed.

Definition item_user {A} (r : res Error (option A)) : nat := match r with Ok (Some _) => 1 | _ => 0 end.

Lemma leaves_from_session (session : DWORD) :
  leaves away (from_session session) (fun r t t' =>
    exists n, left_behind n (panicked r) t t' /\ item_user r + panicked r <= n).
Proof.
  apply (leaves_bind _ (fun r t t' => match r with Ok info => exists memory, given memory 1 t t'
                                              | Err _ => t' = t | Panic => False end)).
  - apply leaves_ask. intros [result [memory contents]] t Ha. cbn [account_step wts_ledger account_of wts_step].
    unfold answered. cbn [fst snd]. destruct (result =? 0)%Z.
    + eapply leaves_weaken; [apply (leaves_ffi_error (fun t' => t' = t))|done|].
      by intros r t' t'' -> [-> [e ->]].
    + apply leaves_pure. intros Hc. destruct (wtsinfow_at_long (E := Error) contents Hc) as [info ->].
      apply leaves_ret. intros t' Ht. by exists memory.
  - intros info t Ha. unfold drop_wts_info, freeing.
    apply (leaves_prog_bind _ (fun r t1 t2 => left_behind 0 (panicked r) t1 t2)).
    + destruct (wts_username info) as [username|]; [|apply leaves_ret; intros; apply left_nothing].
      apply (leaves_bind _ (fun r => left_behind 0 (panicked r))).
      * apply (leaves_weaken _ away _ _ _ (leaves_session_address session)); [|done].
        intros t' [memory (Hn & Hp & ->)]. unfold away in *. cbn. set_solver.
      * intros address t1 _. by apply leaves_ret.
      * done.
      * done.
    + intros r t1 [memory Hg]. eapply leaves_prog_bind; [apply leaves_os|].
      intros [] t2 H2. apply leaves_ret. cbn. intros t3 ->. exists 1.
      split; [by eapply left_described|]. destruct r as [[]| |]; cbn; lia.
  - intros e t t' Ha ->. exists 0. split; [apply left_nothing|cbn; lia].
  - done.
Qed.

Definition panics {A} (l : list (result A)) : nat :=
  length (List.filter (fun r => match r with Panic => true | _ => false end) l).
Definition items_ok {A} (l : list (result A)) : nat := length (List.filter is_ok l).

Lemma leaves_sessions (ids : list DWORD) :
  leaves away (try_filter_map from_session (map Ok ids)) (fun rs t t' =>
    exists n, left_behind n (panics rs) t t' /\ items_ok rs + panics rs <= n).
Proof.
  induction ids as [|id ids IH]; cbn [map try_filter_map].
  { apply leaves_ret. intros t _. exists 0. split; [apply left_nothing|done]. }
  eapply leaves_prog_bind; [apply leaves_from_session|]. intros r t Ha.
  assert (Hrest : leaves (fun t1 => exists n, left_behind n (panicked r) t t1 /\ item_user r + panicked r <= n)
    (try_filter_map from_session (map Ok ids)) (fun rs t1 t2 => exists n, left_behind n (panics rs) t1 t2 /\ items_ok rs + panics rs <= n)).
  { eapply leaves_weaken; [apply IH| |by intros rs t1 t2 _ Hl; exact Hl].
    intros t1 (n & Hn & _). by eapply left_away. }
  assert (Hboth : forall (rs : list (result WinUser)) t1 t2, (exists n, left_behind n (panicked r) t t1 /\ item_user r + panicked r <= n) ->
    (exists m, left_behind m (panics rs) t1 t2 /\ items_ok rs + panics rs <= m) ->
    exists n, left_behind n (panicked r + panics rs) t t2 /\ item_user r + panicked r + (items_ok rs + panics rs) <= n).
  { intros rs t1 t2 (n & Hn & Hle) (m & Hm & Hle'). exists (n + m). split; [by eapply left_trans|lia]. }
  destruct r as [[user|]|e|]; [| | |apply leaves_ret; intros t1 (n & Hn & Hle); exists n; split; [exact Hn|cbn in *; lia]].
  2: { eapply leaves_weaken; [exact Hrest|done|]. intros rs t1 t2 H1 H2. exact (Hboth rs t1 t2 H1 H2). }
  all: eapply leaves_prog_bind; [exact Hrest|]; intros rs t1 H1; apply leaves_ret; intros t2 H2;
    destruct (Hboth rs t1 t2 H1 H2) as (n & Hn & Hle); exists n; (split; [exact Hn|]); cbn in *;
    unfold panics, items_ok in *; cbn; lia.
Qed.

Lemma sessions_rest ptr before info :
  sessions_items (S (length info)) (mkSessions ptr (before ++ info) (Z.of_nat (length before))
    (Z.of_nat (length (before ++ info)))) = map (fun s => Ok (SessionId s)) info.
Proof.
  revert before. induction info as [|s info IH]; intros before; cbn [sessions_items]; unfold sessions_next;
    cbn [sessions_current sessions_count sessions_info sessions_ptr].
  - by rewrite app_nil_r, Z.ltb_irrefl.
  - rewrite (proj2 (Z.ltb_lt _ _)) by (rewrite length_app; cbn; lia).
    rewrite Nat2Z.id, list_lookup_middle by done. cbn [map]. f_equal.
    specialize (IH (before ++ [s])). rewrite <- !app_assoc in IH. cbn [app] in IH.
    rewrite <- IH. f_equal. f_equal. rewrite length_app. cbn. lia.
Qed.
Lemma sessions_stream_all ptr info :
  sessions_stream (mkSessions ptr info 0 (Z.of_nat (length info))) = map Ok (map SessionId info).
Proof. unfold sessions_stream. cbn [sessions_count]. rewrite Nat2Z.id, map_map. apply (sessions_rest ptr [] info). Qed.

(** The list of the sessions is given back, the blocks of the sessions are
    not. *)
Lemma leaves_win_users :
  leaves away win_users (fun r t t' =>
    match r with
    | Ok users => exists n, left_behind n (panics users) t t' /\ items_ok users + panics users <= n
    | _ => t' = t
    end).
Proof.
  apply (leaves_bind _ (fun r t t' => match r with
    | Ok self => exists ptr info, self = mkSessions ptr info 0 (Z.of_nat (length info)) /\ given ptr 0 t t'
    | _ => t' = t end)); [| |done..].
  - apply leaves_ask. intros [result [ptr [count memory]]] t Ha. cbn [account_step wts_ledger account_of wts_step].
    unfold answered. cbn [fst snd]. destruct (result =? 0)%Z.
    + eapply leaves_weaken; [apply (leaves_ffi_error (fun t' => t' = t))|done|].
      by intros r t' t'' -> [-> [e ->]].
    + apply leaves_pure. intros Hc. destruct (session_infos_at_long (E := Error) _ Hc) as (info & Hi & Hn).
      cbn [fst snd] in Hi, Hn. rewrite Hi, Hn. apply leaves_ret. intros t' Ht. by exists ptr, info.
  - intros self t Ha. unfold drop_sessions, freeing.
    eapply leaves_prog_bind with (Q := fun r t1 t2 => exists ptr users n, r = Ok users /\ given ptr 0 t t1 /\
      sessions_ptr self = ptr /\ left_behind n (panics users) t1 t2 /\ items_ok users + panics users <= n).
    + intros W h table_of Ht w (ptr & info & -> & Hg). rewrite sessions_stream_all.
      rewrite fst_exec_bind, snd_exec_bind. cbn [exec fst snd].
      destruct (leaves_sessions (map SessionId info) W h table_of Ht w) as (n & Hn & Hle).
      { destruct Hg as (Hn & Hp & ->). unfold away in *. cbn. set_solver. }
      by eexists _, _, n.
    + intros r t1 _. eapply leaves_prog_bind; [apply leaves_os|].
      intros [] t2 (ptr & users & n & -> & Hg & Hptr & Hn & Hle). apply leaves_ret. cbn. intros t3 ->.
      rewrite Hptr. exists n. split; [|done]. destruct Hg as (Hnew & Hp & ->).
      destruct Hn as (lost & Hd & Hpl & Hs & ->). unfold freed. cbn in *. rewrite decide_True by set_solver.
      exists lost. split_and!; [set_solver..|done|]. f_equal; [|lia..].
      apply set_eq. intros x. destruct (decide (x = ptr)); set_solver.
Qed.

(** C10: every session that is described costs a block of memory: [WtsInfo]
    frees the address of its copy, where no block is, and the block that the
    terminal services gave out stays.  The block of a client address is given
    back, unless its family is not known and the code panics; the list of the
    sessions is given back.  At least the users that are reported were
    described. *)
Theorem win_users_memory {W} (h : handler W) (table_of : W -> account) `{!Accounts h table_of} w users :
  fst (exec h win_users w) = Ok users ->
  wts_info_place ∉ blocks (table_of w) ->
  let t' := table_of (snd (exec h win_users w)) in
  exists n lost,
    items_ok users + panics users <= n /\ lost ## blocks (table_of w) /\ size lost = n + panics users /\
    blocks t' = lost ∪ blocks (table_of w) /\
    described t' = described (table_of w) + n /\ astray t' = astray (table_of w) + n.
Proof.
  intros Hu Ha. pose proof (leaves_win_users W h table_of _ w Ha) as Hl. rewrite Hu in Hl.
  destruct Hl as (n & (lost & Hd & _ & Hs & ->) & Hle). by exists n, lost.
Qed.
End memory.

(** ** What is reported *)

Section reports.
Context `{Frame} {W : Type} (h : handler W) (w : W).
Hypothesis Hsteady : steady h w.

(** What the terminal services write into their blocks, over anything. *)
Definition wtsinfow_fields (i : WTSINFOW) : list (list string * str) :=
  [(["Domain"%string], wide_bytes (wts_Domain i)); (["UserName"%string], wide_bytes (wts_UserName i))].
Definition wtsinfow_memory (i : WTSINFOW) (before : str) : str := c_memory WTSINFOW_t (wtsinfow_fields i) before.
Definition units16 (u : wide) : Prop := Forall (fun u => 0 <= u < 65536)%Z u.
Definition wtsinfow_wf (i : WTSINFOW) : Prop :=
  length (wts_Domain i) = DOMAIN_LENGTH /\ length (wts_UserName i) = USERNAME_LENGTH + 1 /\
  units16 (wts_Domain i) /\ units16 (wts_UserName i).

Definition client_address_fields (a : WTS_CLIENT_ADDRESS) : list (list string * str) :=
  [(["AddressFamily"%string], uint_bytes 4 (AddressFamily a)); (["Address"%string], map of_code (wts_Address a))].
Definition client_address_memory (a : WTS_CLIENT_ADDRESS) (before : str) : str :=
  c_memory WTS_CLIENT_ADDRESS_t (client_address_fields a) before.
Definition client_address_wf (a : WTS_CLIENT_ADDRESS) : Prop :=
  (0 <= AddressFamily a < 2 ^ 32)%Z /\ length (wts_Address a) = 20 /\ Forall (fun b => 0 <= b < 256)%Z (wts_Address a).

Definition session_info_memory (id : DWORD) (before : str) : str :=
  c_memory WTS_SESSION_INFOW_t [(["SessionId"%string], uint_bytes 4 id)] before.

Lemma wtsinfow_at_memory {E} i before : wtsinfow_wf i -> length before = size_of WTSINFOW_t ->
  wtsinfow_at (E := E) (wtsinfow_memory i before) = Ok i.
Proof.
  intros (Hd & Hu & Hd16 & Hu16) Hb. unfold wtsinfow_at.
  assert (Hr : forall p s, (p, s) ∈ wtsinfow_fields i -> c_bytes (E := E) WTSINFOW_t p (wtsinfow_memory i before) = Ok s).
  { intros p s. apply c_bytes_memory; [done| |by repeat constructor|done].
    repeat constructor; do 2 eexists; (split; [reflexivity|]); cbn [snd]; rewrite length_wide_bytes, ?Hd, ?Hu; done. }
  rewrite (Hr ["Domain"%string] (wide_bytes (wts_Domain i))), (Hr ["UserName"%string] (wide_bytes (wts_UserName i)))
    by (unfold wtsinfow_fields; rewrite !elem_of_cons; tauto).
  cbn [mbind res_bind]. rewrite !units_of_wide_bytes by done. by destruct i.
Qed.
Lemma client_address_at_memory {E} a before : client_address_wf a -> length before = size_of WTS_CLIENT_ADDRESS_t ->
  client_address_at (E := E) (client_address_memory a before) = Ok a.
Proof.
  intros (Hf & Hl & Ha) Hb. unfold client_address_at. rewrite (c_uint_bytes _ _ 0 4) by done.
  assert (Hr : forall p s, (p, s) ∈ client_address_fields a ->
    c_bytes (E := E) WTS_CLIENT_ADDRESS_t p (client_address_memory a before) = Ok s).
  { intros p s. apply c_bytes_memory; [done| |by repeat constructor|done].
    repeat constructor; do 2 eexists; (split; [reflexivity|]); cbn [snd]; [apply length_uint_bytes|by rewrite length_map, Hl]. }
  rewrite (Hr ["AddressFamily"%string] (uint_bytes 4 (AddressFamily a))), (Hr ["Address"%string] (map of_code (wts_Address a)))
    by (unfold client_address_fields; rewrite !elem_of_cons; tauto).
  cbn [fmap res_fmap mbind res_bind]. rewrite uint_bytes_value, code_bytes, Z.mod_small by done. by destruct a.
Qed.
Lemma session_info_at_memory {E} id before : (0 <= id < 2 ^ 32)%Z -> length before = size_of WTS_SESSION_INFOW_t ->
  length (session_info_memory id before) = size_of WTS_SESSION_INFOW_t /\
  session_info_at (E := E) (session_info_memory id before) = Ok (mkSessionInfo id).
Proof.
  intros Hid Hb. assert (Hf : Forall (fits WTS_SESSION_INFOW_t) [(["SessionId"%string], uint_bytes 4 id)])
    by (repeat constructor; do 2 eexists; (split; [reflexivity|]); apply length_uint_bytes).
  split; [by apply length_c_memory|]. unfold session_info_at. rewrite (c_uint_bytes _ _ 0 4) by done.
  unfold session_info_memory. rewrite (c_bytes_memory WTS_SESSION_INFOW_t eq_refl _ _ _ (uint_bytes 4 id));
    [|exact Hf|by repeat constructor|done|by left].
  cbn [fmap res_fmap mbind res_bind]. by rewrite uint_bytes_value, Z.mod_small.
Qed.

Definition named (info : WTSINFOW) (name : wide) : Prop :=
  (0%Z ∉ name) /\ exists rest, wts_UserName info = name ++ 0%Z :: rest.
Lemma named_username info name : named info name ->
  wts_username info = (if decide (name = []) then None else Some (from_utf16_lossy name)) /\
  wts_domain info = from_utf16_lossy name.
Proof.
  intros (Hz & rest & Hn). assert (Hw : wts_from_wide (wts_UserName info) = from_utf16_lossy name).
  { unfold wts_from_wide. by rewrite Hn, up_to_null_app. }
  unfold wts_username, wts_domain. rewrite Hw, Hn. split; [|done].
  destruct name as [|c name]; [done|]. cbn. rewrite (proj2 (Z.eqb_neq _ _)); [done|]. intros ->. set_solver.
Qed.

(** Where the documentation puts the octets: after two bytes. *)
Definition client_address (address : WTS_CLIENT_ADDRESS) (ip : option IpAddr) : Prop :=
  match ip with
  | Some (V4 octets) => AddressFamily address = AF_INET /\ length octets = 4 /\
      exists a b rest, wts_Address address = a :: b :: octets ++ rest
  | Some (V6 octets) => AddressFamily address = AF_INET6 /\ length octets = 16 /\
      exists a b rest, wts_Address address = a :: b :: octets ++ rest
  | None => In (AddressFamily address) [AF_IPX; AF_NETBIOS; AF_UNSPEC]
  end.
Lemma client_address_ip {E} address ip : client_address address ip -> session_ip (E := E) address = Ok ip.
Proof.
  unfold client_address, session_ip. destruct ip as [[octets|octets]|].
  1,2: intros (-> & Hl & a & b & rest & ->); cbn -[firstn app]; by rewrite drop_0, take_app_length'.
  intros [<-|[<-|[<-|[]]]]; done.
Qed.

(** What the terminal services say of a session, in their blocks. *)
Record wts_session := mkWtsSession { ws_id : DWORD; ws_name : wide; ws_ip : option IpAddr }.
Definition says (s : wts_session) : Prop :=
  (exists r p info before,
     fst (h _ (Win (WTSQuerySessionInformationW (ws_id s) (info_class WTSSessionInfo))) w) = (r, (p, wtsinfow_memory info before)) /\ r <> 0%Z /\
     length before = size_of WTSINFOW_t /\ wtsinfow_wf info /\ named info (ws_name s)) /\
  (exists r p address before,
     fst (h _ (Win (WTSQuerySessionInformationW (ws_id s) (info_class WTSClientAddress))) w) = (r, (p, client_address_memory address before)) /\ r <> 0%Z /\
     length before = size_of WTS_CLIENT_ADDRESS_t /\ client_address_wf address /\ client_address address (ws_ip s)).

Lemma result_session_info session r p memory info :
  fst (h _ (Win (WTSQuerySessionInformationW session (info_class WTSSessionInfo))) w) = (r, (p, memory)) -> r <> 0%Z ->
  wtsinfow_at (E := Error) memory = Ok info -> result_of h (session_info session) w = Ok info.
Proof. intros Hq Hr Hi. unfold session_info. run. rewrite Hq, (proj2 (Z.eqb_neq _ _)) by done. by rewrite Hi. Qed.
Lemma result_session_address session r p memory address ip :
  fst (h _ (Win (WTSQuerySessionInformationW session (info_class WTSClientAddress))) w) = (r, (p, memory)) -> r <> 0%Z ->
  client_address_at (E := Error) memory = Ok address -> client_address address ip ->
  result_of h (session_address session) w = Ok ip.
Proof.
  intros Hq Hr Hm Ha. unfold session_address. run. rewrite Hq, (proj2 (Z.eqb_neq _ _)) by done.
  run. rewrite Hm. cbn [mbind res_bind]. rewrite (client_address_ip _ _ Ha). cbn [mbind res_bind]. by run.
Qed.

Definition user_of (s : wts_session) : option WinUser :=
  let name := from_utf16_lossy (ws_name s) in
  if decide (ws_name s = []) then None else Some (mkWinUser name name (ws_ip s)).
Lemma result_from_session s : says s -> result_of h (from_session (ws_id s)) w = Ok (user_of s).
Proof.
  intros [(r & p & info & b & Hq & Hr & Hb & Hw & Hn) (r' & p' & address & b' & Hq' & Hr' & Hb' & Hw' & Ha)].
  unfold from_session. rewrite result_io_bind by done. rewrite (result_session_info _ _ _ _ _ Hq Hr (wtsinfow_at_memory _ _ Hw Hb)). cbn [mbind res_bind].
  unfold drop_wts_info, freeing. rewrite result_bind by done.
  destruct (named_username _ _ Hn) as [-> ->]. unfold user_of. rewrite result_bind by done.
  destruct (decide (ws_name s = [])); [done|]. cbv zeta.
  rewrite result_io_bind by done. by rewrite (result_session_address _ _ _ _ _ _ Hq' Hr' (client_address_at_memory _ _ Hw' Hb') Ha).
Qed.

(** C31: the sessions are read back from the blocks of memory in which the
    terminal services describe them, laid out as the bindings declare, whatever
    else lies in the blocks: every session with a user name is reported, in the
    order of the sessions and with the address of its client; sessions without
    a user are skipped.  The domain that is reported is the name of the user,
    whatever the domain is. *)
Theorem win_users_spec r p ss befores :
  fst (h _ (Win WTSEnumerateSessionsW) w) =
    (r, (p, (Z.of_nat (length ss), concat (zip_with session_info_memory (map ws_id ss) befores)))) -> r <> 0%Z ->
  Forall2 (fun s b => 0 <= ws_id s < 2 ^ 32 /\ length b = size_of WTS_SESSION_INFOW_t)%Z ss befores ->
  Forall says ss ->
  result_of h win_users w = Ok (omap (fun s => Ok <$> user_of s) ss).
Proof.
  intros Hq Hr Hb Hs. unfold win_users, sessions_new. run. rewrite Hq, (proj2 (Z.eqb_neq _ _)) by done. run.
  rewrite Nat2Z.id, <- (length_map (fun s => mkSessionInfo (ws_id s)) ss).
  rewrite <- (app_nil_r (concat _)), (structs_at_concat _ _ _ (map (fun s => mkSessionInfo (ws_id s)) ss)).
  2: { clear Hq Hs. induction Hb as [|s b ss befores [Hid Hlen] _ IH]; cbn [map zip_with]; [constructor|].
       constructor; [by apply session_info_at_memory|exact IH]. }
  run. unfold drop_sessions, freeing. rewrite sessions_stream_all, (map_map _ SessionId).
  rewrite !result_bind, result_try_filter_map, !result_ret by done. f_equal. cbn [SessionId].
  clear Hq Hb. induction Hs as [|s ss Hsay Hss IH]; [done|]. cbn [map omap list_omap].
  cbn [mbind res_bind SessionId]. rewrite result_from_session by done. destruct (user_of s); cbn [fmap option_fmap option_map item_of until_panic]; by rewrite <- IH.
Qed.
End reports.

(** ** A terminal server with the sessions 1 (without a user) and 2 *)

#[export] Instance test_frame : Frame := 4096%Z.
Definition bob : wide := map Z.of_nat [98; 111; 98].
Definition bob_session : wts_session := mkWtsSession 2 bob (Some (V4 [10; 0; 0; 7]%Z)).
Definition idle_session : wts_session := mkWtsSession 1 [] None.
Definition info_of (s : wts_session) : WTSINFOW :=
  mkWtsInfo (68 :: replicate 16 0)%Z (ws_name s ++ 0 :: replicate (20 - length (ws_name s)) 120)%Z.
Definition session_of (session : DWORD) : wts_session := if (session =? 2)%Z then bob_session else idle_session.
Definition address_of (s : wts_session) : WTS_CLIENT_ADDRESS :=
  if (ws_id s =? 2)%Z then mkClientAddress 2 ([0; 0; 10; 0; 0; 7] ++ replicate 14 0)%Z
  else mkClientAddress 0 (replicate 20 0%Z).
Definition junk (c : ctype) : str := replicate (size_of c) "?"%char.

Definition new_block (t : account) : Z := (1 + foldr Z.max wts_info_place (elements (blocks t)))%Z.
Lemma foldr_max p l x : In x (p :: l) -> (x <= foldr Z.max p l)%Z.
Proof. induction l as [|y l IH]; cbn in *; intros Hx; [|assert (p = x \/ In x l -> x <= foldr Z.max p l)%Z by apply IH]; intuition lia. Qed.
Definition give {A} (n : nat) (a : A) (t : account) : (Z * (Z * A)) * account :=
  ((1%Z, (new_block t, a)), mkAccount ({[new_block t]} ∪ blocks t) (described t + n) (astray t)).
Definition wts_os_step {R} (c : win_call R) (t : account) : R * account :=
  match c in win_call R return R * account with
  | WTSEnumerateSessionsW => give 0 (2%Z, concat (zip_with session_info_memory [1; 2]%Z [junk WTS_SESSION_INFOW_t; junk WTS_SESSION_INFOW_t])) t
  | WTSQuerySessionInformationW session class =>
      if decide (class = info_class WTSSessionInfo)
      then give 1 (wtsinfow_memory (info_of (session_of session)) (junk WTSINFOW_t)) t
      else give 0 (client_address_memory (address_of (session_of session)) (junk WTS_CLIENT_ADDRESS_t)) t
  | WTSFreeMemory memory => (tt, freed memory t)
  | c => (win_refused c, t)
  end.
Definition wts_os : handler account := fun R c t =>
  match c in call R return R * account with
  | Win c => wts_os_step c t
  | c => (fst (snapshot (fun _ => Err (Os errno.ENOENT)) (fun _ => []) _ c tt), t)
  end.
Lemma given_new n t : given (new_block t) n t (mkAccount ({[new_block t]} ∪ blocks t) (described t + n) (astray t)).
Proof.
  assert (Hmax : forall x, In x (wts_info_place :: elements (blocks t)) -> (x < new_block t)%Z).
  { intros x Hx. pose proof (foldr_max _ _ _ Hx). unfold new_block. lia. }
  split_and!; [|pose proof (Hmax wts_info_place); cbn in *; intuition lia|done].
  intros Hin. apply elem_of_elements, list_elem_of_In in Hin. pose proof (Hmax _ (or_intror Hin)). lia.
Qed.
Lemma wts_os_steps {R} (c : win_call R) t : wts_step c (fst (wts_os_step c t)) t (snd (wts_os_step c t)).
Proof.
  destruct c; try done; cbn [wts_step wts_os_step]; repeat case_decide; (split; [apply given_new|]);
    cbn [give fst snd]; unfold info_of, address_of, session_of, holds_struct, holds_sessions; [|repeat case_match..];
    try (apply (bool_decide_unpack _); by vm_compute).
Qed.
#[export] Instance wts_os_account : Accounts wts_os id.
Proof. intros R c t. destruct c; try done. apply wts_os_steps. Qed.

Definition no_blocks : account := mkAccount ∅ 0 0.
Definition bob_user : WinUser := mkWinUser (lit "bob") (lit "bob") (Some (V4 [10; 0; 0; 7]%Z)).
Lemma wts_os_users :
  fst (exec wts_os win_users no_blocks) = Ok [Ok bob_user] /\
  described (snd (exec wts_os win_users no_blocks)) = 2.
Proof. split; by vm_compute. Qed.
Lemma win_users_memory_witness :
  described (snd (exec wts_os win_users no_blocks)) = 2 /\
  let t' := id (snd (exec wts_os win_users no_blocks)) in
  exists n lost, 1 <= n /\ lost ## blocks (id no_blocks) /\ size lost = n + 0 /\
    blocks t' = lost ∪ blocks (id no_blocks) /\
    described t' = described (id no_blocks) + n /\ astray t' = astray (id no_blocks) + n.
Proof.
  split; [apply wts_os_users|].
  apply (win_users_memory wts_os id no_blocks [Ok bob_user]); [apply wts_os_users|set_solver].
Defined.

Definition wts_answers : forall R, win_call R -> R := fun R c => fst (wts_os_step c (mkAccount ∅ 0 0)).
Lemma win_users_spec_witness :
  result_of (windows wts_answers) win_users tt = Ok [Ok bob_user].
Proof.
  refine (win_users_spec (windows wts_answers) tt (windows_steady _ _) 1 4097 [idle_session; bob_session]
    [junk WTS_SESSION_INFOW_t; junk WTS_SESSION_INFOW_t] _ _ _ _).
  - vm_compute. reflexivity.
  - lia.
  - repeat constructor; cbn; lia.
  - assert (Hsays : forall s, s = idle_session \/ s = bob_session -> says (windows wts_answers) tt s).
    { intros s Hs. split.
      - exists 1%Z, 4097%Z, (info_of s), (junk WTSINFOW_t). destruct Hs as [-> | ->]; split_and!; try done.
        1,3: apply (bool_decide_unpack _); by vm_compute.
        all: split; [apply (bool_decide_unpack _); by vm_compute|by eexists].
      - exists 1%Z, 4097%Z, (address_of s), (junk WTS_CLIENT_ADDRESS_t). destruct Hs as [-> | ->]; split_and!; try done.
        1,3: apply (bool_decide_unpack _); by vm_compute.
        + right. right. by left.
        + split_and!; [done..|by do 3 eexists]. }
    constructor; [apply Hsays; by left|]. constructor; [apply Hsays; by right|constructor].
Defined.
