(* ===== verification/WinCpu.v ===== *)
(** * heim-cpu on Windows: counts, statistics, times, frequencies

    heim-cpu/src/sys/windows.  The structures of bindings/ lie in memory as
    their [repr(C)] has it, least significant byte first; reading past the
    end of a buffer is undefined: [Panic]. *)

From S2P Require Import Prelude RustStr Layout RustFloat Units Errors WinCalls Sys Streams ProcFs Cpu Host.
From S2P Require Import WinCommon.

(** ** Numbers in memory *)

Definition large_integer_at {E} (offset : nat) (bytes : str) : res E LARGE_INTEGER :=
  low ← ulong_at offset bytes;
  high ← ulong_at (offset + 4) bytes;
  Ok (mkLargeInteger low (signed 32 high)).

(** ** bindings/winternl.rs, bindings/power.rs *)

Record SYSTEM_PROCESSOR_PERFORMANCE_INFORMATION := mkProcessorPerformance {
  IdleTime : LARGE_INTEGER;
  KernelTime : LARGE_INTEGER;
  UserTime : LARGE_INTEGER;
  DpcTime : LARGE_INTEGER;
  InterruptTime : LARGE_INTEGER;
  InterruptCount : Z;
}.
Definition processor_performance_at {E} (b : str) : res E SYSTEM_PROCESSOR_PERFORMANCE_INFORMATION :=
  idle ← large_integer_at 0 b;
  kernel ← large_integer_at 8 b;
  user ← large_integer_at 16 b;
  dpc ← large_integer_at 24 b;
  interrupt ← large_integer_at 32 b;
  count ← ulong_at 40 b;
  Ok (mkProcessorPerformance idle kernel user dpc interrupt count).

(** The two fields that are read, of 312 bytes. *)
Record SYSTEM_PERFORMANCE_INFORMATION := mkPerformance { ContextSwitches : Z; SystemCalls : Z }.
Definition performance_at {E} (b : str) : res E SYSTEM_PERFORMANCE_INFORMATION :=
  switches ← ulong_at 296 b;
  calls ← ulong_at 308 b;
  Ok (mkPerformance switches calls).

Record SYSTEM_INTERRUPT_INFORMATION := mkInterrupt {
  interrupt_ContextSwitches : Z;
  DpcCount : Z;
  DpcRate : Z;
  TimeIncrement : Z;
  DpcBypassCount : Z;
  ApcBypassCount : Z;
}.
Definition interrupt_at {E} (b : str) : res E SYSTEM_INTERRUPT_INFORMATION :=
  switches ← ulong_at 0 b;
  count ← ulong_at 4 b;
  rate ← ulong_at 8 b;
  increment ← ulong_at 12 b;
  dpc_bypass ← ulong_at 16 b;
  apc_bypass ← ulong_at 20 b;
  Ok (mkInterrupt switches count rate increment dpc_bypass apc_bypass).

Record PROCESSOR_POWER_INFORMATION := mkPowerInformation {
  Number : Z;
  MaxMhz : Z;
  CurrentMhz : Z;
  MhzLimit : Z;
  MaxIdleState : Z;
  CurrentIdleState : Z;
}.
Definition power_information_at {E} (b : str) : res E PROCESSOR_POWER_INFORMATION :=
  number ← ulong_at 0 b;
  max ← ulong_at 4 b;
  current ← ulong_at 8 b;
  limit ← ulong_at 12 b;
  max_idle ← ulong_at 16 b;
  current_idle ← ulong_at 20 b;
  Ok (mkPowerInformation number max current limit max_idle current_idle).

(** The trait [SystemInformation], with the size and the layout of the type. *)
Class SystemInformation (T : Type) := {
  class_ : Z;
  size_of : nat;
  read_at : str -> result T;
}.
#[export] Instance processor_performance_information : SystemInformation SYSTEM_PROCESSOR_PERFORMANCE_INFORMATION :=
  {| class_ := 8; size_of := 48; read_at := processor_performance_at |}.
#[export] Instance performance_information : SystemInformation SYSTEM_PERFORMANCE_INFORMATION :=
  {| class_ := 2; size_of := 312; read_at := performance_at |}.
#[export] Instance interrupt_information : SystemInformation SYSTEM_INTERRUPT_INFORMATION :=
  {| class_ := 23; size_of := 24; read_at := interrupt_at |}.

(** bindings/mod.rs *)
Definition get_system_info : io Error SYSTEM_INFO := ask (Win GetSystemInfo).

Definition no_processors : Error := with_message (from_io (Simple InvalidData)) (lit "No processors were found").

Definition query_system_information T `{SystemInformation T} : io Error (list T) :=
  info ← get_system_info;
  let proc_amount := dwNumberOfProcessors info in
  if (proc_amount =? 0)%Z then fails no_processors
  else
    let buffer_length := (proc_amount * Z.of_nat (size_of (T := T)))%Z in
    '(result, (info, _)) ← ask (Win (NtQuerySystemInformation (class_ (T := T)) (wrap 32 buffer_length)));
    if negb (result =? ntstatus.STATUS_SUCCESS)%Z then last_ffi_error id "NtQuerySystemInformation"
    else lift (structs_at (size_of (T := T)) read_at (Z.to_nat proc_amount) info).

(** ** stats.rs *)

Record WinCpuStats := mkWinCpuStats {
  win_ctx_switches : Z;
  win_interrupts : Z;
  dpc_count : Z;
  system_calls : Z;
}.
Definition win_stats_ctx_switches (s : WinCpuStats) : Z := win_ctx_switches s.
Definition win_stats_interrupts (s : WinCpuStats) : Z := win_interrupts s.
Definition win_stats_dpc (s : WinCpuStats) : Z := dpc_count s.
Definition win_stats_syscalls (s : WinCpuStats) : Z := system_calls s.

Definition system_performance_info : io Error (Z * Z) :=
  perf_info ← query_system_information SYSTEM_PERFORMANCE_INFORMATION;
  match perf_info with
  | sys_info :: _ => mret (ContextSwitches sys_info, SystemCalls sys_info)
  | [] => lift Panic
  end.

(** [fold(0u64, |acc, item| acc.overflowing_add(..).0)]. *)
Definition overflowing_sum {T} (count : T -> Z) (info : list T) : Z :=
  foldl (fun acc item => wrap 64 (acc + count item)) 0%Z info.

Definition get_dpc_count : io Error Z :=
  info ← query_system_information SYSTEM_INTERRUPT_INFORMATION;
  mret (overflowing_sum DpcCount info).
Definition get_interrupts : io Error Z :=
  info ← query_system_information SYSTEM_PROCESSOR_PERFORMANCE_INFORMATION;
  mret (overflowing_sum InterruptCount info).

Definition win_stats : io Error WinCpuStats :=
  '(ctx_switches, system_calls) ← system_performance_info;
  dpc ← get_dpc_count;
  interrupts ← get_interrupts;
  mret (mkWinCpuStats ctx_switches interrupts dpc system_calls).

(** ** times.rs *)

Record WinCpuTimes := mkWinCpuTimes { win_user_time : Time; win_system_time : Time; win_idle_time : Time }.
Definition win_times_user (t : WinCpuTimes) : Time := win_user_time t.
Definition win_times_system (t : WinCpuTimes) : Time := win_system_time t.
Definition win_times_idle (t : WinCpuTimes) : Time := win_idle_time t.

Section times.
Context `{Units}.

Definition win_time : io Error WinCpuTimes :=
  '(result, (idle, kernel, user)) ← ask (Win GetSystemTimes);
  if (result =? 0)%Z then last_ffi_error id "GetSystemTimes"
  else
    let user := filetime_into_time user in
    let idle := filetime_into_time idle in
    let system := f64_sub (filetime_into_time kernel) idle in
    mret (mkWinCpuTimes user system idle).

Definition times_of (proc_info : SYSTEM_PROCESSOR_PERFORMANCE_INFORMATION) : WinCpuTimes :=
  let user := large_integer_into_time (UserTime proc_info) in
  let idle := large_integer_into_time (IdleTime proc_info) in
  let system := f64_sub (large_integer_into_time (KernelTime proc_info)) idle in
  mkWinCpuTimes user system idle.
Definition win_times : io Error (list (result WinCpuTimes)) :=
  processors ← query_system_information SYSTEM_PROCESSOR_PERFORMANCE_INFORMATION;
  mret (map (fun p => Ok (times_of p)) processors).

(** ** freq.rs *)

Definition win_freq_current (f : PROCESSOR_POWER_INFORMATION) : Frequency := frequency_megahertz (CurrentMhz f).
Definition win_max (f : PROCESSOR_POWER_INFORMATION) : option Frequency := Some (frequency_megahertz (MaxMhz f)).
Definition win_min (f : PROCESSOR_POWER_INFORMATION) : option Frequency := None.
End times.

Definition get_processors : io Error (list PROCESSOR_POWER_INFORMATION) :=
  info ← get_system_info;
  if (dwNumberOfProcessors info =? 0)%Z then fails no_processors
  else
    let proc_amount := dwNumberOfProcessors info in
    let buffer_length := (proc_amount * 24)%Z in
    '(result, processors) ← ask (Win (CallNtPowerInformation (wrap 32 buffer_length)));
    if (result =? ntstatus.STATUS_SUCCESS)%Z
    then lift (structs_at 24 power_information_at (Z.to_nat proc_amount) processors)
    else last_ffi_error id "CallNtPowerInformation".

Definition win_frequency : io Error PROCESSOR_POWER_INFORMATION :=
  processors ← get_processors;
  match processors with
  | f :: _ => mret f
  | [] => fails no_processors
  end.

(** ** wrappers/count.rs *)

Definition RelationProcessorCore : Z := 0.

Section count.
Context `{Profile}.

Fixpoint logical_processors_loop (fuel : nat) (capacity buffer_size : Z) : io Error (option str) :=
  match fuel with
  | O => mret None
  | S k =>
      additional ← lift (sub_u64 buffer_size capacity);
      let capacity := vec_reserve 1 0 capacity additional in
      '(result, (buffer, buffer_size)) ←
        ask (Win (GetLogicalProcessorInformationEx (Some capacity) buffer_size));
      if (result =? 0)%Z then
        e ← ask GetErrno;
        if (e =? winerror.ERROR_INSUFFICIENT_BUFFER)%Z
        then logical_processors_loop k capacity buffer_size
        else fails (with_ffi (last_os_error e) (lit "GetLogicalProcessorInformationEx"))
      else mret (Some (take (Z.to_nat buffer_size) buffer))
  end.
Definition logical_processors_get (fuel : nat) : io Error (option str) :=
  '(result, (_, buffer_size)) ← ask (Win (GetLogicalProcessorInformationEx None 0));
  if overflow_checks && negb (result =? 0)%Z then lift Panic
  else logical_processors_loop fuel 0 buffer_size.

(** The fields [Relationship] and [Size] of an item. *)
Definition logical_next {E} (data : str) (offset : nat) : res E (option ((Z * Z) * nat)) :=
  if bool_decide (length data <= offset) then Ok None
  else
    relationship ← ulong_at offset data;
    size ← ulong_at (offset + 4) data;
    Ok (Some ((relationship, size), offset + Z.to_nat size)).
Fixpoint logical_items {E} (fuel : nat) (data : str) (offset : nat) : res E (option (list (Z * Z))) :=
  match fuel with
  | O => Ok None
  | S k =>
      item ← logical_next data offset;
      match item with
      | None => Ok (Some [])
      | Some (p, offset) => items ← logical_items k data offset; Ok (fmap (M := option) (cons p) items)
      end
  end.

(** ** count.rs *)

Definition win_physical_count (fuel : nat) : io Error (option (option Z)) :=
  processors ← logical_processors_get fuel;
  match processors with
  | None => mret None
  | Some buffer =>
      items ← lift (logical_items fuel buffer 0);
      mret ((fun items =>
        let count := length (List.filter (fun p => fst p =? RelationProcessorCore)%Z items) in
        if bool_decide (0 < count) then Some (Z.of_nat count) else None) <$> items)
  end.

Definition win_logical_count : io Error Z :=
  result ← ask (Win GetActiveProcessorCount);
  if (0 <? result)%Z then mret result else last_ffi_error id "GetActiveProcessorCount".
End count.
