(* ===== verification/WinMemory.v ===== *)
(** * heim-memory on Windows: heim-memory/src/sys/windows/mod.rs

    [Memory] and [Swap] are both the status that the system fills in. *)

From S2P Require Import Prelude RustStr RustFloat Units Errors WinCalls Sys WinCommon.

Section memory.
Context `{Profile, Units}.

Definition memory_status : io Error MEMORYSTATUSEX :=
  '(result, mem_status) ← ask (Win GlobalMemoryStatusEx);
  if (result =? 0)%Z then last_error id else mret mem_status.
Definition win_memory_get : io Error MEMORYSTATUSEX := memory_status.
Definition win_swap : io Error MEMORYSTATUSEX := memory_status.

Definition win_mem_total (m : MEMORYSTATUSEX) : Information := information_byte (ullTotalPhys m).
Definition win_mem_available (m : MEMORYSTATUSEX) : Information := information_byte (ullAvailPhys m).
Definition win_mem_free (m : MEMORYSTATUSEX) : Information := win_mem_available m.

Definition win_swap_total {E} (s : MEMORYSTATUSEX) : res E Information :=
  v ← sub_u64 (ullTotalPageFile s) (ullTotalPhys s); Ok (information_byte v).
Definition win_swap_free {E} (s : MEMORYSTATUSEX) : res E Information :=
  v ← sub_u64 (ullAvailPageFile s) (ullAvailPhys s);
  total ← win_swap_total s;
  Ok (Z.min (information_byte v) total).
Definition win_swap_used {E} (s : MEMORYSTATUSEX) : res E Information :=
  total ← win_swap_total s;
  free ← win_swap_free s;
  sub_u64 total free.
End memory.
