(* ===== verification/Virt.v ===== *)
(** * heim-virt: which virtualization system the process runs in

    heim-virt/src/lib.rs and heim-virt/src/sys/linux.  A probe is a program
    whose error carries nothing. *)

From S2P Require Import Prelude RustStr RustFloat Units Errors Sys Streams ProcFs Cpu.

(** ** lib.rs *)

Inductive Virtualization :=
| Kvm | Qemu | Bochs | Xen | Uml | Vmware | Oracle | HyperV | Bhyve | Parallels | Qnx | Acrn
| SystemdNspawn | LxcLibvirt | Lxc | OpenVz | Docker | Podman | Rkt | Wsl
| UnknownVirt.
#[export] Instance virtualization_dec : EqDecision Virtualization.
Proof. solve_decision. Defined.

Definition is_vm (v : Virtualization) : bool :=
  match v with
  | Kvm | Qemu | Bochs | Xen | Uml | Vmware | Oracle | HyperV | Bhyve | Qnx | Acrn => true
  | _ => false
  end.
Definition is_container (v : Virtualization) : bool :=
  match v with
  | SystemdNspawn | LxcLibvirt | Lxc | OpenVz | Docker | Podman | Rkt | Wsl => true
  | _ => false
  end.
Definition virt_as_str {E} (v : Virtualization) : res E str :=
  match v with
  | Kvm => Ok (lit "kvm")
  | Qemu => Ok (lit "qemu")
  | Bochs => Ok (lit "bochs")
  | Xen => Ok (lit "xen")
  | Uml => Ok (lit "uml")
  | Vmware => Ok (lit "vmware")
  | Oracle => Ok (lit "oracle")
  | HyperV => Ok (lit "hyperv")
  | Bhyve => Ok (lit "bhyve")
  | Qnx => Ok (lit "qnx")
  | Acrn => Ok (lit "acrn")
  | SystemdNspawn => Ok (lit "systemd-nspawn")
  | LxcLibvirt => Ok (lit "lxc-libvirt")
  | Lxc => Ok (lit "lxc")
  | OpenVz => Ok (lit "openvz")
  | Docker => Ok (lit "docker")
  | Podman => Ok (lit "podman")
  | Rkt => Ok (lit "rkt")
  | Wsl => Ok (lit "wsl")
  | UnknownVirt => Ok (lit "unknown")
  | _ => Panic
  end.

Definition probe : Type := io unit Virtualization.
Definition no_error (e : io_error) : unit := tt.

(** ** containers.rs *)

Definition try_guess_container {E} (value : str) : res E Virtualization :=
  if decide (value = lit "lxc") then Ok Lxc
  else if decide (value = lit "lxc-libvirt") then Ok LxcLibvirt
  else if decide (value = lit "systemd-nspawn") then Ok SystemdNspawn
  else if decide (value = lit "docker") then Ok Docker
  else if decide (value = lit "podman") then Ok Podman
  else if decide (value = lit "rkt") then Ok Rkt
  else if decide (value = lit "wsl") then Ok Wsl
  else Ok UnknownVirt.

Definition detect_wsl (p : path) : probe :=
  line ← read_first_line no_error p;
  if contains line (lit "Microsoft") then mret Wsl
  else if contains line (lit "WSL") then mret Wsl
  else fails tt.

Definition detect_systemd_container (p : path) : probe :=
  line ← read_first_line no_error p;
  lift (try_guess_container line).

Fixpoint cgroups_loop (ls : list (io_result str)) : res unit Virtualization :=
  match ls with
  | [] => Err tt
  | line :: ls' =>
      match line with
      | Ok l =>
          if contains l (lit "lxc") then Ok Lxc
          else if contains l (lit "docker") then Ok Docker
          else if contains l (lit "rkt") then Ok Rkt
          else cgroups_loop ls'
      | _ => cgroups_loop ls'
      end
  end.
Definition detect_cgroups (p : path) : probe :=
  ls ← read_lines no_error p;
  lift (cgroups_loop ls).

(** [futures::join!]: each future is one call; they are made in this order. *)
Definition detect_openvz `{Roots} : probe :=
  f1 ← ask (PathExists (proc_path (lit "vz")));
  f2 ← ask (PathExists (proc_path (lit "bc")));
  match f1 : bool, f2 : bool with
  | true, false => mret OpenVz
  | _, _ => fails tt
  end.

(** The closure of [filter_map]. *)
Definition init_env_var (var : str) : option Virtualization :=
  match split_on EQUALS var with
  | key :: parts =>
      if decide (key = lit "container") then
        match parts with
        | value :: _ => match try_guess_container (E := unit) value with Ok v => Some v | _ => None end
        | [] => None
        end
      else None
  | [] => None
  end.
Definition detect_init_env (p : path) : probe :=
  contents ← read_to_string no_error p;
  match omap init_env_var (split_on NUL contents) with
  | virt :: _ => mret virt
  | [] => fails tt
  end.

Definition detect_container `{Roots} : probe :=
  or_else (or_else (or_else (or_else (or_else (fails tt)
    (fun _ => detect_openvz))
    (fun _ => detect_wsl (proc_path (lit "sys/kernel/osrelease"))))
    (fun _ => detect_systemd_container (lit "/run/systemd/container")))
    (fun _ => detect_init_env (lit "/proc/1/environ")))
    (fun _ => detect_cgroups (lit "/proc/self/cgroup")).

(** ** The target, which selects the probes at compile time *)

Inductive target_arch := TX86 | TX86_64 | TArm | TAarch64 | TPowerpc | TPowerpc64 | TOther.
Class Target := target : target_arch.

(** ** dmi.rs *)

(** The arms of the match, in its order. *)
Definition dmi_vendors : list (str * Virtualization) :=
  [(lit "KVM", Kvm); (lit "QEMU", Qemu); (lit "VMware", Vmware); (lit "VMW", Vmware);
   (lit "innotek GmbH", Oracle); (lit "Xen", Xen); (lit "Bochs", Bochs);
   (lit "Parallels", Parallels); (lit "BHYVE", Bhyve)].
Fixpoint dmi_match (line : str) (arms : list (str * Virtualization)) : option Virtualization :=
  match arms with
  | [] => None
  | (prefix, v) :: arms' => if starts_with line prefix then Some v else dmi_match line arms'
  end.

Fixpoint dmi_loop (files : list path) : probe :=
  match files with
  | [] => fails tt
  | filename :: files' =>
      line ← attempt (read_first_line no_error filename);
      match line with
      | inr line => match dmi_match line dmi_vendors with
                    | Some v => mret v
                    | None => dmi_loop files'
                    end
      | inl _ => dmi_loop files'
      end
  end.
Definition dmi_files `{Roots} : list path :=
  [path_join sysfs_root (lit "class/dmi/id/product_name");
   path_join sysfs_root (lit "class/dmi/id/sys_vendor");
   path_join sysfs_root (lit "class/dmi/id/board_vendor");
   path_join sysfs_root (lit "class/dmi/id/bios_vendor")].
Definition detect_vm_dmi `{Roots, Target} : probe :=
  match target with
  | TX86 | TX86_64 | TArm | TAarch64 => dmi_loop dmi_files
  | _ => fails tt
  end.

(** ** cpuid.rs *)

(** The crate raw_cpuid: [get_hypervisor_info] and [identify]. *)
Inductive Hypervisor :=
| HXen | HVMware | HHyperV | HKVM
| HUnknown (b c d : Z).
Class CpuId := get_hypervisor : option Hypervisor.

Definition detect_vm_cpuid `{CpuId, Target} : res unit Virtualization :=
  match target with
  | TX86 | TX86_64 =>
      match get_hypervisor with
      | None => Err tt
      | Some HXen => Ok Xen
      | Some HHyperV => Ok HyperV
      | Some HKVM => Ok Kvm
      | Some HVMware => Ok Vmware
      | Some (HUnknown b c d) =>
          if decide (b = 0x54474354 /\ c = 0x43544743 /\ d = 0x47435447)%Z then Ok Qemu
          else if decide (b = 0x76796862 /\ c = 0x68622065 /\ d = 0x20657679)%Z then Ok Bhyve
          else if decide (b = 0x51584e51 /\ c = 0x53424d56 /\ d = 0x00004751)%Z then Ok Qnx
          else if decide (b = 0x4e524341 /\ c = 0x4e524341 /\ d = 0x4e524341)%Z then Ok Acrn
          else Err tt
      end
  | _ => Err tt
  end.

(** ** device_tree.rs *)

Definition DEVICE_TREE_ROOT : path := lit "/proc/device-tree".
Definition HYPERVISOR_COMPAT_PATH : path := lit "/proc/device-tree/hypervisor/compatible".

Definition hypervisor (p : path) : probe :=
  line ← read_first_line no_error p;
  if decide (line = lit "linux,kvm") then mret Kvm
  else if contains line (lit "xen") then mret Xen
  else mret UnknownVirt.

Fixpoint device_tree_loop (entries : list (io_result dir_entry)) : res unit Virtualization :=
  match entries with
  | [] => Err tt
  | entry :: entries' =>
      e ← map_err no_error entry;
      if from_utf8 (file_name e) && contains (file_name e) (lit "fw-cfg") then Ok Qemu
      else device_tree_loop entries'
  end.
Definition device_tree (p : path) : probe :=
  entries ← io_map_err no_error (os (ReadDir p));
  lift (device_tree_loop entries).

Definition detect_vm_device_tree `{Target} : probe :=
  match target with
  | TArm | TAarch64 | TPowerpc | TPowerpc64 =>
      or_else (hypervisor HYPERVISOR_COMPAT_PATH) (fun _ => device_tree DEVICE_TREE_ROOT)
  | _ => fails tt
  end.

(** ** mod.rs *)

(** [map(|res| res.ok())]: a panic is not caught. *)
Definition detect `{Roots, Target, CpuId} {E} : io E (option Virtualization) :=
  r ← attempt (or_else (or_else (or_else (or_else (fails tt)
    (fun _ => detect_container))
    (fun _ => detect_vm_dmi))
    (fun _ => lift detect_vm_cpuid))
    (fun _ => detect_vm_device_tree));
  mret match r with inr v => Some v | inl _ => None end.

(** ** sys/macos/mod.rs, sys/windows/mod.rs: stubs *)

Definition mac_detect {E} : io E (option Virtualization) := mret None.
Definition win_detect {E} : io E (option Virtualization) := mret None.

(** ** lib.rs: the public function, over the back ends *)
Class VirtBackend := sys_detect : prog (res Empty_set (option Virtualization)).
Definition linux_virt `{Roots, Target, CpuId} : VirtBackend := detect.
Definition mac_virt : VirtBackend := mac_detect.
Definition windows_virt : VirtBackend := win_detect.
Definition api_detect `{VirtBackend} : io Empty_set (option Virtualization) := sys_detect.
