(* ===== verification/VirtSpec.v ===== *)
(** * heim-virt: the order of the probes and what they answer *)

From S2P Require Import Prelude RustStr RustFloat Units Errors Sys Streams ProcFs Cpu Virt.

(** The first probe that succeeds; a panic ends the search. *)
Fixpoint first_ok (rs : list (res unit Virtualization)) : res unit (option Virtualization) :=
  match rs with
  | [] => Ok None
  | Ok v :: _ => Ok (Some v)
  | Err _ :: rs' => first_ok rs'
  | Panic :: _ => Panic
  end.

Section detect.
Context `{Roots, Target, CpuId}.
Context {W : Type} (h : handler W) (w : W).
Hypothesis Hsteady : steady h w.

Definition probes : list (res unit Virtualization) :=
  [result_of h detect_openvz w;
   result_of h (detect_wsl (proc_path (lit "sys/kernel/osrelease"))) w;
   result_of h (detect_systemd_container (lit "/run/systemd/container")) w;
   result_of h (detect_init_env (lit "/proc/1/environ")) w;
   result_of h (detect_cgroups (lit "/proc/self/cgroup")) w;
   result_of h detect_vm_dmi w;
   detect_vm_cpuid;
   result_of h detect_vm_device_tree w].

(** [detect] is the first probe that recognises something, in this
    order: OpenVZ, WSL, the systemd file, the environment of init, the
    cgroups, then DMI, CPUID and the device tree; a container is preferred
    to the machine it runs in, and no later probe overrides an earlier. *)
Theorem detect_first : result_of h (detect (E := unit)) w = first_ok probes.
Proof.
  unfold detect, detect_container, probes. run.
  generalize (result_of h detect_openvz w), (result_of h (detect_wsl (proc_path (lit "sys/kernel/osrelease"))) w),
    (result_of h (detect_systemd_container (lit "/run/systemd/container")) w),
    (result_of h (detect_init_env (lit "/proc/1/environ")) w),
    (result_of h (detect_cgroups (lit "/proc/self/cgroup")) w), (result_of h detect_vm_dmi w),
    detect_vm_cpuid, (result_of h detect_vm_device_tree w).
  intros r1 r2 r3 r4 r5 r6 r7 r8. cbn [first_ok].
  destruct r1; try done. destruct r2; try done. destruct r3; try done. destruct r4; try done.
  destruct r5; try done. destruct r6; try done. destruct r7; try done. by destruct r8.
Qed.

Lemma read_first_line_result {E} (from : io_error -> E) p ls :
  fst (h _ (ReadLines p) w) = ls ->
  result_of h (read_first_line from p) w =
  match ls with
  | Ok (Ok l :: _) => Ok l
  | Ok (Err e :: _) => Err (from e)
  | Ok (Panic :: _) => Panic
  | Ok [] => Err (from (Simple InvalidData))
  | Err e => Err (from e)
  | Panic => Panic
  end.
Proof. intros Hl. unfold read_first_line, read_lines. run. rewrite Hl. by destruct ls. Qed.

(** What a DMI file says: its first line, when it can be read. *)
Definition dmi_says (p : path) : option Virtualization :=
  match fst (h _ (ReadLines p) w) with
  | Ok (Ok l :: _) => dmi_match l dmi_vendors
  | _ => None
  end.

Lemma dmi_loop_result files :
  Forall (fun p => match fst (h _ (ReadLines p) w) with Ok (Panic :: _) | Panic => False | _ => True end) files ->
  result_of h (dmi_loop files) w = ok_or tt (head (omap dmi_says files)).
Proof.
  induction 1 as [|p files Hp Hfiles IH]; [done|]. cbn [dmi_loop omap list_omap]. run.
  rewrite (read_first_line_result _ _ _ eq_refl). unfold dmi_says at 1.
  destruct (fst (h _ (ReadLines p) w)) as [[|[l|e|] ls]|e|]; try done; cbn [mbind res_bind].
  destruct (dmi_match l dmi_vendors); [done|]. apply IH.
Qed.
End detect.

(** The classes of virtualization: a system is a machine or a container,
    never both; the two that are neither are [Unknown] and Parallels, and of
    all systems only Parallels has no name: asking for it panics. *)
Theorem virtualization_classes v :
  negb (is_vm v && is_container v) = true /\
  (is_vm v = false /\ is_container v = false <-> v = UnknownVirt \/ v = Parallels) /\
  (virt_as_str (E := Error) v = Panic <-> v = Parallels) /\
  (forall v', virt_as_str (E := Error) v = virt_as_str v' -> v = v').
Proof.
  split_and!; [by destruct v|destruct v; naive_solver|destruct v; naive_solver|].
  intros v' Hv. destruct v, v'; first [reflexivity | exfalso; revert Hv; vm_compute; discriminate].
Qed.

(** DMI: of the four files, in their order, the first one whose first
    line begins with the name of a known vendor decides; files that cannot be
    read are passed over.  A vendor that begins with [Parallels] makes
    [detect] answer [Parallels] when no container is found. *)
Theorem detect_dmi_spec `{Roots} {W} (h : handler W) w :
  steady h w ->
  Forall (fun p => match fst (h _ (ReadLines p) w) with Ok (Panic :: _) | Panic => False | _ => True end) dmi_files ->
  result_of h (@detect_vm_dmi _ TX86_64) w = ok_or tt (head (omap (dmi_says h w) dmi_files)) /\
  (forall `{CpuId} rest ls, result_of h detect_container w = Err tt ->
     fst (h _ (ReadLines (path_join sysfs_root (lit "class/dmi/id/product_name"))) w)
       = Ok (Ok (lit "Parallels" ++ rest) :: ls) ->
     result_of h (@detect _ TX86_64 _ unit) w = Ok (Some Parallels)).
Proof.
  intros Hst Hp. pose proof (dmi_loop_result h w Hst dmi_files Hp) as Hd. split; [exact Hd|].
  intros cpu rest ls Hc Hf. unfold detect. run. rewrite Hc. unfold detect_vm_dmi.
  cbn [target]. change (@target TX86_64) with TX86_64. rewrite Hd.
  cbn [dmi_files omap list_omap]. unfold dmi_says at 1. rewrite Hf.
  assert (dmi_match (lit "Parallels" ++ rest) dmi_vendors = Some Parallels) as -> by reflexivity.
  done.
Qed.

Definition parallels_files (p : path) : io_result str :=
  if decide (p = lit "/sys/class/dmi/id/product_name") then Ok (lit "Parallels Virtual Platform" ++ [LF])
  else Err (Os errno.ENOENT).
Lemma detect_dmi_spec_witness :
  result_of (snapshot parallels_files (fun _ => [])) (@detect default_roots TX86_64 None unit) tt
  = Ok (Some Parallels).
Proof.
  refine (proj2 (@detect_dmi_spec default_roots unit (snapshot parallels_files (fun _ => [])) tt
    (snapshot_steady _ _ tt) _) None (lit " Virtual Platform") [] _ _);
    [repeat constructor|vm_compute; reflexivity..].
Defined.

Lemma detect_first_witness :
  result_of (snapshot (fun _ => Err (Os 2)) (fun _ => [])) (@detect default_roots TX86_64 None unit) tt = Ok None.
Proof. exact (@detect_first default_roots TX86_64 None unit _ tt (snapshot_steady _ _ tt)). Defined.
