(* ===== verification/Derive.v ===== *)
(** * The macros: [heim-derive/src/] and [heim-common/src/macros.rs]

    An attribute macro is a function from two token streams, its arguments and
    the item that it stands before, to the token stream that takes the place
    of the item.  The macros are modelled as these functions, with the texts of
    [quote!] as they are.  The parser [syn] is a parameter. *)

From S2P Require Import Prelude RustStr.

(** ** Token streams

    A token is an identifier, a keyword or an operator, all kept as their
    text, a string literal, or a group with its brackets. *)
Inductive delim := Paren | Brace | Bracket.
Inductive token :=
| Word (s : string)
| StrLit (s : string)
| Group (d : delim) (ts : list token).
Definition tokens : Type := list token.

Definition paren (ts : tokens) : token := Group Paren ts.
Definition brace (ts : tokens) : token := Group Brace ts.
Definition bracket (ts : tokens) : token := Group Bracket ts.

(** The words of a text that are separated by blanks, as tokens. *)
Fixpoint words_from (word : string) (text : string) : tokens :=
  match text with
  | EmptyString => if decide (word = EmptyString) then [] else [Word word]
  | String c rest =>
      if decide (c = " "%char) then (if decide (word = EmptyString) then [] else [Word word]) ++ words_from EmptyString rest
      else words_from (String.append word (String c EmptyString)) rest
  end.
Definition words (text : string) : tokens := words_from EmptyString text.

(** ** Functions, as [syn] gives them *)

Record Signature := mkSignature {
  constness : bool;
  asyncness : bool;
  unsafety : bool;
  abi : tokens;
  ident : string;
  generics : tokens;
  inputs : tokens;
  output : tokens;
}.
Record ItemFn := mkItemFn {
  attrs : list tokens;
  vis : tokens;
  sig : Signature;
  block : tokens;
}.

(** A keyword that may be there. *)
Definition keyword (text : string) (there : bool) : tokens := if there then [Word text] else [].

(** The grammar of a function: the qualifiers stand in this order. *)
Definition signature_tokens (s : Signature) : tokens :=
  keyword "const" (constness s) ++ keyword "async" (asyncness s) ++ keyword "unsafe" (unsafety s)
  ++ abi s ++ [Word "fn"; Word (ident s)] ++ generics s ++ [paren (inputs s)] ++ output s.
Definition item_tokens (f : ItemFn) : tokens :=
  concat (attrs f) ++ vis f ++ signature_tokens (sig f) ++ [brace (block f)].

(** [syn::parse] for a function: the error is what [to_compile_error] makes of
    it. *)
Class Syn := parse_item_fn : tokens -> res tokens ItemFn.

(** What a macro gives: tokens, or a panic that stops the compiler. *)
Definition expansion : Type := res Empty_set tokens.

(** [syn::parse_macro_input!]: the error takes the place of the item. *)
Definition parse_macro_input `{Syn} (item : tokens) (body : ItemFn -> expansion) : expansion :=
  match parse_item_fn item with
  | Ok input => body input
  | Err e => Ok e
  | Panic => Panic
  end.
Definition compile_error (message : string) : tokens := words "compile_error !" ++ [paren [StrLit message]; Word ";"].
Definition async_missing : tokens := compile_error "the async keyword is missing from the function declaration".

Section macros.
Context `{Syn}.

(** ** ci.rs *)

(** The body that asks for the variables of CI systems first. *)
Definition skip_ci_body (cfg : tokens) (ident_repr : string) (body : token) : tokens :=
  words "let in_ci = :: std :: env :: vars" ++ [paren []] ++ words ". any"
  ++ [paren ([Word "|"; paren (words "key , _"); Word "|"]
        ++ [brace (words "match key . as_str" ++ [paren []]
              ++ [brace ([StrLit "TF_BUILD"] ++ words "=> true ,"
                    ++ [StrLit "GITHUB_ACTIONS"] ++ words "=> true ,"
                    ++ words "_ => false")])])]
  ++ [Word ";"]
  ++ words "if cfg !" ++ [paren cfg] ++ words "&& in_ci"
  ++ [brace (words "eprintln !"
        ++ [paren ([StrLit "test {} ... will be ignored because of CI environment"; Word ","; StrLit ident_repr]);
            Word ";"])]
  ++ words "else" ++ [brace [body]].

Definition skip_ci (attr item : tokens) : expansion :=
  match parse_item_fn item with
  | Ok func =>
      let cfg := attr in
      let ident_repr := ident (sig func) in
      Ok (concat (attrs func)
          ++ vis func ++ keyword "const" (constness (sig func)) ++ keyword "unsafe" (unsafety (sig func))
          ++ keyword "async" (asyncness (sig func)) ++ abi (sig func)
          ++ [Word "fn"; Word (ident (sig func)); paren []]
          ++ [brace (skip_ci_body cfg ident_repr (brace (block func)))])
  | Err _ | Panic => Panic
  end.

(** ** dev.rs *)

Definition main (_attr item : tokens) : expansion :=
  parse_macro_input item (fun input =>
    let ret := output (sig input) in
    let name := ident (sig input) in
    let body := brace (block input) in
    if decide (name <> "main"%string) then
      Ok (compile_error "only the main function can be tagged with #[heim_derive::main]")
    else if negb (asyncness (sig input)) then Ok async_missing
    else
      Ok (words "fn main" ++ [paren []] ++ ret
          ++ [brace (concat (attrs input)
                ++ words "async fn main" ++ [paren []] ++ ret ++ [brace [body]]
                ++ words "smol :: block_on"
                ++ [paren (words "async" ++ [brace (words "main" ++ [paren []] ++ words ". await")])])])).

(** The body of a test, and of a benchmark that runs on smol. *)
Definition smol_block_on (body : token) : tokens :=
  words "smol :: block_on" ++ [paren (words "async" ++ [brace [body]])].

Definition test (_attr item : tokens) : expansion :=
  parse_macro_input item (fun input =>
    let ret := output (sig input) in
    let name := ident (sig input) in
    let body := brace (block input) in
    if negb (asyncness (sig input)) then Ok async_missing
    else
      Ok ([Word "#"; bracket (words "test")] ++ concat (attrs input)
          ++ [Word "fn"; Word name; paren []] ++ ret
          ++ [brace (smol_block_on body)])).

Definition bench (_attr item : tokens) : expansion :=
  parse_macro_input item (fun input =>
    let name := ident (sig input) in
    let ret := output (sig input) in
    let body := brace (block input) in
    let feature (f : string) := [Word "#"; bracket (words "cfg" ++ [paren (words "feature =" ++ [StrLit f])])] in
    let iter (run : tokens) := words "b . iter" ++ [paren (words "||" ++ [brace run]); Word ";"] in
    if negb (asyncness (sig input)) then Ok async_missing
    else
      Ok ([Word "#"; bracket (words "bench")] ++ concat (attrs input)
          ++ [Word "fn"; Word name; paren (words "b : & mut test :: Bencher")] ++ ret
          ++ [brace (words "cfg_if :: cfg_if !"
                ++ [brace (words "if" ++ feature "runtime-tokio"
                      ++ [brace (words "let mut rt = tokio :: runtime :: Builder :: new" ++ [paren []]
                            ++ words ". threaded_scheduler" ++ [paren []] ++ words ". enable_all" ++ [paren []]
                            ++ words ". build" ++ [paren []] ++ words ". unwrap" ++ [paren []] ++ [Word ";"]
                            ++ iter (words "rt . block_on" ++ [paren (words "async" ++ [brace [body]]); Word ";"]))]
                      ++ words "else if" ++ feature "runtime-async-std"
                      ++ [brace (iter (words "async_std :: task :: block_on"
                            ++ [paren (words "async" ++ [brace [body]]); Word ";"]))]
                      ++ words "else" ++ [brace (iter (smol_block_on body ++ [Word ";"]))])])])).
End macros.

(** ** lib.rs: the macros by the names they are exported under *)
Inductive derive := SkipCi | Main | Test | Bench.
Definition derive_name (d : derive) : string :=
  match d with SkipCi => "skip_ci" | Main => "main" | Test => "test" | Bench => "bench" end.
Definition derive_macro `{Syn} (d : derive) (attr item : tokens) : expansion :=
  match d with
  | SkipCi => skip_ci attr item
  | Main => main attr item
  | Test => test attr item
  | Bench => bench attr item
  end.

(** ** heim-common/src/macros.rs

    [wrap!(type, inner)], and [wrap!(lifetime, type, inner)]: the conversions
    of a new type that hides the type of a platform. *)
Definition doc_hidden : tokens := [Word "#"; bracket (words "doc" ++ [paren (words "hidden")])].
Definition as_ref_impl (type inner : tokens) : tokens :=
  words "AsRef <" ++ inner ++ words "> for" ++ type
  ++ [brace (words "fn as_ref" ++ [paren (words "& self")] ++ words "-> &" ++ inner ++ [brace (words "& self . 0")])].
Definition from_impl (type inner : tokens) : tokens :=
  words "From <" ++ inner ++ words "> for" ++ type
  ++ [brace (words "fn from" ++ [paren (words "inner :" ++ inner)] ++ words "->" ++ type
        ++ [brace (type ++ [paren (words "inner")])])].
Definition wrap (type inner : tokens) : tokens :=
  doc_hidden ++ words "impl" ++ as_ref_impl type inner ++ doc_hidden ++ words "impl" ++ from_impl type inner.
Definition wrap_lifetime (lifetime : token) (type inner : tokens) : tokens :=
  doc_hidden ++ words "impl <" ++ [lifetime; Word ">"] ++ as_ref_impl type inner
  ++ doc_hidden ++ words "impl <" ++ [lifetime; Word ">"] ++ from_impl type inner.
