(* ===== verification/DeriveSpec.v ===== *)
(** * What the attribute macros make of a function

    The compiler applies the attribute macros of an item one after the other,
    the first one first, each to the item with the other attributes left on it.
    A test that is tagged with both [skip_ci] and [test] becomes a plain
    function, whichever of them stands first. *)

From S2P Require Import Prelude RustStr Derive.

(** ** What is relied on of [syn]

    Some token streams are statements, and some are return types.  A function
    made of such parts, with attributes in brackets, is parsed from its tokens;
    and what stands in a block may stand in the blocks that the macros put
    around it. *)

Record plain (valid_type valid_body : tokens -> Prop) (f : ItemFn) : Prop := {
  plain_attrs : Forall (fun a => exists ts, a = [Word "#"; bracket ts]) (attrs f);
  plain_vis : vis f = [] \/ vis f = [Word "pub"];
  plain_abi : abi (sig f) = [];
  plain_generics : generics (sig f) = [];
  plain_inputs : inputs (sig f) = [];
  plain_output : valid_type (output (sig f));
  plain_block : valid_body (block f);
}.

Class SynLaws `{Syn} := {
  valid_type : tokens -> Prop;
  valid_body : tokens -> Prop;
  no_type_valid : valid_type [];
  smol_valid b : valid_body b -> valid_body (smol_block_on (brace b));
  skip_ci_valid cfg name b : valid_body b -> valid_body (skip_ci_body cfg name (brace b));
  parse_printed f : plain valid_type valid_body f -> parse_item_fn (item_tokens f) = Ok f;
}.

(** ** The expansion of an item *)

Definition derive_attr (d : derive) (args : option tokens) : tokens :=
  [Word "#"; bracket (words "heim_derive ::" ++ [Word (derive_name d)]
                      ++ match args with Some ts => [paren ts] | None => [] end)].
Definition derive_of_name (name : string) : option derive :=
  list_find (fun d => derive_name d = name) [SkipCi; Main; Test; Bench] ≫= fun '(_, d) => Some d.
Definition as_derive (a : tokens) : option (derive * tokens) :=
  match a with
  | [Word h; Group Bracket (Word c :: Word s :: Word name :: args)] =>
      if decide (h = "#"%string /\ c = "heim_derive"%string /\ s = "::"%string) then
        d ← derive_of_name name;
        match args with
        | [] => Some (d, [])
        | [Group Paren ts] => Some (d, ts)
        | _ => None
        end
      else None
  | _ => None
  end.
(** The first macro among the attributes, its arguments and the attributes
    without it. *)
Fixpoint next_macro (l : list tokens) : option (derive * tokens * list tokens) :=
  match l with
  | [] => None
  | a :: l =>
      match as_derive a with
      | Some (d, args) => Some (d, args, l)
      | None => '(d, args, l') ← next_macro l; Some (d, args, a :: l')
      end
  end.

Definition with_attrs (f : ItemFn) (l : list tokens) : ItemFn := mkItemFn l (vis f) (sig f) (block f).

(** [None] when [fuel] macros are not enough. *)
Fixpoint expand `{Syn} (fuel : nat) (item : tokens) : option expansion :=
  match fuel with
  | O => None
  | S k =>
      match parse_item_fn item with
      | Ok f =>
          match next_macro (attrs f) with
          | None => Some (Ok item)
          | Some (d, args, rest) =>
              match derive_macro d args (item_tokens (with_attrs f rest)) with
              | Ok ts => expand k ts
              | r => Some r
              end
          end
      | _ => Some (Ok item)
      end
  end.

(** The functions that are left. *)
Definition plain_sig (name : string) (a : bool) (ret : tokens) : Signature := mkSignature false a false [] name [] [] ret.
Definition test_attr : tokens := [Word "#"; bracket (words "test")].
Definition tested (f : ItemFn) : ItemFn :=
  mkItemFn (test_attr :: attrs f) [] (plain_sig (ident (sig f)) false (output (sig f))) (smol_block_on (brace (block f))).
Definition skipped (cfg : tokens) (f : ItemFn) : ItemFn :=
  mkItemFn (attrs f) (vis f)
    (mkSignature (constness (sig f)) (asyncness (sig f)) (unsafety (sig f)) [] (ident (sig f)) [] [] [])
    (skip_ci_body cfg (ident (sig f)) (brace (block f))).

Section laws.
Context `{Hsyn : Syn} {L : @SynLaws Hsyn}.

Notation good := (plain valid_type valid_body).

Lemma tested_good f : good f -> good (tested f).
Proof.
  intros [Ha Hv ? ? ? Ho Hb]. split; [|by left|done|done|done|exact Ho|apply smol_valid, Hb].
  constructor; [by eexists|done].
Qed.
Lemma skipped_good cfg f : good f -> good (skipped cfg f).
Proof. intros [Ha Hv ? ? ? Ho Hb]. split; [done|done|done|done|done|apply no_type_valid|apply skip_ci_valid, Hb]. Qed.
Lemma with_attrs_good f l : Forall (fun a => exists ts, a = [Word "#"; bracket ts]) l -> good f -> good (with_attrs f l).
Proof. intros Hl []. by split. Qed.

Lemma test_expands f args :
  good f -> asyncness (sig f) = true -> test args (item_tokens f) = Ok (item_tokens (tested f)).
Proof.
  intros Hf Ha. unfold test, parse_macro_input. rewrite (parse_printed f Hf), Ha. done.
Qed.

Lemma skip_ci_expands f cfg :
  good f -> asyncness (sig f) && unsafety (sig f) = false ->
  skip_ci cfg (item_tokens f) = Ok (item_tokens (skipped cfg f)).
Proof.
  intros Hf Ha. unfold skip_ci. rewrite (parse_printed f Hf). destruct Hf as [_ _ Habi _ _ _ _].
  f_equal. unfold item_tokens, signature_tokens, skipped. cbn -[words skip_ci_body]. rewrite Habi.
  destruct (asyncness (sig f)), (unsafety (sig f)); cbn -[words skip_ci_body] in *; try done;
    by rewrite <- ?app_assoc.
Qed.

(** One macro of an expansion. *)
Lemma expand_step k f d args rest ts :
  good f -> next_macro (attrs f) = Some (d, args, rest) ->
  derive_macro d args (item_tokens (with_attrs f rest)) = Ok ts ->
  expand (S k) (item_tokens f) = expand k ts.
Proof. intros Hf Hn Hm. cbn [expand]. by rewrite (parse_printed f Hf), Hn, Hm. Qed.
Lemma expand_done k f :
  good f -> next_macro (attrs f) = None -> expand (S k) (item_tokens f) = Some (Ok (item_tokens f)).
Proof. intros Hf Hn. cbn [expand]. by rewrite (parse_printed f Hf), Hn. Qed.

Lemma derive_attr_shape d args : exists ts, derive_attr d args = [Word "#"; bracket ts].
Proof. by eexists. Qed.

(** The qualifiers of a function are in the order of the grammar. *)
Lemma unsafe_first_rejected g const c rest :
  good g -> Forall (fun a => exists ts, a = [Word "#"; bracket ts]) c ->
  item_tokens g <> concat c ++ keyword "const" const ++ [Word "unsafe"; Word "async"] ++ rest.
Proof.
  intros [Hattrs Hvis Habi _ _ _ _] Hc. unfold item_tokens, signature_tokens. rewrite Habi.
  revert Hattrs. generalize (attrs g). induction Hc as [|? c [ts ->] Hc IH]; intros l Hl Heq.
  2: destruct Hl as [|? l [ts' ->] Hl]; [|apply (IH l Hl); cbn in Heq; by injection Heq].
  1: destruct Hl as [|? l [ts' ->] Hl].
  all: destruct Hvis as [Hv|Hv]; rewrite Hv in Heq;
    destruct const, (constness (sig g)), (asyncness (sig g)), (unsafety (sig g)); cbn in Heq; congruence.
Qed.

(** A test function, tagged with [skip_ci] and with [test] in either order,
    becomes a plain function that the test harness runs: it has the name and
    the other attributes of the test, no parameters and no result, and it asks
    for the variables of CI before it runs the body - around the executor in
    one order, inside it in the other.  The result type is lost in both, so a
    test that returns a [Result] is not well-typed any more.  An unsafe test
    does not survive [skip_ci], which writes the qualifiers in an order that no
    function has; and an item that is no function makes [skip_ci] panic where
    the other macros report the error of the parser. *)
Theorem derive_tests cfg f :
  good f -> asyncness (sig f) = true -> next_macro (attrs f) = None -> vis f = [] ->
  let tagged l := item_tokens (with_attrs f (l ++ attrs f)) in
  let outer := skipped cfg (tested f) in
  let inner := tested (skipped cfg f) in
  (unsafety (sig f) = false ->
   expand 3 (tagged [derive_attr SkipCi (Some cfg); derive_attr Test None]) = Some (Ok (item_tokens inner)) /\
   expand 3 (tagged [derive_attr Test None; derive_attr SkipCi (Some cfg)]) = Some (Ok (item_tokens outer))) /\
  (forall g, g = outer \/ g = inner ->
   attrs g = test_attr :: attrs f /\ sig g = plain_sig (ident (sig f)) false []) /\
  block outer = skip_ci_body cfg (ident (sig f)) (brace (smol_block_on (brace (block f)))) /\
  block inner = smol_block_on (brace (skip_ci_body cfg (ident (sig f)) (brace (block f)))) /\
  (unsafety (sig f) = true ->
   exists ts, skip_ci cfg (item_tokens f) = Ok ts /\ forall g, good g -> ts <> item_tokens g) /\
  (forall item e, parse_item_fn item = Err e ->
   skip_ci cfg item = Panic /\ test [] item = Ok e /\ bench [] item = Ok e /\ main [] item = Ok e).
Proof.
  intros Hf Ha Hn Hv tagged outer inner.
  assert (Hwith : forall l, Forall (fun a => exists ts, a = [Word "#"; bracket ts]) l ->
    good (with_attrs f (l ++ attrs f))) by (intros l Hl; apply with_attrs_good; [|done];
    apply Forall_app; split; [done|apply Hf]).
  split_and!.
  - intros Hu. unfold tagged. split.
    + rewrite (expand_step _ _ SkipCi cfg (derive_attr Test None :: attrs f)
                 (item_tokens (skipped cfg (with_attrs f ([derive_attr Test None] ++ attrs f)))));
        [|by apply Hwith; repeat constructor; apply derive_attr_shape|done|].
      2: { apply skip_ci_expands; [by apply Hwith; repeat constructor; apply derive_attr_shape|cbn; by rewrite Ha, Hu]. }
      rewrite (expand_step _ _ Test [] (attrs f) (item_tokens inner)); [|by apply skipped_good, Hwith; repeat constructor; apply derive_attr_shape|done|].
      2: { apply (test_expands (skipped cfg f)); [by apply skipped_good|done]. }
      apply expand_done; [by apply tested_good, skipped_good|]. cbn. by rewrite Hn.
    + rewrite (expand_step _ _ Test [] (derive_attr SkipCi (Some cfg) :: attrs f)
                 (item_tokens (tested (with_attrs f ([derive_attr SkipCi (Some cfg)] ++ attrs f)))));
        [|by apply Hwith; repeat constructor; apply derive_attr_shape|done|].
      2: { apply test_expands; [by apply Hwith; repeat constructor; apply derive_attr_shape|done]. }
      rewrite (expand_step _ _ SkipCi cfg (test_attr :: attrs f) (item_tokens outer)); [|by apply tested_good, Hwith; repeat constructor; apply derive_attr_shape|done|].
      2: { apply (skip_ci_expands (tested f)); [by apply tested_good|done]. }
      apply expand_done; [by apply skipped_good, tested_good|]. cbn. by rewrite Hn.
  - intros g [->| ->]; done.
  - done.
  - done.
  - intros Hu. unfold skip_ci. rewrite (parse_printed f Hf). eexists. split; [done|]. intros g Hg Heq.
    rewrite Hv, Ha, Hu in Heq. cbn [app keyword] in Heq.
    by eapply (unsafe_first_rejected g _ (attrs f)); [done|apply Hf|rewrite <- Heq; cbn -[skip_ci_body]].
  - intros item e He. unfold skip_ci, test, bench, main, parse_macro_input. by rewrite He.
Qed.
End laws.

(** ** A parser with these laws *)

Module Sample.
Fixpoint take_attrs (ts : tokens) : list tokens * tokens :=
  match ts with
  | Word h :: Group Bracket a :: rest =>
      if String.eqb h "#" then let '(l, ts) := take_attrs rest in ([Word h; Group Bracket a] :: l, ts)
      else ([], ts)
  | _ => ([], ts)
  end.
Definition take_word (text : string) (ts : tokens) : bool * tokens :=
  match ts with
  | Word w :: rest => if String.eqb w text then (true, rest) else (false, ts)
  | _ => (false, ts)
  end.
Definition parser : Syn := fun ts =>
  let '(l, ts) := take_attrs ts in
  let '(public, ts) := take_word "pub" ts in
  let '(const, ts) := take_word "const" ts in
  let '(async, ts) := take_word "async" ts in
  let '(unsafe, ts) := take_word "unsafe" ts in
  match ts with
  | Word _ :: Word name :: Group Paren [] :: rest =>
      match rev rest with
      | Group Brace body :: ret =>
          Ok (mkItemFn l (keyword "pub" public) (mkSignature const async unsafe [] name [] [] (rev ret)) body)
      | _ => Err (compile_error "expected a block")
      end
  | _ => Err (compile_error "expected a function")
  end.

Lemma parser_printed f : plain (fun _ => True) (fun _ => True) f -> parser (item_tokens f) = Ok f.
Proof.
  destruct f as [l v [co asy un ab name ge inp out] body]. intros [Hl Hv Hab Hge Hin _ _]. cbn in Hl, Hv, Hab, Hge, Hin. subst.
  assert (Htake : take_attrs (item_tokens (mkItemFn l v (mkSignature co asy un [] name [] [] out) body))
    = (l, item_tokens (mkItemFn [] v (mkSignature co asy un [] name [] [] out) body))).
  { induction Hl as [|? l [ts ->] Hl IH].
    - destruct Hv as [-> | ->], co, asy, un; done.
    - unfold item_tokens in *. cbn [concat attrs app take_attrs bracket] in *.
      cbn -[signature_tokens] in IH |- *. by rewrite IH. }
  unfold parser. cbv beta.
  rewrite Htake.
  destruct Hv as [-> | ->], co, asy, un; cbn -[compile_error rev]; by rewrite rev_unit, rev_involutive.
Qed.

#[export] Instance parser_laws : SynLaws (H := parser).
Proof.
  refine {| valid_type := fun _ => True; valid_body := fun _ => True |}; try done.
  exact parser_printed.
Defined.

(** [async fn t() -> Result { go().await }] with an attribute of its own. *)
Definition t : ItemFn := mkItemFn [[Word "#"; bracket (words "allow")]] []
  (mkSignature false true false [] "t" [] [] (words "-> Result")) (words "go" ++ [paren []] ++ words ". await").
End Sample.

Lemma derive_tests_witness :
  asyncness (sig Sample.t) = true /\
  expand (H := Sample.parser) 3 (item_tokens (with_attrs Sample.t
    ([derive_attr Test None; derive_attr SkipCi (Some (words "windows"))] ++ attrs Sample.t)))
  = Some (Ok (item_tokens (skipped (words "windows") (tested Sample.t)))).
Proof.
  split; [reflexivity|].
  assert (Hf : plain (@valid_type Sample.parser Sample.parser_laws) (@valid_body Sample.parser Sample.parser_laws) Sample.t)
    by (split; repeat constructor; by eexists).
  apply (derive_tests (Hsyn := Sample.parser) (L := Sample.parser_laws) (words "windows") Sample.t Hf); reflexivity.
Defined.
