(* ===== verification/Sensors.v ===== *)
(** * heim-sensors on Linux: temperatures

    heim-sensors/src/sys/linux/temperatures.rs, over the streams of StreamIo:
    what it gives is a [ChooseChain] of the streams of both searches of hwmon
    and of the stream of the thermal zones. *)

From S2P Require Import Prelude RustStr RustFloat Units Errors Sys Streams StreamIo ProcFs Cpu.

Record TemperatureSensor := mkSensor {
  unit_name : str;
  label : option str;
  current : ThermodynamicTemperature;
  high : option ThermodynamicTemperature;
  critical : option ThermodynamicTemperature;
}.
Definition sensor_unit (s : TemperatureSensor) : str := unit_name s.
Definition sensor_label (s : TemperatureSensor) : option str := label s.
Definition sensor_current (s : TemperatureSensor) : ThermodynamicTemperature := current s.
Definition sensor_high (s : TemperatureSensor) : option ThermodynamicTemperature := high s.
Definition sensor_critical (s : TemperatureSensor) : option ThermodynamicTemperature := critical s.

(** Whose turn it is when several futures are awaited together: the [n]th
    join of the sensor at a path. *)
Class Schedule := schedule : path -> nat -> list bool.

(** [Path::parent] of a path that ends in a name. *)
Definition path_parent (p : path) : option path :=
  match rfind SLASH p with
  | Some O => Some [SLASH]
  | Some k => Some (take k p)
  | None => match p with [] => None | _ => Some [] end
  end.

(** [String::pop]: the last character goes. *)
Fixpoint pop_rev (r : str) : str :=
  match r with
  | [] => []
  | c :: r' => if is_continuation c then pop_rev r' else r'
  end.
Definition string_pop (s : str) : str := rev (pop_rev (rev s)).

(** The directory stream [read_dir(p).try_flatten_stream()]. *)
Definition dir_items (p : path) : strm (io_result dir_entry) :=
  strm_await (os (ReadDir p)) (fun r =>
    match r with Ok entries => strm_list entries | Err e => SItem (Err e) SEnd | Panic => SItem Panic SEnd end).
(** [try_filter(|entry| future::ready(..))]. *)
Definition filtered {E A} (p : A -> bool) (s : strm (res E A)) : strm (res E A) :=
  strm_try_filter (fun a => Ret (p a)) s.

Section temperatures.
Context `{Units, Roots, Schedule}.

Definition file_name_of (prefix postfix : str) : str := prefix ++ postfix.

Definition read_temperature (p : path) : io Error ThermodynamicTemperature :=
  contents ← read_to_string from_io p;
  value ← lift (map_err from_parse_float (parse_f32 (trim_end contents)));
  mret (degree_celsius (f32_div value (f32_of_int 1000))).

(** [map_ok(Some).or_else(|_e| future::ok(None))]. *)
Definition optional {A} (p : io Error A) : io Error (option A) :=
  or_else (Some <$> p) (fun _ => mret None).

(** [name.len() - suffix.len()] and the prefix up to there. *)
Definition cut_suffix (name suffix : str) : result str :=
  if bool_decide (length suffix <= length name)
  then Ok (take (length name - length suffix) name) else Panic.

Definition hwmon_sensor (input : path) : io Error TemperatureSensor :=
  root ← lift (expect (path_parent input));
  name ← lift (expect (path_file_name input));
  prefix ← lift (cut_suffix name (lit "input"));
  let unit_name := string_pop <$> read_to_string from_io (path_join root (lit "name")) in
  let label := optional (string_pop <$>
    read_to_string from_io (path_join root (file_name_of prefix (lit "label")))) in
  let high := optional (read_temperature (path_join root (file_name_of prefix (lit "max")))) in
  let critical := optional (read_temperature (path_join root (file_name_of prefix (lit "crit")))) in
  let current := read_temperature input in
  '(unit, (label, (current, (high, critical)))) ←
    try_join unit_name (try_join label (try_join current
      (try_join high critical (schedule input 3)) (schedule input 2)) (schedule input 1))
      (schedule input 0);
  mret (mkSensor unit label current high critical).

Definition is_hwmon (e : dir_entry) : bool := starts_with (file_name e) (lit "hwmon").
Definition is_input (e : dir_entry) : bool :=
  starts_with (file_name e) (lit "temp") && ends_with (file_name e) (lit "_input").

(** [rt::fs::read_dir(path)...try_filter(..)] of the inner directories. *)
Definition inputs_of (p : path) : strm (io_result dir_entry) := filtered is_input (dir_items p).

(** [map_err(Error::from).and_then(|entry| hwmon_sensor(entry.path()))]. *)
Definition sensors_of (entries : strm (io_result dir_entry)) : strm (result TemperatureSensor) :=
  strm_and_then (fun e => hwmon_sensor (entry_path e)) (strm_map (map_err from_io) entries).

Definition hwmon : strm (result TemperatureSensor) :=
  sensors_of (strm_try_flatten (fun e => inputs_of (entry_path e))
    (filtered is_hwmon (dir_items (path_join sysfs_root (lit "class/hwmon"))))).

Definition device_path (e : dir_entry) : path := path_join (entry_path e) (lit "device").

Definition hwmon_device : strm (result TemperatureSensor) :=
  sensors_of (strm_try_flatten (fun e => inputs_of (device_path e))
    (strm_try_filter (fun e => path_exists (device_path e))
      (filtered is_hwmon (dir_items (path_join sysfs_root (lit "class/hwmon")))))).

(** One step of the fold over the trip points. *)
Definition trip_point (acc : TemperatureSensor) (e : dir_entry) : io Error TemperatureSensor :=
  prefix ← lift (cut_suffix (file_name e) (lit "type"));
  let type_path := entry_path e in
  root ← lift (expect (path_parent type_path));
  let temp_path := path_join root (file_name_of prefix (lit "temp")) in
  content ← read_to_string from_io type_path;
  if decide (content = lit "critical" ++ [LF]) then
    temp ← read_temperature temp_path;
    mret (mkSensor (unit_name acc) (label acc) (current acc) (high acc) (Some temp))
  else if decide (content = lit "high" ++ [LF]) then
    temp ← read_temperature temp_path;
    mret (mkSensor (unit_name acc) (label acc) (current acc) (Some temp) (critical acc))
  else mret acc.

Definition is_trip_type (e : dir_entry) : bool :=
  starts_with (file_name e) (lit "trip_point_") && ends_with (file_name e) (lit "type").

(** The closures of the two [and_then] of a zone. *)
Definition zone_reading (e : dir_entry) : io Error (path * (ThermodynamicTemperature * str)) :=
  let root := entry_path e in
  let temperature := read_temperature (path_join root (lit "temp")) in
  let unit_name := string_pop <$> read_to_string from_io (path_join root (lit "type")) in
  pair root <$> try_join temperature unit_name (schedule root 0).
Definition zone_sensor (reading : path * (ThermodynamicTemperature * str)) : io Error TemperatureSensor :=
  let '(root, (temp, unit)) := reading in
  let sensor := mkSensor unit None temp None None in
  strm_try_fold trip_point sensor (strm_map (map_err from_io) (filtered is_trip_type (dir_items root))).

Definition is_zone (e : dir_entry) : bool := starts_with (file_name e) (lit "thermal_zone").

Definition thermal_zone : strm (result TemperatureSensor) :=
  strm_and_then zone_sensor (strm_and_then zone_reading
    (strm_map (map_err from_io) (filtered is_zone (dir_items (path_join sysfs_root (lit "class/thermal")))))).

(** The stream that is returned, before it is polled.  [turns] is the order in
    which the two streams of [stream::select] are ready. *)
Definition temperatures (turns : list bool) : ChooseChain.t (strm (result TemperatureSensor)) (strm (result TemperatureSensor)) :=
  ChooseChain.choose_chain (select hwmon hwmon_device turns) thermal_zone.
End temperatures.

(** ** sys/macos/temperatures.rs, sys/windows/temperatures.rs: stubs *)

Definition mac_temperatures : list (result TemperatureSensor) := [].
Definition win_temperatures : list (result TemperatureSensor) := [].

(** ** heim-sensors/src/temperatures.rs: the public function, over the back ends

    The items of its stream, for the task that polls it to the end; [None]: the
    fuel is used up. *)
Class SensorsBackend := sys_temperatures : prog (option (list (result TemperatureSensor))).
Definition linux_sensors `{Units, Roots, Schedule} (turns : list bool) (fuel : nat) : SensorsBackend :=
  drive_chain fuel (temperatures turns).
Definition mac_sensors : SensorsBackend := Ret (Some mac_temperatures).
Definition windows_sensors : SensorsBackend := Ret (Some win_temperatures).
Definition api_temperatures `{SensorsBackend} : prog (option (list (result TemperatureSensor))) := sys_temperatures.
