(* ===== verification/SensorsSpec.v ===== *)
(** * heim-sensors: which sensors are listed, and what they hold

    Over a system whose files do not change meanwhile: what the streams of
    hwmon and of the thermal zones give, and which of them the stream that is
    returned gives, whatever the order in which they are ready. *)

From S2P Require Import Prelude RustStr RustFloat Units Errors Sys Streams StreamIo ProcFs ProcFsSpec Cpu Sensors.

Section temperatures.
Context `{Units, Roots, Schedule}.
Context {W : Type} (h : handler W) (w : W).
Hypothesis Hsteady : steady h w.

(** The entries of a directory, and what is found in the directories of the
    monitors: a sensor for every input file, in the order of the directories. *)
Definition listing (p : path) : list (io_result dir_entry) :=
  match fst (h _ (ReadDir p) w) with Ok entries => entries | Err e => [Err e] | Panic => [Panic] end.
Definition sensor_of (r : io_result dir_entry) : result TemperatureSensor :=
  map_err from_io r ≫= fun e => result_of h (hwmon_sensor (entry_path e)) w.
Definition sensors_in (monitor : dir_entry -> bool) (directory : dir_entry -> path) : list (result TemperatureSensor) :=
  flat_map (fun r => match r with
                     | Ok e => map sensor_of (try_filter is_input (listing (directory e)))
                     | Err e => [Err (from_io e)]
                     | Panic => [Panic]
                     end) (try_filter monitor (listing (path_join sysfs_root (lit "class/hwmon")))).
Definition zones : list (result TemperatureSensor) :=
  map (fun r => map_err from_io r ≫= fun e => result_of h (zone_reading e) w ≫= fun reading => result_of h (zone_sensor reading) w)
    (try_filter is_zone (listing (path_join sysfs_root (lit "class/thermal")))).
Definition has_device (e : dir_entry) : bool := is_hwmon e && result_of h (path_exists (device_path e)) w.

(** The names of monitors, of input files and of zones. *)
Definition names_are (test : dir_entry -> bool) (name : str -> str) : Prop :=
  forall e, test e = true <-> exists rest, file_name e = name rest.
Definition selected_names : Prop :=
  names_are is_hwmon (fun n => lit "hwmon" ++ n) /\ names_are is_zone (fun n => lit "thermal_zone" ++ n) /\
  names_are is_input (fun n => lit "temp" ++ n ++ lit "_input").

Lemma selected_names_ok : selected_names.
Proof.
  split_and!; [intros e; apply starts_with_true..|]. intros e. unfold is_input.
  rewrite andb_true_iff, starts_with_true, ends_with_true. split.
  - intros [[a Ha] [b Hb]]. rewrite Ha in Hb |- *. unfold lit in Hb. cbn in Hb.
    destruct b as [|b1 [|b2 [|b3 [|b4 b]]]]; try discriminate. exists b. f_equal.
    cbn in Hb. by injection Hb.
  - intros [n ->]. split; [by eexists|]. exists (lit "temp" ++ n). by rewrite app_assoc.
Qed.

Lemma dir_items_listing p : items h w (dir_items p) = listing p.
Proof.
  unfold dir_items, listing. rewrite (items_await _ _ Hsteady), result_os by done.
  destruct (fst _); [apply items_list|done..].
Qed.
Lemma filtered_items {E A} (p : A -> bool) (s : strm (res E A)) : items h w (filtered p s) = try_filter p (items h w s).
Proof. unfold filtered. by rewrite (items_try_filter _ _ Hsteady). Qed.
Lemma try_filter_filter {E A} (p q : A -> bool) (l : list (res E A)) :
  try_filter p (try_filter q l) = try_filter (fun a => q a && p a) l.
Proof.
  unfold try_filter. induction l as [|[a|e|] l IH]; cbn; [done| |by f_equal..].
  destruct (q a); cbn; [|done]. destruct (p a); by rewrite IH.
Qed.
Lemma sensors_of_items directory (s : strm (io_result dir_entry)) :
  items h w (sensors_of (strm_try_flatten (fun e => inputs_of (directory e)) s)) =
  flat_map (fun r => match r with
                     | Ok e => map sensor_of (try_filter is_input (listing (directory e)))
                     | Err e => [Err (from_io e)]
                     | Panic => [Panic]
                     end) (items h w s).
Proof.
  unfold sensors_of. rewrite (items_and_then _ _ Hsteady), items_map, items_try_flatten.
  induction (items h w s) as [|r l IH]; [done|]. cbn [flat_map]. rewrite !map_app, <- IH. f_equal.
  destruct r as [e|e|]; cbn [map]; [|done..]. unfold inputs_of. by rewrite filtered_items, dir_items_listing, map_map.
Qed.
Lemma hwmon_items : items h w hwmon = sensors_in is_hwmon entry_path.
Proof. unfold hwmon. by rewrite sensors_of_items, filtered_items, dir_items_listing. Qed.
Lemma hwmon_device_items : items h w hwmon_device = sensors_in has_device device_path.
Proof.
  unfold hwmon_device. rewrite sensors_of_items, (items_try_filter _ _ Hsteady), filtered_items, dir_items_listing.
  by rewrite try_filter_filter.
Qed.
Lemma thermal_zone_items : items h w thermal_zone = zones.
Proof.
  unfold thermal_zone. rewrite !(items_and_then _ _ Hsteady), items_map, filtered_items, dir_items_listing, !map_map.
  unfold zones. apply map_ext. intros r. by destruct (map_err from_io r).
Qed.

(** C34: while the directories and files do not change, the stream gives
    the sensors of the monitors and those of their [device] directories - one
    for every file [temp*_input] in a directory [hwmon*], or the error in its place -, in whatever order the
    two searches are ready, each in its own order, none lost and none twice;
    the thermal zones are given, and their directory is read, exactly when
    there are none at all.  A [class/hwmon] that cannot be opened counts as
    items: the error is given twice and the thermal zones are not looked at.
    A stream of which an item panics ends there.  The task that polls it ends
    after as many polls as there are calls and items, and one. *)
Theorem temperatures_sources turns fuel :
  polls h w hwmon + polls h w hwmon_device + polls h w thermal_zone < fuel ->
  selected_names /\
  exists found calls,
    merges (sensors_in is_hwmon entry_path) (sensors_in has_device device_path) found /\
    merges (asked h w hwmon) (asked h w hwmon_device) calls /\
    (found <> [] -> yields h w (linux_sensors turns fuel) found calls) /\
    (found = [] -> yields h w (linux_sensors turns fuel) zones (calls ++ asked h w thermal_zone)) /\
    (forall e, fst (h _ (ReadDir (path_join sysfs_root (lit "class/hwmon"))) w) = Err e ->
       found = [Err (from_io e); Err (from_io e)]).
Proof.
  intros Hf. split; [apply selected_names_ok|]. set (both := select hwmon hwmon_device turns). exists (items h w both), (asked h w both).
  pose proof (select_items h w hwmon hwmon_device turns) as Hm. rewrite hwmon_items, hwmon_device_items in Hm.
  pose proof (drive_first h w Hsteady both thermal_zone false fuel) as Hd. cbv zeta in Hd.
  unfold both in Hd at 1. rewrite select_polls in Hd. specialize (Hd Hf). rewrite thermal_zone_items in Hd.
  split_and!; [done|apply select_asked|..].
  - intros Hne. rewrite bool_decide_eq_true_2 in Hd by done. exact Hd.
  - intros He. rewrite bool_decide_eq_false_2 in Hd by (intros []; exact He). exact Hd.
  - intros e He. fold both in Hm. unfold sensors_in, listing in Hm. rewrite He in Hm. cbn in Hm.
    inversion Hm as [|? ? ? ? Hm1|? ? ? ? Hm1]; subst; inversion Hm1 as [|? ? ? ? Hm2|? ? ? ? Hm2]; subst; inversion Hm2; by subst.
Qed.

(** The answers that the files of one sensor give. *)
Definition contents (p : path) : io_result str := fst (h _ (ReadToString p) w).

Lemma read_to_string_result p : result_of h (read_to_string from_io p) w = map_err from_io (contents p).
Proof. unfold read_to_string. by run. Qed.

Definition temperature_of (p : path) : result ThermodynamicTemperature :=
  contents ← map_err from_io (contents p);
  value ← map_err from_parse_float (parse_f32 (trim_end contents));
  Ok (degree_celsius (f32_div value (f32_of_int 1000))).

Lemma read_temperature_result p : result_of h (read_temperature p) w = temperature_of p.
Proof.
  unfold read_temperature, temperature_of. run. rewrite read_to_string_result.
  destruct (map_err from_io (contents p)) as [s| |]; [|done..]. cbn [mbind res_bind]. run.
  by destruct (map_err from_parse_float (parse_f32 (trim_end s))).
Qed.

Definition opt {A} (r : result A) : option A := match r with Ok a => Some a | _ => None end.

Lemma optional_result {A} (p : io Error A) :
  result_of h p w <> Panic -> result_of h (optional p) w = Ok (opt (result_of h p w)).
Proof. intros Hp. unfold optional. run. by destruct (result_of h p w). Qed.

Lemma temperature_of_not_panic p : contents p <> Panic -> temperature_of p <> Panic.
Proof.
  intros Hp. unfold temperature_of. destruct (contents p) as [s| |]; cbn; [|done..].
  pose proof (parse_float_not_panic 24 128 (trim_end s)) as Hf. unfold parse_f32.
  by destruct (parse_float 24 128 (trim_end s)).
Qed.

Lemma join_ok {A B} (p : io Error A) (q : io Error B) s a b :
  result_of h p w = Ok a -> result_of h q w = Ok b -> result_of h (try_join p q s) w = Ok (a, b).
Proof. intros Hp Hq. pose proof (try_join_results h w Hsteady p q s) as Hj. by rewrite Hp, Hq in Hj. Qed.

(** The directory [dir] of a monitor and the sensor [prefix] in it, such as
    [temp1_]. *)
Definition sensor_file (dir prefix postfix : str) : path := dir ++ SLASH :: prefix ++ postfix.

Lemma path_join_name dir name :
  last dir <> Some SLASH -> dir <> [] -> (forall c, head name = Some c -> c <> SLASH) -> name <> [] ->
  path_join dir name = dir ++ SLASH :: name.
Proof.
  intros Hl Hd Hn Hne. destruct name as [|c name]; [done|]. cbn [path_join].
  rewrite decide_False by by apply Hn.
  destruct (last dir) as [d|] eqn:Hld; [|by apply last_None in Hld].
  rewrite decide_False; [done|]. intros ->. done.
Qed.

Lemma path_parent_app dir name : SLASH ∉ name -> dir <> [] ->
  path_parent (dir ++ SLASH :: name) = Some dir.
Proof.
  intros Hs Hd. unfold path_parent. rewrite rfind_app by done.
  destruct (length dir) eqn:Hl; [by destruct dir|]. rewrite <- Hl. by rewrite take_app_length.
Qed.

(** A sensor of hwmon: name and label lose their last character (the
    newline), the temperatures are the thousandth of what the files say, and
    label and limits are absent when their file cannot be read or parsed,
    whatever the order in which the five files are ready; an unreadable
    current temperature or name is an error. *)
Theorem hwmon_sensor_files dir prefix name t :
  dir <> [] -> last dir <> Some SLASH -> prefix <> [] -> (SLASH ∉ prefix) ->
  (forall p, contents p <> Panic) ->
  contents (dir ++ SLASH :: lit "name") = Ok name ->
  temperature_of (sensor_file dir prefix (lit "input")) = Ok t ->
  result_of h (hwmon_sensor (sensor_file dir prefix (lit "input"))) w =
  Ok (mkSensor (string_pop name)
        (match contents (sensor_file dir prefix (lit "label")) with Ok s => Some (string_pop s) | _ => None end)
        t
        (opt (temperature_of (sensor_file dir prefix (lit "max"))))
        (opt (temperature_of (sensor_file dir prefix (lit "crit"))))).
Proof.
  intros Hd Hl Hp Hs Hnp Hname Ht.
  assert (Hj : forall post, SLASH ∉ post -> path_join dir (prefix ++ post) = sensor_file dir prefix post).
  { intros post Hpost. apply path_join_name; [done|done| |by destruct prefix].
    intros c Hc. destruct prefix as [|c' prefix]; [done|]. cbn in Hc. simplify_eq. set_solver. }
  assert (Hin : SLASH ∉ lit "input") by (apply (bool_decide_unpack _); by vm_compute).
  assert (Hpar : path_parent (dir ++ SLASH :: prefix ++ lit "input") = Some dir)
    by (apply path_parent_app; [set_solver|done]).
  assert (Hfile : path_file_name (dir ++ SLASH :: prefix ++ lit "input") = Some (prefix ++ lit "input")).
  { apply path_file_name_app; [set_solver|by destruct prefix| |];
      intros Heq%(f_equal length); rewrite length_app in Heq; unfold lit in Heq; cbn in Heq; lia. }
  fold (sensor_file dir prefix (lit "input")) in Hpar, Hfile.
  unfold hwmon_sensor. rewrite Hpar, Hfile. cbn [expect].
  run. unfold cut_suffix. rewrite bool_decide_eq_true_2 by (rewrite length_app; cbn; lia).
  run. rewrite length_app, Nat.add_sub, take_app_length. unfold file_name_of.
  rewrite !Hj by (apply (bool_decide_unpack _); by vm_compute).
  rewrite (path_join_name dir (lit "name")) by (done || (intros c [= <-]; done)).
  rewrite (join_ok _ _ _ (string_pop name)
    (match contents (sensor_file dir prefix (lit "label")) with Ok s => Some (string_pop s) | _ => None end,
     (t, (opt (temperature_of (sensor_file dir prefix (lit "max"))),
          opt (temperature_of (sensor_file dir prefix (lit "crit"))))))); [reflexivity| |].
  - run. by rewrite read_to_string_result, Hname.
  - apply join_ok; [|apply join_ok; [by rewrite read_temperature_result|apply join_ok]].
    + rewrite optional_result; run; rewrite read_to_string_result;
        pose proof (Hnp (sensor_file dir prefix (lit "label"))) as Hc;
        by destruct (contents (sensor_file dir prefix (lit "label"))).
    + rewrite optional_result; rewrite read_temperature_result; [done|].
      by apply temperature_of_not_panic.
    + rewrite optional_result; rewrite read_temperature_result; [done|].
      by apply temperature_of_not_panic.
Qed.
End temperatures.

(** A machine without monitors and with a thermal zone. *)
Definition zone_machine : handler unit := fun R c w =>
  (match c in call R return R with
   | ReadDir p =>
       if decide (p = lit "/sys/class/thermal") then Ok [Ok (mkEntry p (lit "thermal_zone0"))] else Ok []
   | c => fst (snapshot (fun p => if decide (p = lit "/sys/class/thermal/thermal_zone0/type") then Ok (lit "acpitz" ++ [LF])
                                  else Ok (lit "45000" ++ [LF])) (fun _ => []) _ c tt)
   end, w).
Lemma temperatures_sources_witness :
  exists s, result_of zone_machine (@linux_sensors si_units default_roots (fun _ _ => []) [true] 20) tt = Some [Ok s] /\
    unit_name s = lit "acpitz" /\ critical s = None.
Proof.
  destruct (@temperatures_sources si_units default_roots (fun _ _ => []) unit zone_machine tt ltac:(by intros R [])
    [true] 20) as (_ & found & calls & Hm & _ & _ & Hz & _); [apply Nat.ltb_lt; by vm_compute|].
  assert (Hnone : found = []) by (vm_compute in Hm; by inversion Hm).
  destruct (Hz Hnone) as [Hr _]. eexists. split; [rewrite Hr; vm_compute; reflexivity|]. split; vm_compute; reflexivity.
Defined.

(** A core with a label and a limit. *)
Definition coretemp (p : path) : io_result str :=
  if decide (p = lit "/h/name") then Ok (lit "coretemp" ++ [LF])
  else if decide (p = lit "/h/temp1_input") then Ok (lit "45000" ++ [LF])
  else if decide (p = lit "/h/temp1_label") then Ok (lit "Core 0" ++ [LF])
  else if decide (p = lit "/h/temp1_max") then Ok (lit "80000" ++ [LF])
  else Err (Os errno.ENOENT).

Lemma hwmon_sensor_files_witness :
  exists s, result_of (snapshot coretemp (fun _ => []))
    (@hwmon_sensor si_units (fun _ _ => [true]) (lit "/h/temp1_input")) tt = Ok s /\
    unit_name s = lit "coretemp" /\ label s = Some (lit "Core 0") /\ critical s = None.
Proof.
  eexists. split.
  - refine (@hwmon_sensor_files si_units (fun _ _ => [true]) unit (snapshot coretemp (fun _ => [])) tt
      (snapshot_steady _ _ tt) (lit "/h") (lit "temp1_") (lit "coretemp" ++ [LF]) _ _ _ _ _ _ eq_refl _).
    + discriminate.
    + discriminate.
    + discriminate.
    + apply (bool_decide_unpack _). vm_compute. exact I.
    + intros p. unfold contents, coretemp. cbn. repeat case_decide; discriminate.
    + vm_compute. reflexivity.
  - split; [vm_compute; reflexivity|split; vm_compute; reflexivity].
Defined.
