(* ===== verification/Signal.v ===== *)
(** * heim-process/src/os/unix/signal.rs: POSIX signals *)

From S2P Require Import Prelude RustStr RustFloat Errors.

Inductive Signal :=
| Abrt | Alrm | Bus | Chld | Cont | Fpe | Hup | Ill | Int | Kill | Pipe | Quit | Segv | Stop | Term
| Tstp | Ttin | Ttou | Usr1 | Usr2 | Poll | Prof | Sys | Trap | Urg | VtAlrm | XCpu | XFsz.
#[export] Instance signal_dec : EqDecision Signal.
Proof. solve_decision. Defined.

(** The numbers of the C library of the target. *)
Class LibcSignals := {
  SIGABRT : Z; SIGALRM : Z; SIGBUS : Z; SIGCHLD : Z; SIGCONT : Z; SIGFPE : Z; SIGHUP : Z;
  SIGILL : Z; SIGINT : Z; SIGKILL : Z; SIGPIPE : Z; SIGQUIT : Z; SIGSEGV : Z; SIGSTOP : Z;
  SIGTERM : Z; SIGTSTP : Z; SIGTTIN : Z; SIGTTOU : Z; SIGUSR1 : Z; SIGUSR2 : Z; SIGPOLL : Z;
  SIGPROF : Z; SIGSYS : Z; SIGTRAP : Z; SIGURG : Z; SIGVTALRM : Z; SIGXCPU : Z; SIGXFSZ : Z;
}.

Section signal.
Context `{LibcSignals}.

(** [TryFrom<libc::c_int>]. *)
Definition signal_try_from (value : Z) : res io_error Signal :=
  if decide (value = SIGABRT) then Ok Abrt
  else if decide (value = SIGALRM) then Ok Alrm
  else if decide (value = SIGBUS) then Ok Bus
  else if decide (value = SIGCHLD) then Ok Chld
  else if decide (value = SIGCONT) then Ok Cont
  else if decide (value = SIGFPE) then Ok Fpe
  else if decide (value = SIGHUP) then Ok Hup
  else if decide (value = SIGILL) then Ok Ill
  else if decide (value = SIGINT) then Ok Int
  else if decide (value = SIGKILL) then Ok Kill
  else if decide (value = SIGPIPE) then Ok Pipe
  else if decide (value = SIGQUIT) then Ok Quit
  else if decide (value = SIGSEGV) then Ok Segv
  else if decide (value = SIGSTOP) then Ok Stop
  else if decide (value = SIGTERM) then Ok Term
  else if decide (value = SIGTSTP) then Ok Tstp
  else if decide (value = SIGTTIN) then Ok Ttin
  else if decide (value = SIGTTOU) then Ok Ttou
  else if decide (value = SIGUSR1) then Ok Usr1
  else if decide (value = SIGUSR2) then Ok Usr2
  else if decide (value = SIGPOLL) then Ok Poll
  else if decide (value = SIGPROF) then Ok Prof
  else if decide (value = SIGSYS) then Ok Sys
  else if decide (value = SIGTRAP) then Ok Trap
  else if decide (value = SIGURG) then Ok Urg
  else if decide (value = SIGVTALRM) then Ok VtAlrm
  else if decide (value = SIGXCPU) then Ok XCpu
  else if decide (value = SIGXFSZ) then Ok XFsz
  else Err (Simple InvalidInput).

(** [From<Signal> for libc::c_int]. *)
Definition signal_into (signal : Signal) : Z :=
  match signal with
  | Abrt => SIGABRT
  | Alrm => SIGALRM
  | Bus => SIGBUS
  | Chld => SIGCHLD
  | Cont => SIGCONT
  | Fpe => SIGFPE
  | Hup => SIGHUP
  | Ill => SIGILL
  | Int => SIGINT
  | Kill => SIGKILL
  | Pipe => SIGPIPE
  | Quit => SIGQUIT
  | Segv => SIGSEGV
  | Stop => SIGSTOP
  | Term => SIGTERM
  | Tstp => SIGTSTP
  | Ttin => SIGTTIN
  | Ttou => SIGTTOU
  | Usr1 => SIGUSR1
  | Usr2 => SIGUSR2
  | Poll => SIGPOLL
  | Prof => SIGPROF
  | Sys => SIGSYS
  | Trap => SIGTRAP
  | Urg => SIGURG
  | VtAlrm => SIGVTALRM
  | XCpu => SIGXCPU
  | XFsz => SIGXFSZ
  end.

Definition all_signals : list Signal :=
  [Abrt; Alrm; Bus; Chld; Cont; Fpe; Hup; Ill; Int; Kill; Pipe; Quit; Segv; Stop; Term; Tstp; Ttin;
   Ttou; Usr1; Usr2; Poll; Prof; Sys; Trap; Urg; VtAlrm; XCpu; XFsz].

Lemma all_signals_elem s : s ∈ all_signals.
Proof. destruct s; unfold all_signals; repeat first [apply list_elem_of_here | apply list_elem_of_further]. Qed.

Lemma signal_try_from_sound value s : signal_try_from value = Ok s -> signal_into s = value.
Proof. unfold signal_try_from. repeat case_decide; intros; simplify_eq; done. Qed.

Lemma signal_try_from_error value e : signal_try_from value = Err e ->
  e = Simple InvalidInput /\ forall s, signal_into s <> value.
Proof.
  unfold signal_try_from. repeat case_decide; intros; simplify_eq. split; [done|].
  intros []; cbn; congruence.
Qed.

Lemma signal_try_from_not_panic value : signal_try_from value <> Panic.
Proof. unfold signal_try_from. repeat case_decide; done. Qed.
End signal.

(** The numbers are those of different signals. *)
Class LibcSignalsLaws `{LibcSignals} : Prop :=
  signals_differ : NoDup (map signal_into all_signals).

Definition linux_signals : LibcSignals := {|
  SIGABRT := 6; SIGALRM := 14; SIGBUS := 7; SIGCHLD := 17; SIGCONT := 18; SIGFPE := 8; SIGHUP := 1;
  SIGILL := 4; SIGINT := 2; SIGKILL := 9; SIGPIPE := 13; SIGQUIT := 3; SIGSEGV := 11; SIGSTOP := 19;
  SIGTERM := 15; SIGTSTP := 20; SIGTTIN := 21; SIGTTOU := 22; SIGUSR1 := 10; SIGUSR2 := 12;
  SIGPOLL := 29; SIGPROF := 27; SIGSYS := 31; SIGTRAP := 5; SIGURG := 23; SIGVTALRM := 26;
  SIGXCPU := 24; SIGXFSZ := 25 |}.
Lemma linux_signals_laws : @LibcSignalsLaws linux_signals.
Proof. apply (bool_decide_unpack (NoDup (map (@signal_into linux_signals) all_signals))). vm_compute. exact I. Qed.

Lemma signal_into_inj `{LibcSignalsLaws} s s' : signal_into s = signal_into s' -> s = s'.
Proof.
  intros Heq. pose proof signals_differ as Hnd.
  destruct (list_elem_of_lookup_1 _ _ (all_signals_elem s)) as [i Hi].
  destruct (list_elem_of_lookup_1 _ _ (all_signals_elem s')) as [j Hj].
  assert (i = j) as ->; [|congruence].
  eapply (NoDup_lookup _ _ _ (signal_into s)); [exact Hnd| |].
  - by rewrite list_lookup_fmap, Hi.
  - by rewrite list_lookup_fmap, Hj, Heq.
Qed.

(** The conversions between signals and their numbers are inverse to each
    other: a number is accepted exactly when it is the number of a signal, and
    then as that signal; every other number is an invalid input. *)
Theorem signal_roundtrip `{LibcSignalsLaws} value s :
  (signal_try_from value = Ok s <-> signal_into s = value) /\
  (signal_try_from value = Err (Simple InvalidInput) <-> forall s', signal_into s' <> value).
Proof.
  destruct (signal_try_from value) as [s0|e|] eqn:Hv.
  - apply signal_try_from_sound in Hv as <-. split; split; [by intros [= ->]| |done|].
    + intros Heq. f_equal. by apply signal_into_inj.
    + intros Hall. by destruct (Hall s0).
  - apply signal_try_from_error in Hv as [-> Hall]. split; split; [done| |done|done].
    intros Heq. by destruct (Hall s).
  - by apply signal_try_from_not_panic in Hv.
Qed.

Lemma signal_roundtrip_witness : @signal_try_from linux_signals 15 = Ok Term.
Proof. apply (@signal_roundtrip linux_signals linux_signals_laws 15 Term). reflexivity. Defined.
