(* ===== verification/MacSys.v ===== *)
(** * heim-common on macOS: sysctl, host ports, IOKit

    heim-common/src/sys/macos/.  [HostPort], [IoMasterPort], [IoIterator] and
    [IoObject] give back what they own when they are dropped: a scope that
    owns one is [with_host_port], [with_master_port] or [with_object], which
    runs the drop when the scope returns, fails or unwinds. *)

From S2P Require Import Prelude RustStr Layout RustFloat Units Errors MacCalls Sys.

(** ** sysctl.rs *)

(** [sysctl::<T>]: [value] reads the [T] that lies in the buffer. *)
Definition sysctl {T} (name : list Z) (size_of_T : Z) (value : str -> T) : io Error T :=
  '(result, (bytes, _)) ← ask (Sysctl name (Some size_of_T) size_of_T);
  if (result <? 0)%Z then e ← ask GetErrno; fails (with_sysctl (last_os_error e) name)
  else mret (value bytes).

(** [sysctlbyname::<T>]: the key without its final null; [value] reads the
    [T] in the buffer. *)
Definition sysctlbyname {T} (key : string) (size_of_T : Z) (value : str -> result T) : io Error T :=
  '(result, bytes) ← ask (Mac (SysctlByName (lit key) size_of_T));
  if (result =? 0)%Z then lift (value bytes)
  else e ← ask GetErrno; fails (with_sysctlbyname (last_os_error e) (lit key)).

(** The types it is used at. *)
Definition i32_at {E} (offset : nat) (bytes : str) : res E Z := signed 32 <$> uint_at 4 offset bytes.
Definition i64_at {E} (offset : nat) (bytes : str) : res E Z := signed 64 <$> uint_at 8 offset bytes.
Definition timeval_at {E} (bytes : str) : res E (Z * Z) :=
  tv_sec ← i64_at 0 bytes; tv_usec ← i32_at 8 bytes; Ok (tv_sec, tv_usec).

(** [IntoTime for timeval]. *)
Definition into_time `{Units} (tv : Z * Z) : Time :=
  f64_add (time_second (f64_of_int (fst tv))) (time_microsecond (f64_of_int (snd tv))).

(** ** host_port.rs *)

Definition host_port_deallocate (p : port) : io Error () :=
  result ← ask (Mac (MachPortDeallocate p));
  if (result =? KERN_SUCCESS)%Z then mret () else last_ffi_error id "mach_port_deallocate".
Definition with_host_port {A} (body : port -> io Error A) : io Error A :=
  port ← ask (Mac MachHostSelf);
  prog_bind (body port) (fun r =>
    prog_bind (host_port_deallocate port) (fun dropped => Ret match dropped with Ok _ => r | _ => Panic end)).

(** ** iokit/io_object.rs *)

Definition with_object {E A} (o : io_object) (body : io E A) : io E A :=
  prog_bind body (fun r =>
    prog_bind (os (Mac (IOObjectRelease o))) (fun result =>
      Ret (if (result =? KERN_SUCCESS)%Z then r else Panic))).

Definition object_properties (o : io_object) : io Error dictionary :=
  '(result, props) ← ask (Mac (IORegistryEntryCreateCFProperties o));
  if (result =? KERN_SUCCESS)%Z then mret props
  else last_ffi_error id "IORegistryEntryCreateCFProperties".

Definition object_parent (o : io_object) (plane : str) : io Error io_object :=
  '(result, parent) ← ask (Mac (IORegistryEntryGetParentEntry o plane));
  if (result =? KERN_SUCCESS)%Z then mret parent
  else last_ffi_error id "IORegistryEntryGetParentEntry".

Definition conforms_to {E} (o : io_object) (class_name : str) : io E bool :=
  result ← ask (Mac (IOObjectConformsTo o class_name));
  mret (negb (result =? 0)%Z).

(** ** iokit/io_iterator.rs *)

Definition iterator_next {E} (iterator : io_object) : io E (option io_object) :=
  object ← ask (Mac (IOIteratorNext iterator));
  mret (if (object =? 0)%Z then None else Some object).

(** ** iokit/io_master_port.rs *)

(** The address of the null object of Core Foundation. *)
Class CoreFoundation := kCFNull : Z.

Section iokit.
Context `{Profile, CoreFoundation}.

Definition master_port_new : io Error port :=
  '(result, master_port) ← ask (Mac IOMasterPort);
  if negb (result =? KERN_SUCCESS)%Z then last_ffi_error id "IOMasterPort" else mret master_port.

Definition with_master_port {E A} (p : port) (body : io E A) : io E A :=
  prog_bind body (fun r =>
    prog_bind (os (Mac (MachPortDeallocate p))) (fun result =>
      Ret (if (result =? KERN_SUCCESS)%Z then r else Panic))).

Definition get_services (p : port) (name : str) : io Error io_object :=
  if overflow_checks && negb (ends_with name [NUL]) then lift Panic
  else
    service ← ask (Mac (IOServiceMatching name));
    if (service =? kCFNull)%Z then lift Panic
    else
      '(result, raw_iterator) ← ask (Mac (IOServiceGetMatchingServices p service));
      if (result =? KERN_SUCCESS)%Z then mret raw_iterator
      else last_ffi_error id "IOServiceGetMatchingServices".

(** ** iokit/properties.rs *)

Definition dictionary_find (d : dictionary) (key : string) : option CFType :=
  snd <$> (find (fun e => bool_decide (fst e = lit key)) d).

(** The assertions on the type are only there in a debug build.  Without them
    a value that is no dictionary is used as one, which is undefined. *)
Definition get_dict (d : dictionary) (raw_key : string) : result dictionary :=
  match dictionary_find d raw_key with
  | Some (CFDictionary inner) => Ok inner
  | Some _ => Panic
  | None => Err (missing_key (lit raw_key) [])
  end.
Definition get_bool (d : dictionary) (raw_key : string) : result bool :=
  match dictionary_find d raw_key with
  | Some (CFBoolean b) => Ok b
  | Some _ => if overflow_checks then Panic else Err (missing_key (lit raw_key) [])
  | None => Err (missing_key (lit raw_key) [])
  end.
Definition get_i64 (d : dictionary) (raw_key : string) : result Z :=
  match dictionary_find d raw_key with
  | Some (CFNumber (Some n)) => Ok n
  | Some (CFNumber None) => Err (missing_key (lit raw_key) [])
  | Some _ => if overflow_checks then Panic else Err (missing_key (lit raw_key) [])
  | None => Err (missing_key (lit raw_key) [])
  end.
Definition get_string (d : dictionary) (raw_key : string) : result str :=
  match dictionary_find d raw_key with
  | Some (CFString s) => Ok s
  | Some _ => if overflow_checks then Panic else Err (missing_key (lit raw_key) [])
  | None => Err (missing_key (lit raw_key) [])
  end.
End iokit.
