(* ===== verification/MacHost.v ===== *)
(** * heim-host on macOS

    heim-host/src/sys/macos: the boot time, the uptime with its cached time
    base, and the users.  The platform is the one of sys/unix (Host). *)

From S2P Require Import Prelude RustStr Layout RustFloat Units Errors MacCalls Sys.
From S2P Require Import Streams ProcFs Cpu Host MacSys.

(** The constants of libc. *)
Class DarwinHost := { host_CTL_KERN : Z; KERN_BOOTTIME : Z }.
Definition size_of_timeval : Z := 16.

Section host.
Context `{Units, DarwinHost}.

(** ** boot_time.rs *)

Definition mac_boot_time : io Error Time :=
  bytes ← sysctl [host_CTL_KERN; KERN_BOOTTIME] size_of_timeval id;
  value ← lift (timeval_at bytes);
  mret (into_time value).

(** ** mod.rs, uptime.rs

    [TIME_BASE] is computed when it is first used: the cell is part of the
    state, and every operation that uses it gives the cell it leaves. *)
Definition timebase_info : io Error (Z * Z) :=
  '(res, info) ← ask (Mac MachTimebaseInfo);
  if (res =? KERN_SUCCESS)%Z then mret info else last_ffi_error id "mach_timebase_info".
Definition time_base (cell : option float) : io Error float :=
  match cell with
  | Some base => mret base
  | None =>
      r ← attempt timebase_info;
      match r with
      | inr (numer, denom) => mret (f64_div (f64_of_int numer) (f64_of_int denom))
      | inl _ => lift Panic
      end
  end.
Definition mac_uptime (cell : option float) : io Error (Time * option float) :=
  abs_time ← ask (Mac MachAbsoluteTime);
  base ← time_base cell;
  mret (time_nanosecond (f64_mul (f64_of_int abs_time) base), Some base).
End host.

(** ** users.rs *)

Record MacUser := mkMacUser {
  mac_username : str;
  mac_terminal : str;
  mac_user_id : str;
  mac_user_hostname : str;
  mac_user_pid : Z;
}.
Definition mac_user_from (entry : utmpx) : MacUser := {|
  mac_username := c_string (ut_user entry);
  mac_terminal := c_string (ut_line entry);
  mac_user_id := c_string (ut_id entry);
  mac_user_hostname := c_string (ut_host entry);
  mac_user_pid := ut_pid entry;
|}.
Definition mac_users {E} (entries : list utmpx) : res E (list (res E MacUser)) :=
  Ok (map Ok (get_users mac_user_from entries)).
