(* ===== verification/MacCpu.v ===== *)
(** * heim-cpu and heim-memory on macOS

    heim-cpu/src/sys/macos and heim-memory/src/sys/macos.  The structures of
    mach are arrays of 32-bit words: the system writes as many as it has, at
    most as many as it is told, over the zeros of [default()]; a 64-bit field
    takes two of them, the low one first. *)

From S2P Require Import Prelude RustStr Layout RustFloat Units Errors MacCalls Sys.
From S2P Require Import Streams ProcFs Cpu Host MacSys.

(** What lies in a structure of [count] words. *)
Definition filled (count : nat) (words : list Z) : list Z := take count (words ++ replicate count 0%Z).
Definition word (words : list Z) (i : nat) : Z := nth i words 0%Z.
Definition word64 (words : list Z) (i : nat) : Z := (word words i + 2 ^ 32 * word words (S i))%Z.

(** ** bindings/cpu.rs, bindings/processor.rs *)

(** [host_cpu_load_info] and [processor_cpu_load_info] have the same fields. *)
Record cpu_load := mkCpuLoad { load_user : Z; load_system : Z; load_idle : Z; load_nice : Z }.

Definition HOST_CPU_LOAD_INFO : Z := 3.
Definition PROCESSOR_CPU_LOAD_INFO : Z := 2.
Definition size_of_natural_t : Z := 4.

Definition cpu_load_info : io Error cpu_load :=
  with_host_port (fun port =>
    '(result, words) ← ask (Mac (HostStatistics64 port HOST_CPU_LOAD_INFO 4));
    if negb (result =? KERN_SUCCESS)%Z then last_ffi_error id "host_statistics64"
    else
      let s := filled 4 words in
      mret (mkCpuLoad (word s 0) (word s 1) (word s 2) (word s 3))).

(** The loop over [chunks(4)]: a shorter last chunk is indexed out of range.
    The words are signed, [as natural_t] makes them unsigned. *)
Fixpoint load_of_chunks (cpu_info : list Z) : result (list cpu_load) :=
  match cpu_info with
  | [] => Ok []
  | user :: system :: idle :: nice :: rest =>
      stats ← load_of_chunks rest;
      Ok (mkCpuLoad (wrap 32 user) (wrap 32 system) (wrap 32 idle) (wrap 32 nice) :: stats)
  | _ => Panic
  end.

Definition processor_load_info : io Error (list cpu_load) :=
  with_host_port (fun port =>
    '(result, (_, processor_info, cpu_info)) ← ask (Mac (HostProcessorInfo port PROCESSOR_CPU_LOAD_INFO));
    if negb (result =? KERN_SUCCESS)%Z then last_ffi_error id "host_processor_info"
    else
      stats ← lift (load_of_chunks cpu_info);
      result ← ask (Mac (VmDeallocate processor_info (Z.of_nat (length cpu_info) * size_of_natural_t)%Z));
      if negb (result =? KERN_SUCCESS)%Z then last_ffi_error id "vm_deallocate"
      else mret stats).

(** ** bindings/vm.rs: the fields of [vmmeter] that are read *)

Definition HOST_VM_INFO : Z := 2.
Record vmmeter := mkVmMeter { v_swtch : Z; v_trap : Z; v_syscall : Z; v_intr : Z; v_soft : Z }.
Definition vmmeter_words : nat := 35.
Definition vm_meter : io Error vmmeter :=
  with_host_port (fun port =>
    '(result, words) ← ask (Mac (HostStatistics port HOST_VM_INFO (Z.of_nat vmmeter_words)));
    if negb (result =? KERN_SUCCESS)%Z then last_ffi_error id "host_statistics"
    else
      let s := filled vmmeter_words words in
      mret (mkVmMeter (word s 0) (word s 1) (word s 2) (word s 3) (word s 4))).

(** ** bindings/mod.rs, count.rs, freq.rs *)

Definition cpu_frequency : io Error Z := wrap 64 <$> sysctlbyname "hw.cpufrequency" 8 (i64_at 0).
Definition cpu_frequency_max : io Error Z := wrap 64 <$> sysctlbyname "hw.cpufrequency_max" 8 (i64_at 0).
Definition cpu_frequency_min : io Error Z := wrap 64 <$> sysctlbyname "hw.cpufrequency_min" 8 (i64_at 0).

Definition mac_logical_count : io Error Z := wrap 64 <$> sysctlbyname "hw.logicalcpu" 4 (i32_at 0).
Definition mac_physical_count : io Error (option Z) :=
  (fun v => Some (wrap 64 v)) <$> sysctlbyname "hw.physicalcpu" 4 (i32_at 0).

Record MacCpuFrequency := mkMacCpuFrequency { mac_current : Frequency; mac_min : Frequency; mac_max : Frequency }.
Definition mac_frequency `{Units} : io Error MacCpuFrequency :=
  current ← cpu_frequency;
  min ← cpu_frequency_min;
  max ← cpu_frequency_max;
  mret (mkMacCpuFrequency (frequency_hertz current) (frequency_hertz min) (frequency_hertz max)).
Definition mac_freq_min (f : MacCpuFrequency) : option Frequency := Some (mac_min f).
Definition mac_freq_max (f : MacCpuFrequency) : option Frequency := Some (mac_max f).

(** ** stats.rs, times.rs *)

Record MacCpuStats := mkMacCpuStats {
  mac_ctx_switches : Z;
  mac_interrupts : Z;
  mac_soft_interrupts : Z;
  mac_syscalls : Z;
  mac_traps : Z;
}.
Definition mac_stats_from (vm : vmmeter) : MacCpuStats :=
  mkMacCpuStats (v_swtch vm) (v_intr vm) (v_soft vm) (v_syscall vm) (v_trap vm).
Definition mac_stats : io Error MacCpuStats := mac_stats_from <$> vm_meter.

Record MacTimes := mkMacTimes { mac_user : Time; mac_nice : Time; mac_system : Time; mac_idle : Time }.

Section times.
Context `{Units, Statics}.

Definition mac_times_from (info : cpu_load) : MacTimes :=
  let ticks := f64_of_int CLOCK_TICKS in
  {| mac_user := time_second (f64_div (f64_of_int (load_user info)) ticks);
     mac_nice := time_second (f64_div (f64_of_int (load_nice info)) ticks);
     mac_system := time_second (f64_div (f64_of_int (load_system info)) ticks);
     mac_idle := time_second (f64_div (f64_of_int (load_idle info)) ticks) |}.

Definition mac_time : io Error MacTimes := mac_times_from <$> cpu_load_info.
Definition mac_times : io Error (list (result MacTimes)) :=
  (fun processors => map (fun info => Ok (mac_times_from info)) processors) <$> processor_load_info.
End times.

(** ** heim-memory/src/sys/macos/bindings.rs *)

Definition HOST_VM_INFO64 : Z := 4.
Definition HOST_VM_INFO64_COUNT : nat := 38.
Definition CTL_HW : Z := 6.
Definition CTL_VM : Z := 2.
Definition HW_MEMSIZE : Z := 24.
Definition VM_SWAPUSAGE : Z := 5.

(** The fields of [vm_statistics64] that are read. *)
Record vm_statistics64 := mkVmStatistics {
  free_count : Z;
  active_count : Z;
  inactive_count : Z;
  wire_count : Z;
  pageins : Z;
  pageouts : Z;
  speculative_count : Z;
}.
Definition vm_statistics_of (s : list Z) : vm_statistics64 := {|
  free_count := word s 0;
  active_count := word s 1;
  inactive_count := word s 2;
  wire_count := word s 3;
  pageins := word64 s 8;
  pageouts := word64 s 10;
  speculative_count := word s 23;
|}.
Definition host_vm_info : io Error vm_statistics64 :=
  with_host_port (fun port =>
    '(result, words) ← ask (Mac (HostStatistics64 port HOST_VM_INFO64 (Z.of_nat HOST_VM_INFO64_COUNT)));
    if negb (result =? KERN_SUCCESS)%Z then last_ffi_error id "host_statistics64"
    else mret (vm_statistics_of (filled HOST_VM_INFO64_COUNT words))).

Definition hw_memsize : io Error Z :=
  bytes ← sysctl [CTL_HW; HW_MEMSIZE] 8 id; lift (uint_at 8 0 bytes).

(** [libc::xsw_usage]: total, available, used. *)
Record xsw_usage := mkXswUsage { xsu_total : Z; xsu_avail : Z; xsu_used : Z }.
Definition xsw_usage_at {E} (bytes : str) : res E xsw_usage :=
  total ← uint_at 8 0 bytes; avail ← uint_at 8 8 bytes; used ← uint_at 8 16 bytes;
  Ok (mkXswUsage total avail used).
Definition vm_swapusage : io Error xsw_usage :=
  bytes ← sysctl [CTL_VM; VM_SWAPUSAGE] 32 id; lift (xsw_usage_at bytes).

(** ** memory.rs, swap.rs *)

Record MacSysMemory := mkMacSysMemory {
  mac_total : Information;
  mac_available : Information;
  mac_used : Information;
  mac_free : Information;
  mac_active : Information;
  mac_inactive : Information;
  mac_wire : Information;
}.
Record MacSwap := mkMacSwap {
  mac_swap_total : Information;
  mac_swap_used : Information;
  mac_swap_free : Information;
  mac_swap_sin : Information;
  mac_swap_sout : Information;
}.

Section memory.
Context `{Profile, Units}.

(** The static [PAGE_SIZE] of heim-memory: [sysconf(_SC_PAGESIZE) as u64]. *)
Context `{Statics}.

Definition pages_of {E} (count : Z) : res E Information :=
  bytes ← mul_u64 count PAGE_SIZE; Ok (information_byte bytes).

(** The values from the two queries. *)
Definition mac_memory_of (total : Z) (vm_stats : vm_statistics64) : result MacSysMemory :=
  let total := information_byte total in
  available ← add_u32 (active_count vm_stats) (free_count vm_stats);
  available ← pages_of available;
  free ← sub_u32 (free_count vm_stats) (speculative_count vm_stats);
  free ← pages_of free;
  used ← add_u32 (active_count vm_stats) (wire_count vm_stats);
  used ← pages_of used;
  active ← pages_of (active_count vm_stats);
  inactive ← pages_of (inactive_count vm_stats);
  wire ← pages_of (wire_count vm_stats);
  Ok {| mac_total := total; mac_available := available; mac_used := used; mac_free := free;
        mac_active := active; mac_inactive := inactive; mac_wire := wire |}.
Definition mac_sys_memory : io Error MacSysMemory :=
  total ← hw_memsize;
  vm_stats ← host_vm_info;
  lift (mac_memory_of total vm_stats).

Definition mac_swap : io Error MacSwap :=
  xsw_usage ← vm_swapusage;
  vm_stats ← host_vm_info;
  sin ← lift (pages_of (pageins vm_stats));
  sout ← lift (pages_of (pageouts vm_stats));
  mret {| mac_swap_total := information_byte (xsu_total xsw_usage);
          mac_swap_used := information_byte (xsu_used xsw_usage);
          mac_swap_free := information_byte (xsu_avail xsw_usage);
          mac_swap_sin := sin; mac_swap_sout := sout |}.
End memory.
