(* ===== verification/MacNet.v ===== *)
(** * heim-net on macOS: the list of interface messages

    heim-net/src/sys/macos.  [net_pf_route] fetches the messages of the
    routing socket in one block; [Routes] walks over it and keeps those of
    type [RTM_IFINFO2].  The structures lie in memory as their [repr(C)] has
    it on a 64-bit machine.  The interfaces themselves are those of sys/unix
    (Net). *)

From S2P Require Import Prelude RustStr Layout RustFloat Units Errors MacCalls Sys.
From S2P Require Import Streams ProcFs Cpu Host MacSys.

(** The constants of libc. *)
Class DarwinNet := { CTL_NET : Z; PF_ROUTE : Z; NET_RT_IFLIST2 : Z; RTM_IFINFO2 : Z }.

(** ** bindings.rs: the structures *)

(** [if_data64], the fields that are read. *)
Record if_data64 := mkIfData {
  ifi_ipackets : Z;
  ifi_ierrors : Z;
  ifi_opackets : Z;
  ifi_oerrors : Z;
  ifi_ibytes : Z;
  ifi_obytes : Z;
  ifi_iqdrops : Z;
}.
Record if_msghdr2 := mkIfMsgHdr2 { ifm_type : Z; ifm_index : Z; ifm_data : if_data64 }.
Record if_msghdr_partial := mkIfMsgHdrPartial { partial_msglen : Z; partial_type : Z }.

Definition size_of_if_msghdr_partial : nat := 4.
Definition size_of_if_msghdr2 : nat := 168.
Definition offset_of_ifm_data : nat := 32.

Definition if_msghdr_partial_at {E} (b : str) : res E if_msghdr_partial :=
  ifm_msglen ← uint_at 2 0 b;
  ifm_type ← uint_at 1 3 b;
  Ok (mkIfMsgHdrPartial ifm_msglen ifm_type).
Definition if_data64_at {E} (b : str) : res E if_data64 :=
  ipackets ← uint_at 8 24 b;
  ierrors ← uint_at 8 32 b;
  opackets ← uint_at 8 40 b;
  oerrors ← uint_at 8 48 b;
  ibytes ← uint_at 8 64 b;
  obytes ← uint_at 8 72 b;
  iqdrops ← uint_at 8 96 b;
  Ok (mkIfData ipackets ierrors opackets oerrors ibytes obytes iqdrops).
(** All [size_of_if_msghdr2] bytes are copied. *)
Definition if_msghdr2_at {E} (b : str) : res E if_msghdr2 :=
  if bool_decide (length b < size_of_if_msghdr2) then Panic
  else
    ifm_type ← uint_at 1 3 b;
    ifm_index ← uint_at 2 12 b;
    data ← if_data64_at (drop offset_of_ifm_data b);
    Ok (mkIfMsgHdr2 ifm_type ifm_index data).

Record Routes := mkRoutes { routes_position : nat; routes_data : str }.

Section routes.
Context `{Profile, DarwinNet}.

(** [Routes::next]: one round of its loop per unit of fuel; the outer [None]
    is the fuel running out. *)
Fixpoint routes_next {E} (fuel : nat) (r : Routes) : res E (option (option if_msghdr2 * Routes)) :=
  match fuel with
  | O => Ok None
  | S k =>
      let '(mkRoutes position data) := r in
      if bool_decide (position = length data) then Ok (Some (None, r))
      else if negb (bool_decide (position + size_of_if_msghdr_partial < length data)) then Panic
      else
        hdr ← if_msghdr_partial_at (drop position data);
        let ifm_msglen := Z.to_nat (partial_msglen hdr) in
        if overflow_checks && negb (bool_decide (ifm_msglen <= length data + position)) then Panic
        else
          let r := mkRoutes (position + ifm_msglen) data in
          if (partial_type hdr =? RTM_IFINFO2)%Z then
            hdr ← if_msghdr2_at (drop position data);
            if overflow_checks && negb (ifm_type hdr =? RTM_IFINFO2)%Z then Panic
            else Ok (Some (Some hdr, r))
          else routes_next k r
  end.

Definition net_pf_route : io Error Routes :=
  let name := [CTL_NET; PF_ROUTE; 0; 0; NET_RT_IFLIST2; 0]%Z in
  let failed := e ← ask GetErrno; fails (with_sysctl (last_os_error e) name) in
  '(result, (_, length)) ← ask (Sysctl name None 0);
  if negb (result =? 0)%Z then failed
  else
    _ ← lift (if (2 ^ 63 <=? length)%Z then Panic else Ok tt);
    '(result, (data, length)) ← ask (Sysctl name (Some length) length);
    if (result =? 0)%Z then mret (mkRoutes 0 (take (Z.to_nat length) data)) else failed.

(** ** counters.rs *)

Record MacNetCounters := mkMacNetCounters { mac_interface : str; mac_net_data : if_msghdr2 }.

Context `{Units}.

Definition mac_net_bytes_sent (c : MacNetCounters) : Information :=
  information_byte (ifi_obytes (ifm_data (mac_net_data c))).
Definition mac_net_bytes_recv (c : MacNetCounters) : Information :=
  information_byte (ifi_ibytes (ifm_data (mac_net_data c))).
Definition mac_net_packets_sent (c : MacNetCounters) : Z := ifi_opackets (ifm_data (mac_net_data c)).
Definition mac_net_packets_recv (c : MacNetCounters) : Z := ifi_ipackets (ifm_data (mac_net_data c)).
Definition mac_net_errors_sent (c : MacNetCounters) : Z := ifi_oerrors (ifm_data (mac_net_data c)).
Definition mac_net_errors_recv (c : MacNetCounters) : Z := ifi_ierrors (ifm_data (mac_net_data c)).
Definition mac_net_drop_recv (c : MacNetCounters) : Z := ifi_iqdrops (ifm_data (mac_net_data c)).

(** The closure of [map]: a name without a null byte is the empty one. *)
Definition interface_counters (msg : if_msghdr2) : io Error MacNetCounters :=
  name ← ask (Mac (IfIndexToName (ifm_index msg)));
  match name with
  | None => last_ffi_error id "if_indextoname"
  | Some name =>
      let first_nul := default 0 (fst <$> list_find (fun c => c = NUL) name) in
      mret (mkMacNetCounters (to_string_lossy (take first_nul name)) msg)
  end.

(** The stream, drained: the names are asked for while the walk goes on. *)
Fixpoint counters_stream (fuel : nat) (r : Routes) : io Error (option (list (result MacNetCounters))) :=
  match fuel with
  | O => mret None
  | S k =>
      next ← lift (routes_next fuel r);
      match next with
      | None => mret None
      | Some (None, _) => mret (Some [])
      | Some (Some msg, r) =>
          item ← attempt (interface_counters msg);
          rest ← counters_stream k r;
          mret (fmap (M := option) (cons match item with inr c => Ok c | inl e => Err e end) rest)
      end
  end.
Definition mac_net_io_counters (fuel : nat) : io Error (option (list (result MacNetCounters))) :=
  interfaces ← net_pf_route; counters_stream fuel interfaces.
End routes.
