(* ===== verification/MacDisk.v ===== *)
(** * heim-disk on macOS: counters of IOKit, mounted file systems

    heim-disk/src/sys/macos/counters.rs over the block devices of the IOKit
    registry, heim-disk/src/sys/unix/partitions.rs over [getfsstat64], and the
    mount flags of os/macos/partitions.rs. *)

From S2P Require Import Prelude RustStr Layout RustFloat Units Errors MacCalls Sys.
From S2P Require Import Streams ProcFs Cpu Host Disk MacSys.

(** ** sys/macos/counters.rs *)

Record MacDiskCounters := mkMacDiskCounters {
  mac_device : str;
  mac_removable : bool;
  mac_reads : Z;
  mac_writes : Z;
  mac_read_bytes : Information;
  mac_write_bytes : Information;
  mac_read_time : Time;
  mac_write_time : Time;
}.

Section counters.
Context `{Profile, Units, CoreFoundation}.

Definition c_lit (s : string) : str := lit s ++ [NUL].

(** The counters, from the properties of a device and of its parent; the
    fields are read in this order. *)
Definition device_counters (disk_props parent_props : dictionary) : result MacDiskCounters :=
  name ← get_string disk_props "BSD Name";
  stats ← get_dict parent_props "Statistics";
  removable ← get_bool disk_props "Removable";
  reads ← get_i64 stats "Operations (Read)";
  writes ← get_i64 stats "Operations (Write)";
  read_bytes ← get_i64 stats "Bytes (Read)";
  write_bytes ← get_i64 stats "Bytes (Write)";
  read_time ← get_i64 stats "Total Time (Read)";
  write_time ← get_i64 stats "Total Time (Write)";
  Ok {| mac_device := name;
        mac_removable := removable;
        mac_reads := wrap 64 reads;
        mac_writes := wrap 64 writes;
        mac_read_bytes := information_byte (wrap 64 read_bytes);
        mac_write_bytes := information_byte (wrap 64 write_bytes);
        mac_read_time := time_nanosecond (f64_of_int read_time);
        mac_write_time := time_nanosecond (f64_of_int write_time) |}.

(** The parent is dropped before the device. *)
Definition filter_map_block_devices (device : io_object) : io Error (option MacDiskCounters) :=
  with_object device (
    parent ← object_parent device (c_lit "IOService");
    with_object parent (
      storage ← conforms_to parent (c_lit "IOBlockStorageDriver");
      if negb storage then mret None
      else
        disk_props ← object_properties device;
        parent_props ← object_properties parent;
        counters ← lift (device_counters disk_props parent_props);
        mret (Some counters))).

(** The stream, drained: one round per device; the outer [None] is the fuel
    running out. *)
Fixpoint devices_stream (fuel : nat) (iterator : io_object) : io Error (option (list (result MacDiskCounters))) :=
  match fuel with
  | O => mret None
  | S k =>
      device ← iterator_next iterator;
      match device with
      | None => mret (Some [])
      | Some device =>
          r ← attempt (filter_map_block_devices device);
          rest ← devices_stream k iterator;
          mret (fmap (M := option) (app match r with
                                        | inr (Some counters) => [Ok counters]
                                        | inr None => []
                                        | inl e => [Err e]
                                        end) rest)
      end
  end.

(** [io_counters]: the stream owns the iterator; the master port is dropped
    when the function returns. *)
Definition block_devices : io Error io_object :=
  port ← master_port_new;
  with_master_port port (get_services port (c_lit "IOMedia")).
Definition mac_disk_io_counters (fuel : nat) : io Error (option (list (result MacDiskCounters))) :=
  iter ← block_devices;
  with_object iter (devices_stream fuel iter).

Definition mac_disk_io_counters_physical (fuel : nat) : io Error (option (list (result MacDiskCounters))) :=
  inner ← mac_disk_io_counters fuel;
  mret (try_filter (fun counter => negb (mac_removable counter)) <$> inner).
End counters.

(** ** sys/unix/bindings/mod.rs, sys/unix/partitions.rs *)

Record MacPartition := mkMacPartition {
  mac_part_device : str;
  mac_part_fs : FileSystem;
  mac_part_mount_point : path;
  mac_part_flags : Z;
}.
Definition MNT_NOWAIT : Z := 2.
(** [mem::size_of::<libc::statfs>()]. *)
Class StatfsSize := size_of_statfs : Z.

Section partitions.
Context `{Profile, StatfsSize}.

(** The arithmetic of [c_int]; a capacity of more than [isize::MAX] bytes
    makes [Vec::with_capacity] panic. *)
Definition mounts : io Error (list statfs) :=
  '(expected_len, _) ← ask (Mac (GetFsStat 0 MNT_NOWAIT));
  _ ← lift (if (2 ^ 63 <=? wrap 64 expected_len * size_of_statfs)%Z then Panic else Ok tt);
  let size := (size_of_statfs * expected_len)%Z in
  _ ← lift (if overflow_checks && negb ((- 2 ^ 31 <=? size) && (size <? 2 ^ 31))%Z then Panic else Ok tt);
  '(result, mounts) ← ask (Mac (GetFsStat (signed 32 (wrap 32 size)) MNT_NOWAIT));
  if (result =? -1)%Z then last_ffi_error id "getfsstat64"
  else if overflow_checks && negb (expected_len =? result)%Z then lift Panic
  else mret (take (Z.to_nat result) mounts).

Definition mac_partition_from (stat : statfs) : result MacPartition :=
  let device := c_string (f_mntfromname stat) in
  let fs_type := c_string (f_fstypename stat) in
  let mount_point := c_string (f_mntonname stat) in
  fs ← fs_from_str fs_type;
  Ok (mkMacPartition device fs mount_point (f_flags stat)).

Definition mac_partitions : io Error (list (result MacPartition)) :=
  (fun mounts => map mac_partition_from mounts) <$> mounts.

Definition mac_partitions_physical : io Error (list (result MacPartition)) :=
  stream ← mac_partitions;
  mret (try_filter (fun partition => is_physical (mac_part_fs partition)) stream).
End partitions.

(** ** os/macos/partitions.rs *)

(** The bits that the constants of [Flags] name. *)
Definition MNT_FLAGS : list Z :=
  [1; 2; 4; 8; 16; 32; 64; 128; 256; 1024; 4096; 8192; 16384; 32768; 1048576; 2097152; 4194304;
   8388608; 16777216; 33554432; 67108864; 268435456; 65536; 131072; 262144; 524288]%Z.
Definition mac_flags (p : MacPartition) : Z := Z.land (mac_part_flags p) (foldr Z.lor 0%Z MNT_FLAGS).
