(* ===== verification/MacPorts.v ===== *)
(** * The ports and objects of macOS

    What mach and IOKit document of the rights and references they give out,
    as an abstract multiset of what the process owns: a port or an object may
    be handed out several times, and each time must be given back.  It is a
    ledger of Ownership; the theorem is that every query of heim that uses
    one leaves the multiset as it found it. *)

From S2P Require Import Prelude RustStr Layout RustFloat Units Errors MacCalls Sys Ownership.
From S2P Require Import Streams ProcFs Cpu Host Disk MacSys MacCpu MacDisk.
From stdpp Require Import gmultiset.

Inductive mac_kind :=
| MachPort
| KernelObject
| Region (size : Z).
#[export] Instance mac_kind_eq_dec : EqDecision mac_kind.
Proof. solve_decision. Defined.
#[export] Instance mac_kind_countable : Countable mac_kind.
Proof.
  refine (inj_countable' (fun k => match k with MachPort => inl true | KernelObject => inl false | Region s => inr s end)
    (fun k => match k with inl true => MachPort | inl false => KernelObject | inr s => Region s end) _).
  by intros [].
Defined.
Abbreviation owned := (gmultiset (Z * mac_kind)) (only parsing).

Definition gained (k : Z) (v : mac_kind) (t t' : owned) : Prop := t' = t ⊎ {[+ (k, v) +]}.
(** Giving back succeeds for what is owned, and only for that. *)
Definition given_back (k : Z) (v : mac_kind) (result : Z) (t t' : owned) : Prop :=
  if decide ((k, v) ∈ t) then result = KERN_SUCCESS /\ t' = t ∖ {[+ (k, v) +]}
  else result <> KERN_SUCCESS /\ t' = t.
Definition gained_if (succeeds : bool) (k : Z) (v : mac_kind) (t t' : owned) : Prop :=
  if succeeds then gained k v t t' else t' = t.

Definition mac_step {R} (c : mac_call R) : R -> owned -> owned -> Prop :=
  match c in mac_call R return R -> owned -> owned -> Prop with
  | MachHostSelf => fun p => gained p MachPort
  | MachPortDeallocate p => given_back p MachPort
  | IOObjectRelease o => given_back o KernelObject
  | VmDeallocate address size => given_back address (Region size)
  (** The load information has four words for each processor. *)
  | HostProcessorInfo _ flavor => fun r t t' =>
      let '(result, (_, address, words)) := r in
      (result = KERN_SUCCESS -> flavor = PROCESSOR_CPU_LOAD_INFO -> exists n, length words = 4 * n) /\
      gained_if (bool_decide (result = KERN_SUCCESS)) address
        (Region (Z.of_nat (length words) * size_of_natural_t)) t t'
  | IOMasterPort => fun r => gained_if (bool_decide (fst r = KERN_SUCCESS)) (snd r) MachPort
  | IOServiceGetMatchingServices _ _ => fun r =>
      gained_if (bool_decide (fst r = KERN_SUCCESS)) (snd r) KernelObject
  | IORegistryEntryGetParentEntry _ _ => fun r =>
      gained_if (bool_decide (fst r = KERN_SUCCESS)) (snd r) KernelObject
  | IOIteratorNext _ => fun o => gained_if (negb (bool_decide (o = 0%Z))) o KernelObject
  | _ => fun _ t t' => t' = t
  end.
Definition owned_step {R} (c : call R) : R -> owned -> owned -> Prop :=
  match c in call R return R -> owned -> owned -> Prop with
  | Mac c => mac_step c
  | _ => fun _ t t' => t' = t
  end.

(** What a call needs. *)
Definition needs {R} (c : mac_call R) : option (Z * mac_kind) :=
  match c with
  | MachPortDeallocate p => Some (p, MachPort)
  | HostStatistics p _ _ | HostStatistics64 p _ _ | HostProcessorInfo p _ => Some (p, MachPort)
  | IOServiceGetMatchingServices p _ => Some (p, MachPort)
  | VmDeallocate address size => Some (address, Region size)
  | IOIteratorNext o | IOObjectRelease o | IORegistryEntryGetParentEntry o _
  | IOObjectConformsTo o _ | IORegistryEntryCreateCFProperties o => Some (o, KernelObject)
  | _ => None
  end.
Definition owned_allowed {R} (c : call R) (t : owned) : Prop :=
  match c with
  | Mac c => match needs c with Some r => r ∈ t | None => True end
  | _ => True
  end.

#[export] Instance port_ledger : Ledger owned Z mac_kind := {|
  account_step := @owned_step;
  allowed := @owned_allowed;
  held k v t := (k, v) ∈ t;
  gains := gained;
  loses k v t t' := t' = t ∖ {[+ (k, v) +]};
|}.
#[export] Instance port_laws : LedgerLaws owned Z mac_kind.
Proof.
  split; intros k v t.
  - intros t' ->. cbn. multiset_solver.
  - intros t1 t2 -> ->. cbn. multiset_solver.
Qed.

(** ** The rules of the scopes *)

(** What satisfies [P], and one more. *)
Definition also (P : owned -> Prop) (k : Z) (v : mac_kind) (t : owned) : Prop :=
  exists t0, P t0 /\ t = t0 ⊎ {[+ (k, v) +]}.
Lemma also_gains (P : owned -> Prop) (k : Z) (v : mac_kind) (t t' : owned) : P t -> gains k v t t' -> also P k v t'.
Proof. intros Ht ->. by exists t. Qed.
Lemma also_held (P : owned -> Prop) (k : Z) (v : mac_kind) (t : owned) : also P k v t -> held k v t.
Proof. intros (t0 & _ & ->). cbn. multiset_solver. Qed.
Lemma also_loses (P : owned -> Prop) (k : Z) (v : mac_kind) (t t' : owned) : also P k v t -> loses k v t t' -> P t'.
Proof.
  intros (t0 & Ht & ->) ->. assert (Heq : (t0 ⊎ {[+ (k, v) +]}) ∖ {[+ (k, v) +]} = t0) by multiset_solver.
  by rewrite Heq.
Qed.

Ltac owns :=
  repeat match goal with H : also _ _ _ _ |- _ => destruct H as (? & H & ->) end; multiset_solver.
Ltac keeps_call ::=
  first [ intros ? ? ?; exact id | intros ? ?; cbn; first [exact I | owns] ].
Ltac keeps_helper ::=
  match goal with
  | |- keeps _ (last_ffi_error _ _) => unfold last_ffi_error
  | |- keeps _ (sysctl _ _ _) => unfold sysctl
  | |- keeps _ (sysctlbyname _ _ _) => unfold sysctlbyname
  | |- keeps _ (object_properties _) => unfold object_properties
  | |- keeps _ (conforms_to _ _) => unfold conforms_to
  end.

Lemma releases_given_back (c : mac_call Z) k v :
  needs c = Some (k, v) -> (forall r, mac_step c r = given_back k v r) -> releases (Mac c) k v.
Proof.
  intros Hn Hs t Hk. cbn. rewrite Hn. split; [done|]. intros r t'. rewrite Hs.
  unfold given_back. rewrite decide_True by done. by intros [_ ->].
Qed.

Section scopes.
Context (P : owned -> Prop).

Lemma gives_back_with_object {E A} o (body : io E A) :
  keeps (also P o KernelObject) body -> gives_back (also P o KernelObject) o KernelObject (with_object o body).
Proof.
  intros Hb. apply (gives_back_drop _ (Mac (IOObjectRelease o))).
  - by apply releases_given_back.
  - apply also_held.
  - done.
  - intros. apply keeps_ret.
Qed.

Lemma keeps_with_host_port {A} (body : port -> io Error A) :
  (forall p, keeps (also P p MachPort) (body p)) -> keeps P (with_host_port body).
Proof.
  intros Hb. apply (keeps_opened_in P MachPort Some (fun p => also P p MachPort) (os (Mac MachHostSelf))).
  - by apply opens_os.
  - intros k t t'. apply also_gains.
  - intros p. apply (gives_back_drop _ (Mac (MachPortDeallocate p))).
    + by apply releases_given_back.
    + apply also_held.
    + done.
    + intros a r. fold (@prog_bind (result ()) (result A)). keeps_all.
Qed.

(** A status and what it gives when it is a success. *)
Lemma opens_status (c : mac_call (Z * Z)) (v : mac_kind) (f : Z * Z -> io Error Z) name :
  (forall x, f (KERN_SUCCESS, x) = mret x) ->
  (forall result x, result <> KERN_SUCCESS -> f (result, x) = last_ffi_error id name) ->
  (forall t, P t -> owned_allowed (Mac c) t) ->
  (forall r, mac_step c r = gained_if (bool_decide (fst r = KERN_SUCCESS)) (snd r) v) ->
  opens_from P v (ok_handle id) (ask (Mac c) ≫= f).
Proof.
  intros Hok Herr Ha Hs. apply hoare_ask; [done|]. intros [result x] t _ W h table_of Ht w Hstep.
  cbn in Hstep. rewrite Hs in Hstep. cbn [fst snd] in Hstep. destruct (decide (result = KERN_SUCCESS)) as [->|Hne].
  - rewrite Hok. by rewrite bool_decide_eq_true_2 in Hstep.
  - rewrite Herr by done. rewrite bool_decide_eq_false_2 in Hstep by done.
    assert (Hk : keeps (fun _ : owned => True) (last_ffi_error (A := Z) (F := Error) id name)) by keeps_all.
    destruct (Hk W h table_of Ht w I) as [Hr Hd]. split; [done|]. rewrite Hd.
    cbn. by destruct (h Z GetErrno w).
Qed.
End scopes.

(** The conditions of [opens_status], for the test of the status either way. *)
Ltac open_status :=
  eapply opens_status;
  [ done
  | let Hne := fresh in intros ? ? Hne; cbn; by rewrite (proj2 (Z.eqb_neq _ _) Hne)
  | intros ? ?; cbn; first [exact I | owns]
  | done ].

(** ** The queries *)

Section queries.
Context `{Profile, Units, Statics, CoreFoundation, StatfsSize} (P : owned -> Prop).

Lemma load_of_chunks_words n ws : length ws = 4 * n -> exists stats, load_of_chunks ws = Ok stats.
Proof.
  revert ws. induction n as [|n IH]; intros ws Hl.
  - apply length_zero_iff_nil in Hl as ->. by eexists.
  - do 4 (destruct ws as [|? ws]; [cbn in Hl; lia|]). destruct (IH ws) as [stats Hs]; [cbn in Hl; lia|].
    cbn [load_of_chunks]. rewrite Hs. by eexists.
Qed.

(** The array of load information is unmapped once it is read. *)
Lemma keeps_processor_load_info : keeps P processor_load_info.
Proof.
  apply keeps_with_host_port. intros p. apply hoare_ask; [intros t Hin; cbn; owns|].
  intros [result [[count address] words]] t _ W h table_of Ht w [Hwords Hgain].
  destruct (Z.eqb_spec result KERN_SUCCESS) as [->|Hne]; cbn [negb].
  - destruct (Hwords eq_refl eq_refl) as [n Hn].
    destruct (load_of_chunks_words n words Hn) as [stats Hstats]. rewrite Hstats.
    set (size := (Z.of_nat (length words) * size_of_natural_t)%Z) in *. cbn in Hgain.
    assert (Hgive : gives_back (also (fun _ => True) address (Region size)) address (Region size)
      (result ← ask (Mac (VmDeallocate address size));
       if negb (result =? KERN_SUCCESS)%Z then last_ffi_error id "vm_deallocate" else mret stats)).
    { apply gives_back_ask; [by apply releases_given_back|apply also_held|].
      intros r. keeps_all. }
    destruct (Hgive W h table_of Ht w) as [Hr Hl]; [by eapply also_gains|].
    split; [exact Hr|]. by eapply gains_loses.
  - cbn in Hgain. rewrite bool_decide_eq_false_2 in Hgain by done.
    assert (Hk : keeps (fun _ : owned => True) (last_ffi_error (A := list cpu_load) id "host_processor_info"))
      by keeps_all.
    destruct (Hk W h table_of Ht w I) as [Hr Hd]. split; [exact Hr|]. by rewrite Hd.
Qed.

(** A device is released by the closure it is given to, its parent before it. *)
Lemma gives_back_device Q device :
  gives_back (also Q device KernelObject) device KernelObject (filter_map_block_devices device).
Proof.
  apply gives_back_with_object.
  apply (keeps_scope_in _ (fun k => also (also Q device KernelObject) k KernelObject) KernelObject id).
  - open_status.
  - intros k t t'. apply also_gains.
  - intros parent. apply gives_back_with_object. keeps_all.
Qed.

Lemma keeps_devices_stream fuel iterator :
  keeps (also P iterator KernelObject) (devices_stream fuel iterator).
Proof.
  induction fuel as [|k IH]; cbn [devices_stream]; [apply keeps_ret|].
  apply (keeps_opened_in _ KernelObject (fun r => match r with Ok (Some d) => Some d | _ => None end)
           (fun d => also (also P iterator KernelObject) d KernelObject)).
  - unfold iterator_next. intros W h table_of Ht w Hw.
    pose proof (Ht _ (Mac (IOIteratorNext iterator)) w) as Hstep. cbn in Hstep |- *.
    destruct (h _ (Mac (IOIteratorNext iterator)) w) as [d w1]. cbn in *.
    split; [split; [owns|done]|]. destruct (Z.eqb_spec d 0) as [->|Hne]; [done|].
    by rewrite bool_decide_eq_false_2 in Hstep.
  - intros d t t'. apply also_gains.
  - intros [[d|]|e|]; [|apply keeps_ret..].
    apply (gives_back_bind_in _ (also P iterator KernelObject)).
    + apply gives_back_attempt, gives_back_device.
    + intros t t'. apply also_loses.
    + intros r. keeps_all. apply IH.
Qed.

(** The master port is given back, the iterator is what remains. *)
Lemma with_master_port_opens p (body : io Error io_object) :
  opens_from (also P p MachPort) KernelObject (ok_handle id) body ->
  hoare (also P p MachPort) (with_master_port p body) (fun a t t' =>
    match ok_handle id a with
    | Some k => t' = t ∖ {[+ (p, MachPort) +]} ⊎ {[+ (k, KernelObject) +]}
    | None => t' = t ∖ {[+ (p, MachPort) +]}
    end).
Proof.
  intros Hb W h table_of Ht w Hw. unfold with_master_port.
  rewrite respects_bind, fst_exec_bind, snd_exec_bind.
  destruct (Hb W h table_of Ht w Hw) as [Hr Ho].
  set (a := fst (exec h body w)) in *. set (w1 := snd (exec h body w)) in *. cbn.
  pose proof (Ht _ (Mac (MachPortDeallocate p)) w1) as Hstep. cbn in Hstep.
  destruct (h _ (Mac (MachPortDeallocate p)) w1) as [result w2]. cbn in *.
  assert (Hp : (p, MachPort) ∈ table_of w1).
  { apply also_held in Hw. cbn in Hw. destruct (ok_handle id a); [rewrite Ho|by rewrite Ho]. multiset_solver. }
  unfold given_back in Hstep. rewrite decide_True in Hstep by done. destruct Hstep as [-> ->]. cbn.
  split; [done|]. destruct Hw as (t0 & _ & Hw).
  destruct (ok_handle id a); rewrite Ho, Hw; multiset_solver.
Qed.

Lemma opens_block_devices : opens_from P KernelObject (ok_handle id) block_devices.
Proof.
  intros W h table_of Ht w Hw. unfold block_devices, mbind, io_bind.
  rewrite respects_bind, fst_exec_bind, snd_exec_bind.
  assert (Hnew : opens_from P MachPort (ok_handle id) master_port_new).
  open_status.
  destruct (Hnew W h table_of Ht w Hw) as [Hr Ho].
  set (w1 := snd (exec h master_port_new w)) in *.
  destruct (fst (exec h master_port_new w)) as [p|e|]; [|by split..].
  assert (Hget : opens_from (also P p MachPort) KernelObject (ok_handle id) (get_services p (c_lit "IOMedia"))).
  { unfold get_services. destruct (overflow_checks && _); [by intros ? ? ? ? ? ?|].
    apply opens_after; [done..|keeps_all|]. intros service.
    destruct (service =? kCFNull)%Z; [by intros ? ? ? ? ? ?|]. open_status. }
  destruct (with_master_port_opens p _ Hget W h table_of Ht w1) as [Hr' Ho'].
  { by eapply also_gains. }
  split; [done|]. rewrite Ho in Ho'. set (w2 := snd _) in *. change (id p) with p in Ho'.
  assert (Hp : (table_of w ⊎ {[+ (p, MachPort) +]}) ∖ {[+ (p, MachPort) +]} = table_of w) by multiset_solver.
  rewrite Hp in Ho'. by destruct (fst _).
Qed.

Lemma keeps_disk_io_counters fuel : keeps P (mac_disk_io_counters fuel).
Proof.
  apply (keeps_scope_in P (fun k => also P k KernelObject) KernelObject id).
  - apply opens_block_devices.
  - intros k t t'. apply also_gains.
  - intros iter. apply gives_back_with_object, keeps_devices_stream.
Qed.

(** C9: every query of the macOS back end of heim-cpu, heim-memory and
    heim-disk gives back exactly what it was given - host ports, the master
    port, the iterator, each device and its parent, the mapped array of load
    information - on success, on every error and when it panics, and only
    uses what it owns at the time. *)
Theorem mac_ports_kept fuel :
  keeps P mac_time /\ keeps P mac_times /\ keeps P mac_stats /\ keeps P mac_frequency /\
  keeps P mac_logical_count /\ keeps P mac_physical_count /\ keeps P mac_sys_memory /\
  keeps P mac_swap /\ keeps P mac_partitions /\ keeps P (mac_disk_io_counters fuel) /\
  keeps P (mac_disk_io_counters_physical fuel).
Proof.
  assert (Hvm : keeps P host_vm_info) by (apply keeps_with_host_port; intros p; keeps_all).
  repeat apply conj.
  - apply keeps_fmap, keeps_with_host_port. intros p. keeps_all.
  - apply keeps_fmap, keeps_processor_load_info.
  - apply keeps_fmap, keeps_with_host_port. intros p. keeps_all.
  - unfold mac_frequency, cpu_frequency, cpu_frequency_min, cpu_frequency_max. keeps_all.
  - unfold mac_logical_count. keeps_all.
  - unfold mac_physical_count. keeps_all.
  - unfold mac_sys_memory, hw_memsize. keeps_all. done.
  - unfold mac_swap, vm_swapusage. keeps_all. done.
  - unfold mac_partitions, mounts. keeps_all.
  - apply keeps_disk_io_counters.
  - unfold mac_disk_io_counters_physical. keeps_all. apply keeps_disk_io_counters.
Qed.
End queries.

(** ** A system that keeps the account *)

Definition give_back_in (t : owned) (k : Z) (v : mac_kind) : Z * owned :=
  if decide ((k, v) ∈ t) then (KERN_SUCCESS, t ∖ {[+ (k, v) +]}) else (5%Z, t).
Definition gain_in (t : owned) (k : Z) (v : mac_kind) : owned := t ⊎ {[+ (k, v) +]}.

(** Two processors, and a registry that never runs out of devices. *)
Definition mac_os_step {R} (c : mac_call R) (t : owned) : R * owned :=
  match c in mac_call R return R * owned with
  | MachHostSelf => (11%Z, gain_in t 11 MachPort)
  | MachPortDeallocate p => give_back_in t p MachPort
  | IOObjectRelease o => give_back_in t o KernelObject
  | VmDeallocate address size => give_back_in t address (Region size)
  | HostProcessorInfo _ _ =>
      ((KERN_SUCCESS, (2%Z, 4096%Z, [1; 2; 3; 4; 5; 6; 7; 8]%Z)), gain_in t 4096 (Region 32))
  | IOMasterPort => ((KERN_SUCCESS, 12%Z), gain_in t 12 MachPort)
  | IOServiceGetMatchingServices _ _ => ((KERN_SUCCESS, 20%Z), gain_in t 20 KernelObject)
  | IORegistryEntryGetParentEntry _ _ => ((KERN_SUCCESS, 30%Z), gain_in t 30 KernelObject)
  | IOIteratorNext _ => (21%Z, gain_in t 21 KernelObject)
  | c => (mac_refused c, t)
  end.
Definition mac_os : handler owned := fun R c t =>
  match c in call R return R * owned with
  | Mac c => mac_os_step c t
  | c => (fst (snapshot (fun _ => Err (Os errno.ENOENT)) (fun _ => []) _ c tt), t)
  end.

Lemma give_back_in_step t k v : given_back k v (fst (give_back_in t k v)) t (snd (give_back_in t k v)).
Proof. unfold given_back, give_back_in. by destruct (decide _). Qed.
#[export] Instance mac_os_accounts : Accounts mac_os (id : owned -> owned).
Proof.
  intros R c t. destruct c; try done. destruct c; try done; cbn; try apply give_back_in_step.
  split; [intros _ _; by exists 2|done].
Qed.
