(* ===== verification/MacNetSpec.v ===== *)
(** * heim-net on macOS: the messages come back as counters *)

From S2P Require Import Prelude RustStr Layout RustFloat Units Errors MacCalls Sys.
From S2P Require Import Streams ProcFs Cpu Host MacSys MacNet.

(** ** The block of messages

    A message is its length, version and type, and what follows; an
    [RTM_IFINFO2] message has the fields that are read between others that
    are not. *)

Record raw_parts := mkRawParts {
  raw_version : byte;
  raw_flags : str;
  raw_queues : str;
  raw_kind : str;
  raw_collisions : str;
  raw_multicasts : str;
  raw_rest : str;
}.
Definition raw_ok (p : raw_parts) : Prop :=
  length (raw_flags p) = 8 /\ length (raw_queues p) = 18 /\ length (raw_kind p) = 24 /\
  length (raw_collisions p) = 8 /\ length (raw_multicasts p) = 16 /\ 32 <= length (raw_rest p).

Definition data_bytes (p : raw_parts) (d : if_data64) : str :=
  raw_kind p ++ uint_bytes 8 (ifi_ipackets d) ++ uint_bytes 8 (ifi_ierrors d) ++
  uint_bytes 8 (ifi_opackets d) ++ uint_bytes 8 (ifi_oerrors d) ++ raw_collisions p ++
  uint_bytes 8 (ifi_ibytes d) ++ uint_bytes 8 (ifi_obytes d) ++ raw_multicasts p ++
  uint_bytes 8 (ifi_iqdrops d) ++ raw_rest p.
Definition u64 (z : Z) : Prop := (0 <= z < 2 ^ 64)%Z.
Definition data_ok (d : if_data64) : Prop :=
  u64 (ifi_ipackets d) /\ u64 (ifi_ierrors d) /\ u64 (ifi_opackets d) /\ u64 (ifi_oerrors d) /\
  u64 (ifi_ibytes d) /\ u64 (ifi_obytes d) /\ u64 (ifi_iqdrops d).

Inductive route_message :=
| InfoMessage (p : raw_parts) (index : Z) (d : if_data64)
| OtherMessage (version : byte) (type : Z) (body : str).

Section messages.
Context `{Profile, DarwinNet}.

Definition message_body (m : route_message) : str :=
  match m with
  | InfoMessage p index d => raw_flags p ++ uint_bytes 2 index ++ raw_queues p ++ data_bytes p d
  | OtherMessage _ _ body => body
  end.
Definition message_version (m : route_message) : byte :=
  match m with InfoMessage p _ _ => raw_version p | OtherMessage v _ _ => v end.
Definition message_type (m : route_message) : Z :=
  match m with InfoMessage _ _ _ => RTM_IFINFO2 | OtherMessage _ t _ => t end.
Definition message_bytes (m : route_message) : str :=
  uint_bytes 2 (4 + Z.of_nat (length (message_body m))) ++ [message_version m] ++
  uint_bytes 1 (message_type m) ++ message_body m.
Definition message_ok (m : route_message) : Prop :=
  (0 <= message_type m < 2 ^ 8)%Z /\
  (4 < 4 + Z.of_nat (length (message_body m)) < 2 ^ 16)%Z /\
  match m with
  | InfoMessage p index d => raw_ok p /\ (0 <= index < 2 ^ 16)%Z /\ data_ok d
  | OtherMessage _ type _ => type <> RTM_IFINFO2
  end.
(** What is reported of a message. *)
Definition message_header (m : route_message) : option if_msghdr2 :=
  match m with
  | InfoMessage _ index d => Some (mkIfMsgHdr2 RTM_IFINFO2 index d)
  | OtherMessage _ _ _ => None
  end.

(** ** Reading the fields *)

Lemma uint_at_skip {E} width offset a b :
  length a <= offset -> uint_at (E := E) width offset (a ++ b) = uint_at width (offset - length a) b.
Proof.
  intros Ha. unfold uint_at. rewrite length_app, drop_app_ge by done.
  destruct (decide (offset - length a + width <= length b)).
  - rewrite !bool_decide_eq_true_2 by lia. done.
  - rewrite !bool_decide_eq_false_2 by lia. done.
Qed.
Lemma uint_at_front {E} width offset z b :
  offset = 0 -> (0 <= z < 256 ^ Z.of_nat width)%Z ->
  uint_at (E := E) width offset (uint_bytes width z ++ b) = Ok z.
Proof. intros -> Hz. by apply (uint_at_bytes width 0 [] z b). Qed.

(** Steps over the parts before the field that is read. *)
Ltac read_field :=
  repeat (rewrite uint_at_skip by (rewrite ?length_uint_bytes; cbn [length]; lia));
  rewrite ?length_uint_bytes; cbn [length];
  rewrite uint_at_front by (cbn; lia); cbn [mbind res_bind].

Lemma if_data64_at_bytes {E} p d rest :
  raw_ok p -> data_ok d -> if_data64_at (E := E) (data_bytes p d ++ rest) = Ok d.
Proof.
  intros (H1 & H2 & H3 & H4 & H5 & H6) (D1 & D2 & D3 & D4 & D5 & D6 & D7). unfold u64 in *.
  unfold if_data64_at, data_bytes. rewrite <- !app_assoc. do 7 read_field. by destruct d.
Qed.

Lemma length_data p d : raw_ok p -> 136 <= length (data_bytes p d).
Proof.
  intros (H1 & H2 & H3 & H4 & H5 & H6). unfold data_bytes.
  rewrite !length_app, !length_uint_bytes, H3, H4, H5. lia.
Qed.

Lemma length_message m : length (message_bytes m) = 4 + length (message_body m).
Proof. unfold message_bytes. rewrite !length_app, !length_uint_bytes. done. Qed.

Lemma message_partial {E} m rest :
  message_ok m ->
  if_msghdr_partial_at (E := E) (message_bytes m ++ rest)
  = Ok (mkIfMsgHdrPartial (Z.of_nat (length (message_bytes m))) (message_type m)).
Proof.
  intros (Ht & Hl & _). unfold if_msghdr_partial_at. rewrite length_message.
  unfold message_bytes. rewrite <- !app_assoc. do 2 read_field. do 2 f_equal. lia.
Qed.

Lemma message_info {E} p index d rest :
  message_ok (InfoMessage p index d) ->
  if_msghdr2_at (E := E) (message_bytes (InfoMessage p index d) ++ rest) = Ok (mkIfMsgHdr2 RTM_IFINFO2 index d).
Proof.
  intros (Ht & Hl & Hraw & Hi & Hd). pose proof (length_data p d Hraw) as Hdata.
  assert (Hlen : 168 <= length (message_bytes (InfoMessage p index d))).
  { rewrite length_message. cbn [message_body]. destruct Hraw as (H1 & H2 & _).
    rewrite !length_app, length_uint_bytes, H1, H2. lia. }
  unfold if_msghdr2_at. rewrite bool_decide_eq_false_2 by (rewrite length_app; unfold size_of_if_msghdr2; lia).
  assert (Hdrop : drop offset_of_ifm_data (message_bytes (InfoMessage p index d) ++ rest) = data_bytes p d ++ rest).
  { destruct Hraw as (H1 & H2 & _). unfold message_bytes, message_body, offset_of_ifm_data.
    rewrite !app_assoc, <- (app_assoc _ (data_bytes p d)). rewrite drop_app_length'; [done|].
    rewrite !length_app, !length_uint_bytes, H1, H2. done. }
  rewrite Hdrop, if_data64_at_bytes by done. clear Hdrop Hlen.
  destruct Hraw as (H1 & H2 & _). unfold message_bytes, message_body in *. rewrite <- !app_assoc.
  cbn [message_type] in *. do 2 read_field. done.
Qed.

(** ** The walk *)

Lemma drop_at (a b : str) : drop (length a) (a ++ b) = b.
Proof. apply drop_app_length. Qed.

Lemma routes_next_message {E} fuel before m after :
  message_ok m ->
  let next := mkRoutes (length (before ++ message_bytes m)) (before ++ message_bytes m ++ after) in
  routes_next (E := E) (S fuel) (mkRoutes (length before) (before ++ message_bytes m ++ after)) =
  match message_header m with
  | Some hdr => Ok (Some (Some hdr, next))
  | None => routes_next fuel next
  end.
Proof.
  intros Hm. cbn zeta. pose proof Hm as (Ht & Hl & Hcase). cbn [routes_next].
  rewrite bool_decide_eq_false_2 by (rewrite !length_app, length_message; lia).
  rewrite bool_decide_eq_true_2 by (rewrite !length_app, length_message; unfold size_of_if_msghdr_partial; lia).
  cbn [negb]. rewrite drop_at, message_partial by done. cbn [mbind res_bind partial_msglen partial_type].
  rewrite Nat2Z.id, bool_decide_eq_true_2 by (rewrite !length_app; lia). rewrite andb_false_r.
  rewrite <- length_app. destruct m as [p index d|version type body]; cbn [message_header message_type].
  - rewrite Z.eqb_refl, message_info by done. cbn [mbind res_bind ifm_type]. rewrite Z.eqb_refl.
    by rewrite andb_false_r.
  - by rewrite (proj2 (Z.eqb_neq _ _) Hcase).
Qed.

(** At the end of the block, and where too little is left for a header. *)
Lemma routes_next_end {E} fuel data : routes_next (E := E) (S fuel) (mkRoutes (length data) data) = Ok (Some (None, mkRoutes (length data) data)).
Proof. cbn. by rewrite bool_decide_eq_true_2. Qed.
Lemma routes_next_short {E} fuel before tail :
  tail <> [] -> length tail <= 4 ->
  routes_next (E := E) (S fuel) (mkRoutes (length before) (before ++ tail)) = Panic.
Proof.
  intros Hne Hl. cbn. destruct tail as [|c tail]; [done|]. cbn in Hl.
  rewrite bool_decide_eq_false_2 by (rewrite length_app; cbn; lia).
  by rewrite bool_decide_eq_false_2 by (rewrite length_app; unfold size_of_if_msghdr_partial; cbn; lia).
Qed.

(** ** The counters *)

Context `{Units} {W : Type} (h : handler W) (w : W) (name_of : Z -> option (str * str)) (error : Z).
Hypothesis Hsteady : steady h w.
(** The name in the buffer is closed by a null byte. *)
Hypothesis Hname : forall i,
  fst (h _ (Mac (IfIndexToName i)) w) = (fun '(name, junk) => name ++ NUL :: junk) <$> name_of i.
Hypothesis Hplain : forall i name junk, name_of i = Some (name, junk) -> NUL ∉ name.
Hypothesis Herrno : fst (h _ GetErrno w) = error.

(** What the stream has for a message. *)
Definition item_of (hdr : if_msghdr2) : result MacNetCounters :=
  match name_of (ifm_index hdr) with
  | Some (name, _) => Ok (mkMacNetCounters (to_string_lossy name) hdr)
  | None => Err (with_ffi (last_os_error error) (lit "if_indextoname"))
  end.
Definition items_of (ms : list route_message) : list (result MacNetCounters) :=
  map item_of (omap message_header ms).

Lemma first_nul name junk :
  NUL ∉ name -> take (default 0 (fst <$> list_find (fun c => c = NUL) (name ++ NUL :: junk))) (name ++ NUL :: junk) = name.
Proof.
  intros Hn. assert (Hf : list_find (fun c => c = NUL) (name ++ NUL :: junk) = Some (length name, NUL)).
  { apply list_find_Some. split; [by rewrite list_lookup_middle|]. split; [done|].
    intros j y Hj Hlt ->. apply Hn. rewrite lookup_app_l in Hj by done. by eapply list_elem_of_lookup_2. }
  rewrite Hf. apply take_app_length.
Qed.

Lemma result_interface hdr :
  result_of h (interface_counters hdr) w = item_of hdr.
Proof.
  unfold interface_counters, item_of, last_ffi_error. run. rewrite Hname.
  destruct (name_of (ifm_index hdr)) as [[name junk]|] eqn:Hi; cbn [fmap option_fmap option_map]; run.
  - by rewrite first_nul by (by eapply Hplain).
  - by rewrite Herrno.
Qed.

(** One round of the stream, with the fuel of the walk and that of the rest. *)
Definition stream_round (n k : nat) (r : Routes) : io Error (option (list (result MacNetCounters))) :=
  next ← lift (routes_next n r);
  match next with
  | None => mret None
  | Some (None, _) => mret (Some [])
  | Some (Some msg, r) =>
      item ← attempt (interface_counters msg);
      rest ← counters_stream k r;
      mret (fmap (M := option) (cons match item with inr c => Ok c | inl e => Err e end) rest)
  end.

Lemma stream_round_messages ms tail before n k :
  Forall message_ok ms -> length tail <= 4 -> length ms < n -> length ms <= k ->
  result_of h (stream_round n k (mkRoutes (length before) (before ++ concat (map message_bytes ms) ++ tail))) w
  = if decide (tail = []) then Ok (Some (items_of ms)) else Panic.
Proof.
  intros Hms Htail. revert before n k. induction Hms as [|m ms Hm Hms IH]; intros before n k Hn Hk;
    (destruct n as [|n]; [lia|]); unfold stream_round; cbn [map concat].
  - rewrite app_nil_l. destruct (decide (tail = [])) as [->|Hne].
    + rewrite app_nil_r, routes_next_end. by run.
    + rewrite routes_next_short by done. by run.
  - rewrite <- !app_assoc, routes_next_message by done. cbn [length] in Hn, Hk.
    rewrite (app_assoc before (message_bytes m)).
    destruct (message_header m) as [hdr|] eqn:Hhdr.
    + run. rewrite result_interface. destruct k as [|k]; [lia|].
      change (counters_stream (S k)) with (stream_round (S k) k).
      unfold items_of. cbn [omap list_omap]. rewrite Hhdr. cbn [map].
      destruct (item_of hdr) as [c|e|] eqn:Hitem; run;
        [rewrite IH by lia; by destruct (decide (tail = []))..|].
      unfold item_of in Hitem. by destruct (name_of (ifm_index hdr)) as [[]|].
    + change (result_of h (stream_round n k
        (mkRoutes (length (before ++ message_bytes m))
           ((before ++ message_bytes m) ++ concat (map message_bytes ms) ++ tail))) w
        = if decide (tail = []) then Ok (Some (items_of (m :: ms))) else Panic).
      rewrite IH by lia. unfold items_of. cbn [omap list_omap]. by rewrite Hhdr.
Qed.

(** C11: the counters of the interfaces are those of the messages of type
    [RTM_IFINFO2] in the block that the kernel gives, in order and with every
    field as it was written, whatever else lies in the messages and between
    them; a name that cannot be found is an error item.  A block that ends in
    one to four bytes that are no message panics. *)
Theorem mac_net_messages ms tail size fuel :
  Forall message_ok ms -> length tail <= 4 -> length ms < fuel ->
  let data := concat (map message_bytes ms) ++ tail in
  let name := [CTL_NET; PF_ROUTE; 0; 0; NET_RT_IFLIST2; 0]%Z in
  (0 <= size < 2 ^ 63)%Z ->
  fst (fst (h _ (Sysctl name None 0) w)) = 0%Z ->
  snd (snd (fst (h _ (Sysctl name None 0) w))) = size ->
  (exists rest, fst (h _ (Sysctl name (Some size) size) w)
                = (0%Z, (data ++ rest, Z.of_nat (length data)))) ->
  result_of h (mac_net_io_counters fuel) w
  = if decide (tail = []) then Ok (Some (items_of ms)) else Panic.
Proof.
  cbn zeta. intros Hms Htail Hfuel Hsize Hstatus Hs [rest Hdata]. unfold mac_net_io_counters, net_pf_route. run.
  destruct (fst (h _ (Sysctl _ None 0) w)) as [status [buffer size']]. cbn [fst snd] in Hstatus, Hs. subst.
  change (negb (0 =? 0)%Z) with false. cbv beta iota.
  rewrite (proj2 (Z.leb_gt _ _)) by lia. run. rewrite Hdata. cbv beta iota. change (0 =? 0)%Z with true. run.
  rewrite Nat2Z.id, take_app_length. destruct fuel as [|fuel]; [lia|].
  by apply (stream_round_messages ms tail [] (S fuel) fuel); [..|lia].
Qed.
End messages.

(** Two messages, the first one of another type. *)
Definition test_net : DarwinNet := {| CTL_NET := 4; PF_ROUTE := 17; NET_RT_IFLIST2 := 6; RTM_IFINFO2 := 18 |}.
Definition test_data : if_data64 := mkIfData 10 0 11 1 1500 1600 2.
Definition test_messages : list route_message :=
  [OtherMessage "005" 12 (lit "address");
   InfoMessage (mkRawParts "005" (replicate 8 NUL) (replicate 18 NUL) (replicate 24 NUL)
                  (replicate 8 NUL) (replicate 16 NUL) (replicate 40 NUL)) 1 test_data].
Definition test_block : str := concat (map (@message_bytes test_net) test_messages).
Definition test_name_of (i : Z) : option (str * str) := if (i =? 1)%Z then Some (lit "lo0", [NUL]) else None.
Definition test_network : handler unit := fun R c w =>
  (match c in call R return R with
   | Sysctl _ None _ => (0%Z, ([], 512%Z))
   | Sysctl _ (Some _) _ => (0%Z, (test_block ++ replicate 20 NUL, Z.of_nat (length test_block)))
   | Mac c => match c in mac_call R return R with
              | IfIndexToName i => (fun '(name, junk) => name ++ NUL :: junk) <$> test_name_of i
              | c => mac_refused c
              end
   | c => fst (snapshot (fun _ => Err (Os errno.ENOENT)) (fun _ => []) _ c tt)
   end, w).

Lemma mac_net_messages_witness :
  result_of test_network (@mac_net_io_counters true test_net 3) tt
  = Ok (Some [Ok (mkMacNetCounters (lit "lo0") (mkIfMsgHdr2 18 1 test_data))]).
Proof.
  rewrite (@mac_net_messages true test_net unit test_network tt test_name_of 0
             ltac:(by intros R [] ) ltac:(done)
             ltac:(intros i name junk; unfold test_name_of; destruct (i =? 1)%Z; [|done];
                   intros Heq; injection Heq as <- <-; vm_compute; set_solver)
             eq_refl test_messages [] 512 3).
  - reflexivity.
  - repeat constructor; vm_compute; try done; try (split; congruence); intros ?; congruence.
  - cbn; lia.
  - cbn; lia.
  - done.
  - reflexivity.
  - reflexivity.
  - exists (replicate 20 NUL). reflexivity.
Defined.
