(* ===== verification/MacDiskSpec.v ===== *)
(** * heim-disk and heim-memory on macOS: what the queries report *)

From S2P Require Import Prelude RustStr Layout RustFloat Units Errors MacCalls Sys Ownership.
From S2P Require Import Streams ProcFs Cpu Host Disk MacSys MacCpu MacDisk.

(** ** A registry of devices

    What IOKit documents of a registry that does not change.  It has objects, in
    an order; an object is of some classes, has a parent in every plane or
    none, and its properties.  A matching dictionary is made for the name of a
    class, and the iterator made for the dictionary gives the objects of that
    class, each once. *)

Record registry := mkRegistry {
  objects : list io_object;
  conforms : io_object -> str -> bool;
  parent_in : str -> io_object -> option io_object;
  properties_of : io_object -> option dictionary;
  refused : Z;
  matching_of : str -> Z;
  iterator_of : Z -> io_object;
}.
Definition of_class (g : registry) (class : str) : list io_object := List.filter (fun o => conforms g o class) (objects g).

Definition moves_iterator {R} (c : call R) : bool :=
  match c with Mac (IOIteratorNext _) | Mac (IOServiceGetMatchingServices _ _) => true | _ => false end.

(** [remaining w it]: what the iterator [it] still has to give. *)
Class Registry `{CoreFoundation} {W} (h : handler W) (g : registry) (remaining : W -> io_object -> list io_object) : Prop := {
  registry_next it w :
    match remaining w it with
    | [] => fst (h _ (Mac (IOIteratorNext it)) w) = 0%Z /\
            remaining (snd (h _ (Mac (IOIteratorNext it)) w)) it = []
    | o :: rest => o <> 0%Z /\ fst (h _ (Mac (IOIteratorNext it)) w) = o /\
            remaining (snd (h _ (Mac (IOIteratorNext it)) w)) it = rest
    end;
  registry_parent o plane w :
    match parent_in g plane o with
    | Some p => fst (h _ (Mac (IORegistryEntryGetParentEntry o plane)) w) = (KERN_SUCCESS, p)
    | None => fst (fst (h _ (Mac (IORegistryEntryGetParentEntry o plane)) w)) <> KERN_SUCCESS
    end;
  registry_conforms o class w :
    fst (h _ (Mac (IOObjectConformsTo o class)) w) = (if conforms g o class then 1%Z else 0%Z);
  registry_properties o w :
    match properties_of g o with
    | Some d => fst (h _ (Mac (IORegistryEntryCreateCFProperties o)) w) = (KERN_SUCCESS, d)
    | None => fst (fst (h _ (Mac (IORegistryEntryCreateCFProperties o)) w)) <> KERN_SUCCESS
    end;
  registry_release o w : fst (h _ (Mac (IOObjectRelease o)) w) = KERN_SUCCESS;
  registry_deallocate p w : fst (h _ (Mac (MachPortDeallocate p)) w) = KERN_SUCCESS;
  registry_matching class w : fst (h _ (Mac (IOServiceMatching class)) w) = matching_of g class;
  registry_matched class : matching_of g class <> kCFNull;
  registry_master w : fst (fst (h _ (Mac IOMasterPort) w)) = KERN_SUCCESS;
  registry_services p class w :
    let '(answer, w') := h _ (Mac (IOServiceGetMatchingServices p (matching_of g class))) w in
    answer = (KERN_SUCCESS, iterator_of g (matching_of g class)) /\
    remaining w' (iterator_of g (matching_of g class)) = of_class g class;
  registry_errno w : fst (h _ GetErrno w) = refused g;
  registry_frame R (c : call R) w : moves_iterator c = false -> remaining (snd (h R c w)) = remaining w;
}.

Section registry.
Context `{Profile, Units, CoreFoundation} {W : Type} (h : handler W) (g : registry) (remaining : W -> io_object -> list io_object).
Context `{!Registry h g remaining}.

(** [p] has the result [r], and moves no iterator. *)
Definition answers {A} (p : prog A) (r : A) : Prop :=
  forall w, fst (exec h p w) = r /\ remaining (snd (exec h p w)) = remaining w.

Lemma answers_ret {A} (a : A) : answers (Ret a) a.
Proof. by intros w. Qed.
Lemma answers_prog_bind {A B} (p : prog A) (f : A -> prog B) a r :
  answers p a -> answers (f a) r -> answers (prog_bind p f) r.
Proof.
  intros Hp Hf w. rewrite fst_exec_bind, snd_exec_bind. destruct (Hp w) as [-> Hrem].
  destruct (Hf (snd (exec h p w))) as [-> Hrem']. by rewrite Hrem'.
Qed.
(** The program goes on in the same way after every answer with [Q]. *)
Lemma answers_do {R A} (Q : R -> Prop) (c : call R) (k : R -> prog A) a :
  moves_iterator c = false -> (forall w, Q (fst (h R c w))) -> (forall r, Q r -> answers (k r) a) ->
  answers (Do c k) a.
Proof.
  intros Hm HQ Hk w. pose proof (registry_frame R c w Hm) as Hf. specialize (HQ w). cbn.
  destruct (h R c w) as [r w1]. cbn in *. destruct (Hk r HQ w1) as [-> ->]. by rewrite Hf.
Qed.
Lemma answers_ask {E R A} (Q : R -> Prop) (c : call R) (f : R -> io E A) a :
  moves_iterator c = false -> (forall w, Q (fst (h R c w))) -> (forall r, Q r -> answers (f r) a) ->
  answers (ask c ≫= f) a.
Proof. apply answers_do. Qed.
Lemma answers_bind {E A B} (p : io E A) (f : A -> io E B) a r :
  answers p (Ok a) -> answers (f a) r -> answers (p ≫= f) r.
Proof. intros Hp Hf. by eapply answers_prog_bind. Qed.
Lemma answers_bind_err {E A B} (p : io E A) (f : A -> io E B) e :
  answers p (Err e) -> answers (p ≫= f) (Err e).
Proof. intros Hp. eapply answers_prog_bind; [done|apply answers_ret]. Qed.

Definition registry_error (name : string) : Error := with_ffi (last_os_error (refused g)) (lit name).
Lemma answers_error {A} name : answers (last_ffi_error (A := A) id name) (Err (registry_error name)).
Proof. apply (answers_ask (fun e => e = refused g)); [done|apply registry_errno|]. intros r ->. apply answers_ret. Qed.

Lemma answers_with_object {A} o (body : io Error A) r : answers body r -> answers (with_object o body) r.
Proof.
  intros Hb. eapply answers_prog_bind; [done|].
  apply (answers_do (fun z => z = KERN_SUCCESS)); [done|apply registry_release|]. intros z ->. apply answers_ret.
Qed.

(** ** What is reported of a device *)

Definition object_properties_of (o : io_object) : result dictionary :=
  match properties_of g o with
  | Some d => Ok d
  | None => Err (registry_error "IORegistryEntryCreateCFProperties")
  end.
Definition service_plane : str := c_lit "IOService".
Definition is_storage (o : io_object) : bool := conforms g o (c_lit "IOBlockStorageDriver").
Definition media : list io_object := of_class g (c_lit "IOMedia").
Definition device_report (device : io_object) : result (option MacDiskCounters) :=
  match parent_in g service_plane device with
  | None => Err (registry_error "IORegistryEntryGetParentEntry")
  | Some parent =>
      if is_storage parent then
        disk_props ← object_properties_of device;
        parent_props ← object_properties_of parent;
        Some <$> device_counters disk_props parent_props
      else Ok None
  end.

Lemma answers_properties o : answers (object_properties o) (object_properties_of o).
Proof.
  pose proof (registry_properties o) as Hp. unfold object_properties, object_properties_of.
  destruct (properties_of g o) as [d|].
  - apply (answers_ask (fun r => r = (KERN_SUCCESS, d))); [done..|]. intros r ->. apply answers_ret.
  - apply (answers_ask (fun r => fst r <> KERN_SUCCESS)); [done..|]. intros [z props] Hz. cbn in Hz.
    rewrite (proj2 (Z.eqb_neq _ _) Hz). apply answers_error.
Qed.
Lemma answers_parent o plane :
  answers (object_parent o plane) (match parent_in g plane o with
                                   | Some p => Ok p
                                   | None => Err (registry_error "IORegistryEntryGetParentEntry")
                                   end).
Proof.
  pose proof (registry_parent o plane) as Hp. unfold object_parent. destruct (parent_in g plane o) as [p|].
  - apply (answers_ask (fun r => r = (KERN_SUCCESS, p))); [done..|]. intros r ->. apply answers_ret.
  - apply (answers_ask (fun r => fst r <> KERN_SUCCESS)); [done..|]. intros [z p] Hz. cbn in Hz.
    rewrite (proj2 (Z.eqb_neq _ _) Hz). apply answers_error.
Qed.

Lemma answers_device device : answers (filter_map_block_devices device) (device_report device).
Proof.
  apply answers_with_object. unfold device_report. pose proof (answers_parent device service_plane) as Hp.
  destruct (parent_in g service_plane device) as [parent|]; [|by apply answers_bind_err].
  eapply answers_bind; [done|]. apply answers_with_object.
  apply (answers_bind _ _ (is_storage parent)).
  { apply (answers_ask (fun z => z = if is_storage parent then 1%Z else 0%Z)); [done|intros; apply registry_conforms|].
    intros z ->. destruct (is_storage parent); apply answers_ret. }
  destruct (is_storage parent); [|apply answers_ret]. cbn [negb].
  pose proof (answers_properties device) as Hd. pose proof (answers_properties parent) as Hpp.
  destruct (object_properties_of device) as [disk_props|e|] eqn:Hdisk;
    [|by apply answers_bind_err|by unfold object_properties_of in Hdisk; destruct (properties_of g device)].
  eapply answers_bind; [done|].
  destruct (object_properties_of parent) as [parent_props|e|] eqn:Hparent;
    [|by apply answers_bind_err|by unfold object_properties_of in Hparent; destruct (properties_of g parent)].
  eapply answers_bind; [done|]. cbn.
  destruct (device_counters disk_props parent_props); apply answers_ret.
Qed.

(** ** The counters of a well-formed device *)

Record disk_facts := mkDiskFacts {
  fact_name : str;
  fact_removable : bool;
  fact_operations : Z * Z;
  fact_bytes : Z * Z;
  fact_nanoseconds : Z * Z;
}.

(** The name and whether it is removable are properties of the device, the
    numbers (of reading, of writing) are in the statistics of its parent. *)
Definition describes (f : disk_facts) (disk parent : dictionary) : Prop :=
  dictionary_find disk "BSD Name" = Some (CFString (fact_name f)) /\
  dictionary_find disk "Removable" = Some (CFBoolean (fact_removable f)) /\
  exists stats, dictionary_find parent "Statistics" = Some (CFDictionary stats) /\
  let number key n := dictionary_find stats key = Some (CFNumber (Some n)) in
  let both what := fun '(r, w) => number (String.append what " (Read)") r /\ number (String.append what " (Write)") w in
  both "Operations"%string (fact_operations f) /\ both "Bytes"%string (fact_bytes f) /\
  both "Total Time"%string (fact_nanoseconds f).
Definition counters_of_facts (f : disk_facts) : MacDiskCounters := {|
  mac_device := fact_name f;
  mac_removable := fact_removable f;
  mac_reads := wrap 64 (fst (fact_operations f));
  mac_writes := wrap 64 (snd (fact_operations f));
  mac_read_bytes := information_byte (wrap 64 (fst (fact_bytes f)));
  mac_write_bytes := information_byte (wrap 64 (snd (fact_bytes f)));
  mac_read_time := time_nanosecond (f64_of_int (fst (fact_nanoseconds f)));
  mac_write_time := time_nanosecond (f64_of_int (snd (fact_nanoseconds f)));
|}.

Lemma get_string_ok d key s : get_string d key = Ok s <-> dictionary_find d key = Some (CFString s).
Proof. unfold get_string. repeat case_match; naive_solver. Qed.
Lemma get_bool_ok d key b : get_bool d key = Ok b <-> dictionary_find d key = Some (CFBoolean b).
Proof. unfold get_bool. repeat case_match; naive_solver. Qed.
Lemma get_i64_ok d key n : get_i64 d key = Ok n <-> dictionary_find d key = Some (CFNumber (Some n)).
Proof. unfold get_i64. repeat case_match; naive_solver. Qed.
Lemma get_dict_ok d key inner : get_dict d key = Ok inner <-> dictionary_find d key = Some (CFDictionary inner).
Proof. unfold get_dict. repeat case_match; naive_solver. Qed.

Lemma device_counters_ok disk parent c :
  device_counters disk parent = Ok c <-> exists f, describes f disk parent /\ c = counters_of_facts f.
Proof.
  unfold device_counters, describes. split.
  - intros Hc. repeat (apply res_bind_ok in Hc as (? & ? & Hc)).
    repeat match goal with
    | H : get_string _ _ = _ |- _ => apply get_string_ok in H
    | H : get_bool _ _ = _ |- _ => apply get_bool_ok in H
    | H : get_i64 _ _ = _ |- _ => apply get_i64_ok in H
    | H : get_dict _ _ = _ |- _ => apply get_dict_ok in H
    end.
    injection Hc as <-.
    match goal with
    | Hs : _ = Some (CFString ?name), Hb : _ = Some (CFBoolean ?removable) |- _ =>
        eexists (mkDiskFacts name removable (_, _) (_, _) (_, _))
    end.
    split; [|reflexivity]. split_and!; [done..|]. eexists. by split_and!.
  - intros (f & (Hn & Hr & stats & Hs & Hops & Hbytes & Htime) & ->).
    destruct f as [name removable [r w] [rb wb] [rt wt]]. destruct Hops, Hbytes, Htime.
    rewrite (proj2 (get_string_ok _ _ _) Hn). cbn.
    rewrite (proj2 (get_dict_ok _ _ _) Hs). cbn. rewrite (proj2 (get_bool_ok _ _ _) Hr). cbn.
    by repeat (erewrite (proj2 (get_i64_ok _ _ _)) by eassumption; cbn).
Qed.

(** A disk of the registry: an object of class IOMedia whose parent in the
    plane IOService is a block storage driver. *)
Definition registered (device : io_object) (f : disk_facts) : Prop :=
  exists p disk parent, parent_in g service_plane device = Some p /\ is_storage p = true /\
    properties_of g device = Some disk /\ properties_of g p = Some parent /\ describes f disk parent.

Lemma device_report_registered device c :
  device_report device = Ok (Some c) <-> exists f, registered device f /\ c = counters_of_facts f.
Proof.
  unfold device_report, registered, object_properties_of. split.
  - destruct (parent_in g service_plane device) as [p|]; [|done]. destruct (is_storage p) eqn:Hst; [|done].
    destruct (properties_of g device) as [disk|]; [|done]. destruct (properties_of g p) as [parent|] eqn:Hp; [|done].
    cbn. destruct (device_counters disk parent) as [c'|e|] eqn:Hc; [|done..]. cbn. intros [= ->].
    apply device_counters_ok in Hc as (f & Hf & ->). naive_solver.
  - intros (f & (p & disk & parent & -> & -> & -> & -> & Hd) & ->). cbn.
    rewrite (proj2 (device_counters_ok _ _ _)) by eauto. done.
Qed.

(** ** The stream *)

Definition report_items (r : result (option MacDiskCounters)) : list (result MacDiskCounters) :=
  match r with Ok (Some c) => [Ok c] | Ok None => [] | Err e => [Err e] | Panic => [] end.

Lemma report_items_ok (devices : list io_object) c :
  Ok c ∈ concat (map (fun d => report_items (device_report d)) devices) <->
  exists d f, d ∈ devices /\ registered d f /\ c = counters_of_facts f.
Proof.
  induction devices as [|d devices IH]; cbn [map concat]; [set_solver|].
  rewrite elem_of_app, IH. transitivity (device_report d = Ok (Some c) \/
    exists d' f, d' ∈ devices /\ registered d' f /\ c = counters_of_facts f).
  - apply or_iff_compat_r. destruct (device_report d) as [[c'|]|e|]; cbn; rewrite ?list_elem_of_singleton; set_solver.
  - rewrite device_report_registered. set_solver.
Qed.

Lemma devices_stream_reports fuel it w :
  length (remaining w it) < fuel -> Forall (fun d => device_report d <> Panic) (remaining w it) ->
  fst (exec h (devices_stream fuel it) w)
  = Ok (Some (concat (map (fun d => report_items (device_report d)) (remaining w it)))).
Proof.
  remember (remaining w it) as devices eqn:Hrem. revert w fuel Hrem.
  induction devices as [|d devices IH]; intros w fuel Hrem Hl Hok; (destruct fuel as [|fuel]; [cbn in Hl; lia|]);
    pose proof (registry_next it w) as Hnext; rewrite <- Hrem in Hnext; cbn [devices_stream];
    unfold iterator_next; cbn -[filter_map_block_devices devices_stream].
  - destruct Hnext as [Hz Hr]. destruct (h _ (Mac (IOIteratorNext it)) w) as [z w1].
    cbn in Hz, Hr. by subst z.
  - destruct Hnext as (Hd & Hz & Hr). destruct (h _ (Mac (IOIteratorNext it)) w) as [z w1].
    cbn in Hz, Hr. subst z. rewrite (proj2 (Z.eqb_neq _ _) Hd).
    apply Forall_cons in Hok as [Hd1 Hok]. destruct (answers_device d w1) as [Ha Hf].
    rewrite exec_io_bind, exec_attempt.
    destruct (exec h (filter_map_block_devices d) w1) as [r w2]. cbn [fst snd] in *. subst r.
    specialize (IH w2 fuel ltac:(by rewrite Hf) ltac:(cbn in Hl; lia) Hok).
    cbn [map concat]. destruct (device_report d) as [o|e|]; [| |done]; rewrite exec_io_bind;
      destruct (exec h (devices_stream fuel it) w2) as [rest w3]; cbn [fst snd] in *; subst rest.
    + by destruct o.
    + done.
Qed.

Lemma block_devices_media w :
  let it := iterator_of g (matching_of g (c_lit "IOMedia")) in
  fst (exec h block_devices w) = Ok it /\ remaining (snd (exec h block_devices w)) it = media.
Proof.
  cbv zeta. unfold block_devices, master_port_new. rewrite exec_io_bind, exec_io_bind. cbn -[c_lit].
  pose proof (registry_master w) as Hm. destruct (h _ (Mac IOMasterPort) w) as [[z p] w1]. cbn in Hm. subst z. cbn -[c_lit].
  unfold with_master_port, get_services. change (ends_with (c_lit "IOMedia") [NUL]) with true. rewrite andb_false_r.
  rewrite exec_bind, exec_io_bind. cbn -[c_lit].
  pose proof (registry_matching (c_lit "IOMedia") w1) as Hs. destruct (h _ (Mac (IOServiceMatching _)) w1) as [s w2].
  cbn -[c_lit] in *. subst s. rewrite (proj2 (Z.eqb_neq _ _) (registry_matched _)). cbn -[c_lit].
  pose proof (registry_services p (c_lit "IOMedia") w2) as Hserv.
  destruct (h _ (Mac (IOServiceGetMatchingServices _ _)) w2) as [r w3]. destruct Hserv as [-> Hrem]. cbn -[c_lit].
  pose proof (registry_deallocate p w3) as Hd. pose proof (registry_frame _ (Mac (MachPortDeallocate p)) w3 eq_refl) as Hf.
  destruct (h _ (Mac (MachPortDeallocate p)) w3) as [z w4]. cbn -[c_lit] in *. subst z. cbn -[c_lit]. by rewrite Hf.
Qed.

(** C12: the counters of the disks, over a registry that does not change,
    are those of the objects of class IOMedia whose parent in the plane
    IOService is of class IOBlockStorageDriver, in the order of the registry:
    their name, and the operations, bytes and times of the statistics of the
    parent.  A device whose parent or properties are refused, or that lacks a
    key, is an error item and does not end the stream; the stream ends once the
    iterator does.  The physical ones are those whose medium cannot be removed.
    The counters listed are exactly those of the disks that are registered with
    every property, each value in its own field.  (A property of another type
    than expected makes the code panic, and is left out here.) *)
Theorem mac_disk_registry fuel w :
  length media < fuel -> Forall (fun d => device_report d <> Panic) media ->
  let items := concat (map (fun d => report_items (device_report d)) media) in
  fst (exec h (mac_disk_io_counters fuel) w) = Ok (Some items) /\
  fst (exec h (mac_disk_io_counters_physical fuel) w)
  = Ok (Some (try_filter (fun c => negb (mac_removable c)) items)) /\
  (forall c, Ok c ∈ items <-> exists d f, d ∈ media /\ registered d f /\ c = counters_of_facts f).
Proof.
  cbn zeta. intros Hl Hok. apply and_assoc. split; [|intros c; apply report_items_ok].
  assert (Hall : fst (exec h (mac_disk_io_counters fuel) w)
                 = Ok (Some (concat (map (fun d => report_items (device_report d)) media)))).
  { destruct (block_devices_media w) as [Hb Hrem]. unfold mac_disk_io_counters.
    rewrite (exec_ok_bind _ _ _ _ _ Hb). set (w1 := snd (exec h block_devices w)) in *. set (it := iterator_of g _) in *.
    rewrite <- Hrem in Hl, Hok |- *. pose proof (devices_stream_reports fuel it w1 Hl Hok) as Hs.
    unfold with_object. rewrite fst_exec_bind, Hs. set (w2 := snd _). cbn.
    pose proof (registry_release it w2) as Hrel.
    destruct (h _ (Mac (IOObjectRelease it)) w2) as [z w3]. cbn in *. by subst z. }
  split; [done|]. unfold mac_disk_io_counters_physical. by rewrite (exec_ok_bind _ _ _ _ _ Hall).
Qed.
End registry.

(** Three media, and a keyboard: a disk on a storage driver, one with no
    statistics, and one whose parent is no storage driver.  In another plane the
    objects have no parent. *)
Definition test_statistics : CFType := CFDictionary
  [(lit "Operations (Read)", CFNumber (Some 7)); (lit "Operations (Write)", CFNumber (Some 3));
   (lit "Bytes (Read)", CFNumber (Some 4096)); (lit "Bytes (Write)", CFNumber (Some 512));
   (lit "Total Time (Read)", CFNumber (Some 0)); (lit "Total Time (Write)", CFNumber (Some 0))]%Z.
Definition test_registry : registry := {|
  objects := [4; 3; 2; 1]%Z;
  conforms o class :=
    if decide (class = c_lit "IOMedia") then (o <=? 3)%Z
    else if decide (class = c_lit "IOBlockStorageDriver") then negb (o =? 103)%Z
    else bool_decide (class = c_lit "IOHIDKeyboard") && (o =? 4)%Z;
  parent_in plane o := if decide (plane = c_lit "IOService") then Some (o + 100)%Z else None;
  properties_of o :=
    Some (if (o =? 101)%Z then [(lit "Statistics", test_statistics)]
          else if (o =? 102)%Z then []
          else [(lit "BSD Name", CFString (lit "disk0")); (lit "Removable", CFBoolean false)]);
  refused := 1;
  matching_of class := if decide (class = c_lit "IOMedia") then 1%Z else if decide (class = c_lit "IOHIDKeyboard") then 2%Z
    else if decide (class = c_lit "IOBlockStorageDriver") then 3%Z else 4%Z;
  iterator_of := id;
|}.
(** The state is what each iterator has left; a null object ends it. *)
Fixpoint not_null (l : list Z) : list Z := match l with [] => [] | o :: l => if (o =? 0)%Z then [] else o :: not_null l end.
Definition test_remaining (w : Z -> list Z) (it : io_object) : list io_object := not_null (w it).
Definition advance (w : Z -> list Z) (it : Z) (l : list Z) : Z -> list Z := fun i => if decide (i = it) then l else w i.
Definition test_objects (service : Z) : list io_object :=
  if (service =? 1)%Z then [3; 2; 1]%Z else if (service =? 2)%Z then [4%Z] else if (service =? 3)%Z then [4; 3; 2; 1]%Z else [].
Definition test_iokit : handler (Z -> list Z) := fun R c w =>
  match c in call R return R * (Z -> list Z) with
  | Mac c =>
      match c in mac_call R return R * (Z -> list Z) with
      | IOIteratorNext it =>
          match not_null (w it) with [] => (0%Z, w) | o :: l => (o, advance w it l) end
      | IORegistryEntryGetParentEntry o plane =>
          (match parent_in test_registry plane o with Some p => (KERN_SUCCESS, p) | None => (5%Z, 0%Z) end, w)
      | IOObjectConformsTo o class => ((if conforms test_registry o class then 1 else 0)%Z, w)
      | IORegistryEntryCreateCFProperties o => ((KERN_SUCCESS, default [] (properties_of test_registry o)), w)
      | IOObjectRelease _ => (KERN_SUCCESS, w)
      | MachPortDeallocate _ => (KERN_SUCCESS, w)
      | IOServiceMatching class => (matching_of test_registry class, w)
      | IOMasterPort => ((KERN_SUCCESS, 9%Z), w)
      | IOServiceGetMatchingServices _ s => ((KERN_SUCCESS, s), advance w s (test_objects s))
      | c => (mac_refused c, w)
      end
  | GetErrno => (1%Z, w)
  | c => (fst (snapshot (fun _ => Err (Os errno.ENOENT)) (fun _ => []) _ c tt), w)
  end.
Lemma not_null_again l o rest : not_null l = o :: rest -> o <> 0%Z /\ not_null rest = rest.
Proof.
  revert o rest. induction l as [|x l IH]; intros o rest; cbn; [done|]. destruct (Z.eqb_spec x 0) as [|Hx]; [done|].
  intros [= <- <-]. split; [done|]. destruct (not_null l) as [|y r] eqn:Hl; [done|].
  destruct (IH _ _ eq_refl) as [Hy Hr]. cbn. by rewrite (proj2 (Z.eqb_neq _ _) Hy), Hr.
Qed.
#[export] Instance test_iokit_registry : @Registry 77%Z (Z -> list Z) test_iokit test_registry test_remaining.
Proof.
  split; try done.
  - intros it w. unfold test_remaining. cbn. destruct (not_null (w it)) as [|o rest] eqn:Hw; cbn; [done|].
    destruct (not_null_again _ _ _ Hw) as [Ho Hr]. unfold advance. by rewrite decide_True.
  - intros o plane w. cbn. by case_decide.
  - intros class. cbn. by repeat case_decide.
  - intros p class w. cbn. split; [done|]. unfold test_remaining, advance. rewrite decide_True by done. unfold id.
    unfold of_class. cbn -[c_lit]. destruct (decide (class = c_lit "IOMedia")) as [->|Hm]; [by vm_compute|].
    destruct (decide (class = c_lit "IOBlockStorageDriver")) as [->|Hb]; [by vm_compute|].
    destruct (decide (class = c_lit "IOHIDKeyboard")) as [->|Hk]; [by vm_compute|].
    by rewrite bool_decide_eq_false_2.
  - intros R c w Hm. destruct c; try done. by destruct c.
Qed.

Lemma mac_disk_registry_witness :
  exists c, fst (exec test_iokit (@mac_disk_io_counters true si_units 77%Z 4) (fun _ => []))
            = Ok (Some [Err (missing_key (lit "Statistics") []); Ok c]) /\ mac_reads c = 7%Z.
Proof.
  eexists. split; [|shelve].
  etransitivity; [apply (@mac_disk_registry true si_units 77%Z _ test_iokit test_registry test_remaining _ 4 (fun _ => []))|].
  - apply (bool_decide_unpack _). by vm_compute.
  - assert (media test_registry = [3; 2; 1]%Z) as -> by by vm_compute.
    repeat constructor; vm_compute; congruence.
  - vm_compute. reflexivity.
  Unshelve. reflexivity.
Defined.
