(* ===== verification/MacCpuSpec.v ===== *)
(** * heim-cpu and heim-memory on macOS: words of the kernel to values *)

From S2P Require Import Prelude RustStr Layout RustFloat Units Errors MacCalls Sys.
From S2P Require Import Streams ProcFs Cpu Host MacSys MacCpu.

Section queries.
Context `{Profile, Units, Statics} {W : Type} (h : handler W) (w : W) (self : port).
Hypothesis Hsteady : steady h w.
Hypothesis Hself : fst (h _ (Mac MachHostSelf) w) = self.
Hypothesis Hdeallocate : fst (h _ (Mac (MachPortDeallocate self)) w) = KERN_SUCCESS.

(** The port is there for the body and its drop goes well. *)
Lemma result_with_host_port {A} (body : port -> io Error A) :
  result_of h (with_host_port body) w = result_of h (body self) w.
Proof.
  unfold with_host_port. run. rewrite Hself. rewrite !result_bind by done.
  unfold host_port_deallocate. run. rewrite Hdeallocate. done.
Qed.

(** ** The words of a processor *)

Definition load_words (l : cpu_load) : list Z := [load_user l; load_system l; load_idle l; load_nice l].
Definition u32 (z : Z) : Prop := (0 <= z < 2 ^ 32)%Z.
Definition load_ok (l : cpu_load) : Prop := Forall u32 (load_words l).

Lemma wrap_u32 z : u32 z -> wrap 32 z = z.
Proof. apply Z.mod_small. Qed.

Lemma load_of_words ls : Forall load_ok ls -> load_of_chunks (concat (map load_words ls)) = Ok ls.
Proof.
  induction 1 as [|l ls Hl Hls IH]; [done|]. destruct l as [a b c d]. unfold load_ok, load_words in Hl. cbn in Hl.
  decompose_Forall_hyps. cbn [map concat load_words app load_of_chunks load_user load_system load_idle load_nice].
  rewrite IH. cbn. by rewrite !wrap_u32.
Qed.

(** The times of every processor are those of its four words in the
    array of the kernel, user, system, idle and nice in this order, in clock
    ticks; the array is unmapped with its size in bytes, and an error of that
    call replaces the result.  The overall times are the four words of
    [HOST_CPU_LOAD_INFO]; what the kernel does not write is 0. *)
Theorem mac_cpu_times_words ls address overall error :
  Forall load_ok ls ->
  fst (h _ (Mac (HostProcessorInfo self PROCESSOR_CPU_LOAD_INFO)) w)
  = (KERN_SUCCESS, (Z.of_nat (length ls), address, concat (map load_words ls))) ->
  fst (h _ GetErrno w) = error ->
  length overall <= 4 ->
  fst (h _ (Mac (HostStatistics64 self HOST_CPU_LOAD_INFO 4)) w) = (KERN_SUCCESS, overall) ->
  let unmapped := fst (h _ (Mac (VmDeallocate address (16 * Z.of_nat (length ls))%Z)) w) in
  result_of h mac_times w
  = (if decide (unmapped = KERN_SUCCESS)
     then Ok (map (fun l => Ok (mac_times_from l)) ls)
     else Err (with_ffi (last_os_error error) (lit "vm_deallocate"))) /\
  result_of h mac_time w
  = Ok (mac_times_from (mkCpuLoad (nth 0 overall 0%Z) (nth 1 overall 0%Z) (nth 2 overall 0%Z) (nth 3 overall 0%Z))).
Proof.
  cbn zeta. intros Hls Hinfo Herr Hlen Hoverall. split.
  - unfold mac_times, processor_load_info. run. rewrite result_with_host_port. run. rewrite Hinfo.
    cbv beta iota. change (negb (KERN_SUCCESS =? KERN_SUCCESS)%Z) with false. cbv iota. run.
    rewrite load_of_words by done. cbn [mbind res_bind]. run.
    assert (Hsize : (Z.of_nat (length (concat (map load_words ls))) * size_of_natural_t = 16 * Z.of_nat (length ls))%Z).
    { clear. induction ls as [|l ls IH]; [done|]. cbn [map concat]. rewrite length_app, Nat2Z.inj_add, Z.mul_add_distr_r, IH.
      cbn [length load_words]. unfold size_of_natural_t. lia. }
    rewrite Hsize. set (z := fst _). destruct (decide (z = KERN_SUCCESS)) as [->|Hne].
    + change (negb (KERN_SUCCESS =? KERN_SUCCESS)%Z) with false. cbv iota. by run.
    + rewrite (proj2 (Z.eqb_neq _ _) Hne). cbn [negb]. unfold last_ffi_error. run. by rewrite Herr.
  - unfold mac_time, cpu_load_info. run. rewrite result_with_host_port. run. rewrite Hoverall.
    cbv beta iota. change (negb (KERN_SUCCESS =? KERN_SUCCESS)%Z) with false. cbv iota zeta. run.
    do 4 (destruct overall as [|? overall]; [done|]). destruct overall; [done|cbn in Hlen; lia].
Qed.

(** ** Memory *)

(** The statistics as the words of [vm_statistics64], among others. *)
Definition statistics_words (s : vm_statistics64) (zero_fill reactivations other : list Z) : list Z :=
  [free_count s; active_count s; inactive_count s; wire_count s] ++ zero_fill ++ reactivations ++
  [(pageins s mod 2 ^ 32)%Z; (pageins s / 2 ^ 32)%Z; (pageouts s mod 2 ^ 32)%Z; (pageouts s / 2 ^ 32)%Z] ++
  other ++ [speculative_count s].
Definition statistics_ok (s : vm_statistics64) : Prop :=
  u32 (free_count s) /\ u32 (active_count s) /\ u32 (inactive_count s) /\ u32 (wire_count s) /\
  u32 (speculative_count s) /\ (0 <= pageins s < 2 ^ 64)%Z /\ (0 <= pageouts s < 2 ^ 64)%Z.

Lemma vm_statistics_words s zero_fill reactivations other rest :
  length zero_fill = 2 -> length reactivations = 2 -> length other = 11 ->
  vm_statistics_of (filled HOST_VM_INFO64_COUNT (statistics_words s zero_fill reactivations other ++ rest)) = s.
Proof.
  intros H2 H3 H4.
  do 2 (destruct zero_fill as [|? zero_fill]; [done|]); destruct zero_fill; [|done].
  do 2 (destruct reactivations as [|? reactivations]; [done|]); destruct reactivations; [|done].
  do 11 (destruct other as [|? other]; [done|]); destruct other; [|done].
  unfold vm_statistics_of, filled, statistics_words, word64, word. cbn [app take nth HOST_VM_INFO64_COUNT].
  destruct s. cbn. f_equal; rewrite Z.add_comm; symmetry; by apply Z.div_mod.
Qed.

Definition page_size_ok : Prop := (0 < PAGE_SIZE <= 2 ^ 32)%Z.

Lemma pages_of_u32 {E} count :
  page_size_ok -> u32 count -> pages_of (E := E) count = Ok (information_byte (count * PAGE_SIZE)).
Proof.
  intros Hp Hc. unfold pages_of, mul_u64. rewrite arith_u64_small; [done|].
  unfold page_size_ok, u32 in *. nia.
Qed.
(** Where overflow is not checked, or there is none, the number of pages wraps. *)
Lemma arith_pages {A} z (k : Information -> result A) :
  page_size_ok ->
  (z ← arith_uint 32 z; v ← pages_of z; k v)
  = if decide (overflow_checks = true /\ ~ u32 z) then Panic else k (information_byte (wrap 32 z * PAGE_SIZE)).
Proof.
  intros Hp. assert (Hw : u32 (wrap 32 z)) by (apply Z.mod_pos_bound; lia).
  unfold arith_uint. change (0 <= z < 2 ^ 32)%Z with (u32 z). destruct (decide (u32 z)) as [Hz|Hz].
  - rewrite decide_False by tauto. cbn [mbind res_bind]. rewrite pages_of_u32 by done. by rewrite wrap_u32.
  - destruct overflow_checks; [by rewrite decide_True|rewrite decide_False by (intros []; congruence)].
    cbn [mbind res_bind]. by rewrite pages_of_u32.
Qed.

(** The queries of the memory, for a kernel that answers [total] and [s]. *)
Context (total : Z) (s : vm_statistics64) (size : Z) (rest : list Z).
Context (zero_fill reactivations other : list Z).
Hypothesis Htotal : (0 <= total < 2 ^ 64)%Z.
Hypothesis Hmemsize :
  fst (h _ (Sysctl [CTL_HW; HW_MEMSIZE] (Some 8%Z) 8) w) = (0%Z, (uint_bytes 8 total, size)).
Hypothesis Hlengths : length zero_fill = 2 /\ length reactivations = 2 /\ length other = 11.
Hypothesis Hstatistics :
  fst (h _ (Mac (HostStatistics64 self HOST_VM_INFO64 (Z.of_nat HOST_VM_INFO64_COUNT))) w)
  = (KERN_SUCCESS, statistics_words s zero_fill reactivations other ++ rest).

Lemma result_hw_memsize : result_of h hw_memsize w = Ok total.
Proof.
  unfold hw_memsize, sysctl. run. rewrite Hmemsize. cbv beta iota. change (0 <? 0)%Z with false. cbv iota.
  run. change (id (uint_bytes 8 total)) with (uint_bytes 8 total). rewrite <- (app_nil_r (uint_bytes 8 total)).
  by rewrite (uint_at_bytes 8 0 [] total []).
Qed.
Lemma result_host_vm_info : result_of h host_vm_info w = Ok s.
Proof.
  destruct Hlengths as (H2 & H3 & H4).
  unfold host_vm_info. rewrite result_with_host_port. run. rewrite Hstatistics. cbv beta iota.
  change (negb (KERN_SUCCESS =? KERN_SUCCESS)%Z) with false. cbv iota.
  by rewrite vm_statistics_words by done.
Qed.

(** C24: the memory of macOS, for page counts of the kernel.  The sums and
    the difference are of 32 bits: where overflow is checked, the query
    panics exactly when active and free, or active and wired pages exceed
    32 bits, or there are more speculative than free pages; otherwise they
    wrap around.  Without overflow each value is its pages times the page
    size, which never overflows; the available memory counts the active pages,
    which are used as well. *)
Theorem mac_memory_pages :
  statistics_ok s -> page_size_ok ->
  let value pages := information_byte (wrap 32 pages * PAGE_SIZE) in
  result_of h mac_sys_memory w
  = (if decide (overflow_checks = true /\
                ~ (active_count s + free_count s < 2 ^ 32 /\ speculative_count s <= free_count s /\
                   active_count s + wire_count s < 2 ^ 32)%Z)
     then Panic
     else Ok {| mac_total := information_byte total;
                mac_available := value (active_count s + free_count s)%Z;
                mac_used := value (active_count s + wire_count s)%Z;
                mac_free := value (free_count s - speculative_count s)%Z;
                mac_active := value (active_count s);
                mac_inactive := value (inactive_count s);
                mac_wire := value (wire_count s) |}).
Proof.
  cbn zeta. intros (Hf & Ha & Hi & Hw & Hsp & _) Hp.
  unfold mac_sys_memory. run. rewrite result_hw_memsize. run. rewrite result_host_vm_info. run.
  unfold mac_memory_of, add_u32, sub_u32. rewrite !(wrap_u32 (active_count s)), !(wrap_u32 (inactive_count s)), !(wrap_u32 (wire_count s)) by done.
  unfold u32 in Hf, Ha, Hi, Hw, Hsp.
  rewrite arith_pages by done. case_decide as Hav.
  { rewrite decide_True; [done|]. split; [apply Hav|]. destruct Hav as [_ Hav]. unfold u32 in Hav. lia. }
  rewrite arith_pages by done. case_decide as Hfree.
  { rewrite decide_True; [done|]. split; [apply Hfree|]. destruct Hfree as [_ Hfree]. unfold u32 in Hfree. lia. }
  rewrite arith_pages by done. case_decide as Hused.
  { rewrite decide_True; [done|]. split; [apply Hused|]. destruct Hused as [_ Hused]. unfold u32 in Hused. lia. }
  rewrite !pages_of_u32 by done. cbn [mbind res_bind]. rewrite decide_False; [done|].
  intros [Hchecks Hn]. apply Hn. unfold u32 in *. rewrite Hchecks in *.
  assert (Hdec : forall z, ~ (true = true /\ ~ (0 <= z < 2 ^ 32)%Z) -> (0 <= z < 2 ^ 32)%Z)
    by (intros z Hz; destruct (decide (0 <= z < 2 ^ 32)%Z); tauto).
  apply Hdec in Hav, Hfree, Hused. lia.
Qed.
End queries.

(** A machine with two processors. *)
Definition test_loads : list cpu_load := [mkCpuLoad 100 50 800 0; mkCpuLoad 200 25 700 5].
Definition test_statistics : vm_statistics64 := mkVmStatistics 1000 3000 2000 500 7 9 100.
Definition test_other : list Z := replicate 11 0%Z.
Definition test_mach : handler unit := fun R c w =>
  (match c in call R return R with
   | Sysctl _ _ _ => (0%Z, (uint_bytes 8 34359738368, 8%Z))
   | Mac c =>
       match c in mac_call R return R with
       | MachHostSelf => 11%Z
       | MachPortDeallocate _ => KERN_SUCCESS
       | VmDeallocate _ _ => KERN_SUCCESS
       | HostProcessorInfo _ _ => (KERN_SUCCESS, (2%Z, 4096%Z, concat (map load_words test_loads)))
       | HostStatistics64 _ flavor _ =>
           (KERN_SUCCESS, if (flavor =? HOST_CPU_LOAD_INFO)%Z then [300; 75; 1500; 5]%Z
                          else statistics_words test_statistics [0; 0]%Z [0; 0]%Z test_other)
       | c => mac_refused c
       end
   | c => fst (snapshot (fun _ => Err (Os errno.ENOENT)) (fun _ => []) _ c tt)
   end, w).
Definition test_statics : Statics := {| CLOCK_TICKS := 100; PAGE_SIZE := 4096 |}.

Lemma mac_cpu_times_words_witness :
  result_of test_mach (@mac_times si_units test_statics) tt
  = Ok (map (fun l => Ok (@mac_times_from si_units test_statics l)) test_loads).
Proof.
  apply (@mac_cpu_times_words si_units test_statics unit test_mach tt 11 ltac:(by intros R []) eq_refl eq_refl
           test_loads 4096 [300; 75; 1500; 5]%Z 0).
  - repeat constructor; vm_compute; done.
  - reflexivity.
  - reflexivity.
  - cbn. lia.
  - reflexivity.
Defined.

Lemma mac_memory_pages_witness :
  result_of test_mach (@mac_sys_memory true si_units test_statics) tt
  = Ok (mkMacSysMemory 34359738368 (4000 * 4096) (3500 * 4096) (900 * 4096) (3000 * 4096) (2000 * 4096) (500 * 4096)).
Proof.
  etransitivity; [apply (@mac_memory_pages true si_units test_statics unit test_mach tt 11
    ltac:(by intros R []) eq_refl eq_refl 34359738368 test_statistics 8 [] [0; 0]%Z [0; 0]%Z test_other)|].
  - lia.
  - reflexivity.
  - done.
  - cbn. reflexivity.
  - repeat split; vm_compute; done.
  - split; vm_compute; done.
  - vm_compute. reflexivity.
Defined.
