(* ===== verification/Process.v ===== *)
(** * heim-process on Linux: processes, signals, priorities, waiting

    heim-process/src/sys/linux/process/mod.rs, src/sys/linux/pids.rs,
    src/sys/unix/process.rs and src/sys/common.rs. *)

From S2P Require Import Prelude RustStr Layout RustFloat Units Errors Sys Streams ProcFs Cpu Net Host Signal.
From Stdlib Require Import SpecFloat.

(** ** sys/common.rs *)

(** The crate ordered_float: floats that are not NaN. *)
Class OrderedFloat := {
  NotNan : Type;
  notnan_new : float -> option NotNan;
  notnan_get : NotNan -> float;
  notnan_eqb : NotNan -> NotNan -> bool;
  notnan_hash : NotNan -> list Z;
}.
(** [notnan_hash]: the words that a value feeds to a [Hasher]; equal values feed
    the same, as the trait [Hash] demands. *)
Class OrderedFloatLaws `{OrderedFloat} : Prop := {
  notnan_new_nan v : notnan_new v = None <-> is_nan v = true;
  notnan_get_new v n : notnan_new v = Some n -> notnan_get n = v;
  notnan_get_nan n : is_nan (notnan_get n) = false;
  notnan_eqb_get a b : notnan_eqb a b = SFeqb (notnan_get a) (notnan_get b);
  notnan_hash_eq a b : notnan_eqb a b = true -> notnan_hash a = notnan_hash b;
}.

(** An implementation: a float that is not to be a NaN is read as zero if it
    is one; the zeros feed the same words. *)
Definition checked_get (v : float) : float := if is_nan v then f64_zero else v.
Definition float_words (v : float) : list Z :=
  match v with
  | S754_zero _ | S754_nan => [0]
  | S754_infinity s => [1; Z.b2z s]
  | S754_finite s m e => [2; Z.b2z s; Zpos m; e]
  end%Z.
Definition checked_float : OrderedFloat := {|
  NotNan := float;
  notnan_new v := if is_nan v then None else Some v;
  notnan_get := checked_get;
  notnan_eqb a b := SFeqb (checked_get a) (checked_get b);
  notnan_hash v := float_words (checked_get v);
|}.
Lemma checked_float_laws : @OrderedFloatLaws checked_float.
Proof.
  split; cbn; [..|done|].
  - intros v. by destruct (is_nan v).
  - intros v n. unfold checked_get. by destruct (is_nan v) eqn:Hv; intros [= <-]; rewrite ?Hv.
  - intros n. unfold checked_get. by destruct (is_nan n) eqn:Hn.
  - intros a b. generalize (checked_get a), (checked_get b). clear. intros a b Hab.
    by apply sfeqb_cases in Hab as [[Ha Hb]|[-> _]]; [destruct a, b|].
Qed.

Section unique_id.
Context `{Units, OrderedFloat}.

Record UniqueId := mkUniqueId { uid_pid : Z; uid_create_time : NotNan }.

Definition unique_id_new {E} (pid : Z) (create_time : Time) : res E UniqueId :=
  time ← expect (notnan_new (time_get_second create_time));
  Ok (mkUniqueId pid time).
Definition unique_id_create_time (u : UniqueId) : Time := time_second (notnan_get (uid_create_time u)).

(** The derived equality. *)
Definition unique_id_eq (a b : UniqueId) : bool :=
  bool_decide (uid_pid a = uid_pid b) && notnan_eqb (uid_create_time a) (uid_create_time b).
(** The derived [Hash]: the words of the fields, in their order. *)
Definition unique_id_hash (u : UniqueId) : list Z := uid_pid u :: notnan_hash (uid_create_time u).
End unique_id.

(** ** sys/unix/process.rs *)

Section unix.
Context `{LibcSignals}.

Definition unix_pid_exists {E} (pid : Z) : io E bool :=
  if (pid =? 0)%Z then mret true
  else
    result ← ask (Sys.Kill pid 0);
    if (result =? 0)%Z then mret true
    else
      e ← ask GetErrno;
      if (e =? errno.ESRCH)%Z then mret false
      else if (e =? errno.EPERM)%Z then mret true
      else mret true.

Definition pid_kill (pid : Z) (signal : Signal) : io ProcessError () :=
  result ← ask (Sys.Kill pid (signal_into signal));
  if (result =? 0)%Z then mret ()
  else
    e ← ask GetErrno;
    if (e =? errno.ESRCH)%Z then fails (NoSuchProcess pid)
    else if (e =? errno.EPERM)%Z then fails (AccessDenied pid)
    else fails (process_from_io (Os e)).

(** The loop over the ticks of the interval, which never ends by itself:
    [None] is the fuel running out. *)
Fixpoint wait_loop (fuel : nat) (pid : Z) : io ProcessError (option ()) :=
  match fuel with
  | O => mret None
  | S k =>
      _ ← ask (Sleep 40);
      exists_ ← unix_pid_exists pid;
      if exists_ : bool then wait_loop k pid else mret (Some ())
  end.
Definition pid_wait (fuel : nat) (pid : Z) : io ProcessError (option ()) :=
  result ← ask (Waitpid pid);
  if (result =? -1)%Z then wait_loop fuel pid else mret (Some ()).

Definition pid_priority (pid : Z) : io ProcessError Z :=
  _ ← ask (SetErrno 0);
  result ← ask (Getpriority pid);
  e ← ask GetErrno;
  if (e =? 0)%Z then mret result
  else if (e =? errno.ESRCH)%Z then fails (NoSuchProcess pid)
  else if ((e =? errno.EACCES) || (e =? errno.EPERM))%Z then fails (AccessDenied pid)
  else fails (LoadError (with_ffi (from_raw_os_error e) (lit "getpriority"))).

Definition pid_setpriority (pid value : Z) : io ProcessError () :=
  result ← ask (Setpriority pid value);
  if (result =? 0)%Z then mret ()
  else e ← ask GetErrno; fails (LoadError (last_os_error e)).
End unix.

(** ** sys/linux/pids.rs *)

Section pids.
Context `{Roots}.

Definition pid_of_entry (e : dir_entry) : option Z :=
  if from_utf8 (file_name e) then
    match parse_i32 (file_name e) with Ok pid => Some pid | _ => None end
  else None.

Definition pids_item (entry : io_result dir_entry) : option (result Z) :=
  match entry with
  | Ok e => Ok <$> pid_of_entry e
  | Err e => Some (Err (from_io e))
  | Panic => Some Panic
  end.
Definition pids : io Error (list (result Z)) :=
  entries ← io_map_err from_io (os (ReadDir procfs_root));
  mret (omap pids_item entries).

Definition pid_exists (pid : Z) : io ProcessError bool := unix_pid_exists pid.
End pids.

(** ** sys/linux/process *)

Section process.
Context `{Profile, Units, Statics, Roots, Memchr, OrderedFloat, LibcSignals}.

(** procfs/stat.rs [stat]: the start time counts from the boot. *)
Definition stat (pid : Z) : io ProcessError Stat :=
  let path := process_file_path pid (lit "stat") in
  r ← attempt (E := io_error) (os (ReadToString path));
  contents ← match r with
             | inr contents => mret contents
             | inl e => if decide (io_kind e = NotFound) then fails (NoSuchProcess pid)
                        else fails (LoadError (with_file (from_io e) path))
             end;
  stats ← lift (map_err LoadError (stat_from_str contents));
  boot_time ← io_map_err LoadError boot_time;
  mret {| ProcFs.pid := ProcFs.pid stats; name := name stats; state := state stats; ppid := ppid stats;
          create_time := f64_add (create_time stats) boot_time;
          utime := utime stats; stime := stime stats; cutime := cutime stats; cstime := cstime stats |}.

Record Process := mkProcess { proc_pid : Z; unique_id : UniqueId }.

Definition get (pid : Z) : io ProcessError Process :=
  s ← stat pid;
  u ← lift (unique_id_new pid (create_time s));
  mret (mkProcess pid u).

Definition current_process : io ProcessError Process :=
  pid ← ask Getpid; get pid.

Definition processes : io Error (list (process_result Process)) :=
  pids ← pids;
  prog_bind (then_items get (map (map_err LoadError) pids)) (fun l => Ret (Ok l)).

(** [PartialEq]. *)
Definition process_eq (a b : Process) : bool := unique_id_eq (unique_id a) (unique_id b).
(** [Hash]. *)
Definition process_hash (self : Process) : list Z := unique_id_hash (unique_id self).

Definition parent_pid (self : Process) : io ProcessError Z :=
  s ← stat (proc_pid self); mret (ppid s).

Definition process_name (self : Process) : io ProcessError str :=
  s ← stat (proc_pid self);
  let name := name s in
  if bool_decide (15 <= length name) then
    r ← attempt (command (proc_pid self));
    match r with
    | inl _ => mret name
    | inr command =>
        match (fst (command_next (into_iter command))) ≫= path_file_name with
        | Some exe => if starts_with exe name then mret (to_string_lossy exe) else mret name
        | None => mret name
        end
    end
  else mret name.

Definition exe (self : Process) : io ProcessError path :=
  r ← attempt (E := io_error) (os (ReadLink (process_file_path (proc_pid self) (lit "exe"))));
  match r with
  | inr path => mret path
  | inl _ =>
      exists_ ← pid_exists (proc_pid self);
      if exists_ : bool then mret [] else fails (ZombieProcess (proc_pid self))
  end.

Definition process_command (self : Process) : io ProcessError Command := command (proc_pid self).

Definition cwd (self : Process) : io ProcessError path :=
  r ← attempt (E := io_error) (os (ReadLink (process_file_path (proc_pid self) (lit "cwd"))));
  match r with
  | inr path => mret path
  | inl e =>
      if decide (io_kind e = PermissionDenied) then fails (AccessDenied (proc_pid self))
      else
        exists_ ← pid_exists (proc_pid self);
        if exists_ : bool then fails (ZombieProcess (proc_pid self))
        else fails (AccessDenied (proc_pid self))
  end.

Definition status (self : Process) : io ProcessError Status :=
  s ← stat (proc_pid self); mret (state s).
Definition process_environment (self : Process) : io ProcessError Environment :=
  environment (proc_pid self).
Definition process_create_time (self : Process) : io ProcessError Time :=
  mret (unique_id_create_time (unique_id self)).
Definition process_cpu_time (self : Process) : io ProcessError CpuTime :=
  cpu_time_from_stat <$> stat (proc_pid self).
Definition process_memory (self : Process) : io ProcessError Memory := stat_memory (proc_pid self).
Definition niceness (self : Process) : io ProcessError Z := pid_priority (proc_pid self).
Definition set_niceness (self : Process) (value : Z) : io ProcessError () :=
  pid_setpriority (proc_pid self) value.

Definition is_running (self : Process) : io ProcessError bool :=
  other ← get (proc_pid self); mret (process_eq other self).

Definition _signal (self : Process) (signal : Signal) : io ProcessError () :=
  running ← is_running self;
  if running : bool then pid_kill (proc_pid self) signal
  else fails (NoSuchProcess (proc_pid self)).
Definition signal (self : Process) (s : Signal) : io ProcessError () := _signal self s.
Definition suspend (self : Process) : io ProcessError () := _signal self Stop.
Definition resume (self : Process) : io ProcessError () := _signal self Cont.
Definition terminate (self : Process) : io ProcessError () := _signal self Term.
Definition kill (self : Process) : io ProcessError () := signal self Signal.Kill.
Definition wait (fuel : nat) (self : Process) : io ProcessError (option ()) :=
  pid_wait fuel (proc_pid self).

Definition process_io_counters (self : Process) : io ProcessError IoCounters :=
  io_counters (proc_pid self).

Definition net_io_counters_of (self : Process) : io ProcessError (list (process_result NetCounters)) :=
  r ← attempt (io_counters_for_pid (proc_pid self));
  match r with
  | inr stream => mret (map (map_err LoadError) stream)
  | inl e =>
      if decide (kind e = NotFound) then
        s ← attempt (status self);
        match s with
        | inr Zombie => fails (ZombieProcess (proc_pid self))
        | _ => fails (LoadError e)
        end
      else fails (LoadError e)
  end.

End process.
