(* ===== verification/ProcessSpec.v ===== *)
(** * heim-process: identity, signals, names, waiting *)

From S2P Require Import Prelude RustStr Layout RustFloat Units Errors Sys Streams ProcFs ProcFsSpec ProcFsText.
From S2P Require Import Cpu Net Host Signal Process.
From Stdlib Require Import SpecFloat.

(** ** Signals *)

Definition not_kill (e : event) : Prop := match e with EvKill _ _ => False | _ => True end.

Section signals.
Context `{!Profile, !Units, !Statics, !Roots, !Memchr, !OrderedFloat, !LibcSignals}.

Lemma stat_calls pid : calls not_kill (stat pid).
Proof.
  unfold stat, boot_time, read_to_string, lift, mret, io_ret, fails.
  repeat first [calls_step; try done | case_match | case_decide].
Qed.

Lemma is_running_calls self : calls not_kill (is_running self).
Proof.
  unfold is_running, get, lift, mret, io_ret. repeat first [apply stat_calls | calls_step].
Qed.

(** C2: a signal is only ever sent to a process that was just found to be
    the one this value stands for (same pid and start time), whatever the
    system answers and however it changes in between: every [kill] of
    [_signal] goes to the own pid with the asked signal, comes right after the
    identity check, and only when that check said yes.  A reused pid gives
    [NoSuchProcess] and a failed check its error, and nothing is sent. *)
Theorem signal_checks_identity {W} (h : handler W) w self s :
  let '(running, w') := exec h (is_running self) w in
  (forall pid n, EvKill pid n ∈ trace h (_signal self s) w ->
     running = Ok true /\ pid = proc_pid self /\ n = signal_into s /\
     exists rest, trace h (_signal self s) w = trace h (is_running self) w ++ EvKill pid n :: rest) /\
  (running = Ok false -> result_of h (_signal self s) w = Err (NoSuchProcess (proc_pid self))) /\
  (forall e, running = Err e -> result_of h (_signal self s) w = Err e).
Proof.
  destruct (exec h (is_running self) w) as [running w'] eqn:Hr.
  unfold _signal, result_of. rewrite trace_io_bind, exec_io_bind, Hr.
  pose proof (is_running_calls self W h w) as Hc. rewrite Forall_forall in Hc. split_and!.
  - intros pid n [Hin%Hc|Hin]%elem_of_app; [done|].
    destruct running as [[]| |]; cbn in Hin |- *; try by apply elem_of_nil in Hin.
    destruct (h Z (Sys.Kill (proc_pid self) (signal_into s)) w') as [r w2] eqn:Hk.
    apply elem_of_cons in Hin as [[= -> ->]|Hin]; [by eauto|].
    exfalso. destruct (r =? 0)%Z; cbn in Hin; [by apply elem_of_nil in Hin|].
    destruct (h Z GetErrno w2) as [e w3]. apply elem_of_cons in Hin as [|Hin]; [done|].
    repeat case_match; by apply elem_of_nil in Hin.
  - by intros ->.
  - by intros e ->.
Qed.
End signals.

(** ** Identity *)

Section identity.
Context `{!Profile, !Units, !UnitsLaws, !Statics, !Roots, !Memchr, !OrderedFloat, !OrderedFloatLaws,
          !LibcSignals}.
Context {W : Type} (h : handler W).

Lemma get_result w pid : steady h w ->
  result_of h (get pid) w =
  (s ← result_of h (stat pid) w; u ← unique_id_new pid (create_time s); Ok (mkProcess pid u)).
Proof.
  intros Hst. unfold get. run. destruct (result_of h (stat pid) w) as [s| |]; [|done..].
  cbn [mbind res_bind]. run. by destruct (unique_id_new (E := ProcessError) pid (create_time s)).
Qed.

Lemma unique_id_new_ok {E} pid t : is_nan t = false ->
  exists u, unique_id_new (E := E) pid t = Ok u /\ uid_pid u = pid /\ notnan_get (uid_create_time u) = t.
Proof.
  intros Ht. unfold unique_id_new. rewrite time_get_second_id.
  destruct (notnan_new t) as [n|] eqn:Hn.
  - eexists. split; [done|]. split; [done|]. by apply notnan_get_new.
  - apply notnan_new_nan in Hn. congruence.
Qed.

(** A process that was loaded at one moment is running at a later one
    exactly when the pid then has a process with the same start time: a
    reused pid is told apart.  When there is no such process any more, the
    answer is not [false] but the error of reading its stat file. *)
Theorem is_running_identity w1 w2 pid s1 p :
  steady h w1 -> steady h w2 ->
  result_of h (stat pid) w1 = Ok s1 -> is_nan (create_time s1) = false ->
  result_of h (get pid) w1 = Ok p ->
  (forall s2, result_of h (stat pid) w2 = Ok s2 -> is_nan (create_time s2) = false ->
     result_of h (is_running p) w2 = Ok (SFeqb (create_time s2) (create_time s1))) /\
  (forall e, result_of h (stat pid) w2 = Err e -> result_of h (is_running p) w2 = Err e) /\
  unique_id_create_time (unique_id p) = create_time s1.
Proof.
  intros Hst1 Hst2 Hs1 Hn1 Hp. rewrite get_result, Hs1 in Hp by done. cbn [mbind res_bind] in Hp.
  destruct (unique_id_new_ok (E := ProcessError) pid _ Hn1) as (u1 & Hu1 & Hp1 & Hc1).
  rewrite Hu1 in Hp. cbn in Hp. injection Hp as <-.
  assert (Hrun : forall w, steady h w -> result_of h (is_running (mkProcess pid u1)) w =
    (other ← result_of h (get pid) w; Ok (process_eq other (mkProcess pid u1)))).
  { intros w Hw. unfold is_running. run. cbn [proc_pid]. by destruct (result_of h (get pid) w). }
  split_and!.
  - intros s2 Hs2 Hn2. rewrite Hrun, get_result, Hs2 by done. cbn [mbind res_bind].
    destruct (unique_id_new_ok (E := ProcessError) pid _ Hn2) as (u2 & Hu2 & Hp2 & Hc2).
    rewrite Hu2. cbn. unfold process_eq, unique_id_eq. cbn.
    rewrite Hp1, Hp2, bool_decide_eq_true_2, notnan_eqb_get, Hc1, Hc2 by done. done.
  - intros e He. by rewrite Hrun, get_result, He by done.
  - cbn. unfold unique_id_create_time. by rewrite time_second_id.
Qed.
End identity.

(** Files that depend on the moment. *)
Definition at_moment (files : nat -> path -> io_result str) : handler nat :=
  fun R c n => (fst (snapshot (files n) (fun _ => []) _ c tt), n).
Lemma at_moment_steady files n : steady (at_moment files) n.
Proof. by intros R c. Qed.

(** Process 4242 at moment 0, and another one with its pid at moment 1. *)
Definition restarted : raw_stat := {|
  r_pid := 4242; r_comm := lit "other"; r_state := Running;
  r_ppid := 1; r_pgrp := 4242; r_session := 4242; r_tty := 0; r_tpgid := -1;
  r_flags := 0; r_minflt := 0; r_cminflt := 0; r_majflt := 0; r_cmajflt := 0;
  r_utime := 0; r_stime := 0; r_cutime := 0; r_cstime := 0;
  r_priority := 20; r_nice := 0; r_threads := 1; r_itreal := 0;
  r_start := 99999; r_vsize := 0; r_rss := 0; r_rsslim := 0; r_more := [] |}.
Definition reused_files (n : nat) (p : path) : io_result str :=
  if decide (p = lit "/proc/4242/stat") then
    match n with
    | 0 => Ok (stat_text tricky_stat)
    | 1 => Ok (stat_text restarted)
    | _ => Err (Os errno.ENOENT)
    end
  else if decide (p = lit "/proc/stat") then Ok (lit "btime 1600000000" ++ [LF])
  else Err (Os errno.ENOENT).

Definition stat_at (n : nat) : option Stat :=
  match result_of (at_moment reused_files) (@stat true si_units linux_statics default_roots 4242) n with
  | Ok s => Some s
  | _ => None
  end.
Definition process_at (n : nat) : option (@Process checked_float) :=
  match result_of (at_moment reused_files)
          (@get true si_units linux_statics default_roots checked_float 4242) n with
  | Ok p => Some p
  | _ => None
  end.

Lemma is_running_identity_witness :
  exists p, process_at 0 = Some p /\
    result_of (at_moment reused_files)
      (@is_running true si_units linux_statics default_roots checked_float p) 0 = Ok true /\
    result_of (at_moment reused_files)
      (@is_running true si_units linux_statics default_roots checked_float p) 1 = Ok false /\
    result_of (at_moment reused_files)
      (@is_running true si_units linux_statics default_roots checked_float p) 2 = Err (NoSuchProcess 4242).
Proof.
  destruct (stat_at 0) as [s1|] eqn:Hs1; [|vm_compute in Hs1; discriminate Hs1].
  destruct (stat_at 1) as [s2|] eqn:Hs2; [|vm_compute in Hs2; discriminate Hs2].
  destruct (process_at 0) as [p|] eqn:Hp; [|vm_compute in Hp; discriminate Hp].
  vm_compute in Hs1, Hs2, Hp. injection Hs1 as <-. injection Hs2 as <-. injection Hp as <-.
  eexists. split; [reflexivity|].
  assert (HI := fun w2 => @is_running_identity true si_units si_units_laws linux_statics default_roots
    checked_float checked_float_laws nat (at_moment reused_files) 0%nat w2 4242%Z _ _
    (at_moment_steady _ 0%nat) (at_moment_steady _ w2) ltac:(vm_compute; reflexivity) eq_refl
    ltac:(vm_compute; reflexivity)).
  split; [|split].
  - eapply eq_trans; [eapply (proj1 (HI 0%nat)); [vm_compute; reflexivity|reflexivity]|vm_compute; reflexivity].
  - eapply eq_trans; [eapply (proj1 (HI 1%nat)); [vm_compute; reflexivity|reflexivity]|vm_compute; reflexivity].
  - refine (proj1 (proj2 (HI 2%nat)) _ _). vm_compute. reflexivity.
Defined.

(** A signal to a process whose pid was reused: nothing is sent. *)
Lemma signal_checks_identity_witness :
  exists p, process_at 0 = Some p /\
    result_of (at_moment reused_files)
      (@_signal true si_units linux_statics default_roots checked_float linux_signals p Term) 1
    = Err (NoSuchProcess 4242).
Proof.
  destruct (process_at 0) as [p|] eqn:Hp; [|vm_compute in Hp; discriminate Hp].
  vm_compute in Hp. injection Hp as <-. eexists. split; [reflexivity|].
  match goal with |- context [@_signal _ _ _ _ _ _ ?p _] =>
    pose proof (@signal_checks_identity true si_units linux_statics default_roots checked_float
      linux_signals nat (at_moment reused_files) 1%nat p Term) as Hs end.
  match type of Hs with let '(_, _) := ?e in _ =>
    assert (He : fst e = Ok false) by (vm_compute; reflexivity); destruct e as [running w'] end.
  cbn in He. exact (proj1 (proj2 Hs) He).
Defined.

(** ** Names *)

Section names.
Context `{!Profile, !Units, !Statics, !Roots, !Memchr, !MemchrLaws, !OrderedFloat}.
Context {W : Type} (h : handler W) (w : W).
Hypothesis Hsteady : steady h w.

(** The kernel cuts names at fifteen bytes; a name that may have been
    cut is completed from the file name of the first argument when that
    begins with it, and is kept when the command line says something else
    or cannot be read; a shorter name is kept without looking further. *)
Theorem process_name_spec self s :
  result_of h (stat (proc_pid self)) w = Ok s ->
  (length (name s) < 15 ->
     result_of h (process_name self) w = Ok (name s) /\
     trace h (process_name self) w = trace h (stat (proc_pid self)) w) /\
  (15 <= length (name s) ->
     (forall dir rest args,
        (SLASH ∉ name s ++ rest) -> Forall (fun a => NUL ∉ a) ((dir ++ SLASH :: name s ++ rest) :: args) ->
        result_of h (command (proc_pid self)) w =
          Ok (command_from (cmdline_text ((dir ++ SLASH :: name s ++ rest) :: args))) ->
        result_of h (process_name self) w = Ok (to_string_lossy (name s ++ rest))) /\
     (forall e, result_of h (command (proc_pid self)) w = Err e ->
        result_of h (process_name self) w = Ok (name s)) /\
     (forall c exe, result_of h (command (proc_pid self)) w = Ok c ->
        (fst (command_next (into_iter c)) ≫= path_file_name) = exe ->
        (forall x, exe = Some x -> starts_with x (name s) = false) ->
        result_of h (process_name self) w = Ok (name s))).
Proof.
  intros Hs.
  assert (Hrun : 15 <= length (name s) -> result_of h (process_name self) w =
    match result_of h (command (proc_pid self)) w with
    | Ok c => match (fst (command_next (into_iter c))) ≫= path_file_name with
              | Some exe => if starts_with exe (name s) then Ok (to_string_lossy exe) else Ok (name s)
              | None => Ok (name s)
              end
    | Err _ => Ok (name s)
    | Panic => Panic
    end).
  { intros Hl. unfold process_name. run. rewrite Hs. cbn [mbind res_bind].
    rewrite bool_decide_eq_true_2 by done. run.
    destruct (result_of h (command (proc_pid self)) w) as [c| |]; [|done..]. cbn [mbind res_bind].
    destruct ((command_next (into_iter c)).1 ≫= path_file_name) as [x|]; [|done].
    by destruct (starts_with x (name s)). }
  split; [intros Hl|intros Hl; rewrite (Hrun Hl); split_and!].
  - unfold process_name. split.
    + run. rewrite Hs. cbn [mbind res_bind]. by rewrite bool_decide_eq_false_2 by lia.
    + rewrite trace_io_bind. unfold result_of in Hs.
      destruct (exec h (stat (proc_pid self)) w) as [r w']. cbn in Hs. subst r.
      rewrite bool_decide_eq_false_2 by lia. apply app_nil_r.
  - intros dir rest args Hsl Hargs ->.
    assert (Hn : fst (command_next (into_iter (command_from (cmdline_text ((dir ++ SLASH :: name s ++ rest) :: args)))))
                 = Some (dir ++ SLASH :: name s ++ rest)).
    { apply Forall_cons in Hargs as [Ha _]. unfold command_next, into_iter.
      rewrite command_from_text. cbn [ci_line ci_delimiter position line command_from].
      rewrite cmdline_text_cons, drop_0, bool_decide_eq_false_2 by (rewrite length_app; cbn; lia).
      cbn [as_char]. rewrite memchr_app by done. cbn [fst]. by rewrite take_app_length. }
    rewrite Hn. cbn [mbind option_bind].
    rewrite path_file_name_app; [|done| | |].
    + by rewrite starts_with_app.
    + intros Hnil%(f_equal length). rewrite length_app in Hnil. cbn in Hnil. lia.
    + intros Hd%(f_equal length). rewrite length_app in Hd. unfold lit in Hd. cbn in Hd. lia.
    + intros Hd%(f_equal length). rewrite length_app in Hd. unfold lit in Hd. cbn in Hd. lia.
  - by intros e ->.
  - intros c exe -> Hc Hexe. rewrite Hc. destruct exe as [x|]; [|done].
    by rewrite (Hexe x eq_refl).
Qed.
End names.

(** A process whose name was cut. *)
Definition long_stat : raw_stat := {|
  r_pid := 7; r_comm := lit "system-monitori"; r_state := Running;
  r_ppid := 1; r_pgrp := 7; r_session := 7; r_tty := 0; r_tpgid := -1;
  r_flags := 0; r_minflt := 0; r_cminflt := 0; r_majflt := 0; r_cmajflt := 0;
  r_utime := 0; r_stime := 0; r_cutime := 0; r_cstime := 0;
  r_priority := 20; r_nice := 0; r_threads := 1; r_itreal := 0;
  r_start := 5; r_vsize := 0; r_rss := 0; r_rsslim := 0; r_more := [] |}.
Definition long_files (p : path) : io_result str :=
  if decide (p = lit "/proc/7/stat") then Ok (stat_text long_stat)
  else if decide (p = lit "/proc/7/cmdline") then
    Ok (cmdline_text [lit "/usr/bin/system-monitoring"; lit "-v"])
  else Ok (lit "btime 1600000000").
Definition long_process : @Process checked_float :=
  @mkProcess checked_float 7 (@mkUniqueId checked_float 7 f64_zero).

Lemma process_name_spec_witness :
  result_of (snapshot long_files (fun _ => []))
    (@process_name true si_units linux_statics default_roots find_byte checked_float long_process) tt
  = Ok (lit "system-monitoring").
Proof.
  assert (Hs : exists s, result_of (snapshot long_files (fun _ => []))
      (@stat true si_units linux_statics default_roots 7) tt = Ok s /\ name s = lit "system-monitori")
    by (eexists; split; vm_compute; reflexivity).
  destruct Hs as (s & Hs & Hn).
  pose proof (@process_name_spec true si_units linux_statics default_roots find_byte find_byte_laws
    checked_float unit (snapshot long_files (fun _ => [])) tt (snapshot_steady _ _ tt) long_process s Hs) as Hp.
  rewrite Hn in Hp.
  refine (eq_trans (proj1 (proj2 Hp _) (lit "/usr/bin") (lit "ng") [lit "-v"] _ _ _) _).
  - vm_compute. repeat constructor.
  - apply (bool_decide_unpack _). vm_compute. exact I.
  - apply (bool_decide_unpack _). vm_compute. exact I.
  - vm_compute. reflexivity.
  - vm_compute. reflexivity.
Defined.

(** ** Existence, priority, waiting *)

Section unix.
Context {W : Type} (h : handler W).

(** [getpriority] may answer -1 for a niceness of -1: [errno] is
    cleared before the call and only what it holds after it decides, so that
    any value, -1 included, is given as it is when [errno] stayed clear, and
    each error is told apart, whatever value came with it. *)
Theorem pid_priority_errno w pid :
  let '(_, w1) := h _ (SetErrno 0) w in
  let '(value, w2) := h _ (Getpriority pid) w1 in
  let '(e, _) := h _ GetErrno w2 in
  trace h (pid_priority pid) w = [EvSetErrno 0; EvGetpriority pid; EvErrno] /\
  result_of h (pid_priority pid) w =
  if decide (e = 0%Z) then Ok value
  else if decide (e = errno.ESRCH) then Err (NoSuchProcess pid)
  else if decide (e = errno.EACCES \/ e = errno.EPERM) then Err (AccessDenied pid)
  else Err (LoadError (with_ffi (from_raw_os_error e) (lit "getpriority"))).
Proof.
  destruct (h _ (SetErrno 0) w) as [u w1] eqn:H1.
  destruct (h _ (Getpriority pid) w1) as [value w2] eqn:H2.
  destruct (h _ GetErrno w2) as [e w3] eqn:H3.
  unfold pid_priority, result_of. cbn. rewrite H1. cbn. rewrite H2. cbn. rewrite H3. cbn.
  destruct (Z.eqb_spec e 0) as [->|He]; [done|]. rewrite (decide_False (P := e = 0%Z)) by done.
  destruct (Z.eqb_spec e errno.ESRCH) as [->|Hs]; [done|]. rewrite (decide_False (P := e = errno.ESRCH)) by done.
  destruct (Z.eqb_spec e errno.EACCES) as [->|Ha]; [done|].
  destruct (Z.eqb_spec e errno.EPERM) as [->|Hp]; [done|]. cbn. rewrite decide_False by naive_solver. done.
Qed.

(** Pid 0 exists without asking; for any other pid the null signal is
    sent, and the process exists exactly unless that fails with [ESRCH]: a
    process that may not be signalled exists. *)
Theorem pid_exists_spec w pid :
  let '(r, w1) := h _ (Sys.Kill pid 0) w in
  let e := fst (h _ GetErrno w1) in
  (pid = 0%Z -> trace h (pid_exists pid) w = [] /\ result_of h (pid_exists pid) w = Ok true) /\
  (pid <> 0%Z ->
     result_of h (pid_exists pid) w = Ok (bool_decide (r = 0%Z \/ e <> errno.ESRCH)) /\
     Forall (fun ev => ev = EvKill pid 0 \/ ev = EvErrno) (trace h (pid_exists pid) w)).
Proof.
  destruct (h _ (Sys.Kill pid 0) w) as [r w1] eqn:H1. cbv zeta.
  unfold pid_exists, unix_pid_exists, result_of. split.
  - by intros ->.
  - intros Hp. apply Z.eqb_neq in Hp. rewrite Hp. cbn. rewrite H1.
    destruct (Z.eqb_spec r 0) as [->|Hr].
    + cbn. rewrite bool_decide_eq_true_2 by auto. split; [done|].
      repeat (apply Forall_cons_2; [auto|]); apply Forall_nil_2.
    + cbn. destruct (h _ GetErrno w1) as [e w2] eqn:H2. cbn.
      destruct (Z.eqb_spec e errno.ESRCH) as [->|He]; cbn.
      * rewrite bool_decide_eq_false_2 by naive_solver. split; [done|]. repeat (apply Forall_cons_2; [auto|]); apply Forall_nil_2.
      * rewrite bool_decide_eq_true_2 by auto.
        destruct (e =? errno.EPERM)%Z; cbn; (split; [done|]; repeat (apply Forall_cons_2; [auto|]); apply Forall_nil_2).
Qed.

(** One tick of the polling loop: wait, then look. *)
Definition tick (pid : Z) (w : W) : process_result bool * W :=
  let '(_, w1) := h _ (Sleep 40) w in exec h (unix_pid_exists pid) w1.

(** The process is there at the first [n] ticks and gone at the next. *)
Inductive gone_after (pid : Z) : nat -> W -> Prop :=
| gone_now w w' : tick pid w = (Ok false, w') -> gone_after pid 0 w
| gone_later n w w' : tick pid w = (Ok true, w') -> gone_after pid n w' -> gone_after pid (S n) w.

Lemma wait_loop_tick fuel pid w :
  result_of h (wait_loop (S fuel) pid) w =
  match tick pid w with
  | (Ok true, w') => result_of h (wait_loop fuel pid) w'
  | (Ok false, _) => Ok (Some ())
  | (Err e, _) => Err e
  | (Panic, _) => Panic
  end.
Proof.
  unfold result_of, tick. cbn [wait_loop]. rewrite exec_io_bind. cbn [exec ask].
  destruct (h _ (Sleep 40) w) as [u w1]. rewrite exec_io_bind.
  destruct (exec h (unix_pid_exists pid) w1) as [[[]| |] w2]; done.
Qed.

Lemma wait_loop_gone pid n w fuel : gone_after pid n w ->
  result_of h (wait_loop fuel pid) w = Ok (if decide (n < fuel) then Some () else None).
Proof.
  intros Hg. revert fuel. induction Hg as [w w' Ht|n w w' Ht Hg IH]; intros [|fuel]; try done.
  - rewrite wait_loop_tick, Ht. by rewrite decide_True by lia.
  - rewrite wait_loop_tick, Ht, IH. destruct (decide (n < fuel)), (decide (S n < S fuel)); done || lia.
Qed.

(** C35: waiting ends as soon as [waitpid] succeeds; for a process that is
    not a child it polls every 40 ms and ends at the first tick that finds
    the process gone, never earlier: with fuel for that many ticks the result
    is [Ok], with less the loop is still running. *)
Theorem pid_wait_spec w pid :
  let '(r, w1) := h _ (Waitpid pid) w in
  (r <> -1 -> forall fuel, result_of h (pid_wait fuel pid) w = Ok (Some ()))%Z /\
  (r = -1 -> forall n, gone_after pid n w1 ->
     forall fuel, result_of h (pid_wait fuel pid) w = Ok (if decide (n < fuel)%nat then Some () else None))%Z.
Proof.
  destruct (h _ (Waitpid pid) w) as [r w1] eqn:H1.
  assert (Hw : forall fuel, result_of h (pid_wait fuel pid) w =
    if (r =? -1)%Z then result_of h (wait_loop fuel pid) w1 else Ok (Some ())).
  { intros fuel. unfold pid_wait, result_of. cbn. rewrite H1. by destruct (r =? -1)%Z. }
  split.
  - intros Hr fuel. rewrite Hw. apply Z.eqb_neq in Hr. by rewrite Hr.
  - intros -> n Hg fuel. rewrite Hw. cbn. by apply wait_loop_gone.
Qed.
End unix.

(** A process that is gone once the clock has ticked three times. *)
Definition dying : handler nat := fun R c n =>
  match c in call R return R * nat with
  | Waitpid _ => ((-1)%Z, n)
  | Sleep _ => (tt, S n)
  | Sys.Kill _ _ => (if decide (n < 3) then 0%Z else (-1)%Z, n)
  | GetErrno => (errno.ESRCH, n)
  | c => (fst (snapshot (fun _ => Err (Os 2)) (fun _ => []) _ c tt), n)
  end.
Lemma pid_wait_spec_witness :
  result_of dying (pid_wait 5 7) 0 = Ok (Some ()) /\ result_of dying (pid_wait 2 7) 0 = Ok None.
Proof.
  pose proof (proj2 (pid_wait_spec dying 0 7) eq_refl 2) as Hw.
  assert (Hg : gone_after dying 7 2 0).
  { eapply gone_later; [vm_compute; reflexivity|]. eapply gone_later; [vm_compute; reflexivity|].
    eapply gone_now. vm_compute. reflexivity. }
  split; [exact (Hw Hg 5)|exact (Hw Hg 2)].
Defined.

(** ** Executable and working directory *)

Section links.
Context `{!Roots, !OrderedFloat}.
Context {W : Type} (h : handler W) (w : W).

(** When the links cannot be read, [exe] of an existing process is the
    empty path and of a vanished one a zombie error; [cwd] gives the two
    errors the other way round: an existing process is called a zombie, and
    a vanished one access denied, like one whose link may not be read. *)
Theorem exe_cwd_errors self e1 e2 alive :
  steady h w ->
  fst (h _ (ReadLink (process_file_path (proc_pid self) (lit "exe"))) w) = Err e1 ->
  fst (h _ (ReadLink (process_file_path (proc_pid self) (lit "cwd"))) w) = Err e2 ->
  result_of h (pid_exists (proc_pid self)) w = Ok alive ->
  result_of h (exe self) w = (if alive : bool then Ok [] else Err (ZombieProcess (proc_pid self))) /\
  result_of h (cwd self) w =
    (if bool_decide (io_kind e2 = PermissionDenied) then Err (AccessDenied (proc_pid self))
     else if alive then Err (ZombieProcess (proc_pid self)) else Err (AccessDenied (proc_pid self))).
Proof.
  intros Hst H1 H2 Ha. unfold exe, cwd. split; run.
  - rewrite H1. cbn [mbind res_bind]. run. rewrite Ha. cbn [mbind res_bind]. by destruct alive.
  - rewrite H2. cbn [mbind res_bind]. case_bool_decide; case_decide; try done.
    run. rewrite Ha. cbn [mbind res_bind]. by destruct alive.
Qed.
End links.

Lemma exe_cwd_errors_witness :
  result_of (snapshot (fun _ => Err (Os 2)) (fun _ => [])) (@cwd default_roots checked_float long_process) tt
  = Err (ZombieProcess 7).
Proof.
  refine (proj2 (@exe_cwd_errors default_roots checked_float unit _ tt long_process (Os errno.ENOENT)
    (Os errno.ENOENT) true (snapshot_steady _ _ tt) _ _ _)); reflexivity.
Defined.

(** ** Pids *)

Section pids.
Context `{!Roots}.
Context {W : Type} (h : handler W) (w : W).

(** The pids are the entries of procfs whose name is a number, in the
    order of the directory: other files are left out, and an error item
    stays in its place. *)
Theorem pids_spec entries :
  steady h w -> fst (h _ (ReadDir procfs_root) w) = Ok entries ->
  result_of h pids w = Ok (omap pids_item entries) /\
  (forall pid, Ok pid ∈ omap pids_item entries <->
     exists e, Ok e ∈ entries /\ from_utf8 (file_name e) = true /\ parse_i32 (file_name e) = Ok pid) /\
  (forall e, Err e ∈ omap pids_item entries <-> exists e', Err e' ∈ entries /\ e = from_io e').
Proof.
  intros Hst He. split_and!.
  - unfold pids. run. by rewrite He.
  - intros pid. rewrite list_elem_of_omap. split.
    + intros ([e|e|] & Hin & Hx); cbn in Hx; try done. unfold pid_of_entry in Hx.
      destruct (from_utf8 (file_name e)) eqn:Hu; [|done].
      destruct (parse_i32 (file_name e)) eqn:Hp; simplify_eq/=. eauto.
    + intros (e & Hin & Hu & Hp). exists (Ok e). split; [done|]. cbn. unfold pid_of_entry.
      by rewrite Hu, Hp.
  - intros e. rewrite list_elem_of_omap. split.
    + intros ([e'|e'|] & Hin & Hx); cbn in Hx; try done; [|simplify_eq; eauto].
      by destruct (pid_of_entry e').
    + intros (e' & Hin & ->). by exists (Err e').
Qed.
End pids.

Lemma pids_spec_witness :
  @result_of unit _ (fun R c w => (match c in call R return R with
    | ReadDir p => Ok [Ok (mkEntry p (lit "1")); Ok (mkEntry p (lit "self")); Err (Os 5); Ok (mkEntry p (lit "42"))]
    | c => fst (snapshot (fun _ => Err (Os 2)) (fun _ => []) _ c tt)
    end, w)) (@pids default_roots) tt = Ok [Ok 1%Z; Err (from_io (Os 5)); Ok 42%Z].
Proof.
  refine (proj1 (@pids_spec default_roots unit _ tt
    [Ok (mkEntry (lit "/proc") (lit "1")); Ok (mkEntry (lit "/proc") (lit "self")); Err (Os 5);
     Ok (mkEntry (lit "/proc") (lit "42"))] _ _)); [by intros R []|reflexivity].
Defined.
