(* ===== verification/MacProcess.v ===== *)
(** * heim-process on macOS: process arguments, processes

    heim-process/src/sys/macos/: the
    bindings (process.rs, proc_args.rs), the wrapper [ProcArgs] of the block
    that [KERN_PROCARGS2] gives, utils.rs, pids.rs and process/*.rs.  Error
    numbers are those of [errno]; the ones used here are the same on macOS. *)

From S2P Require Import Prelude RustStr Layout RustFloat Units Errors Sys Streams ProcFs Cpu Net Host Signal.
From S2P Require Import CLayout MacSys Process.

(** The fields of [kinfo_proc] that are read; [p_starttime] is the start of
    the union [p_un]. *)
Record kinfo_proc := mkKinfo {
  p_pid : Z;
  p_stat : Z;
  p_comm : str;
  e_ppid : Z;
  p_starttime : Z * Z;
}.

(** The constants of libc, and the size and alignment of its structures that
    others contain. *)
Class Darwin := {
  CTL_KERN : Z; KERN_ARGMAX : Z; KERN_PROCARGS2 : Z;
  KERN_PROC : Z; KERN_PROC_ALL : Z; KERN_PROC_PID : Z;
  timeval_layout : nat * nat;
  itimerval_layout : nat * nat;
  xucred_layout : nat * nat;
}.
(** As the headers of macOS have them. *)
Class DarwinLaws `{Darwin} : Prop := {
  timeval_layout_64 : timeval_layout = (16, 8);
  itimerval_layout_64 : itimerval_layout = (32, 8);
  xucred_layout_64 : xucred_layout = (76, 4);
}.
Definition size_of_c_int : Z := 4.

(** [memchr_iter] of the crate memchr gives every position of the byte, in
    order. *)
Class MemchrIter := memchr_iter : byte -> str -> list nat.
Fixpoint positions_from (k : nat) (c : byte) (s : str) : list nat :=
  match s with
  | [] => []
  | x :: s' => if decide (x = c) then k :: positions_from (S k) c s' else positions_from (S k) c s'
  end.
Class MemchrIterLaws `{MemchrIter} : Prop :=
  memchr_iter_positions c s : memchr_iter c s = positions_from 0 c s.

Section procargs.
Context `{Profile, Memchr, MemchrIter, Endian, Darwin}.

(** ** bindings/proc_args.rs *)

Definition args_max : io Error Z :=
  bytes ← sysctl [CTL_KERN; KERN_ARGMAX] size_of_c_int id; lift (i32_at 0 bytes).

(** A capacity beyond [isize::MAX] makes [Vec::with_capacity] panic. *)
Definition proc_args (pid : Z) : io Error str :=
  if (pid =? 0)%Z then fails (from_io (Simple PermissionDenied))
  else
    max ← args_max;
    let args_max := wrap 64 max in
    let name := [CTL_KERN; KERN_PROCARGS2; pid] in
    _ ← lift (if (2 ^ 63 <=? args_max)%Z then Panic else Ok tt);
    '(result, (value, args_max)) ← ask (Sysctl name (Some args_max) args_max);
    if (args_max <? size_of_c_int)%Z then fails (from_io (Simple InvalidData))
    else
      let value := take (Z.to_nat args_max) value in
      if (result =? 0)%Z then mret value
      else e ← ask GetErrno; fails (with_sysctl (last_os_error e) name).

(** ** wrappers/proc_args.rs: [ProcArgs] is its bytes *)

Definition argc {E} (v : str) : res E Z :=
  if overflow_checks && bool_decide (length v < 4) then Panic
  else bytes ← bytes_slice v 0 4; Ok (of_memory (map code bytes)).

Definition exe_range {E} (v : str) : res E (nat * nat) :=
  rest ← bytes_from v 4; Ok (4, default 0 (memchr NUL rest) + 4).

Definition procargs_exe {E} (v : str) : res E str :=
  '(start, end_) ← exe_range v; bytes_slice v start end_.

(** [iter.nth(n)] with an index of 64 bits. *)
Definition nth_z {A} (l : list A) (n : Z) : option A :=
  if (n <? Z.of_nat (length l))%Z then l !! Z.to_nat n else None.

(** [iter.position(|byte| byte != 0)]. *)
Definition position_not_nul (s : str) : option nat := fst <$> list_find (fun b => b <> NUL) s.

Definition arguments_range {E} (v : str) : res E (nat * nat) :=
  argc ← argc v;
  '(_, exe_end) ← exe_range v;
  let start := default 0 (position_not_nul (drop exe_end v)) + exe_end in
  rest ← bytes_from v start;
  n ← sub_u64 argc 1;
  let end_ := default 0 (nth_z (memchr_iter NUL rest) n) + start in
  Ok (start, end_).

Definition procargs_environment {E} (v : str) : option (res E Environment) :=
  match '(_, end_) ← arguments_range v; bytes_from (E := E) v (end_ + 1) with
  | Ok rest => env_from_bytes rest
  | Err e => Some (Err e)
  | Panic => Some Panic
  end.

Record ProcArgsArguments := mkProcArgsArguments { left : Z; data : str }.

Definition procargs_arguments {E} (v : str) : res E ProcArgsArguments :=
  '(start, end_) ← arguments_range v;
  left ← argc v;
  data ← bytes_slice v start end_;
  Ok (mkProcArgsArguments left data).

Definition to_command {E} (v : str) : res E str :=
  '(start, end_) ← arguments_range v;
  bytes ← bytes_slice v start end_;
  Ok (map (fun b => if decide (b = NUL) then SP else b) bytes).

Definition arguments_next {E} (it : ProcArgsArguments) : res E (option str * ProcArgsArguments) :=
  if (left it =? 0)%Z then Ok (None, it)
  else
    let left := (left it - 1)%Z in
    match memchr NUL (data it) with
    | Some end_ =>
        arg ← bytes_slice (data it) 0 end_;
        rest ← bytes_from (data it) (end_ + 1);
        Ok (Some arg, mkProcArgsArguments left rest)
    | None => Ok (Some (data it), mkProcArgsArguments left (data it))
    end.

(** [iter.collect()]: the outer [None] is the fuel running out. *)
Fixpoint arguments_collect {E} (fuel : nat) (it : ProcArgsArguments) : option (res E (list str)) :=
  match fuel with
  | O => None
  | S k =>
      match arguments_next (E := E) it with
      | Ok (Some arg, it') => (fmap (M := res E) (cons arg)) <$> arguments_collect k it'
      | Ok (None, _) => Some (Ok [])
      | Err e => Some (Err e)
      | Panic => Some Panic
      end
  end.
(** Iterating over the command of a block. *)
Definition procargs_args {E} (v : str) : option (res E (list str)) :=
  match procargs_arguments (E := E) v with
  | Ok it => arguments_collect (S (Z.to_nat (left it))) it
  | Err e => Some (Err e)
  | Panic => Some Panic
  end.
End procargs.

(** ** bindings/process.rs *)

(** The values of [p_stat]. *)
Definition SIDL : Z := 1.
Definition SRUN : Z := 2.
Definition SSLEEP : Z := 3.
Definition SSTOP : Z := 4.
Definition SZOMB : Z := 5.

Definition mac_status_try_from (value : Z) : result Status :=
  if (value =? SIDL)%Z then Ok Idle
  else if (value =? SRUN)%Z then Ok Running
  else if (value =? SSLEEP)%Z then Ok Sleeping
  else if (value =? SSTOP)%Z then Ok Stopped
  else if (value =? SZOMB)%Z then Ok Zombie
  else Err (with_message (from_io (Simple InvalidData))
              (lit "Unknown process p_stat value: " ++ show_int value)).

(** The structures, declared as they are there; a pointer has 8 bytes, and
    the integer types of libc and mach are those of 64-bit macOS. *)
Definition pointer : ctype := CInt 8.
Definition user_addr_t : ctype := CInt 8.
Definition i32 : ctype := CInt 4.
Definition chars (n : nat) : ctype := CArray (CInt 1) n.
Definition opaque (layout : nat * nat) : ctype := COpaque (fst layout) (snd layout).

Definition vmspace : ctype := CStruct
  [("dummy", i32); ("dummy2", pointer); ("dummy3", CArray i32 5); ("dummy4", CArray pointer 3)]%string.
Definition pcred : ctype := CStruct
  [("pc_lock", chars 72); ("pc_ucred", pointer); ("p_ruid", CInt 4); ("p_svuid", CInt 4);
   ("p_rgid", CInt 4); ("p_svgid", CInt 4); ("p_refcnt", CInt 4)]%string.
Definition run_sleep_queue : ctype := CStruct [("p_forw", user_addr_t); ("p_back", user_addr_t)]%string.

Section structures.
Context `{Darwin}.

Definition p_un : ctype := CUnion
  [("p_st1", run_sleep_queue); ("p_starttime", opaque timeval_layout)]%string.
Definition extern_proc : ctype := CStruct
  [("p_un", p_un); ("p_vmspace", user_addr_t); ("p_sigacts", user_addr_t);
   ("p_flag", CInt 4); ("p_stat", CInt 1); ("p_pid", CInt 4); ("p_oppid", CInt 4); ("p_dupfd", CInt 4);
   ("user_stack", pointer); ("exit_thread", pointer); ("p_debugger", CInt 4); ("sigwait", CInt 4);
   ("p_estcpu", CInt 4); ("p_cpticks", CInt 4); ("p_pctcpu", CInt 4); ("p_wchan", pointer);
   ("p_wmesg", pointer); ("p_swtime", CInt 4); ("p_slptime", CInt 4);
   ("p_realtimer", opaque itimerval_layout); ("p_rtime", opaque timeval_layout);
   ("p_uticks", CInt 8); ("p_sticks", CInt 8); ("p_iticks", CInt 8); ("p_traceflag", CInt 4);
   ("p_tracep", pointer); ("p_siglist", CInt 4); ("p_textvp", pointer); ("p_holdcnt", CInt 4);
   ("p_sigmask", CInt 4); ("p_sigignore", CInt 4); ("p_sigcatch", CInt 4); ("p_priority", CInt 1);
   ("p_usrpri", CInt 1); ("p_nice", CInt 1); ("p_comm", chars 17); ("p_pgrp", pointer);
   ("p_addr", pointer); ("p_xstat", CInt 2); ("p_acflag", CInt 2); ("p_ru", pointer)]%string.
Definition kinfo_proc_eproc : ctype := CStruct
  [("e_paddr", pointer); ("e_sess", pointer); ("e_pcred", pcred); ("e_ucred", opaque xucred_layout);
   ("e_vm", vmspace); ("e_ppid", CInt 4); ("e_pgid", CInt 4); ("e_jobc", CInt 2); ("e_tdev", CInt 4);
   ("e_tpgid", CInt 4); ("e_tsess", pointer); ("e_wmesg", chars 8); ("e_xsize", i32);
   ("e_xrssize", CInt 2); ("e_xccount", CInt 2); ("e_xswrss", CInt 2); ("e_flag", i32);
   ("e_login", chars 12); ("e_spare", CArray i32 4)]%string.
Definition kinfo_proc_t : ctype := CStruct
  [("kp_proc", extern_proc); ("kp_eproc", kinfo_proc_eproc)]%string.
Definition size_of_kinfo_proc : Z := Z.of_nat (size_of kinfo_proc_t).

Definition path_pid : list string := ["kp_proc"; "p_pid"]%string.
Definition path_stat : list string := ["kp_proc"; "p_stat"]%string.
Definition path_comm : list string := ["kp_proc"; "p_comm"]%string.
Definition path_ppid : list string := ["kp_eproc"; "e_ppid"]%string.
Definition path_starttime : list string := ["kp_proc"; "p_un"; "p_starttime"]%string.

(** What is read of a [kinfo_proc] in memory; all of it must be there. *)
Definition kinfo_proc_at {E} (bytes : str) : res E kinfo_proc :=
  if bool_decide (length bytes < size_of kinfo_proc_t) then Panic
  else
    pid ← c_int kinfo_proc_t path_pid bytes;
    stat ← c_int kinfo_proc_t path_stat bytes;
    comm ← c_bytes kinfo_proc_t path_comm bytes;
    ppid ← c_int kinfo_proc_t path_ppid bytes;
    starttime ← c_bytes kinfo_proc_t path_starttime bytes;
    starttime ← timeval_at starttime;
    Ok (mkKinfo pid stat comm ppid starttime).
End structures.

(** [Vec::reserve_exact]: room for [additional] elements after the [len]
    that the vector holds. *)
Definition reserve_exact (len capacity additional : Z) : Z :=
  if (additional <=? capacity - len)%Z then capacity else (len + additional)%Z.

Section bindings.
Context `{Profile, Darwin}.

Definition proc_all_name : list Z := [CTL_KERN; KERN_PROC; KERN_PROC_ALL].

(** The vector is empty until the end: only its capacity changes.  The outer
    [None] is the fuel running out. *)
Fixpoint processes_loop (fuel : nat) (size capacity : Z) : io Error (option (list kinfo_proc)) :=
  match fuel with
  | O => mret None
  | S k =>
      '(result, (_, size)) ← ask (Sysctl proc_all_name None size);
      if (result <? 0)%Z then e ← ask GetErrno; fails (with_sysctl (last_os_error e) proc_all_name)
      else
        let num_processes := (size / size_of_kinfo_proc)%Z in
        let capacity :=
          if (capacity <? num_processes)%Z then reserve_exact 0 capacity (num_processes - capacity)
          else capacity in
        '(result, (processes, size)) ←
          ask (Sysctl proc_all_name (Some (capacity * size_of_kinfo_proc)%Z) size);
        if (result <? 0)%Z then
          e ← ask GetErrno;
          if (e =? errno.ENOMEM)%Z then processes_loop k size capacity
          else fails (with_sysctl (last_os_error e) proc_all_name)
        else
          let length := (size / size_of_kinfo_proc)%Z in
          if overflow_checks && (length =? 0)%Z then lift Panic
          else
            processes ← lift (structs_at (size_of kinfo_proc_t) kinfo_proc_at (Z.to_nat length) processes);
            mret (Some processes)
  end.
Definition bindings_processes (fuel : nat) : io Error (option (list kinfo_proc)) :=
  processes_loop fuel 0 0.

Definition bindings_process (pid : Z) : io ProcessError kinfo_proc :=
  '(result, (info, size)) ← ask (Sysctl [CTL_KERN; KERN_PROC; KERN_PROC_PID; pid]
                                   (Some size_of_kinfo_proc) size_of_kinfo_proc);
  if (result <? 0)%Z then e ← ask GetErrno; fails (LoadError (last_os_error e))
  else if (size =? 0)%Z then fails (NoSuchProcess pid)
  else lift (kinfo_proc_at info).

(** ** utils.rs *)

Definition catch_zombie (e : ProcessError) (pid : Z) : io ProcessError ProcessError :=
  match e with
  | LoadError e' =>
      if decide (raw_os_error e' = Some errno.ESRCH) then
        r ← attempt (bindings_process pid);
        match r with
        | inl e => mret e
        | inr info =>
            match mac_status_try_from (p_stat info) with
            | Ok Zombie => mret (ZombieProcess pid)
            | Ok _ => mret (AccessDenied pid)
            | Err e => mret (LoadError e)
            | Panic => lift Panic
            end
        end
      else mret e
  | other => mret other
  end.

(** [match p { Ok(x) => Ok(x), Err(e) => Err(catch_zombie(e, pid)) }]. *)
Definition or_zombie {A} (p : io ProcessError A) (pid : Z) : io ProcessError A :=
  or_else p (fun e => e ← catch_zombie e pid; fails e).
End bindings.

(** ** process/*.rs *)

Record MacCpuTime := mkMacCpuTime { mac_utime : Time; mac_stime : Time }.
Record MacMemory := mkMacMemory {
  pti_resident_size : Information;
  pti_virtual_size : Information;
  pti_faults : Z;
  pti_pageins : Z;
}.
Definition mac_cpu_user (t : MacCpuTime) : Time := mac_utime t.
Definition mac_cpu_system (t : MacCpuTime) : Time := mac_stime t.
Definition mac_rss (m : MacMemory) : Information := pti_resident_size m.
Definition mac_vms (m : MacMemory) : Information := pti_virtual_size m.
Definition mac_faults (m : MacMemory) : Z := pti_faults m.
Definition mac_pageins (m : MacMemory) : Z := pti_pageins m.
Record MacIoCounters := mkMacIoCounters { mac_read_bytes : Z; mac_write_bytes : Z }.

Section process.
Context `{Profile, Units, OrderedFloat, LibcSignals, Memchr, MemchrIter, Endian, Darwin}.

(** [proc_taskinfo]: total user and system time, resident and virtual size,
    faults and pageins (two [i32]). *)
Definition mac_cpu_time_from (info : Z * Z * Z * Z * Z * Z) : MacCpuTime :=
  let '(total_user, total_system, _, _, _, _) := info in
  mkMacCpuTime (time_nanosecond (f64_of_int total_user)) (time_nanosecond (f64_of_int total_system)).
Definition mac_memory_from (info : Z * Z * Z * Z * Z * Z) : MacMemory :=
  let '(_, _, resident_size, virtual_size, faults, pageins) := info in
  mkMacMemory (information_byte resident_size) (information_byte virtual_size)
    (wrap 64 faults) (wrap 64 pageins).
(** [rusage_info_v2]: the bytes read and written. *)
Definition mac_io_counters_from (info : Z * Z) : MacIoCounters :=
  let '(bytesread, _byteswritten) := info in mkMacIoCounters bytesread bytesread.
Definition mac_bytes_read (c : MacIoCounters) : Information := information_byte (mac_read_bytes c).
Definition mac_bytes_written (c : MacIoCounters) : Information := information_byte (mac_write_bytes c).

(** What [command] and [environment] make of an error of [ProcArgs::get]. *)
Definition proc_args_error {A} (pid : Z) (e : Error) : io ProcessError A :=
  if decide (raw_os_error e = Some errno.EINVAL) then
    exists_ ← unix_pid_exists pid;
    if exists_ : bool then fails (ZombieProcess pid) else fails (LoadError e)
  else if decide (kind e = PermissionDenied) then fails (AccessDenied pid)
  else fails (LoadError e).

Definition mac_command (pid : Z) : io ProcessError str :=
  r ← attempt (proc_args pid);
  match r with inr v => mret v | inl e => proc_args_error pid e end.

(** A parser that ran out of fuel would panic here; it never does. *)
Definition mac_environment (pid : Z) : io ProcessError Environment :=
  r ← attempt (proc_args pid);
  match r with
  | inr v => lift (default Panic (procargs_environment v))
  | inl e => proc_args_error pid e
  end.

Definition mac_get (pid : Z) : io ProcessError Process :=
  kinfo_proc ← or_zombie (bindings_process pid) pid;
  let create_time := into_time (p_starttime kinfo_proc) in
  if overflow_checks && is_nan create_time then lift Panic
  else u ← lift (unique_id_new pid create_time); mret (mkProcess pid u).

Definition mac_current : io ProcessError Process := pid ← ask Getpid; mac_get pid.

(** pids.rs *)
Definition mac_pid_exists (pid : Z) : io ProcessError bool := unix_pid_exists pid.

Definition mac_pids (fuel : nat) : io Error (option (list (result Z))) :=
  procs ← bindings_processes fuel;
  mret ((fun procs => map (fun p => Ok (p_pid p)) procs) <$> procs).

Definition mac_processes (fuel : nat) : io Error (option (list (process_result Process))) :=
  pids ← mac_pids fuel;
  match pids with
  | None => mret None
  | Some pids =>
      prog_bind (then_items mac_get (map (map_err LoadError) pids)) (fun l => Ret (Ok (Some l)))
  end.

Definition mac_parent_pid (self : Process) : io ProcessError Z :=
  e_ppid <$> or_zombie (bindings_process (proc_pid self)) (proc_pid self).

(** [CStr::from_ptr] reads up to the null; a name without one would be read on
    beyond the array, which is undefined and is [Panic] here. *)
Definition mac_name (self : Process) : io ProcessError str :=
  info ← or_zombie (bindings_process (proc_pid self)) (proc_pid self);
  if bool_decide (NUL ∈ p_comm info) then mret (c_string (p_comm info)) else lift Panic.

Definition mac_exe (self : Process) : io ProcessError path :=
  r ← attempt (E := io_error) (os (PidPath (proc_pid self)));
  match r with
  | inr path => mret path
  | inl e => if (proc_pid self =? 0)%Z then fails (AccessDenied (proc_pid self))
             else e ← catch_zombie (process_from_io e) (proc_pid self); fails e
  end.

(** The three queries of darwin_libproc whose refusal is told apart. *)
Definition denied_or_zombie {A B} (c : call (io_result A)) (f : A -> B) (pid : Z) : io ProcessError B :=
  r ← attempt (E := io_error) (os c);
  match r with
  | inr a => mret (f a)
  | inl e => if decide (io_kind e = PermissionDenied) then fails (AccessDenied pid)
             else e ← catch_zombie (process_from_io e) pid; fails e
  end.
Definition mac_process_command (self : Process) : io ProcessError str := mac_command (proc_pid self).
Definition mac_process_environment (self : Process) : io ProcessError Environment := mac_environment (proc_pid self).
Definition mac_create_time (self : Process) : io ProcessError Time := mret (unique_id_create_time (unique_id self)).
Definition mac_cwd (self : Process) : io ProcessError path :=
  denied_or_zombie (PidCwd (proc_pid self)) (fun p => p) (proc_pid self).
Definition mac_cpu_time (self : Process) : io ProcessError MacCpuTime :=
  denied_or_zombie (TaskInfo (proc_pid self)) mac_cpu_time_from (proc_pid self).
Definition mac_memory (self : Process) : io ProcessError MacMemory :=
  denied_or_zombie (TaskInfo (proc_pid self)) mac_memory_from (proc_pid self).

Definition mac_process_status (self : Process) : io ProcessError Status :=
  info ← or_zombie (bindings_process (proc_pid self)) (proc_pid self);
  lift (map_err LoadError (mac_status_try_from (p_stat info))).

Definition mac_io_counters (self : Process) : io ProcessError MacIoCounters :=
  r ← attempt (E := io_error) (os (PidRusage (proc_pid self)));
  match r with
  | inr info => mret (mac_io_counters_from info)
  | inl e => if decide (io_kind e = PermissionDenied) then fails (AccessDenied (proc_pid self))
             else fails (process_from_io e)
  end.

Definition mac_is_running (self : Process) : io ProcessError bool :=
  other ← mac_get (proc_pid self); mret (process_eq other self).

Definition mac_signal (self : Process) (signal : Signal) : io ProcessError () :=
  running ← mac_is_running self;
  if running : bool then pid_kill (proc_pid self) signal
  else fails (NoSuchProcess (proc_pid self)).
Definition mac_public_signal (self : Process) (s : Signal) : io ProcessError () := mac_signal self s.
Definition mac_suspend (self : Process) : io ProcessError () := mac_signal self Stop.
Definition mac_resume (self : Process) : io ProcessError () := mac_signal self Cont.
Definition mac_terminate (self : Process) : io ProcessError () := mac_signal self Term.
Definition mac_kill (self : Process) : io ProcessError () := mac_signal self Signal.Kill.
Definition mac_wait (fuel : nat) (self : Process) : io ProcessError (option ()) :=
  pid_wait fuel (proc_pid self).
Definition mac_niceness (self : Process) : io ProcessError Z := pid_priority (proc_pid self).
Definition mac_set_niceness (self : Process) (value : Z) : io ProcessError () :=
  pid_setpriority (proc_pid self) value.
End process.
