(* ===== verification/MacProcessSpec.v ===== *)
(** * heim-process on macOS: the process arguments, the list of processes *)

From S2P Require Import Prelude RustStr Layout RustFloat Units Errors Sys Streams ProcFs ProcFsSpec ProcFsText.
From S2P Require Import Cpu Net Host HostSpec Signal MacSys CLayout Process MacProcess.

(** ** The block of KERN_PROCARGS2

    The count, the path of the executable, null bytes, the arguments and the
    environment, each string closed by a null byte, and whatever follows. *)
Definition procargs_block `{Endian} (argc : Z) (exe : str) (pad : nat) (strings : list str) (rest : str) : str :=
  map of_code (to_memory 4 argc) ++ exe ++ replicate (S pad) NUL ++ cmdline_text strings ++ rest.

(** Arguments as they stand between the null bytes, the last one open. *)
Definition args_data (args : list str) : str := removelast (cmdline_text args).

Lemma cmdline_text_ne a args : cmdline_text (a :: args) <> [].
Proof. rewrite cmdline_text_cons. by destruct a. Qed.

Lemma args_data_one a : args_data [a] = a.
Proof. unfold args_data. rewrite cmdline_text_cons. cbn. by rewrite removelast_last. Qed.

Lemma args_data_cons a b args : args_data (a :: b :: args) = a ++ NUL :: args_data (b :: args).
Proof.
  unfold args_data. rewrite (cmdline_text_cons a), removelast_app by done.
  rewrite removelast_cons by apply cmdline_text_ne. done.
Qed.

Lemma cmdline_text_data a args : cmdline_text (a :: args) = args_data (a :: args) ++ [NUL].
Proof.
  revert a. induction args as [|b args IH]; intros a.
  - by rewrite args_data_one, cmdline_text_cons.
  - by rewrite args_data_cons, cmdline_text_cons, IH, <- app_assoc.
Qed.

Lemma cmdline_text_app l1 l2 : cmdline_text (l1 ++ l2) = cmdline_text l1 ++ cmdline_text l2.
Proof. unfold cmdline_text. by rewrite map_app, concat_app. Qed.

Lemma positions_app k c a s :
  c ∉ a -> positions_from k c (a ++ s) = positions_from (k + length a) c s.
Proof.
  revert k. induction a as [|x a IH]; intros k Ha; cbn; [by rewrite Nat.add_0_r|].
  rewrite decide_False by set_solver. rewrite IH by set_solver. f_equal. lia.
Qed.

(** The null byte that closes the [n]th of the strings. *)
Lemma positions_nth k n a args s :
  Forall (fun x => NUL ∉ x) (a :: args) -> n <= length args ->
  positions_from k NUL (cmdline_text (a :: args) ++ s) !! n =
  Some (k + length (args_data (take (S n) (a :: args)))).
Proof.
  revert k n a. induction args as [|b args IH]; intros k n a Hall Hn;
    rewrite cmdline_text_cons, <- app_assoc, positions_app by (by inversion Hall); cbn [app positions_from];
    rewrite decide_True by done.
  - destruct n; [|cbn in Hn; lia]. cbn [lookup list_lookup take]. by rewrite args_data_one.
  - destruct n as [|n]; [cbn [lookup list_lookup take]; by rewrite args_data_one|].
    apply Forall_cons in Hall as [_ Hall]. cbn [lookup list_lookup].
    rewrite IH by (done || (cbn in Hn; lia)). rewrite (firstn_cons (S n)), firstn_cons.
    rewrite args_data_cons, length_app. cbn [length]. f_equal. lia.
Qed.

Lemma position_padding pad b s : b <> NUL -> position_not_nul (replicate pad NUL ++ b :: s) = Some pad.
Proof.
  intros Hb. unfold position_not_nul. induction pad as [|pad IH]; cbn.
  - by rewrite decide_True.
  - rewrite decide_False by naive_solver. destruct (list_find _ (_ ++ _)) as [[i x]|]; cbn in *; by simplify_eq.
Qed.


Section block.
Context `{Profile, Memchr, MemchrIter, Endian, Darwin}.
Context `{!MemchrLaws, !MemchrIterLaws}.

(** Where the strings of a block begin. *)
Definition strings_start (exe : str) (pad : nat) : nat := 4 + length exe + S pad.

Lemma drop_prefix (a b : str) k : k = length a -> drop k (a ++ b) = b.
Proof. intros ->. apply drop_app_length. Qed.

Lemma bytes_from_app {E} (a b : str) k : k = length a -> bytes_from (E := E) (a ++ b) k = Ok b.
Proof.
  intros ->. unfold bytes_from. rewrite bool_decide_eq_true_2 by (rewrite length_app; lia).
  by rewrite drop_app_length.
Qed.

Lemma bytes_slice_app {E} (a b c : str) i j :
  i = length a -> j = length a + length b -> bytes_slice (E := E) (a ++ b ++ c) i j = Ok b.
Proof.
  intros -> ->. unfold bytes_slice. rewrite bool_decide_eq_true_2 by (rewrite !length_app; lia).
  rewrite drop_app_length. replace (length a + length b - length a) with (length b) by lia.
  by rewrite take_app_length.
Qed.

Definition block_head (n : Z) : str := map of_code (to_memory 4 n).
Lemma length_block_head n : length (block_head n) = 4.
Proof. unfold block_head. by rewrite length_map, length_to_memory. Qed.

Lemma argc_block {E} n exe pad strings rest :
  (0 <= n < 2 ^ 32)%Z -> argc (E := E) (procargs_block n exe pad strings rest) = Ok n.
Proof.
  intros Hn. unfold argc, procargs_block. fold (block_head n).
  rewrite bool_decide_eq_false_2 by (rewrite length_app, length_block_head; lia).
  rewrite andb_false_r.
  rewrite (bytes_slice_app (E := E) [] (block_head n) _ 0 4 eq_refl
             (eq_sym (length_block_head n)) : bytes_slice (block_head n ++ _) 0 4 = _).
  cbn [mbind res_bind]. unfold block_head. rewrite code_bytes by apply to_memory_bytes.
  by rewrite of_memory_to_memory.
Qed.

Lemma exe_range_block {E} n exe pad strings rest :
  NUL ∉ exe -> exe_range (E := E) (procargs_block n exe pad strings rest) = Ok (4, length exe + 4).
Proof.
  intros He. unfold exe_range, procargs_block. fold (block_head n).
  rewrite bytes_from_app by by rewrite length_block_head. cbn [mbind res_bind replicate app].
  by rewrite memchr_app.
Qed.

Lemma arguments_range_start {E} n exe pad a strings rest :
  (0 <= n < 2 ^ 32)%Z -> NUL ∉ exe -> a <> [] -> NUL ∉ a ->
  arguments_range (E := E) (procargs_block n exe pad (a :: strings) rest) =
  (n ← sub_u64 n 1;
   Ok (strings_start exe pad,
       default 0 (nth_z (positions_from 0 NUL (cmdline_text (a :: strings) ++ rest)) n)
       + strings_start exe pad)).
Proof.
  intros Hn He Ha Hna. unfold arguments_range. rewrite argc_block by lia.
  cbn [mbind res_bind]. rewrite exe_range_block by done. cbn [mbind res_bind].
  set (s := cmdline_text (a :: strings) ++ rest).
  assert (Hv : procargs_block n exe pad (a :: strings) rest = (block_head n ++ exe) ++ replicate (S pad) NUL ++ s).
  { unfold procargs_block. fold (block_head n). by rewrite <- app_assoc. }
  rewrite Hv. rewrite drop_prefix by (rewrite length_app, length_block_head; lia).
  assert (Hp : position_not_nul (replicate (S pad) NUL ++ s) = Some (S pad)).
  { unfold s. rewrite cmdline_text_cons. destruct a as [|b a]; [done|]. apply position_padding. set_solver. }
  rewrite Hp. cbn [default from_option id]. rewrite app_assoc.
  rewrite bytes_from_app by (rewrite !length_app, length_block_head, length_replicate; lia).
  cbn [mbind res_bind]. rewrite memchr_iter_positions.
  replace (S pad + (length exe + 4)) with (strings_start exe pad) by (unfold strings_start; lia). done.
Qed.

Lemma arguments_range_block {E} n exe pad a strings rest k :
  n = Z.of_nat (S k) -> (n < 2 ^ 32)%Z -> k <= length strings ->
  NUL ∉ exe -> a <> [] -> Forall (fun x => NUL ∉ x) (a :: strings) ->
  arguments_range (E := E) (procargs_block n exe pad (a :: strings) rest) =
  Ok (strings_start exe pad,
      strings_start exe pad + length (args_data (take (S k) (a :: strings)))).
Proof.
  intros Hn Hlt Hk He Ha Hall.
  rewrite arguments_range_start by (done || lia || by inversion Hall).
  unfold sub_u64. rewrite arith_u64_small by lia. cbn [mbind res_bind].
  pose proof (positions_nth 0 k a strings rest Hall Hk) as Hnth. unfold nth_z.
  replace (n - 1)%Z with (Z.of_nat k) by lia. rewrite Nat2Z.id, Hnth.
  rewrite (proj2 (Z.ltb_lt _ _)) by (apply lookup_lt_Some in Hnth; lia).
  cbn [default from_option id]. do 2 f_equal; lia.
Qed.

(** The block cut where the arguments begin and end. *)
Lemma block_cut n exe pad a args more rest :
  procargs_block n exe pad ((a :: args) ++ more) rest =
  ((block_head n ++ exe) ++ replicate (S pad) NUL) ++ args_data (a :: args) ++
    (NUL :: cmdline_text more ++ rest).
Proof.
  unfold procargs_block. fold (block_head n). rewrite cmdline_text_app, cmdline_text_data.
  rewrite <- !app_assoc. done.
Qed.

Lemma length_block_start n exe pad :
  length ((block_head n ++ exe) ++ replicate (S pad) NUL) = strings_start exe pad.
Proof. unfold strings_start. rewrite !length_app, length_block_head, length_replicate. lia. Qed.

Lemma arguments_collect_S {E} fuel it :
  arguments_collect (E := E) (S fuel) it =
  match arguments_next (E := E) it with
  | Ok (Some arg, it') => fmap (M := res E) (cons arg) <$> arguments_collect fuel it'
  | Ok (None, _) => Some (Ok [])
  | Err e => Some (Err e)
  | Panic => Some Panic
  end.
Proof. done. Qed.

Lemma collect_args {E} a args :
  Forall (fun x => NUL ∉ x) (a :: args) ->
  arguments_collect (E := E) (S (S (length args)))
    (mkProcArgsArguments (Z.of_nat (S (length args))) (args_data (a :: args))) = Some (Ok (a :: args)).
Proof.
  revert a. induction args as [|b args IH]; intros a Hall; apply Forall_cons in Hall as [Ha Hall];
    rewrite arguments_collect_S; unfold arguments_next; cbn [left data];
    rewrite (proj2 (Z.eqb_neq _ 0)) by lia.
  - rewrite args_data_one, memchr_plain by done. done.
  - rewrite args_data_cons, memchr_app by done.
    rewrite (bytes_slice_app (E := E) [] a _ 0 (length a) eq_refl eq_refl : bytes_slice (a ++ _) 0 _ = _).
    cbn [mbind res_bind]. rewrite (cons_middle NUL a), app_assoc.
    rewrite bytes_from_app by (rewrite length_app; cbn; lia). cbn [mbind res_bind].
    replace (Z.of_nat (S (length (b :: args))) - 1)%Z with (Z.of_nat (S (length args))) by (cbn; lia).
    cbn [length]. by rewrite IH.
Qed.

Lemma block_reads {E} n exe pad a args more rest :
  n = Z.of_nat (S (length args)) -> (n < 2 ^ 32)%Z -> NUL ∉ exe -> a <> [] ->
  Forall (fun x => NUL ∉ x) ((a :: args) ++ more) ->
  let v := procargs_block n exe pad ((a :: args) ++ more) rest in
  procargs_exe (E := E) v = Ok exe /\
  procargs_args (E := E) v = Some (Ok (a :: args)) /\
  to_command (E := E) v = Ok (unwords (a :: args)) /\
  procargs_environment (E := E) v =
    Some (Ok (omap env_var (until_empty (removelast (split_on NUL (cmdline_text more ++ rest)))))).
Proof.
  intros Hn Hlt He Ha Hall v.
  assert (Hargs : Forall (fun x => NUL ∉ x) (a :: args)) by (apply Forall_app in Hall; tauto).
  assert (Hr : arguments_range (E := E) v = Ok (strings_start exe pad,
    strings_start exe pad + length (args_data (a :: args)))).
  { unfold v. cbn [app]. rewrite arguments_range_block with (k := length args) by
      (done || (rewrite length_app; lia)).
    rewrite firstn_cons, take_app_length. done. }
  assert (Hs : bytes_slice (E := E) v (strings_start exe pad)
                 (strings_start exe pad + length (args_data (a :: args))) = Ok (args_data (a :: args))).
  { unfold v. rewrite block_cut. apply bytes_slice_app; by rewrite length_block_start. }
  split_and!.
  - unfold procargs_exe, v. rewrite exe_range_block by done. cbn [mbind res_bind].
    unfold procargs_block. fold (block_head n). apply bytes_slice_app; rewrite length_block_head; lia.
  - unfold procargs_args, procargs_arguments. rewrite Hr. cbn [mbind res_bind].
    assert (Hc : argc (E := E) v = Ok n) by (apply argc_block; lia). rewrite Hc.
    cbn [mbind res_bind]. rewrite Hs. cbn [mbind res_bind left].
    rewrite Hn, Nat2Z.id. by apply collect_args.
  - unfold to_command. rewrite Hr. cbn [mbind res_bind]. rewrite Hs. cbn [mbind res_bind].
    rewrite <- with_spaces_text by done. unfold with_spaces, args_data.
    rewrite (cmdline_text_data a args) at 2. rewrite map_app. cbn [map].
    rewrite removelast_last, cmdline_text_data, removelast_last. done.
  - unfold procargs_environment. rewrite Hr. cbn [mbind res_bind].
    assert (Hf : bytes_from (E := E) v (strings_start exe pad + length (args_data (a :: args)) + 1) =
      Ok (cmdline_text more ++ rest)).
    { unfold v. rewrite block_cut. rewrite (cons_middle NUL (args_data (a :: args))), !app_assoc.
      rewrite <- (app_assoc _ (cmdline_text more)). apply bytes_from_app.
      pose proof (length_block_start n exe pad) as Hl. rewrite !length_app in *. cbn [length]. lia. }
    rewrite Hf. unfold env_from_bytes.
    rewrite (env_loop_spec _ _ _ (cmdline_text more ++ rest)) by (done || lia). done.
Qed.
End block.

(** ** Round trip and the blocks that do not survive it *)

Definition env_string (kv : str * str) : str := fst kv ++ EQUALS :: snd kv.

Lemma env_string_ok kv : env_wf kv -> env_string kv <> [] /\ NUL ∉ env_string kv.
Proof.
  destruct kv as [[|c k] v]; [done|]. intros [Hn He]. split; [done|]. cbn [env_string fst snd]. set_solver.
Qed.

Lemma env_strings_ok env : Forall env_wf env -> Forall (fun x => NUL ∉ x) (map env_string env).
Proof. intros Henv. apply Forall_fmap. eapply Forall_impl; [exact Henv|]. intros kv Hkv. by apply env_string_ok. Qed.

Lemma env_var_string kv : env_wf kv -> env_var (env_string kv) = Some kv.
Proof.
  destruct kv as [[|c k] v]; [done|]. intros [_ He]. unfold env_var. cbn [env_string fst snd app].
  by rewrite split_once_app.
Qed.

Lemma env_strings_read env junk :
  Forall env_wf env ->
  omap env_var (until_empty (removelast (split_on NUL (cmdline_text (map env_string env) ++ NUL :: junk)))) = env.
Proof.
  induction 1 as [|kv env Hkv Henv IH].
  - cbn [map cmdline_text concat app]. rewrite (split_on_app NUL [] junk ltac:(set_solver) : split_on NUL (NUL :: junk) = _).
    rewrite removelast_cons by apply split_on_nil. done.
  - destruct (env_string_ok kv Hkv) as [Hne Hn]. cbn [map]. rewrite cmdline_text_cons.
    rewrite <- app_assoc, <- app_comm_cons, split_on_app, removelast_cons by (done || apply split_on_nil).
    cbn [until_empty]. destruct (env_string kv) as [|c s] eqn:Hs; [done|].
    cbn [omap list_omap]. rewrite <- Hs, env_var_string, IH by done. done.
Qed.

Lemma length_positions k c s : length (positions_from k c s) <= length s.
Proof. revert k. induction s as [|x s IH]; intros k; cbn; [done|]. case_decide; cbn; specialize (IH (S k)); lia. Qed.

Lemma nth_z_None {A} (l : list A) n : (Z.of_nat (length l) <= n)%Z -> nth_z l n = None.
Proof. intros Hn. unfold nth_z. by rewrite (proj2 (Z.ltb_ge _ _)). Qed.

Section theorems.
Context `{Profile, Memchr, MemchrIter, Endian, Darwin}.
Context `{!MemchrLaws, !MemchrIterLaws}.

(** A block that counts no arguments. *)
Lemma block_no_args {E} exe pad c a strings rest :
  NUL ∉ exe -> NUL ∉ c :: a ->
  let v := procargs_block 0 exe pad ((c :: a) :: strings) rest in
  (Z.of_nat (length v) < 2 ^ 63)%Z ->
  (overflow_checks = true ->
     procargs_args (E := E) v = Some Panic /\ procargs_environment (E := E) v = Some Panic) /\
  (overflow_checks = false ->
     procargs_args (E := E) v = Some (Ok []) /\
     procargs_environment (E := E) v = env_from_bytes (E := E) (a ++ NUL :: cmdline_text strings ++ rest)).
Proof.
  intros He Ha v Hlen.
  assert (Hc : argc (E := E) v = Ok 0%Z) by (apply argc_block; lia).
  assert (Hs : arguments_range (E := E) v =
    if overflow_checks then Panic else Ok (strings_start exe pad, strings_start exe pad)).
  { unfold v. rewrite arguments_range_start by (done || lia).
    unfold sub_u64, arith_u64. rewrite decide_False by lia.
    destruct overflow_checks; [done|]. cbn [mbind res_bind].
    rewrite nth_z_None; [done|].
    pose proof (length_positions 0 NUL (cmdline_text ((c :: a) :: strings) ++ rest)) as Hl.
    unfold v, procargs_block in Hlen. rewrite !(length_app (map _ _)), !(length_app exe), !(length_app (replicate _ _)) in Hlen.
    change (wrap 64 (0 - 1)) with (2 ^ 64 - 1)%Z. lia. }
  set (A := (block_head 0 ++ exe) ++ replicate (S pad) NUL).
  assert (Hv : v = A ++ [] ++ c :: a ++ NUL :: cmdline_text strings ++ rest).
  { unfold v, A, procargs_block. fold (block_head 0). rewrite cmdline_text_cons, <- !app_assoc. done. }
  assert (HA : strings_start exe pad = length A) by (symmetry; apply length_block_start).
  split; intros Hp; rewrite Hp in Hs; unfold procargs_args, procargs_arguments, procargs_environment;
    rewrite Hs; [done|]. cbn [mbind res_bind]. rewrite Hc. cbn [mbind res_bind]. rewrite Hv. split.
  - rewrite bytes_slice_app by (cbn [length]; lia). done.
  - cbn [app]. rewrite (cons_middle c A), app_assoc.
    rewrite bytes_from_app by (rewrite length_app; cbn [length]; lia). done.
Qed.

(** C37: the block that [KERN_PROCARGS2] gives is read back to what it was
    made of: the path of the executable, every argument (empty ones after the
    first included), the command line joined by spaces, and the environment,
    whatever follows its end and however many null bytes stand after the
    path; nothing is sliced out of range. *)
Theorem mac_procargs_roundtrip {E} exe pad a args env junk :
  a <> [] -> NUL ∉ exe -> Forall (fun x => NUL ∉ x) (a :: args) -> Forall env_wf env ->
  (Z.of_nat (S (length args)) < 2 ^ 32)%Z ->
  let v := procargs_block (Z.of_nat (S (length args))) exe pad
             ((a :: args) ++ map env_string env) (NUL :: junk) in
  procargs_exe (E := E) v = Ok exe /\
  procargs_args (E := E) v = Some (Ok (a :: args)) /\
  to_command (E := E) v = Ok (unwords (a :: args)) /\
  procargs_environment (E := E) v = Some (Ok env).
Proof.
  intros Ha He Hargs Henv Hlen v. rewrite <- (env_strings_read env junk) at 1 by done.
  apply block_reads; [done|lia|done|done|]. apply Forall_app. split; [done|]. by apply env_strings_ok.
Qed.

(** Two blocks are misread.  An empty first argument is taken for padding:
    every argument moves up by one, the first variable of the environment
    becomes the last argument and is lost from the environment.  And a process
    without arguments makes the count underflow: that panics where overflow is
    checked, and else the first byte of the environment is lost. *)
Theorem mac_procargs_misread {E} exe pad args e env junk :
  match args with b :: _ => b <> [] | [] => True end ->
  NUL ∉ exe -> Forall (fun x => NUL ∉ x) args -> Forall env_wf (e :: env) ->
  (Z.of_nat (S (length args)) < 2 ^ 32)%Z ->
  let v := procargs_block (Z.of_nat (S (length args))) exe pad
             (([] :: args) ++ map env_string (e :: env)) (NUL :: junk) in
  let v0 := procargs_block 0 exe pad (map env_string (e :: env)) (NUL :: junk) in
  (Z.of_nat (length v0) < 2 ^ 63)%Z ->
  procargs_args (E := E) v = Some (Ok (args ++ [env_string e])) /\
  procargs_environment (E := E) v = Some (Ok env) /\
  (overflow_checks = true ->
     procargs_args (E := E) v0 = Some Panic /\ procargs_environment (E := E) v0 = Some Panic) /\
  (overflow_checks = false ->
     procargs_args (E := E) v0 = Some (Ok []) /\
     procargs_environment (E := E) v0 =
       env_from_bytes (E := E) (tail (env_string e) ++ NUL :: cmdline_text (map env_string env) ++ NUL :: junk)).
Proof.
  intros Hhead He Hargs Hall Hlen v v0 Hv0. inversion Hall as [|? ? Hwf Henv]; subst.
  destruct (env_string_ok e Hwf) as [Hene Hen].
  assert (Hv : v = procargs_block (Z.of_nat (S (length args))) exe (S pad)
                     ((args ++ [env_string e]) ++ map env_string env) (NUL :: junk)).
  { unfold v, procargs_block. do 2 f_equal. rewrite <- (app_assoc args). cbn [map app].
    rewrite cmdline_text_cons. rewrite (replicate_S_end (S pad) NUL), <- (app_assoc _ [NUL]). done. }
  assert (Hr : procargs_args (E := E) v = Some (Ok (args ++ [env_string e])) /\
               procargs_environment (E := E) v = Some (Ok env)).
  { rewrite Hv.
    destruct (args ++ [env_string e]) as [|b l] eqn:Hbl; [by destruct args|].
    destruct (block_reads (E := E) (Z.of_nat (S (length args))) exe (S pad) b l
      (map env_string env) (NUL :: junk)) as (_ & Hra & _ & Hre); [..|by rewrite env_strings_read in Hre by done]; try done.
    - apply (f_equal length) in Hbl. rewrite length_app in Hbl. cbn in Hbl. lia.
    - destruct args; cbn in Hbl; by simplify_eq.
    - rewrite <- Hbl. rewrite !Forall_app. split_and!; [done|by constructor|by apply env_strings_ok]. }
  destruct Hr as [Hr1 Hr2].
  destruct (env_string e) as [|c a] eqn:Hs; [done|].
  destruct (block_no_args (E := E) exe pad c a (map env_string env) (NUL :: junk)) as [Hp Hu];
    unfold v0 in *; cbn [map] in *; rewrite ?Hs in *; done.
Qed.
End theorems.

Definition test_darwin : Darwin := {|
  CTL_KERN := 1; KERN_ARGMAX := 8; KERN_PROCARGS2 := 49;
  KERN_PROC := 14; KERN_PROC_ALL := 0; KERN_PROC_PID := 1;
  timeval_layout := (16, 8); itimerval_layout := (32, 8); xucred_layout := (76, 4);
|}.
#[export] Instance test_darwin_laws : @DarwinLaws test_darwin.
Proof. by split. Qed.
Definition find_bytes : MemchrIter := positions_from 0.
Lemma find_bytes_laws : @MemchrIterLaws find_bytes.
Proof. by intros c s. Qed.

Lemma mac_procargs_roundtrip_witness :
  @procargs_args true find_byte find_bytes true Error
    (@procargs_block true 3 (lit "./a") 5 ([lit "./a"; []; lit "b c"] ++ map env_string [(lit "T", lit "x=y")])
       (NUL :: lit "junk")) = Some (Ok [lit "./a"; []; lit "b c"]).
Proof.
  refine (proj1 (proj2 (@mac_procargs_roundtrip true find_byte find_bytes true find_byte_laws
    find_bytes_laws Error (lit "./a") 5 (lit "./a") [[]; lit "b c"] [(lit "T", lit "x=y")] (lit "junk") _ _ _ _ _)));
    first [done | apply (bool_decide_unpack _); vm_compute; exact I].
Defined.

Lemma mac_procargs_misread_witness :
  @procargs_args false find_byte find_bytes true Error
    (@procargs_block true 2 (lit "./a") 5 ([[]; lit "b"] ++ map env_string [(lit "T", lit "x"); (lit "U", lit "y")])
       (NUL :: lit "junk")) = Some (Ok [lit "b"; lit "T=x"]).
Proof.
  refine (proj1 (@mac_procargs_misread false find_byte find_bytes true find_byte_laws
    find_bytes_laws Error (lit "./a") 5 [lit "b"] (lit "T", lit "x") [(lit "U", lit "y")] (lit "junk") _ _ _ _ _ _));
    first [done | apply (bool_decide_unpack _); vm_compute; exact I].
Defined.

(** ** The list of processes *)

Lemma trace_do {W R A} (h : handler W) (c : call R) (k : R -> prog A) w :
  trace h (Do c k) w = event_of c :: (let '(r, w') := h _ c w in trace h (k r) w').
Proof. cbn. by destruct (h R c w). Qed.

(** ** The layout of [kinfo_proc] *)

(** Unfolds the declarations down to the documented layouts of libc. *)
Ltac darwin_layout :=
  unfold kinfo_proc_t, extern_proc, kinfo_proc_eproc, p_un, opaque;
  rewrite ?timeval_layout_64, ?itimerval_layout_64, ?xucred_layout_64.

Section kinfo.
Context `{Darwin, !DarwinLaws}.

Lemma kinfo_size : size_of kinfo_proc_t = 648.
Proof. by darwin_layout. Qed.
Lemma size_of_kinfo : size_of_kinfo_proc = 648%Z.
Proof. unfold size_of_kinfo_proc. by rewrite kinfo_size. Qed.
Lemma kinfo_wf_layout : wf_ctype kinfo_proc_t = true.
Proof. by darwin_layout. Qed.

Lemma locate_pid : locate kinfo_proc_t path_pid = Some (40, CInt 4).
Proof. by darwin_layout. Qed.
Lemma locate_stat : locate kinfo_proc_t path_stat = Some (36, CInt 1).
Proof. by darwin_layout. Qed.
Lemma locate_comm : locate kinfo_proc_t path_comm = Some (243, chars 17).
Proof. by darwin_layout. Qed.
Lemma locate_ppid : locate kinfo_proc_t path_ppid = Some (560, CInt 4).
Proof. by darwin_layout. Qed.
Lemma locate_starttime : locate kinfo_proc_t path_starttime = Some (0, COpaque 16 8).
Proof. by darwin_layout. Qed.

(** ** A record in memory, over anything *)

Definition int_range (bits z : Z) : Prop := (- 2 ^ (bits - 1) <= z < 2 ^ (bits - 1))%Z.
Definition kinfo_wf (k : kinfo_proc) : Prop :=
  int_range 32 (p_pid k) /\ int_range 8 (p_stat k) /\ length (p_comm k) = 17 /\
  int_range 32 (e_ppid k) /\ int_range 64 (fst (p_starttime k)) /\ int_range 32 (snd (p_starttime k)).
Definition timeval_memory (tv : Z * Z) : str := uint_bytes 8 (fst tv) ++ uint_bytes 4 (snd tv) ++ replicate 4 NUL.
Definition kinfo_fields (k : kinfo_proc) : list (list string * str) :=
  [(path_pid, uint_bytes 4 (p_pid k)); (path_stat, uint_bytes 1 (p_stat k)); (path_comm, p_comm k);
   (path_ppid, uint_bytes 4 (e_ppid k)); (path_starttime, timeval_memory (p_starttime k))].
Definition kinfo_memory (k : kinfo_proc) (before : str) : str := c_memory kinfo_proc_t (kinfo_fields k) before.

Lemma kinfo_fits k : length (p_comm k) = 17 -> Forall (fits kinfo_proc_t) (kinfo_fields k).
Proof.
  intros Hc. repeat (apply Forall_cons; split); [..|constructor].
  - do 2 eexists. split; [apply locate_pid|apply length_uint_bytes].
  - do 2 eexists. split; [apply locate_stat|apply length_uint_bytes].
  - do 2 eexists. split; [apply locate_comm|done].
  - do 2 eexists. split; [apply locate_ppid|apply length_uint_bytes].
  - do 2 eexists. split; [apply locate_starttime|].
    cbn [snd]. unfold timeval_memory. by rewrite !length_app, !length_uint_bytes.
Qed.
Lemma kinfo_apart k : ForallOrdPairs (apart kinfo_proc_t) (kinfo_fields k).
Proof. repeat constructor. Qed.
Lemma length_kinfo_memory k before : kinfo_wf k -> length before = 648 -> length (kinfo_memory k before) = 648.
Proof.
  intros Hk Hb. rewrite <- kinfo_size. apply length_c_memory;
    [apply kinfo_wf_layout|apply kinfo_fits, Hk|by rewrite kinfo_size].
Qed.

Lemma timeval_memory_at {E} tv : int_range 64 (fst tv) -> int_range 32 (snd tv) ->
  timeval_at (E := E) (timeval_memory tv) = Ok tv.
Proof.
  intros Hs Hu. unfold timeval_at, i64_at, i32_at, timeval_memory. rewrite !uint_at_bytes_at.
  change (uint_bytes 8 (fst tv) ++ uint_bytes 4 (snd tv) ++ replicate 4 NUL)
    with (uint_bytes 8 (fst tv) ++ (uint_bytes 4 (snd tv) ++ replicate 4 NUL)).
  unfold bytes_at. rewrite !bool_decide_eq_true_2 by (rewrite !length_app, !length_uint_bytes; cbn; lia).
  rewrite drop_0, take_app_length' by by rewrite length_uint_bytes.
  rewrite drop_app_length' by by rewrite length_uint_bytes.
  rewrite take_app_length' by by rewrite length_uint_bytes. cbn [fmap res_fmap mbind res_bind].
  rewrite (int_bytes_value 8 (fst tv) ltac:(lia) Hs : signed 64 _ = _).
  rewrite (int_bytes_value 4 (snd tv) ltac:(lia) Hu : signed 32 _ = _). by destruct tv.
Qed.

(** The record comes back, whatever lies in its other fields and padding. *)
Lemma kinfo_proc_at_memory {E} k before : kinfo_wf k -> length before = 648 ->
  kinfo_proc_at (E := E) (kinfo_memory k before) = Ok k.
Proof.
  intros Hk Hb. pose proof (length_kinfo_memory k before Hk Hb) as Hlen. destruct Hk as (Hp & Hs & Hc & Hpp & Hsec & Hus).
  unfold kinfo_proc_at. rewrite Hlen, kinfo_size, bool_decide_eq_false_2 by lia.
  assert (Hr : forall p s, (p, s) ∈ kinfo_fields k -> c_bytes (E := E) kinfo_proc_t p (kinfo_memory k before) = Ok s).
  { intros p s. apply c_bytes_memory; [apply kinfo_wf_layout|by apply kinfo_fits|apply kinfo_apart|by rewrite kinfo_size]. }
  rewrite (c_int_bytes _ _ _ _ _ locate_pid), (c_int_bytes _ _ _ _ _ locate_stat), (c_int_bytes _ _ _ _ _ locate_ppid).
  rewrite (Hr path_pid (uint_bytes 4 (p_pid k))), (Hr path_stat (uint_bytes 1 (p_stat k))), (Hr path_comm (p_comm k)),
    (Hr path_ppid (uint_bytes 4 (e_ppid k))), (Hr path_starttime (timeval_memory (p_starttime k)))
    by (unfold kinfo_fields; rewrite !elem_of_cons; tauto).
  cbn [fmap res_fmap mbind res_bind]. rewrite !int_bytes_value by (done || lia).
  rewrite timeval_memory_at by done. cbn [mbind res_bind]. by destruct k.
Qed.

Lemma kinfo_structs {E} ks befores : Forall kinfo_wf ks -> length befores = length ks ->
  Forall (fun b => length b = 648) befores ->
  structs_at (E := E) (size_of kinfo_proc_t) kinfo_proc_at (length ks) (concat (zip_with kinfo_memory ks befores)) = Ok ks.
Proof.
  intros Hks Hl Hb. rewrite <- (app_nil_r (concat _)). apply structs_at_concat. rewrite kinfo_size. revert befores Hl Hb.
  induction Hks as [|k ks Hk Hks IH]; intros [|b befores] Hl Hb; try done; cbn [zip_with].
  apply Forall_cons in Hb as [Hb Hbs]. constructor; [|apply IH; [by injection Hl|done]].
  split; [by apply length_kinfo_memory|by apply kinfo_proc_at_memory].
Qed.
End kinfo.

(** ** The list of processes: the room it is read into *)

Ltac round H :=
  rewrite ?size_of_kinfo;
  cbn -[Z.mul Z.div reserve_exact proc_all_name errno.ENOMEM structs_at size_of kinfo_proc_t size_of_kinfo_proc]; rewrite ?H;
  cbn -[Z.mul Z.div reserve_exact proc_all_name errno.ENOMEM structs_at size_of kinfo_proc_t size_of_kinfo_proc].

Section processes.
Context `{Profile, Darwin, !DarwinLaws} {W : Type} (h : handler W).

(** C39: the list of processes is read into a vector with room for exactly
    what the dry run announced, and it ends in the first round that is not
    refused for lack of room.  After a refusal the room is not made right
    again: the second round tells the kernel the new size, but its buffer is
    large enough only when the list did not grow; when it did, the kernel is
    told to write past the end of the buffer. *)
Theorem mac_processes_buffer fuel w r1 b1 s1 w1 :
  h _ (Sysctl proc_all_name None 0) w = ((r1, (b1, s1)), w1) ->
  (0 <= r1 -> 0 < s1 -> s1 mod 648 = 0 ->
  let '((r2, (b2, t2)), w2) := h _ (Sysctl proc_all_name (Some s1) s1) w1 in
  let '(e, w3) := h _ GetErrno w2 in
  (0 <= r2 -> 648 <= t2 ->
     exec h (bindings_processes (S fuel)) w =
       (Some <$> structs_at (size_of kinfo_proc_t) kinfo_proc_at (Z.to_nat (t2 / 648)) b2, w2)) /\
  (r2 < 0 -> e <> errno.ENOMEM ->
     exec h (bindings_processes (S fuel)) w = (Err (with_sysctl (last_os_error e) proc_all_name), w3)) /\
  (r2 < 0 -> e = errno.ENOMEM ->
     forall r3 b3 s2 w4, h _ (Sysctl proc_all_name None t2) w3 = ((r3, (b3, s2)), w4) ->
     0 <= r3 -> 0 <= s2 -> s2 mod 648 = 0 ->
     exists buffer more,
       trace h (bindings_processes (S (S fuel))) w =
         EvSysctl proc_all_name None 0 :: EvSysctl proc_all_name (Some s1) s1 :: EvErrno ::
         EvSysctl proc_all_name None t2 :: EvSysctl proc_all_name (Some buffer) s2 :: more /\
       (s2 <= buffer <-> s2 <= s1)))%Z.
Proof.
  intros Hd Hr1 Hs1 Hm1.
  destruct (h _ (Sysctl proc_all_name (Some s1) s1) w1) as [[r2 [b2 t2]] w2] eqn:Hc.
  destruct (h _ GetErrno w2) as [e w3] eqn:He.
  assert (Hs : s1 = (648 * (s1 / 648))%Z) by (pose proof (Z.div_mod s1 648); lia).
  assert (Hcap : reserve_exact 0 0 (s1 / 648 - 0) = (s1 / 648)%Z).
  { unfold reserve_exact. rewrite (proj2 (Z.leb_gt _ _)); lia. }
  unfold bindings_processes. round Hd. rewrite (proj2 (Z.ltb_ge r1 0)) by lia.
  cbn -[Z.mul Z.div reserve_exact proc_all_name errno.ENOMEM structs_at size_of kinfo_proc_t size_of_kinfo_proc]. rewrite size_of_kinfo.
  rewrite (proj2 (Z.ltb_lt 0 (s1 / 648))), Hcap by lia.
  replace (s1 / 648 * 648)%Z with s1 by lia. round Hc. split_and!.
  - intros Hr2 Ht2. rewrite (proj2 (Z.ltb_ge r2 0)), (proj2 (Z.eqb_neq _ 0)), andb_false_r
      by (try apply Z.div_le_lower_bound with (q := 1%Z); pose proof (Z.div_le_lower_bound t2 648 1); lia).
    by destruct (structs_at _ _ _ _).
  - intros Hr2 Hne. rewrite (proj2 (Z.ltb_lt r2 0)) by lia. round He.
    rewrite (proj2 (Z.eqb_neq _ _)) by done. done.
  - intros Hr2 -> r3 b3 s2 w4 Hd2 Hr3 Hs2 Hm2. rewrite (proj2 (Z.ltb_lt r2 0)) by lia. round He.
    rewrite Z.eqb_refl. round Hd2. rewrite (proj2 (Z.ltb_ge r3 0)) by lia.
    assert (Hs' : s2 = (648 * (s2 / 648))%Z) by (pose proof (Z.div_mod s2 648); lia).
    rewrite trace_do. do 2 eexists. split; [reflexivity|].
    unfold reserve_exact. destruct (Z.ltb_spec (s1 / 648) (s2 / 648)); [|lia].
    case_match; rewrite ?Z.leb_le, ?Z.leb_gt in *; lia.
Qed.
End processes.

(** One process more in the second round: 1296 bytes, then 1944. *)
Definition growing : handler nat := fun R c n =>
  match c in call R return R * nat with
  | Sysctl _ None _ => ((0%Z, ([], if decide (n = 0%nat) then 1296 else 1944)%Z), n)
  | Sysctl _ (Some _) _ => (((-1)%Z, ([], 1296%Z)), S n)
  | GetErrno => (errno.ENOMEM, n)
  | c => (fst (snapshot (fun _ => Err (Os 2)) (fun _ => []) _ c tt), n)
  end.
Lemma mac_processes_buffer_witness :
  exists buffer more,
    trace growing (@bindings_processes false test_darwin 2) 0 =
      EvSysctl [1; 14; 0]%Z None 0 :: EvSysctl [1; 14; 0]%Z (Some 1296%Z) 1296 :: EvErrno ::
      EvSysctl [1; 14; 0]%Z None 1296 :: EvSysctl [1; 14; 0]%Z (Some buffer) 1944 :: more /\
    (1944 <= buffer <-> 1944 <= 1296)%Z.
Proof.
  refine (proj2 (proj2 (@mac_processes_buffer false test_darwin _ nat growing 0 0 0%Z [] 1296%Z 0
    eq_refl _ _ _)) _ _ 0%Z [] 1944%Z 1 _ _ _ _); first [lia | reflexivity].
Defined.

(** ** What the kernel reports of processes *)

Section records.
Context `{Profile, Units, OrderedFloat, Darwin, !DarwinLaws} {W : Type} (h : handler W) (w : W).
Hypothesis Hsteady : steady h w.

Definition proc_pid_name (pid : Z) : list Z := [CTL_KERN; KERN_PROC; KERN_PROC_PID; pid].

Lemma result_bindings_process pid k before :
  kinfo_wf k -> length before = 648 ->
  fst (h _ (Sysctl (proc_pid_name pid) (Some 648%Z) 648) w) = (0, (kinfo_memory k before, 648))%Z ->
  result_of h (bindings_process pid) w = Ok k.
Proof.
  intros Hk Hb Ha. unfold bindings_process. rewrite size_of_kinfo. run. unfold proc_pid_name in Ha. rewrite Ha.
  cbn [Z.ltb Z.compare Z.eqb]. run. by apply kinfo_proc_at_memory.
Qed.

(** C38: the records of the kernel are read back from memory by the layout
    that the bindings declare, whatever lies in the fields between and in the
    padding: the list gives the pid of every process, in order, and a query for
    one pid gives its parent, state and start, and the name when the array of it
    holds its null. *)
Theorem mac_kinfo_roundtrip fuel ks befores k before self :
  ks <> [] -> Forall kinfo_wf ks -> length befores = length ks -> Forall (fun b => length b = 648) befores ->
  kinfo_wf k -> length before = 648 ->
  let size := (648 * Z.of_nat (length ks))%Z in
  let pid := proc_pid self in
  (exists junk, fst (h _ (Sysctl proc_all_name None 0) w) = (0, (junk, size))%Z) ->
  fst (h _ (Sysctl proc_all_name (Some size) size) w) = (0, (concat (zip_with kinfo_memory ks befores), size))%Z ->
  fst (h _ (Sysctl (proc_pid_name pid) (Some 648%Z) 648) w) = (0, (kinfo_memory k before, 648))%Z ->
  let started := into_time (p_starttime k) in
  result_of h (mac_pids (S fuel)) w = Ok (Some (map (fun k => Ok (p_pid k)) ks)) /\
  result_of h (mac_parent_pid self) w = Ok (e_ppid k) /\
  (NUL ∈ p_comm k -> result_of h (mac_name self) w = Ok (c_string (p_comm k))) /\
  result_of h (mac_process_status self) w = map_err LoadError (mac_status_try_from (p_stat k)) /\
  (is_nan started = false -> result_of h (mac_get pid) w = (u ← unique_id_new pid started; Ok (mkProcess pid u))).
Proof.
  intros Hne Hks Hl Hbs Hk Hb size pid [junk Hdry] Hread Hone started.
  assert (Hp : result_of h (or_zombie (bindings_process (proc_pid self)) (proc_pid self)) w = Ok k).
  { unfold or_zombie. rewrite result_or_else by done. by rewrite (result_bindings_process _ k before). }
  split_and!.
  - unfold mac_pids, bindings_processes. cbn [processes_loop]. rewrite size_of_kinfo. run. rewrite Hdry.
    cbn [Z.ltb Z.compare]. assert (Hn : (0 < length ks)%nat) by (destruct ks; cbn; [done|lia]).
    assert (Hq : (size / 648 = Z.of_nat (length ks))%Z) by (unfold size; rewrite Z.mul_comm; apply Z.div_mul; lia).
    rewrite Hq, (proj2 (Z.ltb_lt _ _)) by lia. unfold reserve_exact.
    rewrite (proj2 (Z.leb_gt _ _)) by lia. rewrite Z.sub_0_r, Z.add_0_l, (Z.mul_comm _ 648). fold size. run.
    rewrite Hread. cbn [Z.ltb Z.compare]. rewrite Hq, (proj2 (Z.eqb_neq _ 0)), andb_false_r by lia.
    run. rewrite Nat2Z.id, kinfo_structs by done. done.
  - unfold mac_parent_pid. rewrite result_fmap by done. by rewrite Hp.
  - intros Hnul. unfold mac_name. rewrite result_io_bind by done. rewrite Hp. cbn [mbind res_bind].
    by rewrite bool_decide_eq_true_2.
  - unfold mac_process_status. rewrite result_io_bind by done. by rewrite Hp.
  - intros Hnan. unfold mac_get. rewrite result_io_bind by done. fold pid in Hp |- *. rewrite Hp.
    cbn [mbind res_bind]. fold started. rewrite Hnan, andb_false_r. run. by destruct (unique_id_new pid started).
Qed.
End records.

(** A table of two processes over memory full of ones. *)
Definition char_array (n : nat) (s : str) : str := s ++ replicate (n - length s) NUL.
Definition zsh : kinfo_proc := mkKinfo 42 2 (char_array 17 (lit "zsh")) 1 (1600000000, 5)%Z.
Definition launchd : kinfo_proc := mkKinfo 1 2 (char_array 17 (lit "launchd")) 0 (1500000000, 0)%Z.
Definition ones : str := replicate 648 (ascii_of_nat 255).
Definition process_table : handler unit := fun R c w =>
  match c in call R return R * unit with
  | Sysctl name None _ => ((0%Z, ([], 1296%Z)), w)
  | Sysctl name (Some _) size =>
      ((0%Z, (if (size =? 648)%Z then kinfo_memory (H := test_darwin) zsh ones
              else kinfo_memory (H := test_darwin) zsh ones ++ kinfo_memory (H := test_darwin) launchd ones, size)), w)
  | c => snapshot (fun _ => Err (Os 2)) (fun _ => []) _ c w
  end.
Lemma mac_kinfo_roundtrip_witness :
  result_of process_table (@mac_pids true test_darwin 1) tt = Ok (Some [Ok 42%Z; Ok 1%Z]) /\
  result_of process_table (@mac_parent_pid checked_float test_darwin (@mkProcess checked_float 42 (@mkUniqueId checked_float 42 f64_zero))) tt = Ok 1%Z /\
  result_of process_table (@mac_name checked_float test_darwin (@mkProcess checked_float 42 (@mkUniqueId checked_float 42 f64_zero))) tt = Ok (lit "zsh").
Proof.
  destruct (@mac_kinfo_roundtrip true si_units checked_float test_darwin _ unit process_table tt
    ltac:(intros R c; destruct c; first [done | by destruct buffer]) 0 [zsh; launchd] [ones; ones] zsh ones (@mkProcess checked_float 42 (@mkUniqueId checked_float 42 f64_zero)))
    as (H1 & H2 & H3 & _).
  all: try exact (conj H1 (conj H2 (H3 ltac:(apply (bool_decide_unpack _); by vm_compute)))).
  - done.
  - repeat (apply Forall_cons_2; [unfold kinfo_wf, int_range; split_and!; by vm_compute|]). apply Forall_nil_2.
  - done.
  - repeat (apply Forall_cons_2; [by vm_compute|]). apply Forall_nil_2.
  - unfold kinfo_wf, int_range; split_and!; by vm_compute.
  - by vm_compute.
  - by eexists.
  - cbn -[kinfo_memory]. by rewrite app_nil_r.
  - done.
Defined.
