(* ===== verification/CpuApi.v ===== *)
(** * The public API of heim-cpu

    heim-cpu/src/*.rs and heim-cpu/src/os.  The public types wrap those of the
    back end ([wrap!]), so they are the same here; what the API asks of a back
    end is the class [CpuBackend], and [linux_cpu], [mac_cpu] and [windows_cpu]
    implement it.  The extension traits of os/ are classes, the implementations
    of a platform their instances. *)

From S2P Require Import Prelude RustStr Layout RustFloat Units Errors WinCalls MacCalls Sys Streams ProcFs Cpu.
From S2P Require Import MacSys MacCpu WinCommon WinCpu.

(** An operation that always ends, where others may run out of fuel. *)
Definition always {E A} (p : io E A) : io E (option A) := Some <$> p.

Class CpuBackend := {
  CpuTimeData : Type;
  CpuStatsData : Type;
  CpuFrequencyData : Type;
  sys_cpu_logical_count : io Error Z;
  sys_cpu_physical_count : io Error (option (option Z));
  sys_cpu_time : io Error CpuTimeData;
  sys_cpu_times : io Error (list (result CpuTimeData));
  sys_cpu_user : CpuTimeData -> Time;
  sys_cpu_system : CpuTimeData -> Time;
  sys_cpu_idle : CpuTimeData -> Time;
  sys_cpu_stats : io Error CpuStatsData;
  sys_cpu_ctx_switches : CpuStatsData -> Z;
  sys_cpu_interrupts : CpuStatsData -> Z;
  sys_cpu_frequency : io Error CpuFrequencyData;
  sys_cpu_freq_current : CpuFrequencyData -> Frequency;
  sys_cpu_freq_min : CpuFrequencyData -> option Frequency;
  sys_cpu_freq_max : CpuFrequencyData -> option Frequency;
}.

(** ** count.rs, times.rs, stats.rs, freq.rs *)

Section api.
Context {B : CpuBackend}.

Definition cpu_logical_count : io Error Z := sys_cpu_logical_count.
Definition cpu_physical_count : io Error (option (option Z)) := sys_cpu_physical_count.

Definition cpu_time_user (t : CpuTimeData) : Time := sys_cpu_user t.
Definition cpu_time_system (t : CpuTimeData) : Time := sys_cpu_system t.
Definition cpu_time_idle (t : CpuTimeData) : Time := sys_cpu_idle t.
Definition cpu_time_total : io Error CpuTimeData := sys_cpu_time.
Definition cpu_time_each : io Error (list (result CpuTimeData)) := sys_cpu_times.

Definition cpu_ctx_switches (s : CpuStatsData) : Z := sys_cpu_ctx_switches s.
Definition cpu_interrupts (s : CpuStatsData) : Z := sys_cpu_interrupts s.
Definition cpu_statistics : io Error CpuStatsData := sys_cpu_stats.

Definition cpu_freq_current (f : CpuFrequencyData) : Frequency := sys_cpu_freq_current f.
Definition cpu_freq_min (f : CpuFrequencyData) : option Frequency := sys_cpu_freq_min f.
Definition cpu_freq_max (f : CpuFrequencyData) : option Frequency := sys_cpu_freq_max f.
Definition cpu_freq : io Error CpuFrequencyData := sys_cpu_frequency.

(** ** usage.rs *)

Context `{Units}.

Record CpuUsage := mkCpuUsage { cpu_count : Z; cpu_time : CpuTimeData; at_time : Z }.

(** [Instant - Instant] panics when the result would be negative (as in the
    versions of [std] up to 1.59; later ones give zero). *)
Definition usage_sub {E} (self rhs : CpuUsage) : res E Ratio :=
  let delta_proc :=
    f64_add (f64_sub (cpu_time_user (cpu_time self)) (cpu_time_user (cpu_time rhs)))
            (f64_sub (cpu_time_system (cpu_time self)) (cpu_time_system (cpu_time rhs))) in
  delta_time ← (if (at_time self <? at_time rhs)%Z then Panic else Ok (at_time self - at_time rhs)%Z);
  let delta_time_secs := f64_mul (as_secs_f64 delta_time) (f64_of_int (cpu_count self)) in
  if f64_nonzero delta_time_secs then
    let overall_cpus_ratio := f64_div (time_get_second delta_proc) delta_time_secs in
    let single_cpu_ratio := f64_mul overall_cpus_ratio (f64_of_int (cpu_count self)) in
    Ok (ratio_ratio (f32_of_f64 single_cpu_ratio))
  else Ok (ratio_ratio f64_zero).

Definition usage (schedule : list bool) : io Error CpuUsage :=
  '(cpu_time, cpu_count) ← try_join cpu_time_total cpu_logical_count schedule;
  now ← ask Now;
  mret (mkCpuUsage cpu_count cpu_time now).
End api.

(** ** The back ends *)

Definition linux_cpu `{Profile, Units, Statics, Roots, Fmt} : CpuBackend := {|
  sys_cpu_logical_count := logical_count;
  sys_cpu_physical_count := always physical_count;
  sys_cpu_time := time;
  sys_cpu_times := times;
  sys_cpu_user := ct_user;
  sys_cpu_system := ct_system;
  sys_cpu_idle := ct_idle;
  sys_cpu_stats := stats;
  sys_cpu_ctx_switches := ctx_switches;
  sys_cpu_interrupts := interrupts;
  sys_cpu_frequency := frequency;
  sys_cpu_freq_current := freq_current;
  sys_cpu_freq_min := freq_min;
  sys_cpu_freq_max := freq_max;
|}.

Definition mac_cpu `{Units, Statics} : CpuBackend := {|
  sys_cpu_logical_count := mac_logical_count;
  sys_cpu_physical_count := always mac_physical_count;
  sys_cpu_time := mac_time;
  sys_cpu_times := mac_times;
  sys_cpu_user := mac_user;
  sys_cpu_system := mac_system;
  sys_cpu_idle := mac_idle;
  sys_cpu_stats := mac_stats;
  sys_cpu_ctx_switches := mac_ctx_switches;
  sys_cpu_interrupts := mac_interrupts;
  sys_cpu_frequency := mac_frequency;
  sys_cpu_freq_current := MacCpu.mac_current;
  sys_cpu_freq_min := mac_freq_min;
  sys_cpu_freq_max := mac_freq_max;
|}.

Definition windows_cpu `{Profile, Units} (fuel : nat) : CpuBackend := {|
  sys_cpu_logical_count := win_logical_count;
  sys_cpu_physical_count := win_physical_count fuel;
  sys_cpu_time := win_time;
  sys_cpu_times := win_times;
  sys_cpu_user := win_times_user;
  sys_cpu_system := win_times_system;
  sys_cpu_idle := win_times_idle;
  sys_cpu_stats := win_stats;
  sys_cpu_ctx_switches := win_stats_ctx_switches;
  sys_cpu_interrupts := win_stats_interrupts;
  sys_cpu_frequency := win_frequency;
  sys_cpu_freq_current := win_freq_current;
  sys_cpu_freq_min := win_min;
  sys_cpu_freq_max := win_max;
|}.

(** ** os/linux, os/macos, os/windows, os/unix *)

Class CpuTimeExt (T : Type) := {
  ext_nice : T -> Time;
  ext_io_wait : T -> Time;
  ext_irq : T -> Time;
  ext_soft_irq : T -> Time;
  ext_steal : T -> Time;
  ext_guest : T -> option Time;
  ext_guest_nice : T -> option Time;
}.
#[export] Instance linux_cpu_time_ext : CpuTimeExt CpuTimes := {|
  ext_nice := ct_nice;
  ext_io_wait := ct_io_wait;
  ext_irq := ct_irq;
  ext_soft_irq := ct_soft_irq;
  ext_steal := ct_steal;
  ext_guest := ct_guest;
  ext_guest_nice := ct_guest_nice;
|}.

Class LinuxCpuStatsExt (T : Type) := ext_soft_interrupts : T -> Z.
#[export] Instance linux_cpu_stats_ext : LinuxCpuStatsExt CpuStats := soft_interrupts.

Class MacCpuStatsExt (T : Type) := { ext_mac_soft_interrupts : T -> Z; ext_mac_syscalls : T -> Z }.
#[export] Instance mac_cpu_stats_ext : MacCpuStatsExt MacCpuStats :=
  {| ext_mac_soft_interrupts := mac_soft_interrupts; ext_mac_syscalls := mac_syscalls |}.

Class WindowsCpuStatsExt (T : Type) := { ext_dpc : T -> Z; ext_win_syscalls : T -> Z }.
#[export] Instance windows_cpu_stats_ext : WindowsCpuStatsExt WinCpuStats :=
  {| ext_dpc := win_stats_dpc; ext_win_syscalls := win_stats_syscalls |}.

(** The stream of [os::linux::frequencies]; [os::unix::loadavg]. *)
Definition os_frequencies `{Profile, Units, Roots} : io Error (list (result CpuFrequency)) := frequencies.
Definition os_loadavg `{Units} : io Error (Ratio * Ratio * Ratio) := loadavg.
