(* ===== verification/CpuApiSpec.v ===== *)
(** * The public API of heim-cpu: measurements of the usage

    What [CpuUsage] promises whatever the back end is. *)

From S2P Require Import Prelude RustStr Layout RustFloat Units Errors WinCalls MacCalls Sys Streams ProcFs ProcFsSpec Cpu CpuSpec.
From S2P Require Import MacSys MacCpu WinCommon WinCpu CpuApi.

(** ** A clock that runs

    The state of the system is the time.  Every call takes some, and the answers
    do not depend on it, that of [Now] apart. *)

Definition is_now {R} (c : call R) : bool := match c with Now => true | _ => false end.
Class Clock (h : handler Z) : Prop := {
  clock_now t : fst (h _ Now t) = t;
  clock_runs R (c : call R) t : (t < snd (h R c t))%Z;
  clock_only R (c : call R) t t' : is_now c = false -> fst (h R c t) = fst (h R c t');
}.
(** A program that does not ask for the time. *)
Fixpoint timeless {A} (p : prog A) : Prop :=
  match p with Ret _ => True | Do c k => is_now c = false /\ forall r, timeless (k r) end.

Lemma timeless_bind {A B} (p : prog A) (f : A -> prog B) : timeless p -> (forall a, timeless (f a)) -> timeless (prog_bind p f).
Proof. induction p as [a|R c k IH]; cbn; [by auto|]. intros [Hc Hk] Hf. split; [done|]. intros r. by apply IH. Qed.
Lemma timeless_io_bind {E A B} (p : io E A) (f : A -> io E B) : timeless p -> (forall a, timeless (f a)) -> timeless (p ≫= f).
Proof. intros Hp Hf. by apply timeless_bind; [|intros []]. Qed.
Lemma timeless_join {E A B} (p : io E A) (q : io E B) schedule : timeless p -> timeless q -> timeless (try_join p q schedule).
Proof.
  revert q schedule. induction p as [a|R c k IHp]; intros q schedule Hp Hq.
  - destruct q, a; cbn; try done. destruct Hq as [Hc Hk]. split; [done|]. intros r. by apply timeless_bind.
  - revert schedule. induction q as [b|R' c' k' IHq]; intros schedule; destruct Hp as [Hc Hk].
    + destruct b; cbn; try done. split; [done|]. intros r. by apply timeless_bind.
    + destruct Hq as [Hc' Hk']. destruct schedule as [|[] s]; cbn [try_join timeless]; (split; [done|]); intros r.
      * by apply IHp.
      * by apply IHq.
      * by apply IHp.
Qed.
Lemma timeless_call {R} (c : call R) {A} (f : R -> A) : is_now c = false -> timeless (Do c (fun r => Ret (f r))).
Proof. by intros Hc. Qed.
(** Follows a program down to its calls. *)
Ltac timeless_step :=
  match goal with
  | |- timeless (_ ≫= _) => apply timeless_io_bind; [|intros ?]
  | |- timeless (prog_bind _ _) => apply timeless_bind; [|intros ?]
  | |- timeless (_ <$> _) => apply timeless_bind; [|intros ?]
  | |- timeless (io_map_err _ _) => apply timeless_bind; [|intros ?]
  | |- timeless (or_else _ _) => apply timeless_bind; [|intros ?]
  | |- timeless (ask _) => by apply timeless_call
  | |- timeless (os _) => by apply (timeless_call _ id)
  | |- timeless (Ret _) => exact I
  | |- timeless (lift _) => exact I
  | |- timeless (fails _) => exact I
  | |- timeless (mret _) => exact I
  | |- timeless (match ?x with _ => _ end) => destruct x
  | |- timeless (let _ := _ in _) => cbv zeta
  end.
Ltac timeless_all := repeat timeless_step.

Section clock.
Context (h : handler Z) `{!Clock h}.

(** The same answers without the clock. *)
Definition stopped : handler () := fun R c w => (fst (h R c 0%Z), w).
Lemma stopped_steady w : steady stopped w.
Proof. by intros R c. Qed.

Lemma timeless_run {A} (p : prog A) t : timeless p ->
  result_of h p t = result_of stopped p () /\ trace h p t = trace stopped p () /\
  (t + Z.of_nat (length (trace h p t)) <= snd (exec h p t))%Z.
Proof.
  unfold result_of. revert t. induction p as [a|R c k IH]; intros t Hp; [cbn; split_and!; lia || done|].
  destruct Hp as [Hc Hk]. pose proof (clock_runs R c t). pose proof (clock_only R c t 0 Hc) as Ho. cbn.
  destruct (h R c t) as [r t']. cbn in *. subst r. destruct (IH (fst (h R c 0%Z)) t' (Hk _)) as (-> & -> & Hle).
  split_and!; [done..|]. cbn. lia.
Qed.
End clock.

(** Both queries make all their calls when both succeed. *)
Lemma try_join_trace {W E A B} (h : handler W) w (p : io E A) (q : io E B) a b schedule :
  steady h w -> result_of h p w = Ok a -> result_of h q w = Ok b ->
  length (trace h (try_join p q schedule) w) = length (trace h p w) + length (trace h q w).
Proof.
  intros Hs. assert (Hd : forall R (c : call R), h R c w = (fst (h R c w), w)).
  { intros R c. rewrite <- (Hs R c) at 3. apply surjective_pairing. }
  assert (Hdo : forall C R (c : call R) (k : R -> prog C), trace h (Do c k) w = event_of c :: trace h (k (fst (h R c w))) w).
  { intros C R c k. cbn [trace]. by rewrite Hd. }
  assert (Hmap : forall C D (r : prog C) (f : C -> D), length (trace h (prog_bind r (fun x => Ret (f x))) w) = length (trace h r w)).
  { intros C D r f. rewrite trace_bind. destruct (exec h r w); cbn. by rewrite app_nil_r. }
  revert q schedule. induction p as [x|R c k IHp]; intros q schedule Hp Hq.
  - cbn in Hp. subst x. destruct q as [x|R' c' k']; cbn in Hq; [by subst x|].
    change (try_join (Ret (Ok a)) (Do c' k') schedule) with (prog_bind (Do c' k') (fun r => Ret (pair a <$> r))). apply Hmap.
  - rewrite result_do in Hp by done. revert schedule. induction q as [x|R' c' k' IHq]; intros schedule.
    + cbn in Hq. subst x.
      change (try_join (Do c k) (Ret (Ok b)) schedule) with (prog_bind (Do c k) (fun r => Ret ((fun a : A => (a, b)) <$> r))).
      rewrite Hmap. cbn. lia.
    + rewrite result_do in Hq by done. destruct schedule as [|[] s]; cbn [try_join]; rewrite !Hdo; cbn [length].
      * rewrite (IHp _ (Do c' k')), Hdo by (done || by rewrite result_do). done.
      * rewrite IHq, Hdo by done. cbn [length]. lia.
      * rewrite (IHp _ (Do c' k')), Hdo by (done || by rewrite result_do). done.
Qed.

(** The queries that a back end joins do not ask for the time. *)
Class Timeless (B : CpuBackend) : Prop := {
  timeless_times : timeless cpu_time_total;
  timeless_count : timeless cpu_logical_count;
}.
#[export] Instance linux_timeless `{Profile, Units, Statics, Roots, Fmt} : Timeless linux_cpu.
Proof.
  split; unfold cpu_time_total, cpu_logical_count; cbn [linux_cpu sys_cpu_time sys_cpu_logical_count].
  - unfold time, read_lines_into, read_lines. timeless_all.
  - unfold logical_count, sysconf, cpuinfo, stat_count, read_lines. timeless_all.
Qed.
#[export] Instance mac_timeless `{Units, Statics} : Timeless mac_cpu.
Proof.
  split; unfold cpu_time_total, cpu_logical_count; cbn [mac_cpu sys_cpu_time sys_cpu_logical_count].
  - unfold mac_time, cpu_load_info, with_host_port, host_port_deallocate, last_ffi_error. timeless_all.
  - unfold mac_logical_count, sysctlbyname. timeless_all.
Qed.
#[export] Instance windows_timeless `{Profile, Units} fuel : Timeless (windows_cpu fuel).
Proof.
  split; unfold cpu_time_total, cpu_logical_count; cbn [windows_cpu sys_cpu_time sys_cpu_logical_count].
  - unfold win_time, last_ffi_error. timeless_all.
  - unfold win_logical_count, last_ffi_error. timeless_all.
Qed.

Section usage.
Context {B : CpuBackend} `{!Timeless B, Units}.

Lemma no_time_passed n : (0 <= n < 2 ^ 53)%Z -> f64_nonzero (f64_mul (as_secs_f64 0) (f64_of_int n)) = false.
Proof.
  intros Hn. destruct n as [|p|p]; [done| |lia].
  by destruct (f64_of_int_exact p) as (m & k & -> & _); [lia|].
Qed.

(** C20: a measurement joins the times of all CPUs and their number, and then
    takes the time.  Where the answers do not depend on the time and every call
    takes some: for every order in which the system answers the measurement has
    the two values that the queries give on their own, and the moment at which
    the calls of both, which all have been made, are over; when one fails the result is the error of one
    that failed.  The difference of two measurements panics exactly when the
    first was made before the second, is never an error, and is zero when no
    time has passed (and the number of CPUs is below 2^53). *)
Theorem cpu_usage_contract (h : handler Z) `{!Clock h} (t : Z) schedule (a b : CpuUsage) :
  match result_of h cpu_time_total t, result_of h cpu_logical_count t with
  | Ok times, Ok n => exists now,
      result_of h (usage schedule) t = Ok (mkCpuUsage n times now) /\
      now = snd (exec h (try_join cpu_time_total cpu_logical_count schedule) t) /\
      (t + Z.of_nat (length (trace h cpu_time_total t) + length (trace h cpu_logical_count t)) <= now
       < snd (exec h (usage schedule) t))%Z
  | times, n =>
      (exists e, times = Err e /\ result_of h (usage schedule) t = Err e) \/
      (exists e, n = Err e /\ result_of h (usage schedule) t = Err e) \/
      ((times = Panic \/ n = Panic) /\ result_of h (usage schedule) t = Panic)
  end /\
  (usage_sub (E := Error) a b = Panic <-> (at_time a < at_time b)%Z) /\
  (forall e, usage_sub a b <> Err (E := Error) e) /\
  (at_time a = at_time b -> (0 <= cpu_count a < 2 ^ 53)%Z ->
   usage_sub (E := Error) a b = Ok (ratio_ratio f64_zero)).
Proof.
  split_and!.
  - set (both := try_join cpu_time_total cpu_logical_count schedule).
    assert (Hboth : timeless both) by (apply timeless_join; [apply timeless_times|apply timeless_count]).
    destruct (timeless_run h _ t timeless_times) as (Ht & Htt & _).
    destruct (timeless_run h _ t timeless_count) as (Hn & Htn & _).
    destruct (timeless_run h _ t Hboth) as (Hb & Htb & Hle). rewrite Htb in Hle.
    pose proof (try_join_results (stopped h) () (stopped_steady h ()) cpu_time_total cpu_logical_count schedule) as Hj.
    fold both in Hj. rewrite Ht, Hn, Htt, Htn.
    change (result_of h (usage schedule) t) with (fst (exec h (usage schedule) t)). unfold usage. fold both.
    rewrite exec_io_bind. rewrite <- Hb in Hj. change (result_of h both t) with (fst (exec h both t)) in Hj. unfold joins in Hj.
    destruct (exec h both t) as [r t'] eqn:He. cbn [fst snd] in Hle, Hj.
    destruct (result_of (stopped h) cpu_time_total ()) as [times| |] eqn:Hrt, (result_of (stopped h) cpu_logical_count ()) as [n| |] eqn:Hrn;
      [|destruct Hj as [(e' & ? & ->)|[(e' & ? & ->)|[? ->]]];
          [left; by exists e'|right; left; by exists e'|right; by right]..].
    subst r. exists t'. unfold both in Hle. rewrite (try_join_trace _ _ _ _ times n) in Hle by (done || apply stopped_steady).
    pose proof (clock_now t') as Hnow. pose proof (clock_runs _ Now t') as Hrun. cbn.
    destruct (h _ Now t') as [now t'']. cbn in *. subst now. split_and!; [done|done|lia|lia].
  - unfold usage_sub. destruct (Z.ltb_spec (at_time a) (at_time b)); cbn; [done|].
    split; [by case_match|lia].
  - intros e. unfold usage_sub. destruct (at_time a <? at_time b)%Z; cbn; [done|]. by case_match.
  - intros Ht Hn. unfold usage_sub. rewrite Ht, Z.ltb_irrefl, Z.sub_diag. cbn [mbind res_bind].
    by rewrite no_time_passed.
Qed.
End usage.

Definition test_linux_cpu : CpuBackend :=
  @linux_cpu true si_units linux_statics default_roots (Build_Fmt show_int (fun p => p)).
(** A machine on which every call takes ten nanoseconds. *)
Definition ticking : handler Z := fun R c t =>
  (match c in call R return R with
   | Now => t
   | c => fst (snapshot (fun _ => Ok (lit "cpu  100 0 0")) (fun _ => []) _ c tt)
   end, (t + 10)%Z).
#[export] Instance ticking_clock : Clock ticking.
Proof. split; [done| |by intros R []]. intros R c t. cbn. lia. Qed.
Lemma cpu_usage_contract_witness :
  let times := @times_of_columns si_units linux_statics [100; 0; 0]%Z in
  exists now, result_of ticking (usage (B := test_linux_cpu) [true; false]) 5%Z = Ok (mkCpuUsage (B := test_linux_cpu) 0 times now) /\
    now = 25%Z /\ (5 + 2 <= now < 35)%Z.
Proof.
  exact (proj1 (cpu_usage_contract (B := test_linux_cpu) (Timeless0 := linux_timeless) (H := si_units) ticking 5 [true; false]
    (mkCpuUsage (B := test_linux_cpu) 0 cpu_times_default 0) (mkCpuUsage (B := test_linux_cpu) 0 cpu_times_default 0))).
Defined.
