(* ===== verification/WinCpuSpec.v ===== *)
(** * heim-cpu and heim-memory on Windows: what comes back from memory *)

From S2P Require Import Prelude RustStr Layout RustFloat Units Errors WinCalls Sys Streams ProcFs Cpu Host.
From S2P Require Import MacProcessSpec WinCommon WinCpu WinMemory.

(** ** How numbers and structures lie in memory *)

Definition large_integer_bytes (t : LARGE_INTEGER) : str :=
  ulong_bytes (LowPart t) ++ ulong_bytes (wrap 32 (HighPart t)).

Lemma large_integer_at_bytes {E} offset a t b :
  offset = length a -> (0 <= LowPart t < 2 ^ 32)%Z -> (- 2 ^ 31 <= HighPart t < 2 ^ 31)%Z ->
  large_integer_at (E := E) offset (a ++ large_integer_bytes t ++ b) = Ok t.
Proof.
  intros -> Hl Hh. unfold large_integer_at, large_integer_bytes.
  rewrite <- (app_assoc (ulong_bytes (LowPart t))). rewrite (ulong_at_bytes (length a)) by done.
  cbn [mbind res_bind]. rewrite (app_assoc a (ulong_bytes (LowPart t))).
  rewrite ulong_at_bytes.
  - cbn [mbind res_bind]. rewrite signed_wrap by lia. by destruct t.
  - unfold ulong_bytes. by rewrite length_app, length_uint_bytes.
  - apply Z.mod_pos_bound. lia.
Qed.

Lemma large_integer_at_start {E} t b :
  (0 <= LowPart t < 2 ^ 32)%Z -> (- 2 ^ 31 <= HighPart t < 2 ^ 31)%Z ->
  large_integer_at (E := E) 0 (large_integer_bytes t ++ b) = Ok t.
Proof. by apply (large_integer_at_bytes 0 []). Qed.

(** ** The performance of the processors *)

Definition processor_bytes (p : SYSTEM_PROCESSOR_PERFORMANCE_INFORMATION) : str :=
  large_integer_bytes (IdleTime p) ++ large_integer_bytes (KernelTime p) ++
  large_integer_bytes (UserTime p) ++ large_integer_bytes (DpcTime p) ++
  large_integer_bytes (InterruptTime p) ++ ulong_bytes (InterruptCount p) ++ replicate 4 NUL.
Definition large_integer_ok (t : LARGE_INTEGER) : Prop :=
  (0 <= LowPart t < 2 ^ 32)%Z /\ (- 2 ^ 31 <= HighPart t < 2 ^ 31)%Z.
Definition processor_ok (p : SYSTEM_PROCESSOR_PERFORMANCE_INFORMATION) : Prop :=
  large_integer_ok (IdleTime p) /\ large_integer_ok (KernelTime p) /\ large_integer_ok (UserTime p) /\
  large_integer_ok (DpcTime p) /\ large_integer_ok (InterruptTime p) /\ (0 <= InterruptCount p < 2 ^ 32)%Z.

Lemma length_large_integer t : length (large_integer_bytes t) = 8.
Proof. unfold large_integer_bytes, ulong_bytes. by rewrite length_app, !length_uint_bytes. Qed.

Lemma processor_read p :
  processor_ok p ->
  length (processor_bytes p) = 48 /\ processor_performance_at (E := Error) (processor_bytes p) = Ok p.
Proof.
  intros (H1 & H2 & H3 & H4 & H5 & H6). unfold processor_bytes. split.
  - rewrite !length_app, !length_large_integer, length_replicate. unfold ulong_bytes. by rewrite length_uint_bytes.
  - unfold processor_performance_at.
    set (i := large_integer_bytes (IdleTime p)). set (k := large_integer_bytes (KernelTime p)).
    set (u := large_integer_bytes (UserTime p)). set (d := large_integer_bytes (DpcTime p)).
    set (n := large_integer_bytes (InterruptTime p)). set (c := ulong_bytes (InterruptCount p)).
    assert (Hlen : length i = 8 /\ length k = 8 /\ length u = 8 /\ length d = 8 /\ length n = 8)
      by (unfold i, k, u, d, n; by rewrite !length_large_integer).
    destruct Hlen as (Hi & Hk & Hu & Hd & Hn).
    rewrite (large_integer_at_start (IdleTime p)) by apply H1. cbn [mbind res_bind].
    rewrite (large_integer_at_bytes 8 i (KernelTime p)) by (done || apply H2). cbn [mbind res_bind].
    rewrite (app_assoc i k).
    rewrite (large_integer_at_bytes 16 (i ++ k) (UserTime p))
      by (rewrite ?length_app, ?Hi, ?Hk; done || apply H3). cbn [mbind res_bind].
    rewrite (app_assoc (i ++ k) u).
    rewrite (large_integer_at_bytes 24 ((i ++ k) ++ u) (DpcTime p))
      by (rewrite ?length_app, ?Hi, ?Hk, ?Hu; done || apply H4). cbn [mbind res_bind].
    rewrite (app_assoc ((i ++ k) ++ u) d).
    rewrite (large_integer_at_bytes 32 (((i ++ k) ++ u) ++ d) (InterruptTime p))
      by (rewrite ?length_app, ?Hi, ?Hk, ?Hu, ?Hd; done || apply H5). cbn [mbind res_bind].
    rewrite (app_assoc (((i ++ k) ++ u) ++ d) n).
    rewrite (ulong_at_bytes 40 ((((i ++ k) ++ u) ++ d) ++ n) (InterruptCount p))
      by (rewrite ?length_app, ?Hi, ?Hk, ?Hu, ?Hd, ?Hn; done || apply H6). by destruct p.
Qed.

Lemma overflowing_sum_mod {T} (count : T -> Z) info :
  overflowing_sum count info = (foldr Z.add 0 (map count info) mod 2 ^ 64)%Z.
Proof.
  unfold overflowing_sum, wrap.
  assert (Hacc : forall acc, foldl (fun acc item => ((acc + count item) mod 2 ^ 64)%Z) acc info
                 = (if info is [] then acc else (acc + foldr Z.add 0 (map count info)) mod 2 ^ 64)%Z).
  { induction info as [|x [|y info] IH]; intros acc; [done|cbn [map foldr foldl]; by rewrite Z.add_0_r|].
    cbn [foldl] in *. rewrite IH. cbn [map foldr].
    rewrite Zplus_mod_idemp_l. f_equal. lia. }
  rewrite Hacc. by destruct info.
Qed.

Section query.
Context `{Units} {W : Type} (h : handler W) (w : W).
Hypothesis Hsteady : steady h w.

(** The system reports [ps] in the memory that is passed to it. *)
Definition reports (ps : list SYSTEM_PROCESSOR_PERFORMANCE_INFORMATION) (junk : str) : Prop :=
  dwNumberOfProcessors (fst (h _ (Win GetSystemInfo) w)) = Z.of_nat (length ps) /\
  forall size, exists n,
    fst (h _ (Win (NtQuerySystemInformation 8 size)) w) =
    (ntstatus.STATUS_SUCCESS, (concat (map processor_bytes ps) ++ junk, n)).

(** On a system with processors, [times] gives one item per processor,
    in order: the times that the kernel wrote, the idle time taken off the
    kernel time; and the number of interrupts is the sum over the processors
    modulo 2^64.  Without processors both are an error. *)
Theorem win_processors_spec ps junk :
  reports ps junk -> Forall processor_ok ps ->
  (ps <> [] ->
     result_of h win_times w = Ok (map (fun p => Ok (times_of p)) ps) /\
     result_of h get_interrupts w = Ok (foldr Z.add 0 (map InterruptCount ps) mod 2 ^ 64)%Z) /\
  (ps = [] -> result_of h win_times w = Err no_processors /\ result_of h get_interrupts w = Err no_processors).
Proof.
  intros [Hn Hq] Hok.
  assert (Hquery : result_of h (query_system_information SYSTEM_PROCESSOR_PERFORMANCE_INFORMATION) w =
                   if decide (ps = []) then Err no_processors else Ok ps).
  { unfold query_system_information, get_system_info. run. rewrite Hn. case_decide as Hps; [by subst|].
    destruct (Z.eqb_spec (Z.of_nat (length ps)) 0) as [Hz|Hz]; [by destruct ps|]. run.
    cbn [class_ size_of read_at processor_performance_information].
    destruct (Hq (wrap 32 (Z.of_nat (length ps) * Z.of_nat 48))%Z) as [m ->].
    rewrite Z.eqb_refl. cbn [negb]. run. rewrite Nat2Z.id. apply structs_at_concat.
    apply Forall2_fmap_l, Forall_Forall2_diag. eapply Forall_impl; [exact Hok|]. intros p. apply processor_read. }
  split; intros Hps; unfold win_times, get_interrupts; run; rewrite Hquery.
  - rewrite decide_False by done. split; [done|]. cbn [mbind res_bind]. run.
    by rewrite overflowing_sum_mod.
  - by rewrite decide_True.
Qed.
End query.

Definition two_processors : list SYSTEM_PROCESSOR_PERFORMANCE_INFORMATION :=
  let t n := mkLargeInteger n 0 in
  [mkProcessorPerformance (t 10) (t 30) (t 50) (t 0) (t 0) 7;
   mkProcessorPerformance (t 20) (t 40) (t 60) (t 0) (t 0) 4294967295]%Z.
Definition reporting : handler unit := windows (fun R c =>
  match c in win_call R return R with
  | GetSystemInfo => mkSystemInfo 9 2
  | NtQuerySystemInformation _ _ =>
      (ntstatus.STATUS_SUCCESS, (concat (map processor_bytes two_processors), 96%Z))
  | c => win_refused c
  end).
Lemma win_processors_spec_witness : result_of reporting get_interrupts tt = Ok 4294967302%Z.
Proof.
  refine (proj2 (proj1 (@win_processors_spec si_units unit reporting tt (windows_steady _ _) two_processors [] _ _) _)).
  - split; [done|]. intros size. eexists. cbn [reporting windows fst]. by rewrite app_nil_r.
  - repeat constructor; done.
  - done.
Defined.

(** ** The logical processors *)

(** An item: what it relates, and the bytes after its first two fields. *)
Definition item_bytes (item : Z * str) : str :=
  ulong_bytes (fst item) ++ ulong_bytes (8 + Z.of_nat (length (snd item))) ++ snd item.
Definition item_ok (item : Z * str) : Prop :=
  (0 <= fst item < 2 ^ 32)%Z /\ (8 + Z.of_nat (length (snd item)) < 2 ^ 32)%Z.

Lemma length_item item : length (item_bytes item) = 8 + length (snd item).
Proof. unfold item_bytes, ulong_bytes. rewrite !length_app, !length_uint_bytes. lia. Qed.

Lemma logical_next_item {E} done_ item rest :
  item_ok item ->
  logical_next (E := E) (done_ ++ item_bytes item ++ rest) (length done_) =
  Ok (Some ((fst item, (8 + Z.of_nat (length (snd item)))%Z), length (done_ ++ item_bytes item))).
Proof.
  intros [Hr Hs]. unfold logical_next. rewrite bool_decide_eq_false_2.
  - unfold item_bytes. rewrite <- !app_assoc. rewrite (ulong_at_bytes (length done_)) by done. cbn [mbind res_bind].
    rewrite (app_assoc done_). rewrite ulong_at_bytes.
    + cbn [mbind res_bind]. do 3 f_equal. fold (item_bytes item).
      rewrite length_app, length_item. lia.
    + unfold ulong_bytes. by rewrite length_app, length_uint_bytes.
    + lia.
  - rewrite !length_app, length_item. lia.
Qed.

Lemma logical_items_all {E} done_ items fuel :
  Forall item_ok items -> length items < fuel ->
  logical_items (E := E) fuel (done_ ++ concat (map item_bytes items)) (length done_) =
  Ok (Some (map (fun item => (fst item, (8 + Z.of_nat (length (snd item)))%Z)) items)).
Proof.
  intros Hok. revert done_ fuel. induction Hok as [|item items Hi Hok IH]; intros done_ fuel Hf;
    (destruct fuel as [|fuel]; [cbn in Hf; lia|]); cbn [logical_items map concat].
  - unfold logical_next. rewrite bool_decide_eq_true_2; [done|]. rewrite app_nil_r. lia.
  - rewrite logical_next_item by done. cbn [mbind res_bind].
    rewrite (app_assoc done_), IH; [done|]. cbn in Hf. lia.
Qed.

Section logical.
Context `{Profile} {W : Type} (h : handler W) (w : W).
Hypothesis Hsteady : steady h w.

(** What is documented of the call: it is told the size of the buffer, refuses
    one that is too small with the size it needs, and writes that many bytes
    into one that is large enough.  It cannot see the room of the vector.  The
    system says [first] when it is asked, and then needs [need]: more, when
    processors were added in between. *)
Definition needs_buffer (first need : Z) (buffer : str) : Prop :=
  fst (h _ (Win (GetLogicalProcessorInformationEx None 0)) w) = (0, ([], first))%Z /\
  (forall room size,
     fst (h _ (Win (GetLogicalProcessorInformationEx (Some room) size)) w) =
     if (size <? need)%Z then (0, ([], need))%Z else (1, (buffer, need))%Z) /\
  fst (h _ GetErrno w) = winerror.ERROR_INSUFFICIENT_BUFFER.

Lemma steady_answer {R} (c : call R) r : fst (h R c w) = r -> h R c w = (r, w).
Proof. intros <-. rewrite <- (Hsteady R c) at 3. apply surjective_pairing. Qed.

(** A call that is told [size], with [room] bytes behind the pointer. *)
Definition asked (room size : Z) : event := EvWin (GetLogicalProcessorInformationEx (Some room) size).

(** One round: the vector has room for [capacity]. *)
Lemma logical_round first need buffer k capacity size :
  needs_buffer first need buffer -> (0 <= capacity <= size)%Z -> (size < 2 ^ 64)%Z ->
  let room := vec_reserve 1 0 capacity (size - capacity) in
  let rest := logical_processors_loop k room need in
  (result_of h (logical_processors_loop (S k) capacity size) w, trace h (logical_processors_loop (S k) capacity size) w) =
  if (size <? need)%Z then (result_of h rest w, asked room size :: EvErrno :: trace h rest w)
  else (Ok (Some (take (Z.to_nat need) buffer)), [asked room size]).
Proof.
  intros (_ & Hb & He) Hc Hs. unfold result_of. cbn [logical_processors_loop]. unfold sub_u64.
  rewrite arith_u64_small by lia. cbn -[logical_processors_loop].
  rewrite (steady_answer _ _ (Hb _ _)). destruct (size <? need)%Z; cbn -[logical_processors_loop]; [|done].
  by rewrite (steady_answer _ _ He).
Qed.

(** C40: the number of cores is the number of items of that relationship.  When
    the size that the system said at first still is enough, one call is made, with
    room for what it is told.  When processors were added in between, the second
    call is told the new size, but the vector was told to grow by the difference
    of that size and the room it has, counted from its length, which is 0: the
    room stays smaller than the size, and the call, which is answered, writes
    past the end of the vector. *)
Theorem win_physical_count_spec items first fuel :
  let buffer := concat (map item_bytes items) in
  let need := Z.of_nat (length buffer) in
  needs_buffer first need buffer -> Forall item_ok items ->
  (8 <= first < 2 ^ 32)%Z -> (need < 2 ^ 32)%Z -> length items < fuel -> 2 <= fuel ->
  let cores := length (List.filter (fun item => fst item =? RelationProcessorCore)%Z items) in
  let count := win_physical_count fuel in
  let question := EvWin (GetLogicalProcessorInformationEx None 0) in
  result_of h count w = Ok (Some (if bool_decide (0 < cores) then Some (Z.of_nat cores) else None)) /\
  ((need <= first)%Z -> trace h count w = [question; asked first first]) /\
  ((first < need)%Z -> exists room, (room < need)%Z /\
     trace h count w = [question; asked first first; EvErrno; asked room need]).
Proof.
  intros buffer need Hn Hok Hf Hl Hfuel H2 cores count question.
  pose proof (logical_round first need buffer) as Hround. destruct fuel as [|[|k]]; [lia..|].
  assert (Hroom : vec_reserve 1 0 0 (first - 0) = first).
  { unfold vec_reserve, min_non_zero_cap. destruct (Z.leb_spec (first - 0) (0 - 0)); cbn; lia. }
  set (loop := logical_processors_loop (S (S k)) 0 first).
  assert (Hcount : forall calls, result_of h loop w = Ok (Some buffer) -> trace h loop w = calls ->
    result_of h count w = Ok (Some (if bool_decide (0 < cores) then Some (Z.of_nat cores) else None)) /\
    trace h count w = question :: calls).
  { intros calls Hr Ht. unfold count, win_physical_count, logical_processors_get, result_of.
    rewrite exec_io_bind, trace_io_bind, exec_io_bind, trace_io_bind.
    cbn -[logical_processors_loop logical_items]. rewrite (steady_answer _ _ (proj1 Hn)).
    cbn -[logical_processors_loop logical_items]. rewrite andb_false_r. fold loop. rewrite Ht.
    unfold result_of in Hr. destruct (exec h loop w) as [r w']. cbn in Hr. subst r.
    rewrite (logical_items_all [] items (S (S k))) by done. cbn. rewrite app_nil_r. split; [|done].
    do 3 f_equal. unfold cores.
    assert (Hc : forall its : list (Z * str), length (List.filter (fun p => fst p =? RelationProcessorCore)%Z
                   (map (fun item => (fst item, (8 + Z.of_nat (length (snd item)))%Z)) its)) =
                 length (List.filter (fun item => fst item =? RelationProcessorCore)%Z its)).
    { induction its as [|[r b] its IH]; [done|]. cbn [map List.filter fst].
      destruct (r =? RelationProcessorCore)%Z; cbn [length]; by rewrite IH. }
    by rewrite Hc. }
  specialize (Hround (S k) 0%Z first Hn) as Hfirst. cbv zeta in Hfirst. rewrite Hroom in Hfirst.
  fold loop in Hfirst. specialize (Hfirst ltac:(lia) ltac:(lia)).
  assert (Hall : take (Z.to_nat need) buffer = buffer) by (unfold need; by rewrite Nat2Z.id, firstn_all).
  destruct (Z.ltb_spec first need) as [Hsmall|Hbig].
  - specialize (Hround k first need Hn ltac:(lia) ltac:(lia)). cbv zeta in Hround.
    rewrite Z.ltb_irrefl in Hround. rewrite Hall in Hround. apply pair_equal_spec in Hround as [Hr Ht].
    rewrite Hr, Ht in Hfirst. apply pair_equal_spec in Hfirst as [Hr' Ht'].
    destruct (Hcount _ Hr' Ht') as [Hres Htr]. split_and!; [done|lia|]. intros _. eexists. split; [|exact Htr].
    unfold vec_reserve, min_non_zero_cap. cbn. destruct (Z.leb_spec (need - first) (first - 0)); lia.
  - rewrite Hall in Hfirst. apply pair_equal_spec in Hfirst as [Hr Ht]. destruct (Hcount _ Hr Ht) as [Hres Htr].
    split_and!; [done..|lia].
Qed.
End logical.

(** Two cores and a cache; the second system asked for a quarter less at
    first. *)
Definition some_items : list (Z * str) := [(0%Z, lit "core"); (2%Z, lit "cach"); (0%Z, lit "core")].
Definition growing (first : Z) : handler unit := fun R c w =>
  (match c in call R return R with
   | GetErrno => winerror.ERROR_INSUFFICIENT_BUFFER
   | Win c =>
       match c in win_call R return R with
       | GetLogicalProcessorInformationEx None _ => (0, ([], first))%Z
       | GetLogicalProcessorInformationEx (Some _) size =>
           if (size <? 36)%Z then (0, ([], 36))%Z else (1, (concat (map item_bytes some_items), 36))%Z
       | c => win_refused c
       end
   | c => fst (snapshot (fun _ => Err (Os errno.ENOENT)) (fun _ => []) _ c tt)
   end, w).
Lemma growing_steady first w : steady (growing first) w.
Proof. by intros R []. Qed.
Lemma win_physical_count_spec_witness :
  result_of (growing 36) (@win_physical_count true 9) tt = Ok (Some (Some 2%Z)) /\
  exists room, (room < 36)%Z /\
    trace (growing 27) (@win_physical_count true 9) tt =
      [EvWin (GetLogicalProcessorInformationEx None 0); asked 27 27; EvErrno; asked room 36].
Proof.
  assert (Hok : Forall item_ok some_items) by (repeat constructor; done).
  split.
  - apply (@win_physical_count_spec true unit (growing 36) tt (growing_steady _ _) some_items 36%Z 9);
      [by split; [|split]|done|lia|by vm_compute|cbn; lia|lia].
  - apply (@win_physical_count_spec true unit (growing 27) tt (growing_steady _ _) some_items 27%Z 9);
      [by split; [|split]|done|lia|by vm_compute|cbn; lia|lia|by vm_compute].
Defined.

(** ** Memory and swap *)

(** When the commit limit and the commit charge that the system reports
    include the physical memory, the total, free and used swap are their
    differences, free is at most the total, and used and free add up to it.
    A charge that is smaller than the free physical memory panics where
    overflow is checked, and otherwise the whole swap counts as free. *)
Theorem win_swap_bounds `{Profile, Units, !UnitsLaws} {E} (s : MEMORYSTATUSEX) :
  (0 <= ullTotalPhys s <= ullTotalPageFile s)%Z -> (ullTotalPageFile s < 2 ^ 64)%Z ->
  (0 <= ullAvailPhys s <= ullTotalPhys s)%Z -> (0 <= ullAvailPageFile s < 2 ^ 64)%Z ->
  let total := (ullTotalPageFile s - ullTotalPhys s)%Z in
  win_swap_total (E := E) s = Ok total /\
  ((ullAvailPhys s <= ullAvailPageFile s)%Z ->
     let free := Z.min (ullAvailPageFile s - ullAvailPhys s) total in
     win_swap_free (E := E) s = Ok free /\ win_swap_used (E := E) s = Ok (total - free)%Z /\
     (0 <= free <= total)%Z) /\
  ((ullAvailPageFile s < ullAvailPhys s)%Z ->
     win_swap_free (E := E) s = (if overflow_checks then Panic else Ok total) /\
     win_swap_used (E := E) s = (if overflow_checks then Panic else Ok 0%Z)).
Proof.
  intros Ht Hm Ha Hp total.
  assert (Htotal : win_swap_total (E := E) s = Ok total).
  { unfold win_swap_total, sub_u64. rewrite arith_u64_small by lia. cbn.
    by rewrite information_byte_id by lia. }
  split; [done|]. unfold win_swap_used, win_swap_free, sub_u64. rewrite Htotal. split.
  - intros Hle. rewrite arith_u64_small by lia. cbn [mbind res_bind].
    rewrite information_byte_id by lia. rewrite arith_u64_small by lia. repeat split; lia.
  - intros Hlt.
    assert (Hs : arith_u64 (E := E) (ullAvailPageFile s - ullAvailPhys s) =
                 if overflow_checks then Panic else Ok (ullAvailPageFile s - ullAvailPhys s + 2 ^ 64)%Z).
    { unfold arith_u64, wrap. rewrite decide_False by lia. destruct overflow_checks; [done|].
      f_equal. symmetry. apply (Z.mod_unique _ _ (-1)); lia. }
    rewrite !Hs. destruct overflow_checks; [done|]. cbn [mbind res_bind].
    rewrite information_byte_id, Z.min_r by lia. split; [done|].
    by rewrite Z.sub_diag, arith_u64_small by lia.
Qed.
Lemma win_swap_bounds_witness :
  @win_swap_used true si_units Error (mkMemoryStatus 8 3 12 6) = Ok 1%Z.
Proof.
  refine (proj1 (proj2 (proj1 (proj2 (@win_swap_bounds true si_units si_units_laws Error
    (mkMemoryStatus 8 3 12 6) _ _ _ _)) _))); cbn; lia.
Defined.
