(* ===== verification/Declared.v ===== *)
(** * The structures that the bindings declare, and where their fields are read

    The readers of MacNet, MacCpu and WinCpu take the fields of a structure
    from fixed offsets.  Here are the declarations of the bindings; by the
    rules of C (CLayout) they have the sizes and the offsets that the readers
    use. *)

From S2P Require Import Prelude RustStr Layout CLayout RustFloat Units Errors WinCalls MacCalls Sys Streams ProcFs Cpu.
From S2P Require Import MacSys MacNet MacCpu WinCommon WinCpu.

(** ** heim-net/src/sys/macos/bindings.rs

    [timeval] of libc has two words of eight bytes on 64-bit macOS, the second
    of them half used. *)

Definition timeval_t : ctype := COpaque 16 8.
Definition if_data64_t : ctype := CStruct
  [("ifi_type", CInt 1); ("ifi_typelen", CInt 1); ("ifi_physical", CInt 1); ("ifi_addrlen", CInt 1);
   ("ifi_hdrlen", CInt 1); ("ifi_recvquota", CInt 1); ("ifi_xmitquota", CInt 1); ("ifi_unused1", CInt 1);
   ("ifi_mtu", CInt 4); ("ifi_metric", CInt 4); ("ifi_baudrate", CInt 8); ("ifi_ipackets", CInt 8);
   ("ifi_ierrors", CInt 8); ("ifi_opackets", CInt 8); ("ifi_oerrors", CInt 8); ("ifi_collisions", CInt 8);
   ("ifi_ibytes", CInt 8); ("ifi_obytes", CInt 8); ("ifi_imcasts", CInt 8); ("ifi_omcasts", CInt 8);
   ("ifi_iqdrops", CInt 8); ("ifi_noproto", CInt 8); ("ifi_recvtiming", CInt 4); ("ifi_xmittiming", CInt 4);
   ("ifi_lastchange", timeval_t)]%string.
Definition if_msghdr2_t : ctype := CStruct
  [("ifm_msglen", CInt 2); ("ifm_version", CInt 1); ("ifm_type", CInt 1); ("ifm_addrs", CInt 4);
   ("ifm_flags", CInt 4); ("ifm_index", CInt 2); ("ifm_snd_len", CInt 4); ("ifm_snd_maxlen", CInt 4);
   ("ifm_snd_drops", CInt 4); ("ifm_timer", CInt 4); ("ifm_data", if_data64_t)]%string.
Definition if_msghdr_partial_t : ctype := CStruct
  [("ifm_msglen", CInt 2); ("ifm_version", CInt 1); ("ifm_type", CInt 1)]%string.

(** ** heim-cpu/src/sys/macos/bindings, heim-memory/src/sys/macos/bindings.rs *)

Definition natural_t : ctype := CInt 4.
Definition c_uint_t : ctype := CInt 4.
Definition cpu_load_info_t : ctype := CStruct
  [("user", natural_t); ("system", natural_t); ("idle", natural_t); ("nice", natural_t)]%string.
Definition vmmeter_t : ctype := CStruct
  [("v_swtch", c_uint_t); ("v_trap", c_uint_t); ("v_syscall", c_uint_t); ("v_intr", c_uint_t);
   ("v_soft", c_uint_t); ("v_faults", c_uint_t); ("v_lookups", c_uint_t); ("v_hits", c_uint_t);
   ("v_vm_faults", c_uint_t); ("v_cow_faults", c_uint_t); ("v_swpin", c_uint_t); ("v_swpout", c_uint_t);
   ("v_pswpin", c_uint_t); ("v_pswpout", c_uint_t); ("v_pageins", c_uint_t); ("v_pageouts", c_uint_t);
   ("v_pgpgin", c_uint_t); ("v_pgpgout", c_uint_t); ("v_intrans", c_uint_t); ("v_reactivated", c_uint_t);
   ("v_rev", c_uint_t); ("v_scan", c_uint_t); ("v_dfree", c_uint_t); ("v_pfree", c_uint_t);
   ("v_zfod", c_uint_t); ("v_nzfod", c_uint_t); ("v_page_size", c_uint_t); ("v_kernel_pages", c_uint_t);
   ("v_free_target", c_uint_t); ("v_free_min", c_uint_t); ("v_free_count", c_uint_t);
   ("v_wire_count", c_uint_t); ("v_active_count", c_uint_t); ("v_inactive_target", c_uint_t);
   ("v_inactive_count", c_uint_t)]%string.
Definition vm_statistics64_t : ctype := CStruct
  [("free_count", natural_t); ("active_count", natural_t); ("inactive_count", natural_t);
   ("wire_count", natural_t); ("zero_fill_count", CInt 8); ("reactivations", CInt 8); ("pageins", CInt 8);
   ("pageouts", CInt 8); ("faults", CInt 8); ("cow_faults", CInt 8); ("lookups", CInt 8); ("hits", CInt 8);
   ("purges", CInt 8); ("purgeable_count", natural_t); ("speculative_count", natural_t);
   ("decompressions", CInt 8); ("compressions", CInt 8); ("swapins", CInt 8); ("swapouts", CInt 8);
   ("compressor_page_count", natural_t); ("throttled_count", natural_t); ("external_page_count", natural_t);
   ("internal_page_count", natural_t); ("total_uncompressed_pages_in_compressor", CInt 8)]%string.

(** ** heim-cpu/src/sys/windows/bindings *)

Definition ULONG : ctype := CInt 4.
Definition LARGE_INTEGER_t : ctype := CUnion
  [("s", CStruct [("LowPart", ULONG); ("HighPart", CInt 4)]); ("QuadPart", CInt 8)]%string.
Definition processor_performance_t : ctype := CStruct
  [("IdleTime", LARGE_INTEGER_t); ("KernelTime", LARGE_INTEGER_t); ("UserTime", LARGE_INTEGER_t);
   ("DpcTime", LARGE_INTEGER_t); ("InterruptTime", LARGE_INTEGER_t); ("InterruptCount", ULONG)]%string.
Definition performance_t : ctype := CStruct
  [("IdleProcessTime", LARGE_INTEGER_t); ("IoReadTransferCount", LARGE_INTEGER_t);
   ("IoWriteTransferCount", LARGE_INTEGER_t); ("IoOtherTransferCount", LARGE_INTEGER_t);
   ("IoReadOperationCount", ULONG); ("IoWriteOperationCount", ULONG); ("IoOtherOperationCount", ULONG);
   ("AvailablePages", ULONG); ("CommittedPages", ULONG); ("CommitLimit", ULONG); ("PeakCommitment", ULONG);
   ("PageFaultCount", ULONG); ("CopyOnWriteCount", ULONG); ("TransitionCount", ULONG);
   ("CacheTransitionCount", ULONG); ("DemandZeroCount", ULONG); ("PageReadCount", ULONG);
   ("PageReadIoCount", ULONG); ("CacheReadCount", ULONG); ("CacheIoCount", ULONG);
   ("DirtyPagesWriteCount", ULONG); ("DirtyWriteIoCount", ULONG); ("MappedPagesWriteCount", ULONG);
   ("MappedWriteIoCount", ULONG); ("PagedPoolPages", ULONG); ("NonPagedPoolPages", ULONG);
   ("PagedPoolAllocs", ULONG); ("PagedPoolFrees", ULONG); ("NonPagedPoolAllocs", ULONG);
   ("NonPagedPoolFrees", ULONG); ("FreeSystemPtes", ULONG); ("ResidentSystemCodePage", ULONG);
   ("TotalSystemDriverPages", ULONG); ("TotalSystemCodePages", ULONG); ("NonPagedPoolLookasideHits", ULONG);
   ("PagedPoolLookasideHits", ULONG); ("AvailablePagedPoolPages", ULONG); ("ResidentSystemCachePage", ULONG);
   ("ResidentPagedPoolPage", ULONG); ("ResidentSystemDriverPage", ULONG); ("CcFastReadNoWait", ULONG);
   ("CcFastReadWait", ULONG); ("CcFastReadResourceMiss", ULONG); ("CcFastReadNotPossible", ULONG);
   ("CcFastMdlReadNoWait", ULONG); ("CcFastMdlReadWait", ULONG); ("CcFastMdlReadResourceMiss", ULONG);
   ("CcFastMdlReadNotPossible", ULONG); ("CcMapDataNoWait", ULONG); ("CcMapDataWait", ULONG);
   ("CcMapDataNoWaitMiss", ULONG); ("CcMapDataWaitMiss", ULONG); ("CcPinMappedDataCount", ULONG);
   ("CcPinReadNoWait", ULONG); ("CcPinReadWait", ULONG); ("CcPinReadNoWaitMiss", ULONG);
   ("CcPinReadWaitMiss", ULONG); ("CcCopyReadNoWait", ULONG); ("CcCopyReadWait", ULONG);
   ("CcCopyReadNoWaitMiss", ULONG); ("CcCopyReadWaitMiss", ULONG); ("CcMdlReadNoWait", ULONG);
   ("CcMdlReadWait", ULONG); ("CcMdlReadNoWaitMiss", ULONG); ("CcMdlReadWaitMiss", ULONG);
   ("CcReadAheadIos", ULONG); ("CcLazyWriteIos", ULONG); ("CcLazyWritePages", ULONG); ("CcDataFlushes", ULONG);
   ("CcDataPages", ULONG); ("ContextSwitches", ULONG); ("FirstLevelTbFills", ULONG);
   ("SecondLevelTbFills", ULONG); ("SystemCalls", ULONG)]%string.
Definition interrupt_t : ctype := CStruct
  [("ContextSwitches", ULONG); ("DpcCount", ULONG); ("DpcRate", ULONG); ("TimeIncrement", ULONG);
   ("DpcBypassCount", ULONG); ("ApcBypassCount", ULONG)]%string.
Definition power_information_t : ctype := CStruct
  [("Number", ULONG); ("MaxMhz", ULONG); ("CurrentMhz", ULONG); ("MhzLimit", ULONG);
   ("MaxIdleState", ULONG); ("CurrentIdleState", ULONG)]%string.
