(* ===== verification/DeclaredSpec.v ===== *)
(** * The readers of structures read what is declared *)

From S2P Require Import Prelude RustStr Layout CLayout RustFloat Units Errors WinCalls MacCalls Sys Streams ProcFs Cpu.
From S2P Require Import MacSys MacNet MacCpu WinCommon WinCpu Declared.

(** ** Words and bytes *)

Definition word_bytes (words : list Z) : str := concat (map (uint_bytes 4) words).
Definition u32_words (words : list Z) : Prop := Forall (fun z => 0 <= z < 2 ^ 32)%Z words.

Lemma length_word_bytes words : length (word_bytes words) = 4 * length words.
Proof.
  unfold word_bytes. induction words as [|z words IH]; [done|]. cbn [map concat length].
  rewrite length_app, length_uint_bytes, IH. lia.
Qed.
Lemma word_bytes_drop words i : drop (4 * i) (word_bytes words) = word_bytes (drop i words).
Proof.
  revert words. induction i as [|i IH]; intros [|z words]; [done..| |]; [by rewrite drop_nil|].
  replace (4 * S i) with (length (uint_bytes 4 z) + 4 * i) by (rewrite length_uint_bytes; lia).
  unfold word_bytes at 1. cbn [map concat]. rewrite <- drop_drop, drop_app_length. apply IH.
Qed.
Lemma uint_bytes_range width z s : (0 <= z < 256 ^ Z.of_nat width)%Z ->
  of_le_bytes (map code (uint_bytes width z ++ s)) = (z + 256 ^ Z.of_nat width * of_le_bytes (map code s))%Z.
Proof.
  intros Hz. rewrite map_app. unfold uint_bytes. rewrite code_bytes by apply le_bytes_ok.
  assert (Happ : forall l r, of_le_bytes (l ++ r) = (of_le_bytes l + 256 ^ Z.of_nat (length l) * of_le_bytes r)%Z).
  { induction l as [|x l IH]; intros r; cbn [app of_le_bytes length]; [cbn; lia|].
    rewrite IH, Nat2Z.inj_succ, Z.pow_succ_r by lia. lia. }
  rewrite Happ, le_bytes_value, Z.mod_small by done. by rewrite (proj1 (le_bytes_ok width z)).
Qed.

Section words.
Context (words : list Z) (Hwords : u32_words words).

Lemma word_range i : (0 <= word words i < 2 ^ 32)%Z.
Proof.
  unfold word. destruct (nth_lookup_or_length words i 0%Z) as [Hl|Hl].
  - by apply (Forall_lookup_1 _ _ _ _ Hwords Hl).
  - rewrite nth_overflow by done. lia.
Qed.
Lemma drop_word i : i < length words -> drop i words = word words i :: drop (S i) words.
Proof.
  intros Hi. apply drop_S. unfold word. destruct (nth_lookup_or_length words i 0%Z); [done|lia].
Qed.
Lemma uint_at_word {E} i : i < length words -> uint_at (E := E) 4 (4 * i) (word_bytes words) = Ok (word words i).
Proof.
  intros Hi. unfold uint_at. rewrite bool_decide_eq_true_2 by (rewrite length_word_bytes; lia).
  rewrite word_bytes_drop, drop_word by done. unfold word_bytes. cbn [map concat].
  rewrite take_app_length' by (by rewrite length_uint_bytes). rewrite <- (app_nil_r (uint_bytes _ _)), uint_bytes_range.
  - cbn. f_equal. lia.
  - apply word_range.
Qed.
Lemma uint_at_word64 {E} i : S i < length words -> uint_at (E := E) 8 (4 * i) (word_bytes words) = Ok (word64 words i).
Proof.
  intros Hi. unfold uint_at. rewrite bool_decide_eq_true_2 by (rewrite length_word_bytes; lia).
  rewrite word_bytes_drop, !drop_word by lia. unfold word_bytes. cbn [map concat]. rewrite app_assoc.
  rewrite take_app_length' by (rewrite length_app, !length_uint_bytes; lia).
  rewrite uint_bytes_range by apply word_range. rewrite <- (app_nil_r (uint_bytes 4 (word words (S i)))), uint_bytes_range by apply word_range.
  cbn [map of_le_bytes]. unfold word64. f_equal. lia.
Qed.
Lemma word_at {E} o i : o = 4 * i -> i < length words -> uint_at (E := E) 4 o (word_bytes words) = Ok (word words i).
Proof. intros ->. apply uint_at_word. Qed.
Lemma word64_at {E} o i : o = 4 * i -> S i < length words -> uint_at (E := E) 8 o (word_bytes words) = Ok (word64 words i).
Proof. intros ->. apply uint_at_word64. Qed.
End words.

Lemma uint_at_drop {E} width n offset b : n <= length b ->
  uint_at (E := E) width offset (drop n b) = uint_at width (n + offset) b.
Proof.
  intros Hn. unfold uint_at. rewrite length_drop, drop_drop.
  destruct (decide (n + offset + width <= length b)).
  - by rewrite !bool_decide_eq_true_2 by lia.
  - by rewrite !bool_decide_eq_false_2 by lia.
Qed.

(** ** Reading by the declarations *)

Section declared.
Context {E : Type}.
Local Open Scope string_scope.

Definition declared_partial (b : str) : res E if_msghdr_partial :=
  msglen ← c_uint if_msghdr_partial_t ["ifm_msglen"] b;
  type ← c_uint if_msghdr_partial_t ["ifm_type"] b;
  Ok (mkIfMsgHdrPartial msglen type).
Definition declared_msghdr2 (b : str) : res E if_msghdr2 :=
  if bool_decide (length b < CLayout.size_of if_msghdr2_t) then Panic
  else
    type ← c_uint if_msghdr2_t ["ifm_type"] b;
    index ← c_uint if_msghdr2_t ["ifm_index"] b;
    ipackets ← c_uint if_msghdr2_t ["ifm_data"; "ifi_ipackets"] b;
    ierrors ← c_uint if_msghdr2_t ["ifm_data"; "ifi_ierrors"] b;
    opackets ← c_uint if_msghdr2_t ["ifm_data"; "ifi_opackets"] b;
    oerrors ← c_uint if_msghdr2_t ["ifm_data"; "ifi_oerrors"] b;
    ibytes ← c_uint if_msghdr2_t ["ifm_data"; "ifi_ibytes"] b;
    obytes ← c_uint if_msghdr2_t ["ifm_data"; "ifi_obytes"] b;
    iqdrops ← c_uint if_msghdr2_t ["ifm_data"; "ifi_iqdrops"] b;
    Ok (mkIfMsgHdr2 type index (mkIfData ipackets ierrors opackets oerrors ibytes obytes iqdrops)).
Definition declared_vm_statistics (b : str) : res E vm_statistics64 :=
  free ← c_uint vm_statistics64_t ["free_count"] b;
  active ← c_uint vm_statistics64_t ["active_count"] b;
  inactive ← c_uint vm_statistics64_t ["inactive_count"] b;
  wire ← c_uint vm_statistics64_t ["wire_count"] b;
  pageins ← c_uint vm_statistics64_t ["pageins"] b;
  pageouts ← c_uint vm_statistics64_t ["pageouts"] b;
  speculative ← c_uint vm_statistics64_t ["speculative_count"] b;
  Ok (mkVmStatistics free active inactive wire pageins pageouts speculative).
Definition declared_vmmeter (b : str) : res E vmmeter :=
  swtch ← c_uint vmmeter_t ["v_swtch"] b;
  trap ← c_uint vmmeter_t ["v_trap"] b;
  syscall ← c_uint vmmeter_t ["v_syscall"] b;
  intr ← c_uint vmmeter_t ["v_intr"] b;
  soft ← c_uint vmmeter_t ["v_soft"] b;
  Ok (mkVmMeter swtch trap syscall intr soft).
Definition declared_cpu_load (b : str) : res E cpu_load :=
  user ← c_uint cpu_load_info_t ["user"] b;
  system ← c_uint cpu_load_info_t ["system"] b;
  idle ← c_uint cpu_load_info_t ["idle"] b;
  nice ← c_uint cpu_load_info_t ["nice"] b;
  Ok (mkCpuLoad user system idle nice).
Definition declared_large (t : ctype) (name : string) (b : str) : res E LARGE_INTEGER :=
  low ← c_uint t [name; "s"; "LowPart"] b;
  high ← c_int t [name; "s"; "HighPart"] b;
  Ok (mkLargeInteger low high).
Definition declared_processor (b : str) : res E SYSTEM_PROCESSOR_PERFORMANCE_INFORMATION :=
  idle ← declared_large processor_performance_t "IdleTime" b;
  kernel ← declared_large processor_performance_t "KernelTime" b;
  user ← declared_large processor_performance_t "UserTime" b;
  dpc ← declared_large processor_performance_t "DpcTime" b;
  interrupt ← declared_large processor_performance_t "InterruptTime" b;
  count ← c_uint processor_performance_t ["InterruptCount"] b;
  Ok (mkProcessorPerformance idle kernel user dpc interrupt count).
Definition declared_performance (b : str) : res E SYSTEM_PERFORMANCE_INFORMATION :=
  switches ← c_uint performance_t ["ContextSwitches"] b;
  calls ← c_uint performance_t ["SystemCalls"] b;
  Ok (mkPerformance switches calls).
Definition declared_interrupt (b : str) : res E SYSTEM_INTERRUPT_INFORMATION :=
  switches ← c_uint interrupt_t ["ContextSwitches"] b;
  count ← c_uint interrupt_t ["DpcCount"] b;
  rate ← c_uint interrupt_t ["DpcRate"] b;
  increment ← c_uint interrupt_t ["TimeIncrement"] b;
  dpc_bypass ← c_uint interrupt_t ["DpcBypassCount"] b;
  apc_bypass ← c_uint interrupt_t ["ApcBypassCount"] b;
  Ok (mkInterrupt switches count rate increment dpc_bypass apc_bypass).
Definition declared_power (b : str) : res E PROCESSOR_POWER_INFORMATION :=
  number ← c_uint power_information_t ["Number"] b;
  max ← c_uint power_information_t ["MaxMhz"] b;
  current ← c_uint power_information_t ["CurrentMhz"] b;
  limit ← c_uint power_information_t ["MhzLimit"] b;
  max_idle ← c_uint power_information_t ["MaxIdleState"] b;
  current_idle ← c_uint power_information_t ["CurrentIdleState"] b;
  Ok (mkPowerInformation number max current limit max_idle current_idle).
End declared.

Lemma c_uint_at {E} t path o w b : locate t path = Some (o, CInt w) -> c_uint (E := E) t path b = uint_at w o b.
Proof. unfold c_uint. by intros ->. Qed.
(** Computes where the declared fields lie. *)
Ltac locate_fields :=
  repeat match goal with
  | |- context [c_uint ?t ?p ?b] =>
      let l := eval vm_compute in (locate t p) in
      match l with Some (?o, CInt ?w) => rewrite (c_uint_at t p o w b) by reflexivity end
  end.

(** The first reading of both sides. *)
Ltac read_one width offset := destruct (uint_at width offset _); [cbn [mbind res_bind]|done..].

Lemma large_declared {E} t name o b :
  locate t [name; "s"; "LowPart"]%string = Some (o, CInt 4) ->
  locate t [name; "s"; "HighPart"]%string = Some (o + 4, CInt 4) ->
  large_integer_at (E := E) o b = declared_large t name b.
Proof.
  intros Hl Hh. unfold large_integer_at, declared_large, c_uint, c_int. rewrite Hl, Hh.
  unfold ulong_at. destruct (uint_at 4 o b); [|done..]. cbn. by destruct (uint_at 4 (o + 4) b).
Qed.

(** C23: the structures that the bindings for macOS and Windows declare, read by
    the rules of C, are what the readers take from fixed offsets, for every
    content of the memory; their sizes are the ones the calls are told and the
    buffers are walked with. *)
Theorem declared_layouts {E} :
  (forall b, if_msghdr_partial_at (E := E) b = declared_partial b) /\
  (forall b, if_msghdr2_at (E := E) b = declared_msghdr2 b) /\
  (forall b, processor_performance_at (E := E) b = declared_processor b) /\
  (forall b, performance_at (E := E) b = declared_performance b) /\
  (forall b, interrupt_at (E := E) b = declared_interrupt b) /\
  (forall b, power_information_at (E := E) b = declared_power b) /\
  (forall words, u32_words words -> length words = HOST_VM_INFO64_COUNT ->
     declared_vm_statistics (E := E) (word_bytes words) = Ok (vm_statistics_of words)) /\
  (forall words, u32_words words -> length words = vmmeter_words ->
     declared_vmmeter (E := E) (word_bytes words) =
     Ok (mkVmMeter (word words 0) (word words 1) (word words 2) (word words 3) (word words 4))) /\
  (forall words, u32_words words -> length words = 4 ->
     declared_cpu_load (E := E) (word_bytes words) =
     Ok (mkCpuLoad (word words 0) (word words 1) (word words 2) (word words 3))) /\
  map CLayout.size_of [if_msghdr_partial_t; if_msghdr2_t; processor_performance_t; performance_t; interrupt_t;
                       power_information_t; vm_statistics64_t; vmmeter_t; cpu_load_info_t] =
    [size_of_if_msghdr_partial; size_of_if_msghdr2;
     size_of (T := SYSTEM_PROCESSOR_PERFORMANCE_INFORMATION); size_of (T := SYSTEM_PERFORMANCE_INFORMATION);
     size_of (T := SYSTEM_INTERRUPT_INFORMATION); 24;
     4 * HOST_VM_INFO64_COUNT; 4 * vmmeter_words; 4 * 4].
Proof.
  split_and!; try done; intros words.
  - unfold if_msghdr2_at, declared_msghdr2. change (CLayout.size_of if_msghdr2_t) with size_of_if_msghdr2.
    case_bool_decide as Hb; [done|]. locate_fields. unfold if_data64_at.
    rewrite !uint_at_drop by (unfold size_of_if_msghdr2, offset_of_ifm_data in *; lia). unfold offset_of_ifm_data. cbn [Nat.add].
    read_one 1 3. read_one 2 12. read_one 8 56. read_one 8 64. read_one 8 72. read_one 8 80. read_one 8 96.
    read_one 8 104. by read_one 8 128.
  - unfold processor_performance_at, declared_processor. locate_fields.
    by rewrite <- (large_declared _ "IdleTime" 0), <- (large_declared _ "KernelTime" 8), <- (large_declared _ "UserTime" 16),
      <- (large_declared _ "DpcTime" 24), <- (large_declared _ "InterruptTime" 32) by reflexivity.
  - intros Hw Hl. unfold declared_vm_statistics. locate_fields. unfold HOST_VM_INFO64_COUNT in Hl.
    by rewrite (word_at words Hw 0 0), (word_at words Hw 4 1), (word_at words Hw 8 2), (word_at words Hw 12 3),
      (word64_at words Hw 32 8), (word64_at words Hw 40 10), (word_at words Hw 92 23) by lia.
  - intros Hw Hl. unfold declared_vmmeter. locate_fields. unfold vmmeter_words in Hl.
    by rewrite (word_at words Hw 0 0), (word_at words Hw 4 1), (word_at words Hw 8 2), (word_at words Hw 12 3),
      (word_at words Hw 16 4) by lia.
  - intros Hw Hl. unfold declared_cpu_load. locate_fields.
    by rewrite (word_at words Hw 0 0), (word_at words Hw 4 1), (word_at words Hw 8 2), (word_at words Hw 12 3) by lia.
Qed.

(** The words 0 to 37: the 64-bit [pageins] are the words 8 and 9. *)
Lemma declared_layouts_witness :
  declared_vm_statistics (E := Error) (word_bytes (map Z.of_nat (seq 0 38))) =
  Ok (mkVmStatistics 0 1 2 3 (8 + 2 ^ 32 * 9) (10 + 2 ^ 32 * 11) 23)%Z.
Proof.
  destruct (declared_layouts (E := Error)) as (_ & _ & _ & _ & _ & _ & Hvm & _).
  rewrite Hvm; [by vm_compute| |done]. apply (bool_decide_unpack _). by vm_compute.
Defined.
