(* ===== verification/WinDisk.v ===== *)
(** * heim-disk on Windows: drives, volumes, partitions, counters, usage

    heim-disk/src/sys/windows and os/windows/partitions.rs.  The iterator over
    the volumes takes fuel; the one over the drives walks its buffer, and
    one step more than there are units is enough. *)

From S2P Require Import Prelude RustStr RustFloat Units Errors WinCalls Sys Streams ProcFs Cpu Disk.
From S2P Require Import WinCommon.

(** ** os/windows/partitions.rs *)

Inductive DriveType := CdRom | Fixed | NoRootDir | RamDisk | Remote | Removable.
#[export] Instance drive_type_dec : EqDecision DriveType.
Proof. solve_decision. Defined.

(** The constants of winnt that [Flags] names. *)
Definition FILE_FLAGS : list Z :=
  [1; 2; 4; 8; 16; 32; 64; 128; 32768; 65536; 131072; 262144; 524288; 1048576; 2097152; 4194304;
   8388608; 16777216; 33554432; 536870912]%Z.
Definition flags_from_bits_truncate (bits : DWORD) : Z := Z.land bits (foldr Z.lor 0%Z FILE_FLAGS).

(** ** bindings/drive_type.rs *)

Definition DRIVE_UNKNOWN : DWORD := 0.
Definition DRIVE_NO_ROOT_DIR : DWORD := 1.
Definition DRIVE_REMOVABLE : DWORD := 2.
Definition DRIVE_FIXED : DWORD := 3.
Definition DRIVE_REMOTE : DWORD := 4.
Definition DRIVE_CDROM : DWORD := 5.
Definition DRIVE_RAMDISK : DWORD := 6.

Definition maybe_from {E} (value : DWORD) : res E (option DriveType) :=
  if (value =? DRIVE_CDROM)%Z then Ok (Some CdRom)
  else if (value =? DRIVE_FIXED)%Z then Ok (Some Fixed)
  else if (value =? DRIVE_NO_ROOT_DIR)%Z then Ok (Some NoRootDir)
  else if (value =? DRIVE_RAMDISK)%Z then Ok (Some RamDisk)
  else if (value =? DRIVE_REMOTE)%Z then Ok (Some Remote)
  else if (value =? DRIVE_REMOVABLE)%Z then Ok (Some Removable)
  else if (value =? DRIVE_UNKNOWN)%Z then Ok None
  else Panic.

Section drive_type.
Context `{Profile}.

Definition drive_type_from_slice {E} (chars : wide) : io E (option DriveType) :=
  if overflow_checks && negb (bool_decide (last chars = Some 0%Z)) then lift Panic
  else result ← ask (Win (GetDriveTypeW chars)); lift (maybe_from result).
Definition drive_type_from_path {E} (path : wide) : io E (option DriveType) :=
  drive_type_from_slice (path ++ [0%Z]).

(** ** bindings/drives.rs *)

(** [Drive::from]: the assertions, then the copy into an array of four. *)
Definition drive_from {E} (buffer : wide) : res E wide :=
  let well_formed :=
    match buffer with
    | [letter; c; s; z] => (65 <=? letter) && (letter <=? 90) && (c =? 58) && (s =? 92) && (z =? 0)
    | _ => false
    end%Z in
  if overflow_checks && negb well_formed then Panic
  else if bool_decide (length buffer = 4) then Ok buffer else Panic.

Record Drives := mkDrives { drives_buffer : wide; position : nat }.
Definition drives_from (buffer : wide) : Drives := mkDrives buffer 0.

Definition drives_new : io Error Drives :=
  '(expected_size, _) ← ask (Win (GetLogicalDriveStringsW None 0));
  if (expected_size =? 0)%Z then last_error id
  else
    '(result, buffer) ← ask (Win (GetLogicalDriveStringsW (Some expected_size) expected_size));
    if (result =? 0)%Z then last_error id
    else if overflow_checks && negb (expected_size =? result + 1)%Z then lift Panic
    else mret (drives_from (take (Z.to_nat (result + 1)) buffer)).

(** [buffer.iter().skip(position).position(|chr| *chr == 0)]. *)
Definition null_offset (d : Drives) : option nat :=
  fst <$> list_find (fun c => c = 0%Z) (drop (position d) (drives_buffer d)).
Definition drives_next {E} (d : Drives) : res E (option (wide * Drives)) :=
  match null_offset d with
  | Some offset =>
      if bool_decide (0 < offset) then
        let end_ := position d + offset + 1 in
        drive ← drive_from (take (end_ - position d) (drop (position d) (drives_buffer d)));
        Ok (Some (drive, mkDrives (drives_buffer d) end_))
      else Ok None
  | None => Ok None
  end.
Fixpoint drives_collect {E} (fuel : nat) (d : Drives) : res E (option (list wide)) :=
  match fuel with
  | O => Ok None
  | S k =>
      next ← drives_next d;
      match next with
      | Some (drive, d) => drives ← drives_collect k d; Ok (fmap (M := option) (cons drive) drives)
      | None => Ok (Some [])
      end
  end.
Definition drives_all {E} (d : Drives) : res E (option (list wide)) :=
  drives_collect (S (length (drives_buffer d))) d.

(** ** bindings/drive.rs *)

Definition VOLUME_MAX_LEN : DWORD := 50.
Definition WIN_MAX_PATH : Z := 260.
Definition SEM_FAILCRITICALERRORS : DWORD := 1.

(** Without the trailing null. *)
Definition to_path_buf (drive : wide) : wide := take (length drive - 1) drive.

Definition volume_name (drive : wide) : io Error wide :=
  '(result, volume) ← ask (Win (GetVolumeNameForVolumeMountPointW drive VOLUME_MAX_LEN));
  if (result =? 0)%Z then last_error id
  else mret (up_to_null (take (Z.to_nat VOLUME_MAX_LEN) volume)).

Definition drive_information (drive : wide) : io Error (option (option DriveType * Z * FileSystem)) :=
  drive_type ← drive_type_from_slice drive;
  '(err_mode_result, old_mode) ← ask (Win (SetThreadErrorMode SEM_FAILCRITICALERRORS));
  if (err_mode_result =? 0)%Z then last_error id
  else
    '(result, (flags, fs_type)) ← ask (Win (GetVolumeInformationW drive (WIN_MAX_PATH + 1)));
    '(err_mode_result, _) ← ask (Win (SetThreadErrorMode old_mode));
    if (err_mode_result =? 0)%Z then last_error id
    else if (result =? 0)%Z then
      if decide (drive_type = Some CdRom) then mret None
      else if decide (drive_type = Some Removable) then mret None
      else last_error id
    else
      let flags := flags_from_bits_truncate flags in
      fs ← lift (fs_from_str (from_utf16_lossy (up_to_null (take (Z.to_nat (WIN_MAX_PATH + 1)) fs_type))));
      mret (Some (drive_type, flags, fs)).

(** ** partitions.rs *)

Record WinPartition := mkWinPartition {
  volume : option wide;
  win_mount_point : wide;
  drive_type : option DriveType;
  partition_flags : Z;
  file_system : FileSystem;
}.
Definition win_partition_device (p : WinPartition) : option wide := volume p.
Definition win_partition_mount_point (p : WinPartition) : wide := win_mount_point p.
Definition win_partition_file_system (p : WinPartition) : FileSystem := file_system p.
Definition win_partition_flags (p : WinPartition) : Z := partition_flags p.
Definition win_partition_drive_type (p : WinPartition) : option DriveType := drive_type p.

Definition win_partition (drive : wide) : io Error (option WinPartition) :=
  information ← drive_information drive;
  match information with
  | Some (drive_type, flags, file_system) =>
      volume ← attempt (volume_name drive);
      let volume := match volume with inr v => Some v | inl _ => None end in
      mret (Some (mkWinPartition volume (to_path_buf drive) drive_type flags file_system))
  | None => mret None
  end.

(** The drives come from the buffer alone: they are collected first.  A
    collection that runs out of fuel would panic here; it never does. *)
Definition win_partitions : io Error (list (result WinPartition)) :=
  drives ← drives_new;
  all ← lift (drives_all drives);
  all ← lift (expect all);
  prog_bind (try_filter_map win_partition (map Ok all)) (fun l => Ret (Ok l)).

Definition physical_drive (t : option DriveType) : bool :=
  match t with
  | Some NoRootDir | Some Remote | Some RamDisk | None => false
  | _ => true
  end.
Definition win_partitions_physical : io Error (list (result WinPartition)) :=
  stream ← win_partitions;
  mret (List.filter (fun p => match p with Ok drive => physical_drive (drive_type drive) | _ => true end) stream).

(** ** bindings/volumes.rs *)

(** The state of the iterator is the handle of the search, once it has begun;
    the buffer is written before each time it is read. *)
Abbreviation Volumes := (option HANDLE) (only parsing).

Definition find_first_volume : io Error (wide * HANDLE) :=
  '(handle, buffer) ← ask (Win FindFirstVolumeW);
  if (handle =? INVALID_HANDLE_VALUE)%Z then last_error id
  else mret (up_to_null buffer, handle).

Definition find_next_volume (handle : HANDLE) : io Error (option wide) :=
  '(result, buffer) ← ask (Win (FindNextVolumeW handle));
  if negb (result =? 0)%Z then mret (Some (up_to_null buffer))
  else
    e ← ask GetErrno;
    if (e =? winerror.ERROR_NO_MORE_FILES)%Z then mret None else fails (last_os_error e).
(** [next]: the item, or the end, and the state. *)
Definition volumes_next {E} (v : Volumes) : io E (option (result wide) * Volumes) :=
  match v with
  | None =>
      r ← attempt find_first_volume;
      mret match r with
           | inl e => (Some (Err e), None)
           | inr (path, handle) => (Some (Ok path), Some handle)
           end
  | Some handle =>
      r ← attempt (find_next_volume handle);
      mret match r with
           | inr None => (None, v)
           | inr (Some path) => (Some (Ok path), v)
           | inl e => (Some (Err e), v)
           end
  end.
(** [Drop]. *)
Definition volumes_drop {E} (v : Volumes) : io E () :=
  match v with
  | Some handle =>
      result ← ask (Win (FindVolumeClose handle));
      if (result =? 0)%Z then lift Panic else mret ()
  | None => mret ()
  end.

(** ** bindings/perf.rs *)

Definition disk_performance (volume_path : wide) : io Error (option DISK_PERFORMANCE) :=
  let path := removelast volume_path ++ [0%Z] in
  handle ← ask (Win (CreateFileW path));
  if (handle =? INVALID_HANDLE_VALUE)%Z then last_error id
  else
    '(result, perf) ← ask (Win (DeviceIoControl handle));
    handle_result ← ask (Win (CloseHandle handle));
    if (handle_result =? 0)%Z then last_error id
    else if (result =? 0)%Z then
      e ← ask GetErrno;
      if ((e =? winerror.ERROR_INVALID_FUNCTION) || (e =? winerror.ERROR_NOT_SUPPORTED))%Z then mret None
      else fails (last_os_error e)
    else mret (Some perf).

(** ** counters.rs *)

Record WinDiskCounters := mkWinDiskCounters {
  volume_path : wide;
  win_read_count : Z;
  win_write_count : Z;
  win_read_bytes : Information;
  win_write_bytes : Information;
  win_read_time : Time;
  win_write_time : Time;
}.
Definition win_disk_device_name (c : WinDiskCounters) : wide := volume_path c.
Definition win_disk_read_count (c : WinDiskCounters) : Z := win_read_count c.
Definition win_disk_write_count (c : WinDiskCounters) : Z := win_write_count c.
Definition win_disk_read_bytes (c : WinDiskCounters) : Information := win_read_bytes c.
Definition win_disk_write_bytes (c : WinDiskCounters) : Information := win_write_bytes c.
Definition win_disk_read_time (c : WinDiskCounters) : Time := win_read_time c.
Definition win_disk_write_time (c : WinDiskCounters) : Time := win_write_time c.

Context `{Units}.

Definition counters_of (path : wide) (perf : DISK_PERFORMANCE) : WinDiskCounters :=
  let read_bytes := wrap 64 (BytesRead perf) in
  let write_bytes := wrap 64 (BytesWritten perf) in
  let read_time := f64_of_int (ReadTime perf) in
  let write_time := f64_of_int (WriteTime perf) in
  {| volume_path := path;
     win_read_count := ReadCount perf;
     win_write_count := WriteCount perf;
     win_read_bytes := information_byte read_bytes;
     win_write_bytes := information_byte write_bytes;
     win_read_time := time_microsecond (f64_mul read_time (f64_of_int 10));
     win_write_time := time_microsecond (f64_mul write_time (f64_of_int 10)) |}.

(** The closure of [filter_map]. *)
Definition counters_item (filter : wide -> io Error bool) (try_volume : result wide)
    : io Error (option WinDiskCounters) :=
  path ← lift try_volume;
  keep ← filter path;
  if keep : bool then perf ← disk_performance path; mret (counters_of path <$> perf)
  else mret None.

(** The stream, drained: one round per volume; the iterator is dropped at the
    end, and when the closure unwinds.  The outer [None] is the fuel running out. *)
Fixpoint inner_stream (fuel : nat) (filter : wide -> io Error bool) (v : Volumes)
    : io Error (option (list (result WinDiskCounters)) * Volumes) :=
  match fuel with
  | O => mret (None, v)
  | S k =>
      '(item, v) ← volumes_next v;
      match item with
      | None => mret (Some [], v)
      | Some try_volume =>
          let rest item :=
            '(items, v) ← inner_stream k filter v;
            mret (fmap (M := option) (app item) items, v) in
          prog_bind (counters_item filter try_volume) (fun r =>
            match r with
            | Ok (Some c) => rest [Ok c]
            | Ok None => rest []
            | Err e => rest [Err e]
            | Panic => prog_bind (volumes_drop (E := Error) v) (fun _ => Ret Panic)
            end)
      end
  end.
Definition volumes_stream (fuel : nat) (filter : wide -> io Error bool)
    : io Error (option (list (result WinDiskCounters))) :=
  '(items, v) ← inner_stream fuel filter None;
  _ ← volumes_drop v;
  mret items.

Definition win_disk_io_counters (fuel : nat) : io Error (option (list (result WinDiskCounters))) :=
  volumes_stream fuel (fun _ => mret true).
Definition win_disk_io_counters_physical (fuel : nat) : io Error (option (list (result WinDiskCounters))) :=
  volumes_stream fuel (fun path => t ← drive_type_from_path path; mret (bool_decide (t = Some Fixed))).

(** ** usage.rs *)

(** The crate widestring: a null inside the path is an error, and the text of
    a string that ends with a null. *)
Class Widestring := {
  u16cstring_from_os_str : wide -> option wide;
  ucstr_to_string_lossy : wide -> str;
}.

Record WinUsage := mkWinUsage { usage_total_ : Z; usage_available_ : Z; usage_free_ : Z }.

Definition win_usage_total (u : WinUsage) : Information := information_byte (usage_total_ u).
Definition win_usage_free (u : WinUsage) : Information := information_byte (usage_free_ u).
Definition win_usage_used {E} (u : WinUsage) : res E Information :=
  sub_u64 (win_usage_total u) (win_usage_free u).
Definition win_usage_ratio {E} (u : WinUsage) : res E Ratio :=
  used ← win_usage_used u;
  Ok (ratio_ratio (f32_of_f64 (f64_div (f64_of_int (information_get_byte used))
                                       (f64_of_int (information_get_byte (win_usage_total u)))))).

Definition win_usage `{Widestring} (path : wide) : io Error WinUsage :=
  match u16cstring_from_os_str path with
  | None => fails (from_io (Simple InvalidInput))
  | Some path =>
      '(result, (available, total, free)) ← ask (Win (GetDiskFreeSpaceExW path));
      if negb (result =? 0)%Z then mret (mkWinUsage total available free) else last_error id
  end.
End drive_type.
