(* ===== verification/MemoryApi.v ===== *)
(** * The public API of heim-memory

    heim-memory/src/memory.rs, swap.rs and os/.  [MemoryBackend] is what the
    API asks of a back end; an accessor may panic where its arithmetic
    overflows. *)

From S2P Require Import Prelude RustStr Layout RustFloat Units Errors WinCalls MacCalls Sys Streams ProcFs Cpu.
From S2P Require Import SysMemory MacSys MacCpu WinCommon WinMemory.

Class MemoryBackend := {
  MemoryStat : Type;
  SwapStat : Type;
  sys_mem : io Error MemoryStat;
  sys_mem_total : MemoryStat -> Information;
  sys_mem_available : MemoryStat -> Information;
  sys_mem_free : MemoryStat -> Information;
  sys_swap : io Error SwapStat;
  sys_swap_total : SwapStat -> result Information;
  sys_swap_used : SwapStat -> result Information;
  sys_swap_free : SwapStat -> result Information;
}.

(** ** memory.rs, swap.rs *)

Section api.
Context {B : MemoryBackend}.

Definition memory_total (m : MemoryStat) : Information := sys_mem_total m.
Definition memory_available (m : MemoryStat) : Information := sys_mem_available m.
Definition memory_free (m : MemoryStat) : Information := sys_mem_free m.
Definition memory_now : io Error MemoryStat := sys_mem.

Definition swap_in_total (s : SwapStat) : result Information := sys_swap_total s.
Definition swap_in_use (s : SwapStat) : result Information := sys_swap_used s.
Definition swap_unused (s : SwapStat) : result Information := sys_swap_free s.
Definition swap_now : io Error SwapStat := sys_swap.
End api.

(** ** The back ends *)

Definition linux_memory `{Profile, Units, Roots} : MemoryBackend := {|
  sys_mem := memory;
  sys_mem_total := mem_total;
  sys_mem_available := mem_available;
  sys_mem_free := mem_free;
  sys_swap := swap;
  sys_swap_total s := Ok (swap_total s);
  sys_swap_used := swap_used;
  sys_swap_free s := Ok (swap_free s);
|}.

Definition mac_memory_backend `{Profile, Units, Statics} : MemoryBackend := {|
  sys_mem := mac_sys_memory;
  sys_mem_total := mac_total;
  sys_mem_available := mac_available;
  sys_mem_free := mac_free;
  sys_swap := mac_swap;
  sys_swap_total s := Ok (mac_swap_total s);
  sys_swap_used s := Ok (mac_swap_used s);
  sys_swap_free s := Ok (mac_swap_free s);
|}.

Definition windows_memory `{Profile, Units} : MemoryBackend := {|
  sys_mem := win_memory_get;
  sys_mem_total := win_mem_total;
  sys_mem_available := win_mem_available;
  sys_mem_free := win_mem_free;
  sys_swap := win_swap;
  sys_swap_total := win_swap_total;
  sys_swap_used := win_swap_used;
  sys_swap_free := win_swap_free;
|}.

(** ** os/ *)

Class LinuxMemoryExt (M : Type) := {
  ext_used : M -> result Information;
  ext_buffers : M -> Information;
  ext_cached : M -> Information;
  ext_shared : M -> Information;
  ext_active : M -> Information;
  ext_inactive : M -> Information;
}.
#[export] Instance linux_memory_ext `{Profile, Units} : LinuxMemoryExt SysMemory := {|
  ext_used := mem_used;
  ext_buffers := mem_buffers;
  ext_cached := mem_cached;
  ext_shared := mem_shared;
  ext_active := mem_active;
  ext_inactive := mem_inactive;
|}.

Class MacMemoryExt (M : Type) := {
  ext_mac_active : M -> Information;
  ext_mac_inactive : M -> Information;
  ext_mac_wire : M -> Information;
}.
#[export] Instance mac_memory_ext : MacMemoryExt MacSysMemory :=
  {| ext_mac_active := mac_active; ext_mac_inactive := mac_inactive; ext_mac_wire := mac_wire |}.

(** Not on Windows. *)
Class SwapExt (S : Type) := { ext_sin : S -> option Information; ext_sout : S -> option Information }.
#[export] Instance linux_swap_ext : SwapExt Swap := {| ext_sin := swap_sin; ext_sout := swap_sout |}.
#[export] Instance mac_swap_ext : SwapExt MacSwap :=
  {| ext_sin s := Some (mac_swap_sin s); ext_sout s := Some (mac_swap_sout s) |}.
