(* ===== verification/MemoryApiSpec.v ===== *)
(** * The public API of heim-memory: the accounts of the swap *)

From S2P Require Import Prelude RustStr Layout RustFloat Units Errors WinCalls MacCalls Sys Streams ProcFs ProcFsSpec Cpu.
From S2P Require Import SysMemory MacSys MacCpu WinCommon WinMemory MemoryApi.

Section arithmetic.
Context `{Profile}.

Lemma arith_u64_wrap {E} z v : arith_u64 (E := E) z = Ok v ->
  v = wrap 64 z /\ (overflow_checks = true -> v = z /\ (0 <= z)%Z).
Proof.
  unfold arith_u64. case_decide as Hz.
  - intros [= <-]. split; [|by split; lia]. unfold wrap. symmetry. by apply Z.mod_small.
  - destruct overflow_checks; [done|]. by intros [= <-].
Qed.
Lemma wrap_sub_add a b : wrap 64 (wrap 64 (a - b) + b) = wrap 64 a.
Proof. unfold wrap. rewrite Z.add_mod_idemp_l by done. f_equal. lia. Qed.

(** What is free and what is in use add up to the total: in the arithmetic of
    64 bits, and exactly where overflow is checked. *)
Definition accounts (total used free : Z) : Prop :=
  wrap 64 (used + free) = wrap 64 total /\ (overflow_checks = true -> (used + free = total)%Z /\ (0 <= used)%Z).
Definition swap_accounts (B : MemoryBackend) : Prop :=
  forall s total used free,
    swap_in_total s = Ok total -> swap_in_use s = Ok used -> swap_unused s = Ok free -> accounts total used free.

Lemma accounts_sub {E} total used free : sub_u64 (E := E) total free = Ok used -> accounts total used free.
Proof.
  intros Hu. apply arith_u64_wrap in Hu as [-> Hc]. split; [apply wrap_sub_add|].
  intros Hck. destruct (Hc Hck) as [-> Hle]. lia.
Qed.
End arithmetic.

Lemma vm_swapusage_range {W} (h : handler W) w x : fst (exec h vm_swapusage w) = Ok x ->
  (0 <= xsu_total x < 2 ^ 64 /\ 0 <= xsu_used x < 2 ^ 64 /\ 0 <= xsu_avail x < 2 ^ 64)%Z.
Proof.
  unfold vm_swapusage. rewrite exec_io_bind. destruct (exec h _ w) as [[bytes|e|] w1]; [|done..].
  cbn. unfold xsw_usage_at.
  destruct (uint_at 8 0 bytes) as [total|e|] eqn:Ht; [|done..].
  destruct (uint_at 8 8 bytes) as [avail|e|] eqn:Ha; [|done..].
  destruct (uint_at 8 16 bytes) as [used|e|] eqn:Hu; [|done..].
  intros [= <-]. apply uint_at_range in Ht, Ha, Hu. done.
Qed.

(** C18: on Linux and on Windows the used and the free swap add up to the total
    - exactly where overflow is checked, otherwise in the arithmetic of 64 bits -
    and on Windows what is free is never more than the total.  On macOS the three
    numbers are those that the kernel reports, so there they add up exactly when
    the kernel's do. *)
Theorem memory_api_swap `{Profile, Units, !UnitsLaws, Roots, Statics} :
  swap_accounts linux_memory /\
  swap_accounts windows_memory /\
  (forall s total free, swap_in_total (B := windows_memory) s = Ok total -> swap_unused (B := windows_memory) s = Ok free ->
     (free <= total)%Z) /\
  (forall W (h : handler W) w s, fst (exec h (swap_now (B := mac_memory_backend)) w) = Ok s ->
     exists x, fst (exec h vm_swapusage w) = Ok x /\
       swap_in_total (B := mac_memory_backend) s = Ok (xsu_total x) /\
       swap_in_use (B := mac_memory_backend) s = Ok (xsu_used x) /\
       swap_unused (B := mac_memory_backend) s = Ok (xsu_avail x)).
Proof.
  split_and!.
  - intros s total used free Ht Hu Hf. injection Ht as <-. injection Hf as <-. eapply accounts_sub, Hu.
  - intros s total used free Ht Hu Hf. cbn in *. unfold win_swap_used in Hu. rewrite Ht in Hu. cbn in Hu. rewrite Hf in Hu. by eapply accounts_sub.
  - intros s total free Ht Hf. cbn in *. unfold win_swap_free in Hf. rewrite Ht in Hf.
    destruct (sub_u64 _ _); cbn in Hf; [|done..]. injection Hf as <-. lia.
  - intros W h w s. cbn [swap_now mac_memory_backend sys_swap]. unfold swap_now, mac_memory_backend, sys_swap, mac_swap.
    rewrite exec_io_bind. destruct (exec h vm_swapusage w) as [[x|e|] w1] eqn:Hx; [|done..].
    pose proof (vm_swapusage_range h w x) as Hr. rewrite Hx in Hr. destruct (Hr eq_refl) as (Ht & Hu & Ha).
    rewrite exec_io_bind. destruct (exec h host_vm_info w1) as [[vm|e|] w2]; [|done..]. cbn.
    destruct (pages_of (pageins vm)); [|done..]. destruct (pages_of (pageouts vm)); [|done..].
    intros [= <-]. exists x. cbn. rewrite !information_byte_id by done. done.
Qed.
Definition test_status : MEMORYSTATUSEX := mkMemoryStatus 8 3 12 6.
Lemma memory_api_swap_witness : @accounts true 4 1 3 /\ (3 <= 4)%Z.
Proof.
  destruct (@memory_api_swap true si_units si_units_laws default_roots linux_statics) as (_ & Hw & Hf & _).
  split; [by apply (Hw test_status)|by apply (Hf test_status)].
Defined.
