(* ===== verification/DiskApi.v ===== *)
(** * The public API of heim-disk

    heim-disk/src/counters.rs, partitions.rs, usage.rs and os/.
    [DiskBackend] is what the API asks of a back end: the paths and names of
    the platform, the streams (drained; [None] where the fuel runs out), and
    the accessors, of which those of the usage may overflow. *)

From S2P Require Import Prelude RustStr Layout RustFloat Units Errors WinCalls MacCalls Sys Streams ProcFs Cpu Host Disk.
From S2P Require Import MacSys MacDisk WinCommon WinDisk CpuApi.

Class DiskBackend := {
  OsText : Type;
  DiskPath : Type;
  CountersData : Type;
  PartitionData : Type;
  UsageData : Type;
  sys_io_counters_all : io Error (option (list (result CountersData)));
  sys_io_counters_physical : io Error (option (list (result CountersData)));
  sys_device_name : CountersData -> OsText;
  sys_read_count : CountersData -> Z;
  sys_write_count : CountersData -> Z;
  sys_read_bytes : CountersData -> Information;
  sys_write_bytes : CountersData -> Information;
  sys_partitions : io Error (option (list (result PartitionData)));
  sys_partitions_physical : io Error (option (list (result PartitionData)));
  sys_device : PartitionData -> option OsText;
  sys_mount_point : PartitionData -> DiskPath;
  sys_file_system : PartitionData -> FileSystem;
  sys_usage : DiskPath -> io Error UsageData;
  sys_usage_total : UsageData -> result Information;
  sys_usage_used : UsageData -> result Information;
  sys_usage_free : UsageData -> result Information;
  sys_usage_ratio : UsageData -> result Ratio;
}.

Section api.
Context {B : DiskBackend}.

(** ** counters.rs *)

Definition counters_device_name (c : CountersData) : OsText := sys_device_name c.
Definition counters_read_count (c : CountersData) : Z := sys_read_count c.
Definition counters_write_count (c : CountersData) : Z := sys_write_count c.
Definition counters_read_bytes (c : CountersData) : Information := sys_read_bytes c.
Definition counters_write_bytes (c : CountersData) : Information := sys_write_bytes c.
Definition all_io_counters : io Error (option (list (result CountersData))) := sys_io_counters_all.
Definition physical_io_counters : io Error (option (list (result CountersData))) := sys_io_counters_physical.

(** ** usage.rs *)

Definition usage_in_total (u : UsageData) : result Information := sys_usage_total u.
Definition usage_in_use (u : UsageData) : result Information := sys_usage_used u.
Definition usage_unused (u : UsageData) : result Information := sys_usage_free u.
Definition usage_used_ratio (u : UsageData) : result Ratio := sys_usage_ratio u.
Definition usage_of (path : DiskPath) : io Error UsageData := sys_usage path.

(** ** partitions.rs *)

Definition partition_device (p : PartitionData) : option OsText := sys_device p.
Definition partition_mount_point (p : PartitionData) : DiskPath := sys_mount_point p.
Definition partition_file_system (p : PartitionData) : FileSystem := sys_file_system p.
Definition partition_usage (p : PartitionData) : io Error UsageData := usage_of (partition_mount_point p).
Definition all_partitions : io Error (option (list (result PartitionData))) := sys_partitions.
Definition physical_partitions : io Error (option (list (result PartitionData))) := sys_partitions_physical.
End api.

(** ** The back ends *)

Definition linux_disk `{Profile, Units, Roots} : DiskBackend := {|
  sys_io_counters_all := always disk_io_counters;
  sys_io_counters_physical := always disk_io_counters_physical;
  sys_device_name := disk_name;
  sys_read_count := disk_read_count;
  sys_write_count := disk_write_count;
  sys_read_bytes := disk_read_bytes;
  sys_write_bytes := disk_write_bytes;
  sys_partitions := always partitions;
  sys_partitions_physical := always partitions_physical;
  sys_device := device;
  sys_mount_point := mount_point;
  sys_file_system := fs_type;
  sys_usage := disk_usage;
  sys_usage_total := usage_total;
  sys_usage_used := usage_used;
  sys_usage_free := usage_free;
  sys_usage_ratio := usage_ratio;
|}.

Definition mac_disk `{Profile, Units, CoreFoundation, StatfsSize} (fuel : nat) : DiskBackend := {|
  sys_io_counters_all := mac_disk_io_counters fuel;
  sys_io_counters_physical := mac_disk_io_counters_physical fuel;
  sys_device_name := mac_device;
  sys_read_count := mac_reads;
  sys_write_count := mac_writes;
  sys_read_bytes := mac_read_bytes;
  sys_write_bytes := mac_write_bytes;
  sys_partitions := always mac_partitions;
  sys_partitions_physical := always mac_partitions_physical;
  sys_device p := Some (mac_part_device p);
  sys_mount_point := mac_part_mount_point;
  sys_file_system := mac_part_fs;
  sys_usage := disk_usage;
  sys_usage_total := usage_total;
  sys_usage_used := usage_used;
  sys_usage_free := usage_free;
  sys_usage_ratio := usage_ratio;
|}.

Definition windows_disk `{Profile, Units, Widestring} (fuel : nat) : DiskBackend := {|
  sys_io_counters_all := win_disk_io_counters fuel;
  sys_io_counters_physical := win_disk_io_counters_physical fuel;
  sys_device_name := win_disk_device_name;
  sys_read_count := win_disk_read_count;
  sys_write_count := win_disk_write_count;
  sys_read_bytes := win_disk_read_bytes;
  sys_write_bytes := win_disk_write_bytes;
  sys_partitions := always win_partitions;
  sys_partitions_physical := always win_partitions_physical;
  sys_device := win_partition_device;
  sys_mount_point := win_partition_mount_point;
  sys_file_system := file_system;
  sys_usage := win_usage;
  sys_usage_total u := Ok (win_usage_total u);
  sys_usage_used := win_usage_used;
  sys_usage_free u := Ok (win_usage_free u);
  sys_usage_ratio := win_usage_ratio;
|}.

(** ** os/ *)

Class UnixUsageExt (U : Type) := ext_usage_flags : U -> Z.
#[export] Instance unix_usage_ext `{MountFlags} : UnixUsageExt statvfs := usage_flags.

Class MacPartitionExt (P : Type) := ext_mac_flags : P -> Z.
#[export] Instance mac_partition_ext : MacPartitionExt MacPartition := mac_flags.

Class WindowsPartitionExt (P : Type) := { ext_win_flags : P -> Z; ext_drive_type : P -> option DriveType }.
#[export] Instance windows_partition_ext : WindowsPartitionExt WinPartition :=
  {| ext_win_flags := win_partition_flags; ext_drive_type := win_partition_drive_type |}.
