(* ===== verification/DiskApiSpec.v ===== *)
(** * The public API of heim-disk: what physical means

    [partitions_physical] and [io_counters_physical] promise the physical ones
    of the partitions and counters.  [PhysicalOnes] states it of a back end and
    of a test for what is physical; the three back ends implement it, although
    each tests in its own way: by the files of the system, by asking the system
    for each item, or by a field of the item. *)

From S2P Require Import Prelude RustStr Layout RustFloat Units Errors WinCalls MacCalls Sys Streams ProcFs Cpu Host Disk.
From S2P Require Import MacSys MacDisk WinCommon WinDisk CpuApi DiskApi.

Definition oks {A} (l : list (result A)) : list A := omap (fun r => match r with Ok a => Some a | _ => None end) l.

(** What is seen of a stream: its values up to a panic. *)
Definition seen {A} (l : list (result A)) : list A := oks (until_panic l).

(** A test of an item, which may ask the system. *)
Definition item_test (A : Type) : Type := forall W, handler W -> W -> A -> bool.
Definition systems : Type := forall W, handler W -> W -> Prop.

(** In the systems that are meant, when the first stream comes to its end: so
    does the second, and its values are those of the first that pass the test,
    all of them and in the same order. *)
Definition selects (system : systems) {A} (test : item_test A) (all physical : io Error (option (list (result A)))) : Prop :=
  forall W (h : handler W) w, system W h w -> forall l, result_of h all w = Ok (Some l) ->
  exists l', result_of h physical w = Ok (Some l') /\ seen l' = List.filter (test W h w) (seen l).
Record PhysicalOnes (B : DiskBackend) (counters_system partitions_system : systems)
    (counters_test : item_test CountersData) (partitions_test : item_test PartitionData) : Prop := {
  counters_selected : selects counters_system counters_test all_io_counters physical_io_counters;
  partitions_selected : selects partitions_system partitions_test all_partitions physical_partitions;
}.

(** ** Shared lemmas *)

Lemma seen_ok {A} (a : A) l : seen (Ok a :: l) = a :: seen l.
Proof. done. Qed.
Lemma seen_err {A} e (l : list (result A)) : seen (Err e :: l) = seen l.
Proof. done. Qed.
Lemma seen_panic {A} (l : list (result A)) : seen (Panic :: l) = [].
Proof. done. Qed.
Lemma filter_cons_test {A} (test : A -> bool) a l :
  List.filter test (a :: l) = if test a then a :: List.filter test l else List.filter test l.
Proof. done. Qed.

Lemma seen_omap {A} (f : result A -> option (result A)) (test : A -> bool) l :
  (forall a, f (Ok a) = (if test a then Some (Ok a) else None) \/ (test a = false /\ exists e, f (Ok a) = Some (Err e))) ->
  (forall e, f (Err e) = Some (Err e)) -> f Panic = Some Panic ->
  seen (omap f l) = List.filter test (seen l).
Proof.
  intros Ha He Hp. induction l as [|[a|e|] l IH]; [done|..]; cbn [omap list_omap].
  - rewrite seen_ok, filter_cons_test. destruct (Ha a) as [-> | [-> [e ->]]]; [|by rewrite seen_err].
    destruct (test a); [|done]. rewrite seen_ok. by f_equal.
  - by rewrite He, !seen_err.
  - by rewrite Hp, !seen_panic.
Qed.
Lemma seen_until {A} (l : list (result A)) : seen (until_panic l) = seen l.
Proof. unfold seen. f_equal. induction l as [|[a|e|] l IH]; cbn; by rewrite ?IH. Qed.
Lemma seen_filter {A} (p : result A -> bool) (test : A -> bool) l :
  (forall a, p (Ok a) = test a) -> (forall e, p (Err e) = true) -> p Panic = true ->
  seen (List.filter p l) = List.filter test (seen l).
Proof.
  intros Ha He Hp. induction l as [|[a|e|] l IH]; [done|..]; cbn [List.filter].
  - rewrite Ha, seen_ok, filter_cons_test. destruct (test a); [|done]. rewrite seen_ok. by f_equal.
  - by rewrite He, !seen_err.
  - by rewrite Hp, !seen_panic.
Qed.
(** The second stream is the first one, cut down: in every system. *)
Lemma selects_map system {A} (test : A -> bool) (p : io Error (option (list (result A)))) (f : list (result A) -> list (result A)) :
  (forall l, seen (f l) = List.filter test (seen l)) -> selects system (fun _ _ _ => test) p (r ← p; mret (f <$> r)).
Proof.
  intros Hf W h w _ l. unfold result_of. rewrite exec_io_bind.
  destruct (exec h p w) as [[r|e|] w']; [|done..]. cbn. intros [= ->]. by eexists.
Qed.
Lemma selects_always system {A} (test : A -> bool) (p : io Error (list (result A))) (f : list (result A) -> list (result A)) :
  (forall l, seen (f l) = List.filter test (seen l)) -> selects system (fun _ _ _ => test) (always p) (always (r ← p; mret (f r))).
Proof.
  intros Hf W h w _ l. unfold always, result_of, fmap, io_fmap. rewrite !exec_bind, exec_io_bind.
  destruct (exec h p w) as [[r|e|] w']; [|done..]. cbn. intros [= ->]. by eexists.
Qed.

(** ** Linux: the system is asked, or a second file *)

(** A counter is that of a storage device when the system has a block device of
    its name, with [!] for every [/]. *)
Definition block_device `{Roots} : item_test DiskCounters := fun W h w c =>
  let path := to_string_lossy sysfs_root ++ lit "/block/" ++ map (fun b => if decide (b = SLASH) then BANG else b) (disk_name c) in
  bool_decide (NUL ∉ path) && (fst (h _ (Access path) w) =? 0)%Z.
(** A partition is physical when it has a device and the kernel lists its file
    system among those that need one. *)
Definition on_known_device `{Roots} : item_test Partition := fun W h w p =>
  bool_decide (is_Some (device p)) &&
  match result_of h known_filesystems w with Ok known => bool_decide (fs_type p ∈ known) | _ => false end.
Definition filesystems_readable `{Roots} : systems := fun W h w =>
  steady h w /\ exists known, result_of h known_filesystems w = Ok known.

Lemma cstring_new_nul s : if bool_decide (NUL ∉ s) then cstring_new s = Ok s else exists n, cstring_new s = Err n.
Proof.
  unfold cstring_new. case_bool_decide as Hs.
  - rewrite span_until_none; [done|]. apply Forall_forall. intros x Hx. case_bool_decide; [by subst x|done].
  - assert (Hf : exists a r, span_until (fun x => bool_decide (x = NUL)) s = (a, Some r)); [|destruct Hf as (a & r & ->); by eexists].
    induction s as [|x s IH]; [by apply elem_of_nil in Hs|]. cbn. case_bool_decide as Hx; [by do 2 eexists|].
    apply elem_of_cons in Hs as [Heq|Hs]; [congruence|]. destruct (IH Hs) as (a & r & ->). by do 2 eexists.
Qed.
Lemma bool_decide_Z_eqb (a b : Z) : bool_decide (a = b) = (a =? b)%Z.
Proof. by destruct (Z.eqb_spec a b); case_bool_decide. Qed.
Lemma linux_physical `{Profile, Units, Roots} : PhysicalOnes linux_disk (@steady) filesystems_readable block_device on_known_device.
Proof.
  split; intros W h w Hst l;
    unfold all_io_counters, physical_io_counters, all_partitions, physical_partitions;
    cbn [linux_disk sys_io_counters_all sys_io_counters_physical sys_partitions sys_partitions_physical];
    unfold always; [|destruct Hst as [Hst [known Hknown]]]; rewrite !result_fmap by done.
  - unfold disk_io_counters_physical. rewrite result_io_bind by done.
    destruct (result_of h disk_io_counters w) as [counters|e|]; [|done..]. cbn [mbind res_bind fmap res_fmap].
    rewrite result_bind, result_try_filter_map, result_ret by done. intros [= <-]. eexists. split; [reflexivity|].
    rewrite seen_until. apply seen_omap; [|done..]. intros c. cbn [mbind res_bind]. rewrite result_io_bind by done.
    unfold is_storage_device, block_device. run.
    set (path := _ ++ _ ++ _). pose proof (cstring_new_nul path) as Hc.
    destruct (bool_decide (NUL ∉ path)); [rewrite Hc|destruct Hc as [n ->]]; cbn; [left|right; split; [done|by eexists]].
    rewrite result_do by done. cbn. rewrite bool_decide_Z_eqb. by destruct (fst _ =? 0)%Z.
  - unfold partitions_physical. rewrite result_io_bind, Hknown by done. cbn [mbind res_bind fmap res_fmap].
    rewrite result_io_bind by done.
    destruct (result_of h partitions w) as [parts|e|]; cbn [mbind res_bind fmap res_fmap]; [|done..].
    intros [= <-]. eexists. split; [reflexivity|]. apply seen_omap; [|done..]. intros p. left.
    unfold on_known_device. rewrite Hknown. cbn. destruct (device p) as [d|]; [|done].
    rewrite bool_decide_true by by eexists. cbn. by repeat case_decide; case_bool_decide.
Qed.

(** ** macOS: a field of the item, in any system *)

Definition any_system : systems := fun _ _ _ => True.
Definition fixed_medium : item_test MacDiskCounters := fun _ _ _ c => negb (mac_removable c).
Definition named_file_system : item_test MacPartition := fun _ _ _ p =>
  match mac_part_fs p with OtherFs _ => false | _ => true end.
Lemma mac_physical `{Profile, Units, CoreFoundation, StatfsSize} fuel :
  PhysicalOnes (mac_disk fuel) any_system any_system fixed_medium named_file_system.
Proof. split; [apply selects_map|apply selects_always]; intros l; by apply seen_filter. Qed.

(** ** Windows: the volumes of a system *)

(** A search over the volumes, the code of the last error, and the device that
    was opened last. *)
Record search := mkSearch { found : nat; last_code : Z; opened : wide }.

Section volumes.
Context `{Profile}.
Variables (volumes : list wide) (kind : wide -> DWORD) (perf : wide -> DISK_PERFORMANCE + Z).

Definition failed (code : Z) (s : search) : search := mkSearch (found s) code (opened s).
Definition volume_step {R} (c : win_call R) (s : search) : R * search :=
  match c in win_call R return R * search with
  | FindFirstVolumeW =>
      match volumes with
      | [] => ((INVALID_HANDLE_VALUE, []), failed winerror.ERROR_NO_MORE_FILES s)
      | v :: _ => ((1%Z, v ++ [0%Z]), mkSearch 1 (last_code s) (opened s))
      end
  | FindNextVolumeW _ =>
      match volumes !! found s with
      | Some v => ((1%Z, v ++ [0%Z]), mkSearch (S (found s)) (last_code s) (opened s))
      | None => ((0%Z, []), failed winerror.ERROR_NO_MORE_FILES s)
      end
  | FindVolumeClose _ => (1%Z, s)
  | GetDriveTypeW path => (kind path, s)
  | CreateFileW path => (64%Z, mkSearch (found s) (last_code s) path)
  | DeviceIoControl _ =>
      match perf (opened s) with
      | inl p => ((1%Z, p), s)
      | inr code => ((0%Z, mkDiskPerformance 0 0 0 0 0 0), failed code s)
      end
  | CloseHandle _ => (1%Z, s)
  | c => (win_refused c, s)
  end.
Definition volume_os : handler search := fun R c s =>
  match c in call R return R * search with
  | Win c => volume_step c s
  | GetErrno => (last_code s, s)
  | c => (fst (snapshot (fun _ => Err (Os errno.ENOENT)) (fun _ => []) _ c tt), s)
  end.

(** The names are strings, the types those that are documented. *)
Definition sane_volumes : Prop :=
  Forall (fun v => 0%Z ∉ v) volumes /\ forall path, (0 <= kind path <= 6)%Z.
Hypothesis Hsane : sane_volumes.
Context `{Units}.

Definition fixed_volume (v : wide) : bool := bool_decide (kind (v ++ [0%Z]) = DRIVE_FIXED).
(** What is reported of a volume; one without counters is left out. *)
Definition volume_report (v : wide) : option (result WinDiskCounters) :=
  match perf (removelast v ++ [0%Z]) with
  | inl p => Some (Ok (counters_of v p))
  | inr code =>
      if ((code =? winerror.ERROR_INVALID_FUNCTION) || (code =? winerror.ERROR_NOT_SUPPORTED))%Z then None
      else Some (Err (last_os_error code))
  end.

Lemma exec_find_first {E} s v : head volumes = Some v ->
  exec volume_os (volumes_next (E := E) None) s =
    (Ok (Some (Ok v), Some 1%Z), mkSearch 1 (last_code s) (opened s)).
Proof.
  intros Hv. unfold volumes_next, find_first_volume. cbn. pose proof (proj1 Hsane) as Hz.
  destruct volumes as [|v' vs]; [done|]. injection Hv as ->. cbn. rewrite up_to_null_app by by inversion Hz. done.
Qed.
Lemma exec_find_next {E} s :
  exec volume_os (volumes_next (E := E) (Some 1%Z)) s =
    match volumes !! found s with
    | Some v => (Ok (Some (Ok v), Some 1%Z), mkSearch (S (found s)) (last_code s) (opened s))
    | None => (Ok (None, Some 1%Z), failed winerror.ERROR_NO_MORE_FILES s)
    end.
Proof.
  unfold volumes_next, find_next_volume. cbn. destruct (volumes !! found s) as [v|] eqn:Hv; cbn; [|done].
  by rewrite up_to_null_app by (eapply (Forall_lookup_1 _ _ _ _ (proj1 Hsane) Hv)).
Qed.

Section stream.
Variables (filter : wide -> io Error bool) (kept : wide -> bool).
Hypothesis Hfilter : forall v s, exec volume_os (filter v) s = (Ok (kept v), s).

Definition kept_report (v : wide) : option (result WinDiskCounters) := if kept v then volume_report v else None.

Lemma exec_counters_item v s : exists s',
  found s' = found s /\
  exec volume_os (counters_item filter (Ok v)) s =
    (match kept_report v with Some (Ok c) => Ok (Some c) | Some (Err e) => Err e | Some Panic => Panic | None => Ok None end, s').
Proof.
  unfold counters_item. rewrite exec_io_bind. cbn [exec lift]. rewrite exec_io_bind, Hfilter.
  unfold kept_report, volume_report. destruct (kept v); [|by exists s].
  rewrite exec_io_bind. unfold disk_performance. cbn.
  destruct (perf (removelast v ++ [0%Z])) as [p|code]; cbn.
  - by eexists; split; [|reflexivity].
  - destruct ((code =? winerror.ERROR_INVALID_FUNCTION) || (code =? winerror.ERROR_NOT_SUPPORTED))%Z;
      by eexists; split; [|reflexivity].
Qed.
Lemma kept_report_not_panic v : kept_report v <> Some Panic.
Proof. unfold kept_report, volume_report. by repeat case_match. Qed.

(** One round of the stream, once the iterator has given a volume. *)
Lemma exec_round fuel v s next items :
  (exists s', found s' = found s /\
     exec volume_os (counters_item filter (Ok v)) s =
       (match kept_report v with Some (Ok c) => Ok (Some c) | Some (Err e) => Err e | Some Panic => Panic | None => Ok None end, s')) ->
  (forall s', found s' = found s -> exists s'',
     exec volume_os (inner_stream fuel filter next) s' = (Ok (Some items, next), s'')) ->
  exists s'', exec volume_os
    (let rest item :=
       '(items, v) ← inner_stream fuel filter next;
       mret (fmap (M := option) (app item) items, v) in
     prog_bind (counters_item filter (Ok v)) (fun r =>
       match r with
       | Ok (Some c) => rest [Ok c]
       | Ok None => rest []
       | Err e => rest [Err e]
       | Panic => prog_bind (volumes_drop (E := Error) next) (fun _ => Ret Panic)
       end)) s = (Ok (Some (match kept_report v with Some r => r :: items | None => items end), next), s'').
Proof.
  intros (s1 & Hf & He) Hrest. cbv zeta. rewrite exec_bind, He.
  destruct (Hrest s1 Hf) as [s2 Hr]. exists s2. pose proof (kept_report_not_panic v).
  destruct (kept_report v) as [[c|e|]|]; [| |done|]; rewrite exec_io_bind, Hr; done.
Qed.

Lemma exec_inner_rest fuel s k : found s = S k -> k < length volumes -> length volumes < S k + fuel ->
  exists s', exec volume_os (inner_stream fuel filter (Some 1%Z)) s =
    (Ok (Some (omap kept_report (drop (S k) volumes)), Some 1%Z), s').
Proof.
  revert s k. induction fuel as [|fuel IH]; intros s k Hs Hk Hlen; [lia|]. cbn [inner_stream].
  rewrite exec_io_bind, exec_find_next, Hs. destruct (volumes !! S k) as [v|] eqn:Hv.
  - erewrite (drop_S volumes v (S k)) by done. cbn [omap list_omap].
    apply exec_round; [apply exec_counters_item|]. cbn [found]. intros s' Hs'.
    apply (IH s' (S k)); [done| |lia]. by apply lookup_lt_Some in Hv.
  - rewrite drop_ge by (apply lookup_ge_None in Hv; lia). by eexists.
Qed.

(** The whole stream: with fuel for one round more than there are volumes; a
    system without any gives the same error for ever. *)
Lemma exec_volumes_stream fuel s :
  volumes <> [] -> length volumes < fuel ->
  result_of volume_os (volumes_stream fuel filter) s = Ok (Some (omap kept_report volumes)).
Proof.
  intros Hne Hlen. unfold volumes_stream, result_of. rewrite exec_io_bind.
  destruct fuel as [|fuel]; [lia|]. cbn [inner_stream]. rewrite exec_io_bind.
  destruct volumes as [|v vs] eqn:Hvs; [done|]. rewrite <- Hvs in *.
  rewrite (exec_find_first _ v) by by rewrite Hvs.
  edestruct (exec_round fuel v (mkSearch 1 (last_code s) (opened s)) (Some 1%Z)) as [s'' He];
    [apply exec_counters_item| |].
  - intros s' Hs'. apply (exec_inner_rest fuel s' 0); [done|rewrite Hvs in *; cbn in *; lia..].
  - cbv zeta in He. rewrite He, Hvs. done.
Qed.

Lemma exec_no_volumes fuel s :
  volumes = [] -> result_of volume_os (volumes_stream fuel filter) s = Ok None.
Proof.
  intros Hvs. unfold volumes_stream, result_of. rewrite exec_io_bind.
  assert (Hnone : forall s, exists s', exec volume_os (inner_stream fuel filter None) s = (Ok (None, None), s')).
  { clear s. induction fuel as [|fuel IH]; intros s; [by exists s|]. cbn [inner_stream]. rewrite exec_io_bind.
    unfold volumes_next, find_first_volume. cbn. rewrite Hvs. cbn.
    destruct (IH (failed winerror.ERROR_NO_MORE_FILES s)) as [s' Hs']. rewrite exec_io_bind, Hs'. by eexists. }
  destruct (Hnone s) as [s' ->]. done.
Qed.
End stream.

Lemma exec_keep_all (v : wide) s : exec volume_os (mret (M := io Error) true) s = (Ok true, s).
Proof. done. Qed.
Lemma exec_keep_fixed (v : wide) s :
  exec volume_os (t ← drive_type_from_path (E := Error) v; mret (bool_decide (t = Some Fixed))) s = (Ok (fixed_volume v), s).
Proof.
  unfold drive_type_from_path, drive_type_from_slice, fixed_volume. rewrite last_snoc, bool_decide_true by done.
  rewrite andb_false_r. cbn. pose proof (proj2 Hsane (v ++ [0%Z])) as Hk. unfold maybe_from.
  assert (Hc : In (kind (v ++ [0%Z])) [0; 1; 2; 3; 4; 5; 6]%Z) by (cbn; lia).
  repeat (destruct Hc as [<-|Hc]; [done|]). done.
Qed.

Lemma volumes_all fuel s : volumes <> [] -> length volumes < fuel ->
  result_of volume_os (win_disk_io_counters fuel) s = Ok (Some (omap volume_report volumes)).
Proof. intros Hne Hl. by apply (exec_volumes_stream _ (fun _ => true)); [apply exec_keep_all|..]. Qed.
Lemma volumes_physical fuel s : volumes <> [] -> length volumes < fuel ->
  result_of volume_os (win_disk_io_counters_physical fuel) s = Ok (Some (omap (kept_report fixed_volume) volumes)).
Proof. intros Hne Hl. by apply (exec_volumes_stream _ fixed_volume); [apply exec_keep_fixed|..]. Qed.
End volumes.

(** C14: the counters of the disks of a Windows system: one item per volume, in
    the order of the search; a volume whose device has no counters is left out,
    another error is an item; the physical ones are those whose drive type is
    fixed.  One round more than there are volumes is fuel enough.  On a system
    without volumes the iterator does not end: no fuel is enough. *)
Theorem win_disk_volumes `{Profile, Units} volumes kind perf fuel s :
  sane_volumes volumes kind ->
  (volumes <> [] -> length volumes < fuel ->
   result_of (volume_os volumes kind perf) (win_disk_io_counters fuel) s = Ok (Some (omap (volume_report perf) volumes)) /\
   result_of (volume_os volumes kind perf) (win_disk_io_counters_physical fuel) s =
     Ok (Some (omap (fun v => if fixed_volume kind v then volume_report perf v else None) volumes))) /\
  (volumes = [] ->
   result_of (volume_os volumes kind perf) (win_disk_io_counters fuel) s = Ok None /\
   result_of (volume_os volumes kind perf) (win_disk_io_counters_physical fuel) s = Ok None).
Proof.
  intros Hsane. split.
  - intros Hne Hl. split; [by apply volumes_all|by apply volumes_physical].
  - intros Hvs. split.
    + by apply (exec_no_volumes volumes kind perf (fun _ => mret true)).
    + by apply exec_no_volumes.
Qed.

(** Two volumes, of which the second has no counters. *)
Lemma win_disk_volumes_witness :
  let c : wide := map Z.of_nat [67; 58; 92] in
  let x : wide := map Z.of_nat [88; 58; 92] in
  let disk := mkDiskPerformance 10 20 0 0 3 4 in
  result_of (volume_os [c; x] (fun _ => DRIVE_FIXED)
      (fun path => if decide (path = [67; 58; 0]%Z) then inl disk else inr winerror.ERROR_INVALID_FUNCTION))
    (@win_disk_io_counters si_units 3) (mkSearch 0 0 []) = Ok (Some [Ok (@counters_of si_units c disk)]).
Proof.
  intros c x disk.
  refine (proj1 (proj1 (@win_disk_volumes true si_units [c; x] (fun _ => DRIVE_FIXED)
    (fun path => if decide (path = [67; 58; 0]%Z) then inl disk else inr winerror.ERROR_INVALID_FUNCTION)
    3 (mkSearch 0 0 []) _) _ _)).
  - split; [|done]. apply (bool_decide_unpack _). by vm_compute.
  - done.
  - cbn. lia.
Defined.

(** A system that behaves like this one, whatever else it does and keeps. *)
Definition volume_system (fuel : nat) : forall W, handler W -> W -> Prop := fun W h w =>
  exists volumes kind perf (view : W -> search),
    sane_volumes volumes kind /\ length volumes < fuel /\
    forall R (c : call R) w, (fst (h R c w), view (snd (h R c w))) = volume_os volumes kind perf R c (view w).
Lemma exec_view {W W' A} (h : handler W) (h' : handler W') (view : W -> W') (p : prog A) w :
  (forall R (c : call R) w, (fst (h R c w), view (snd (h R c w))) = h' R c (view w)) ->
  result_of h p w = result_of h' p (view w).
Proof.
  intros Hv. unfold result_of. revert w. induction p as [a|R c k IH]; intros w; [done|]. cbn.
  pose proof (Hv R c w) as Hc. destruct (h R c w) as [r w1], (h' R c (view w)) as [r' w2].
  cbn in Hc. injection Hc as -> <-. apply IH.
Qed.

(** The drive type of the volume, as the system tells it. *)
Definition on_fixed_drive : item_test WinDiskCounters := fun W h w c =>
  (fst (h _ (Win (GetDriveTypeW (volume_path c ++ [0%Z]))) w) =? DRIVE_FIXED)%Z.
Definition local_drive : item_test WinPartition := fun _ _ _ p =>
  bool_decide (drive_type p ∈ [Some Fixed; Some CdRom; Some Removable]).

Lemma windows_physical `{Profile, Units, Widestring} fuel :
  PhysicalOnes (windows_disk fuel) (volume_system fuel) any_system on_fixed_drive local_drive.
Proof.
  split.
  2: { apply selects_always. intros l. apply seen_filter; [|done..]. intros p. cbn. by destruct (drive_type p) as [[]|]. }
  intros W h w (volumes & kind & perf & view & Hsane & Hl & Hv) l.
  unfold all_io_counters, physical_io_counters. cbn [windows_disk sys_io_counters_all sys_io_counters_physical].
  rewrite !(exec_view h _ view _ _ Hv). destruct (decide (volumes = [])) as [Hvs|Hne].
  { intros Hall. unfold win_disk_io_counters in Hall. by rewrite exec_no_volumes in Hall. }
  rewrite (volumes_all volumes kind perf Hsane fuel _ Hne Hl), (volumes_physical volumes kind perf Hsane fuel _ Hne Hl).
  intros [= <-]. eexists. split; [reflexivity|].
  assert (Htest : forall c, on_fixed_drive W h w c = fixed_volume kind (volume_path c)).
  { intros c. unfold on_fixed_drive, fixed_volume. pose proof (Hv _ (Win (GetDriveTypeW (volume_path c ++ [0%Z]))) w) as Ha.
    cbn in Ha. injection Ha as -> _. by rewrite bool_decide_Z_eqb. }
  clear -Htest. induction volumes as [|v volumes IH]; [done|].
  cbn [omap list_omap]. unfold kept_report at 1.
  destruct (volume_report perf v) as [[c|e|]|] eqn:Hr.
  - assert (Hc : volume_path c = v) by (unfold volume_report in Hr; repeat case_match; by simplify_eq).
    rewrite seen_ok, filter_cons_test, Htest, Hc. destruct (fixed_volume kind v); [|done]. rewrite seen_ok. by f_equal.
  - rewrite seen_err. by destruct (fixed_volume kind v); rewrite ?seen_err.
  - by unfold volume_report in Hr; repeat case_match.
  - by destruct (fixed_volume kind v).
Qed.

(** C13: the physical disks and partitions that the public API gives are those of all of
    them that are physical, each of these and in the same order.  Physical is, on
    Linux, where the system does not change while the files are read, a counter
    whose name has a block device, and a partition with a device and a file
    system that the kernel knows to need one; on macOS, in every system, a
    medium that cannot be removed, and a file system that heim knows by name; on
    Windows a volume whose drive is fixed, where the volumes do not change
    during the search, and, in every system, a partition on a fixed, a removable
    or an optical drive. *)
Theorem disk_api_physical `{Profile, Units, Roots, CoreFoundation, StatfsSize, Widestring} fuel :
  PhysicalOnes linux_disk (@steady) filesystems_readable block_device on_known_device /\
  PhysicalOnes (mac_disk fuel) any_system any_system fixed_medium named_file_system /\
  PhysicalOnes (windows_disk fuel) (volume_system fuel) any_system on_fixed_drive local_drive.
Proof. split_and!; [apply linux_physical|apply mac_physical|apply windows_physical]. Qed.
