(* ===== verification/WinNet.v ===== *)
(** * heim-net on Windows: adapters, their addresses and netmasks

    heim-net/src/sys/windows/nic.rs; the counters of counters.rs are not
    implemented (the stream is empty). *)

From S2P Require Import Prelude RustStr Layout RustFloat Units Errors WinCalls Sys Streams ProcFs Cpu Host.
From S2P Require Import WinCommon WinDisk.

(** [crate::Address] with the socket addresses of the Rust library: the
    octets, the port, and for IPv6 the flow information and the scope. *)
Inductive WinAddress :=
| Inet (ip : list Z) (port : Z)
| Inet6 (ip : list Z) (port flow_info scope_id : Z).

Record WinNic := mkWinNic {
  win_index : Z;
  guid : str;
  friendly_name : str;
  up : bool;
  address : option WinAddress;
  netmask : option WinAddress;
}.

Definition size_of_SOCKADDR_IN : Z := 16.
Definition size_of_SOCKADDR_IN6 : Z := 28.

(** The byte at an offset of the address, and a number of the machine there,
    least significant byte first. *)
Definition byte_at (sa : list Z) (i : nat) : Z := nth i sa 0%Z.
Definition number_at (sa : list Z) (i n : nat) : Z := of_le_bytes (take n (drop i sa)).

Section sockaddr.
Context `{Profile}.

(** [arr[i] as u16] of a signed byte. *)
Definition sign_extended (b : Z) : Z := if (b <? 128)%Z then b else (b + 65280)%Z.

(** [sa_data] begins after the family. *)
Definition sockaddr_to_ipv4 {E} (sa : SOCKET_ADDRESS) : res E (option WinAddress) :=
  if (wrap 64 (iSockaddrLength sa) <? size_of_SOCKADDR_IN)%Z then Ok None
  else
    match lpSockaddr sa with
    | None => Ok None
    | Some sockaddr =>
        let arr i := byte_at sockaddr (2 + i) in
        let ip4 := [arr 2; arr 3; arr 4; arr 5] in
        high ← arith_uint 16 (sign_extended (arr 1) * 256);
        port ← arith_uint 16 (sign_extended (arr 0) + high);
        Ok (Some (Inet ip4 port))
    end.

Definition sockaddr_to_ipv6 (sa : SOCKET_ADDRESS) : option WinAddress :=
  if (wrap 64 (iSockaddrLength sa) <? size_of_SOCKADDR_IN6)%Z then None
  else
    match lpSockaddr sa with
    | None => None
    | Some p_sa6 =>
        let ip6 := take 16 (drop 8 p_sa6) in
        let port := number_at p_sa6 2 2 in
        let flow_info := number_at p_sa6 4 4 in
        let scope_id := number_at p_sa6 24 4 in
        Some (Inet6 ip6 port flow_info scope_id)
    end.

(** [x.checked_shl(n)] at a width. *)
Definition checked_shl (w x n : Z) : option Z :=
  if (n <? w)%Z then Some (wrap w (Z.shiftl x n)) else None.
Definition max_value (w : Z) : Z := (2 ^ w - 1)%Z.

(** The mask as a number; [Ipv4Addr::from] and [Ipv6Addr::from] give its
    octets. *)
Definition netmask_bits (w length : Z) : Z :=
  if (length <=? w)%Z then default 0%Z (checked_shl w (max_value w) (w - length))
  else max_value w.
Definition ipv4_netmask_from (length : Z) : list Z := be_bytes 4 (netmask_bits 32 length).
Definition ipv6_netmask_from (length : Z) : list Z := be_bytes 16 (netmask_bits 128 length).
Definition ipv4_netmask_address_from (length : Z) : WinAddress := Inet (ipv4_netmask_from length) 0.
Definition ipv6_netmask_address_from (length : Z) : WinAddress := Inet6 (ipv6_netmask_from length) 0 0 0.
End sockaddr.

(** ** [Nic] *)

Definition win_nic_name (n : WinNic) : str := friendly_name n.
Definition win_nic_index (n : WinNic) : option Z := Some (win_index n).
Definition win_nic_address (n : WinNic) : WinAddress := default (Inet [0; 0; 0; 0]%Z 0) (address n).
Definition win_nic_netmask (n : WinNic) : option WinAddress := netmask n.
Definition win_nic_destination (n : WinNic) : option WinAddress := None.
Definition win_nic_is_up (n : WinNic) : bool := up n.
Definition win_nic_is_running (n : WinNic) : bool := true.
Definition win_nic_is_loopback (n : WinNic) : bool :=
  match address n with
  | Some (Inet ip _) => (byte_at ip 0 =? 127)%Z
  | Some (Inet6 ip _ _ _) => bool_decide (ip = replicate 15 0%Z ++ [1%Z])
  | None => false
  end.
Definition win_nic_is_multicast (n : WinNic) : bool :=
  match address n with
  | Some (Inet ip _) => (224 <=? byte_at ip 0)%Z && (byte_at ip 0 <=? 239)%Z
  | Some (Inet6 ip _ _ _) => (byte_at ip 0 =? 255)%Z
  | None => false
  end.

(** ** [nic] *)

Definition IfOperStatusUp : Z := 1.
Definition GAA_FLAG_INCLUDE_PREFIX : Z := 16.

Section nic.
Context `{Profile, Widestring}.

(** One address: the family is read through the pointer, which ends the
    process when it is null. *)
Definition nic_of_address {E} (base_nic : WinNic) (cur_address : IP_ADAPTER_UNICAST_ADDRESS) : res E WinNic :=
  let this_socket_address := ua_Address cur_address in
  let this_netmask_length := OnLinkPrefixLength cur_address in
  sockaddr ← expect (lpSockaddr this_socket_address);
  let this_sa_family := number_at sockaddr 0 2 in
  '(this_address, this_netmask) ←
    if (this_sa_family =? 2)%Z then
      a ← sockaddr_to_ipv4 this_socket_address;
      Ok (a, Some (ipv4_netmask_address_from this_netmask_length))
    else if (this_sa_family =? 23)%Z then
      Ok (sockaddr_to_ipv6 this_socket_address, Some (ipv6_netmask_address_from this_netmask_length))
    else Ok (None, None);
  Ok (mkWinNic (win_index base_nic) (guid base_nic) (friendly_name base_nic) (up base_nic)
        this_address this_netmask).

(** The inner loop. *)
Fixpoint nics_of_addresses {E} (base_nic : WinNic) (addresses : list IP_ADAPTER_UNICAST_ADDRESS)
    : res E (list WinNic) :=
  match addresses with
  | [] => Ok []
  | cur_address :: next =>
      this_nic ← nic_of_address base_nic cur_address;
      results ← nics_of_addresses base_nic next;
      Ok (this_nic :: results)
  end.

Definition base_nic (cur_iface : IP_ADAPTER_ADDRESSES) : WinNic :=
  let iface_guid := let s := c_str (AdapterName cur_iface) in if from_utf8 s then s else [] in
  mkWinNic (IfIndex cur_iface) iface_guid (ucstr_to_string_lossy (FriendlyName cur_iface))
    (OperStatus cur_iface =? IfOperStatusUp)%Z None None.

(** The outer loop: the first address of an interface is read through the
    pointer, which ends the process when there is none. *)
Fixpoint nics_of_adapters {E} (ifaces : list IP_ADAPTER_ADDRESSES) : res E (list WinNic) :=
  match ifaces with
  | [] => Ok []
  | cur_iface :: next =>
      nics ← match FirstUnicastAddress cur_iface with
             | [] => Panic
             | addresses => nics_of_addresses (base_nic cur_iface) addresses
             end;
      results ← nics_of_adapters next;
      Ok (nics ++ results)
  end.

Definition adapters_error (code : Z) : Error :=
  with_ffi (from_io (Os code)) (lit "GetAdaptersAddresses").

Definition win_nic : io Error (list (result WinNic)) :=
  '(res, (_, data_size)) ← ask (Win (GetAdaptersAddresses 0 GAA_FLAG_INCLUDE_PREFIX 0));
  if negb (res =? winerror.ERROR_BUFFER_OVERFLOW)%Z then fails (adapters_error res)
  else
    '(res, (buffer, _)) ← ask (Win (GetAdaptersAddresses 0 GAA_FLAG_INCLUDE_PREFIX data_size));
    if negb (res =? winerror.NO_ERROR)%Z then fails (adapters_error res)
    else
      results ← lift match buffer with [] => Panic | _ => nics_of_adapters buffer end;
      mret (map Ok results).
End nic.

(** ** counters.rs

    [IoCounters] has no fields and every accessor is [unimplemented!]. *)

Definition WinNetCounters : Type := unit.
Definition win_net_interface {E} (c : WinNetCounters) : res E str := Panic.
Definition win_net_bytes_sent {E} (c : WinNetCounters) : res E Information := Panic.
Definition win_net_bytes_recv {E} (c : WinNetCounters) : res E Information := Panic.
Definition win_net_packets_sent {E} (c : WinNetCounters) : res E Z := Panic.
Definition win_net_packets_recv {E} (c : WinNetCounters) : res E Z := Panic.
Definition win_net_errors_sent {E} (c : WinNetCounters) : res E Z := Panic.
Definition win_net_errors_recv {E} (c : WinNetCounters) : res E Z := Panic.
Definition win_net_drop_recv {E} (c : WinNetCounters) : res E Z := Panic.
Definition win_net_drop_sent {E} (c : WinNetCounters) : res E Z := Panic.
Definition win_net_io_counters {E} : io E (list (result WinNetCounters)) := mret [].
