(* ===== verification/NetApi.v ===== *)
(** * The public API of heim-net

    heim-net/src/counters.rs, nic.rs and os/.  [NetBackend] is what the API
    asks of a back end; an accessor that may panic gives a result. *)

From S2P Require Import Prelude RustStr Layout RustFloat Units Errors WinCalls MacCalls Sys Streams ProcFs Cpu Net.
From S2P Require Import MacSys MacNet WinCommon WinDisk WinNet CpuApi.

Class NetBackend := {
  NetCountersData : Type;
  NicData : Type;
  AddressData : Type;
  sys_net_counters : io Error (option (list (result NetCountersData)));
  sys_net_interface : NetCountersData -> result str;
  sys_net_bytes_sent : NetCountersData -> result Information;
  sys_net_bytes_recv : NetCountersData -> result Information;
  sys_net_packets_sent : NetCountersData -> result Z;
  sys_net_packets_recv : NetCountersData -> result Z;
  sys_net_errors_sent : NetCountersData -> result Z;
  sys_net_errors_recv : NetCountersData -> result Z;
  sys_net_drop_recv : NetCountersData -> result Z;
  sys_nics : io Error (list (result NicData));
  sys_nic_name : NicData -> str;
  sys_nic_index : NicData -> option Z;
  sys_nic_address : NicData -> result AddressData;
  sys_nic_netmask : NicData -> result (option AddressData);
  sys_nic_destination : NicData -> result (option AddressData);
  sys_nic_is_up : NicData -> bool;
  sys_nic_is_running : NicData -> bool;
  sys_nic_is_loopback : NicData -> bool;
  sys_nic_is_multicast : NicData -> bool;
}.

Section api.
Context {B : NetBackend}.

(** ** counters.rs *)

Definition net_interface (c : NetCountersData) : result str := sys_net_interface c.
Definition net_bytes_sent (c : NetCountersData) : result Information := sys_net_bytes_sent c.
Definition net_bytes_recv (c : NetCountersData) : result Information := sys_net_bytes_recv c.
Definition net_packets_sent (c : NetCountersData) : result Z := sys_net_packets_sent c.
Definition net_packets_recv (c : NetCountersData) : result Z := sys_net_packets_recv c.
Definition net_errors_sent (c : NetCountersData) : result Z := sys_net_errors_sent c.
Definition net_errors_recv (c : NetCountersData) : result Z := sys_net_errors_recv c.
Definition net_drop_recv (c : NetCountersData) : result Z := sys_net_drop_recv c.
Definition net_counters : io Error (option (list (result NetCountersData))) := sys_net_counters.

(** ** nic.rs *)

Definition nic_api_name (n : NicData) : str := sys_nic_name n.
Definition nic_api_index (n : NicData) : option Z := sys_nic_index n.
Definition nic_api_address (n : NicData) : result AddressData := sys_nic_address n.
Definition nic_api_netmask (n : NicData) : result (option AddressData) := sys_nic_netmask n.
Definition nic_api_destination (n : NicData) : result (option AddressData) := sys_nic_destination n.
Definition nic_api_is_up (n : NicData) : bool := sys_nic_is_up n.
Definition nic_api_is_running (n : NicData) : bool := sys_nic_is_running n.
Definition nic_api_is_loopback (n : NicData) : bool := sys_nic_is_loopback n.
Definition nic_api_is_multicast (n : NicData) : bool := sys_nic_is_multicast n.
Definition nics : io Error (list (result NicData)) := sys_nics.
End api.

(** ** The back ends

    What [getifaddrs] answers, and the text of its error, are arguments. *)

Section backends.
Context `{Units} (text : str).

Definition linux_net `{Nix, Roots} (getifaddrs : nix_error + list InterfaceAddress) : NetBackend := {|
  sys_net_counters := always net_io_counters;
  sys_net_interface c := Ok (interface c);
  sys_net_bytes_sent c := Ok (bytes_sent c);
  sys_net_bytes_recv c := Ok (bytes_recv c);
  sys_net_packets_sent c := Ok (packets_sent c);
  sys_net_packets_recv c := Ok (packets_recv c);
  sys_net_errors_sent c := Ok (errors_sent c);
  sys_net_errors_recv c := Ok (errors_recv c);
  sys_net_drop_recv c := Ok (drop_recv c);
  sys_nics := lift (nic text getifaddrs);
  sys_nic_name := nic_name;
  sys_nic_index := nic_index;
  sys_nic_address := nic_address;
  sys_nic_netmask := nic_netmask;
  sys_nic_destination := nic_destination;
  sys_nic_is_up := nic_is_up;
  sys_nic_is_running := nic_is_running;
  sys_nic_is_loopback := nic_is_loopback;
  sys_nic_is_multicast := nic_is_multicast;
|}.

Definition mac_net `{Profile, Nix, DarwinNet} (fuel : nat) (getifaddrs : nix_error + list InterfaceAddress)
    : NetBackend := {|
  sys_net_counters := mac_net_io_counters fuel;
  sys_net_interface c := Ok (mac_interface c);
  sys_net_bytes_sent c := Ok (mac_net_bytes_sent c);
  sys_net_bytes_recv c := Ok (mac_net_bytes_recv c);
  sys_net_packets_sent c := Ok (mac_net_packets_sent c);
  sys_net_packets_recv c := Ok (mac_net_packets_recv c);
  sys_net_errors_sent c := Ok (mac_net_errors_sent c);
  sys_net_errors_recv c := Ok (mac_net_errors_recv c);
  sys_net_drop_recv c := Ok (mac_net_drop_recv c);
  sys_nics := lift (nic text getifaddrs);
  sys_nic_name := nic_name;
  sys_nic_index := nic_index;
  sys_nic_address := nic_address;
  sys_nic_netmask := nic_netmask;
  sys_nic_destination := nic_destination;
  sys_nic_is_up := nic_is_up;
  sys_nic_is_running := nic_is_running;
  sys_nic_is_loopback := nic_is_loopback;
  sys_nic_is_multicast := nic_is_multicast;
|}.

Definition windows_net `{Profile, Widestring} : NetBackend := {|
  sys_net_counters := always win_net_io_counters;
  sys_net_interface := win_net_interface;
  sys_net_bytes_sent := win_net_bytes_sent;
  sys_net_bytes_recv := win_net_bytes_recv;
  sys_net_packets_sent := win_net_packets_sent;
  sys_net_packets_recv := win_net_packets_recv;
  sys_net_errors_sent := win_net_errors_sent;
  sys_net_errors_recv := win_net_errors_recv;
  sys_net_drop_recv := win_net_drop_recv;
  sys_nics := win_nic;
  sys_nic_name := win_nic_name;
  sys_nic_index := win_nic_index;
  sys_nic_address n := Ok (win_nic_address n);
  sys_nic_netmask n := Ok (win_nic_netmask n);
  sys_nic_destination n := Ok (win_nic_destination n);
  sys_nic_is_up := win_nic_is_up;
  sys_nic_is_running := win_nic_is_running;
  sys_nic_is_loopback := win_nic_is_loopback;
  sys_nic_is_multicast := win_nic_is_multicast;
|}.
End backends.

(** ** os/ *)

Class LinuxNicExt (N A : Type) := {
  ext_broadcast : N -> result (option A);
  ext_is_broadcast : N -> bool;
  ext_is_point_to_point : N -> bool;
}.
#[export] Instance linux_nic_ext `{Nix} : LinuxNicExt InterfaceAddress Address := {|
  ext_broadcast := nic_broadcast;
  ext_is_broadcast := nic_is_broadcast;
  ext_is_point_to_point := nic_is_point_to_point;
|}.
Class MacNicExt (N A : Type) := {
  ext_mac_broadcast : N -> result (option A);
  ext_mac_is_broadcast : N -> bool;
  ext_mac_is_point_to_point : N -> bool;
}.
#[export] Instance mac_nic_ext `{Nix} : MacNicExt InterfaceAddress Address := {|
  ext_mac_broadcast := nic_broadcast;
  ext_mac_is_broadcast := nic_is_broadcast;
  ext_mac_is_point_to_point := nic_is_point_to_point;
|}.
Class WindowsNicExt (N : Type) := ext_guid : N -> str.
#[export] Instance windows_nic_ext : WindowsNicExt WinNic := guid.

Class LinuxNetCountersExt (C : Type) := ext_drop_sent : C -> Z.
#[export] Instance linux_net_counters_ext : LinuxNetCountersExt NetCounters := drop_sent.
Class WindowsNetCountersExt (C : Type) := ext_win_drop_sent : C -> result Z.
#[export] Instance windows_net_counters_ext : WindowsNetCountersExt WinNetCounters := win_net_drop_sent.

Definition os_io_counters_for_pid `{Units, Roots} (pid : Z) : io Error (list (result NetCounters)) :=
  io_counters_for_pid pid.
