(* ===== verification/NetApiSpec.v ===== *)
(** * The public API of heim-net: which accessors may panic *)

From S2P Require Import Prelude RustStr Layout RustFloat Units Errors WinCalls MacCalls Sys Streams ProcFs Cpu Net.
From S2P Require Import MacSys MacNet WinCommon WinDisk WinNet CpuApi NetApi.

Section readable.
Context {B : NetBackend}.

Definition no_panic {A} (r : result A) : Prop := r <> Panic.
(** All that can be asked of the counters of an interface. *)
Definition readable_counters (c : NetCountersData) : Prop :=
  no_panic (net_interface c) /\ no_panic (net_bytes_sent c) /\ no_panic (net_bytes_recv c) /\
  no_panic (net_packets_sent c) /\ no_panic (net_packets_recv c) /\
  no_panic (net_errors_sent c) /\ no_panic (net_errors_recv c) /\ no_panic (net_drop_recv c).
(** What the stream gives can be read. *)
Definition counters_readable : Prop :=
  forall W (h : handler W) w l c, fst (exec h net_counters w) = Ok (Some l) -> Ok c ∈ l -> readable_counters c.
(** The address of an interface that is listed panics only where [known] does
    not hold of it. *)
Definition addresses_readable (known : NicData -> Prop) : Prop :=
  forall W (h : handler W) w l n, fst (exec h nics w) = Ok l -> Ok n ∈ l -> known n -> no_panic (nic_api_address n).
End readable.

Definition known_family `{Nix} (n : InterfaceAddress) : Prop :=
  match if_address n with Some (SockOther _) => False | _ => True end.

Lemma nic_listed `{Nix} text getifaddrs l n : nic text getifaddrs = Ok l -> Ok n ∈ l -> is_Some (if_address n).
Proof.
  unfold nic. destruct getifaddrs as [e|iter]; [done|]. intros [= <-] Hn.
  apply list_elem_of_omap in Hn as (addr & _ & Ha). by destruct (if_address addr) eqn:He; simplify_eq.
Qed.
Lemma nic_address_readable `{Nix} text getifaddrs l n :
  nic text getifaddrs = Ok l -> Ok n ∈ l -> known_family n -> no_panic (nic_address n).
Proof.
  intros Hl Hn Hk. destruct (nic_listed _ _ _ _ Hl Hn) as [s Hs].
  unfold known_family, nic_address, no_panic in *. rewrite Hs in *. by destruct s.
Qed.

(** The counters that the API gives can be read without a panic on every
    platform: on Windows every accessor is [unimplemented!], but the stream there
    is empty.  The address of an interface that is listed can be read as well,
    unless its family is another than the three that are known: then it panics on
    Linux and on macOS; on Windows it never does. *)
Theorem net_api_readable `{Profile, Units, Nix, Roots, DarwinNet, Widestring} text getifaddrs fuel :
  counters_readable (B := linux_net text getifaddrs) /\
  counters_readable (B := mac_net text fuel getifaddrs) /\
  counters_readable (B := windows_net) /\
  addresses_readable (B := linux_net text getifaddrs) known_family /\
  addresses_readable (B := mac_net text fuel getifaddrs) known_family /\
  (forall n family, if_address n = Some (SockOther family) ->
     nic_api_address (B := linux_net text getifaddrs) n = Panic /\
     nic_api_address (B := mac_net text fuel getifaddrs) n = Panic) /\
  addresses_readable (B := windows_net) (fun _ => True).
Proof.
  split_and!.
  - intros W h w l c _ _. by repeat split.
  - intros W h w l c _ _. by repeat split.
  - intros W h w l c. cbn. intros [= <-] Hc. by apply elem_of_nil in Hc.
  - intros W h w l n Hl. by apply (nic_address_readable text getifaddrs).
  - intros W h w l n Hl. by apply (nic_address_readable text getifaddrs).
  - intros n family Hn. cbn. unfold nic_address. by rewrite Hn.
  - done.
Qed.
