(* ===== verification/HostApi.v ===== *)
(** * The public API of heim-host

    heim-host/src/*.rs and os/.  [HostBackend] is what the API asks of a back
    end.  A back end may keep something from one call to the next: macOS
    computes the time base of its clock once. *)

From S2P Require Import Prelude RustStr Layout RustFloat Units Errors WinCalls MacCalls Sys Streams ProcFs Cpu Host.
From S2P Require Import MacSys MacHost WinCommon WinHost.

Class HostBackend := {
  HostCache : Type;
  PlatformData : Type;
  ArchData : Type;
  UserData : Type;
  sys_boot_time : io Error Time;
  sys_uptime : HostCache -> io Error (Time * HostCache);
  sys_platform : io Error PlatformData;
  sys_system : PlatformData -> result str;
  sys_release : PlatformData -> str;
  sys_version : PlatformData -> str;
  sys_hostname : PlatformData -> str;
  sys_architecture : PlatformData -> ArchData;
  sys_users : io Error (list (result UserData));
  sys_username : UserData -> result str;
}.

Section api.
Context {B : HostBackend}.

(** ** boot_time.rs, uptime.rs, platform.rs, users.rs *)

Definition host_boot_time : io Error Time := sys_boot_time.
Definition host_uptime (cache : HostCache) : io Error (Time * HostCache) := sys_uptime cache.
Definition platform_system (p : PlatformData) : result str := sys_system p.
Definition platform_release (p : PlatformData) : str := sys_release p.
Definition platform_version (p : PlatformData) : str := sys_version p.
Definition platform_hostname (p : PlatformData) : str := sys_hostname p.
Definition platform_architecture (p : PlatformData) : ArchData := sys_architecture p.
Definition host_platform : io Error PlatformData := sys_platform.
Definition user_username (u : UserData) : result str := sys_username u.
Definition host_users : io Error (list (result UserData)) := sys_users.
End api.

(** ** sys/linux/users/musl.rs

    On musl there is no utmpx: no user is listed, and every accessor of [User]
    is [unimplemented!]. *)

Definition MuslUser : Type := unit.
Definition musl_username {E} (u : MuslUser) : res E str := Panic.
Definition musl_terminal {E} (u : MuslUser) : res E str := Panic.
Definition musl_id {E} (u : MuslUser) : res E str := Panic.
Definition musl_pid {E} (u : MuslUser) : res E Z := Panic.
Definition musl_hostname {E} (u : MuslUser) : res E str := Panic.
Definition musl_address {E} (u : MuslUser) : res E (option IpAddr) := Panic.
Definition musl_session_id {E} (u : MuslUser) : res E Z := Panic.
Definition musl_users {E} : io E (list (result MuslUser)) := mret [].

(** ** The back ends

    The entries that [getutxent] gives are an argument on Unix. *)

Section backends.
Context `{Units}.

Definition linux_host `{Roots, Platforms, Endian} (entries : list utmpx) : HostBackend := {|
  HostCache := unit;
  sys_boot_time := boot_time;
  sys_uptime cache := (fun t => (t, cache)) <$> uptime;
  sys_platform := platform;
  sys_system p := Ok (system p);
  sys_release := release;
  sys_version := version;
  sys_hostname := hostname;
  sys_architecture := architecture;
  sys_users := lift (users entries);
  sys_username u := Ok (username u);
|}.

(** Linux with the library musl. *)
Definition musl_host `{Roots, Platforms} : HostBackend := {|
  HostCache := unit;
  sys_boot_time := boot_time;
  sys_uptime cache := (fun t => (t, cache)) <$> uptime;
  sys_platform := platform;
  sys_system p := Ok (system p);
  sys_release := release;
  sys_version := version;
  sys_hostname := hostname;
  sys_architecture := architecture;
  sys_users := musl_users;
  sys_username := musl_username;
|}.

Definition mac_host `{DarwinHost, Platforms} (entries : list utmpx) : HostBackend := {|
  HostCache := option float;
  sys_boot_time := mac_boot_time;
  sys_uptime := mac_uptime;
  sys_platform := platform;
  sys_system p := Ok (system p);
  sys_release := release;
  sys_version := version;
  sys_hostname := hostname;
  sys_architecture := architecture;
  sys_users := lift (mac_users entries);
  sys_username u := Ok (mac_username u);
|}.

Definition windows_host `{Profile, WinPlatforms, Frame} : HostBackend := {|
  HostCache := unit;
  sys_boot_time := win_boot_time;
  sys_uptime cache := (fun t => (t, cache)) <$> win_uptime;
  sys_platform := win_platform;
  sys_system := win_system;
  sys_release := win_release;
  sys_version := win_version;
  sys_hostname := win_platform_hostname;
  sys_architecture := win_architecture;
  sys_users := win_users;
  sys_username u := Ok (win_user_username u);
|}.
End backends.

(** ** os/ *)

Class LinuxUserExt (U : Type) := {
  ext_pid : U -> result Z;
  ext_terminal : U -> result str;
  ext_id : U -> result str;
  ext_hostname : U -> result str;
  ext_address : U -> result (option IpAddr);
  ext_session_id : U -> result Z;
}.
#[export] Instance linux_user_ext : LinuxUserExt User := {|
  ext_pid u := Ok (user_pid u);
  ext_terminal u := Ok (terminal u);
  ext_id u := Ok (user_id u);
  ext_hostname u := Ok (user_hostname u);
  ext_address u := Ok (user_address u);
  ext_session_id u := Ok (session_id u);
|}.
#[export] Instance musl_user_ext : LinuxUserExt MuslUser := {|
  ext_pid := musl_pid;
  ext_terminal := musl_terminal;
  ext_id := musl_id;
  ext_hostname := musl_hostname;
  ext_address := musl_address;
  ext_session_id := musl_session_id;
|}.

Class MacUserExt (U : Type) := {
  ext_mac_pid : U -> Z;
  ext_mac_terminal : U -> str;
  ext_mac_id : U -> str;
  ext_mac_hostname : U -> str;
}.
#[export] Instance mac_user_ext : MacUserExt MacUser := {|
  ext_mac_pid := mac_user_pid;
  ext_mac_terminal := mac_terminal;
  ext_mac_id := mac_user_id;
  ext_mac_hostname := mac_user_hostname;
|}.

Class WindowsUserExt (U : Type) := { ext_domain : U -> str; ext_win_address : U -> option IpAddr }.
#[export] Instance windows_user_ext : WindowsUserExt WinUser :=
  {| ext_domain := win_user_domain; ext_win_address := win_user_address |}.
Class WindowsPlatformExt (P : Type) := ext_platform_domain : P -> str.
#[export] Instance windows_platform_ext : WindowsPlatformExt WinPlatform := win_domain.
