(* ===== verification/HostApiSpec.v ===== *)
(** * The public API of heim-host: what its back ends give

    Which accessors may panic, and the platform of Windows. *)

From S2P Require Import Prelude RustStr Layout RustFloat Units Errors WinCalls MacCalls Sys Streams ProcFs Cpu Host.
From S2P Require Import MacSys MacHost WinCommon WinHost WinHostSpec HostApi.

(** ** The platform of Windows *)

Section platform.
Context `{Profile, Units, WinPlatforms, Frame} {W : Type} (h : handler W) (w : W).
Hypothesis Hsteady : steady h w.

(** [GetComputerNameExW] as it is documented: without a buffer it fails and says
    how many units the name and its null take; with room enough it writes them
    and says how many units the name has. *)
Definition computer_name (kind : Z) (name : wide) : Prop :=
  (Z.of_nat (length name) + 2 < 2 ^ 32)%Z /\
  (exists buffer, fst (h _ (Win (GetComputerNameExW kind None 0)) w) = (0%Z, (buffer, Z.of_nat (length name) + 1)%Z)) /\
  (forall size, (Z.of_nat (length name) < size)%Z -> exists r rest,
     fst (h _ (Win (GetComputerNameExW kind (Some size) size)) w) = (r, (name ++ 0%Z :: rest, Z.of_nat (length name))) /\
     r <> 0%Z).

Lemma result_computer_name kind name : computer_name kind name ->
  result_of h (get_value_from_get_computer_name_ex_w kind) w = Ok (from_utf16_lossy name).
Proof.
  intros (Hl & (buffer & Hq) & Hb). unfold get_value_from_get_computer_name_ex_w. run. rewrite Hq. cbn [Z.eqb negb].
  unfold add_u32. rewrite arith_uint_small by lia. cbn [mbind res_bind]. run.
  destruct (Hb (Z.of_nat (length name) + 1 + 1)%Z ltac:(lia)) as (r & rest & Hr & Hn). rewrite Hr.
  rewrite (proj2 (Z.eqb_neq _ _)) by done.
  rewrite !(proj2 (Z.ltb_ge _ _)) by lia. run. by rewrite Nat2Z.id, take_app_length.
Qed.

(** The versions whose workstations and servers have names of their own. *)
Definition split_release (p : WinPlatform) : bool :=
  let nt (a b : nat) :=
    ((dwMajorVersion (os_version p) =? Z.of_nat a) && (dwMinorVersion (os_version p) =? Z.of_nat b))%Z in
  nt 6 2 || nt 6 1 || nt 6 0 || nt 5 2 && negb (wSuiteMask (os_version p) =? VER_SUITE_WH_SERVER)%Z.
Definition workstation (p : WinPlatform) : bool := (wProductType (os_version p) =? VER_NT_WORKSTATION)%Z.
Definition same_version (p q : WinPlatform) : Prop :=
  dwMajorVersion (os_version p) = dwMajorVersion (os_version q) /\
  dwMinorVersion (os_version p) = dwMinorVersion (os_version q) /\
  wSuiteMask (os_version p) = wSuiteMask (os_version q).

Lemma release_workstation p q : same_version p q -> workstation p = true -> workstation q = false ->
  bool_decide (win_release p = win_release q) = negb (split_release p).
Proof.
  unfold same_version, workstation, split_release, win_release. intros (-> & -> & ->) -> ->.
  generalize (dwMajorVersion (os_version q)) as a, (dwMinorVersion (os_version q)) as b.
  change (Z.of_nat 10) with 10%Z. change (Z.of_nat 6) with 6%Z. change (Z.of_nat 5) with 5%Z.
  change (Z.of_nat 3) with 3%Z. change (Z.of_nat 2) with 2%Z. change (Z.of_nat 1) with 1%Z. change (Z.of_nat 0) with 0%Z.
  intros a b. destruct (_ =? VER_SUITE_WH_SERVER)%Z; cbn [andb negb orb];
  destruct (Z.eqb_spec a 10), (Z.eqb_spec a 6), (Z.eqb_spec a 5); subst; try discriminate;
  destruct (Z.eqb_spec b 0), (Z.eqb_spec b 1), (Z.eqb_spec b 2), (Z.eqb_spec b 3); subst; first [discriminate | reflexivity].
Qed.

(** C32: on a Windows system that answers as documented the platform is found: its
    names are those of the computer and its version the build number.  Its
    system panics exactly for a product type other than the three that are
    known.  Workstations and servers of the same version have different
    releases exactly for 6.0 to 6.2, and for 5.2 unless the suite is that of
    Home Server: since 6.3 a server has the release of the workstation. *)
Theorem win_platform_spec version info host domain :
  fst (h _ (Win RtlGetVersion) w) = (ntstatus.STATUS_SUCCESS, version) ->
  fst (h _ (Win GetNativeSystemInfo) w) = info ->
  computer_name ComputerNameDnsHostname host -> computer_name ComputerNameDnsDomain domain ->
  exists p, result_of h (host_platform (B := windows_host)) w = Ok p /\
    platform_hostname (B := windows_host) p = from_utf16_lossy host /\ win_domain p = from_utf16_lossy domain /\
    platform_version (B := windows_host) p = show_int (dwBuildNumber version) /\
    (platform_system (B := windows_host) p = Panic <->
      wProductType version ∉ [VER_NT_WORKSTATION; VER_NT_SERVER; VER_NT_DOMAIN_CONTROLLER]) /\
    (forall q, same_version p q -> workstation p = true -> workstation q = false ->
      (win_release p = win_release q <-> split_release p = false)).
Proof.
  intros Hv Hi Hh Hd. exists (mkWinPlatform (wProcessorArchitecture info) version (from_utf16_lossy host)
    (from_utf16_lossy domain) (show_int (dwBuildNumber version))).
  split_and!; try done.
  - change (host_platform (B := windows_host)) with win_platform. unfold win_platform, rtl_get_version, get_native_system_info, get_computer_name, get_computer_domain.
    run. rewrite Hv. cbn [Z.eqb negb ntstatus.STATUS_SUCCESS]. rewrite andb_false_r. run.
    rewrite (result_computer_name _ _ Hh). cbn [mbind res_bind]. run.
    rewrite (result_computer_name _ _ Hd). cbn [mbind res_bind]. run. by rewrite Hi.
  - cbn. unfold win_system. cbn [os_version]. rewrite !not_elem_of_cons.
    generalize (wProductType version) as t. intros t.
    destruct (Z.eqb_spec t VER_NT_WORKSTATION); [split; [discriminate|intros; exfalso; tauto]|].
    destruct (Z.eqb_spec t VER_NT_SERVER); [split; [discriminate|intros; exfalso; tauto]|].
    destruct (Z.eqb_spec t VER_NT_DOMAIN_CONTROLLER); [split; [discriminate|intros; exfalso; tauto]|].
    split; [intros _|done]. by repeat split; [..|apply not_elem_of_nil].
  - intros q Hs Hp Hq. pose proof (release_workstation _ q Hs Hp Hq) as Hr.
    revert Hr. case_bool_decide; destruct (split_release _); intros; try done; tauto.
Qed.
End platform.

(** ** Which accessors may panic *)

Section readable.
Context {B : HostBackend}.
(** The names of the users that are listed can be read. *)
Definition users_readable : Prop :=
  forall W (h : handler W) w l u, fst (exec h host_users w) = Ok l -> Ok u ∈ l -> user_username u <> Panic.
Definition system_readable : Prop := forall p, platform_system p <> Panic.
End readable.

(** The name of a user that is listed can be read without a panic on every
    platform; with musl the accessor always panics, but no user is listed.  The
    system of the platform can be read on Linux and on macOS. *)
Theorem host_api_readable `{Profile, Units, Roots, Platforms, Endian, DarwinHost, !WinPlatforms, Frame} entries :
  users_readable (B := linux_host entries) /\ users_readable (B := musl_host) /\
  users_readable (B := mac_host entries) /\ users_readable (B := windows_host) /\
  (forall u, user_username (B := musl_host) u = Panic) /\
  system_readable (B := linux_host entries) /\ system_readable (B := musl_host) /\
  system_readable (B := mac_host entries).
Proof.
  split_and!; try done.
  intros W h w l u. cbn. intros [= <-] Hu. by apply elem_of_nil in Hu.
Qed.

(** ** Witnesses *)

Module PlatformWitness.
Definition host : wide := [104; 101; 105; 109]%Z.
Definition version : OSVERSIONINFOEXW := mkOsVersion 10 0 19041 0 VER_NT_SERVER.
Definition answer (R : Type) (c : win_call R) : R :=
  match c in win_call R return R with
  | RtlGetVersion => (ntstatus.STATUS_SUCCESS, version)
  | GetComputerNameExW kind buffer size =>
      let name := if (kind =? ComputerNameDnsHostname)%Z then host else [] in
      match buffer with
      | None => (0%Z, ([], Z.of_nat (length name) + 1))%Z
      | Some _ => (1%Z, (name ++ [0%Z], Z.of_nat (length name)))
      end
  | c => win_refused c
  end.
Definition platforms : Platforms :=
  {| Arch := nat; arch_from_str _ := None; ARM := 1; POWERPC64 := 2; Unknown := 0 |}.
Definition win_platforms : @WinPlatforms platforms := @Build_WinPlatforms platforms 3 4 5.
Lemma names kind : computer_name (windows answer) tt kind (if (kind =? ComputerNameDnsHostname)%Z then host else []).
Proof. split_and!; [by destruct (_ =? _)%Z|by eexists|]. intros size _. by do 2 eexists. Qed.
End PlatformWitness.

Lemma win_platform_spec_witness :
  let B := @windows_host si_units true PlatformWitness.platforms PlatformWitness.win_platforms test_frame in
  exists p, result_of (windows PlatformWitness.answer) (@host_platform B) tt = Ok p /\
    @platform_hostname B p = lit "heim" /\ win_domain p = [] /\ @platform_version B p = lit "19041" /\
    (@platform_system B p = Panic <-> 3%Z ∉ [1; 3; 2]%Z) /\
    (forall q, same_version p q -> workstation p = true -> workstation q = false ->
      (win_release p = win_release q <-> split_release p = false)).
Proof.
  exact (@win_platform_spec true si_units PlatformWitness.platforms PlatformWitness.win_platforms test_frame unit
    (windows PlatformWitness.answer) tt (windows_steady _ _) PlatformWitness.version _
    PlatformWitness.host [] eq_refl eq_refl (PlatformWitness.names _) (PlatformWitness.names _)).
Defined.
