(* ===== verification/WinNetSpec.v ===== *)
(** * heim-net on Windows: netmasks and the walk over the adapters *)

From S2P Require Import Prelude RustStr Layout RustFloat Units Errors WinCalls Sys Streams ProcFs Cpu Host.
From S2P Require Import WinCommon WinDisk WinNet.

(** ** Netmasks *)

Lemma max_value_ones w : max_value w = Z.ones w.
Proof. unfold max_value. by rewrite Z.ones_equiv, Z.sub_1_r. Qed.

(** The bits of the mask are those at the positions from [w - length] on. *)
Lemma netmask_bits_testbit w length i :
  (0 < w)%Z -> (0 <= length)%Z -> (0 <= i < w)%Z ->
  Z.testbit (netmask_bits w length) i = (w - length <=? i)%Z.
Proof.
  intros Hw Hl Hi. unfold netmask_bits. rewrite max_value_ones.
  destruct (Z.leb_spec length w) as [Hle|Hgt].
  - unfold checked_shl. destruct (Z.ltb_spec (w - length) w) as [Hlt|Hge]; cbn [from_option id].
    + unfold wrap. rewrite Z.mod_pow2_bits_low, Z.shiftl_spec by lia.
      destruct (Z.leb_spec (w - length) i).
      * rewrite Z.ones_spec_low by lia. done.
      * by rewrite Z.testbit_neg_r by lia.
    + rewrite Z.testbit_0_l. symmetry. apply Z.leb_gt. lia.
  - rewrite Z.ones_spec_low by lia. symmetry. apply Z.leb_le. lia.
Qed.

Lemma length_be_bytes n z : length (be_bytes n z) = n.
Proof. revert z. induction n as [|n IH]; intros z; cbn; [done|]. rewrite length_app, IH. cbn. lia. Qed.

Lemma be_bytes_nth n z j :
  j < n -> nth j (be_bytes n z) 0%Z = (z / 2 ^ (8 * Z.of_nat (n - 1 - j)) mod 2 ^ 8)%Z.
Proof.
  revert z j. induction n as [|n IH]; intros z j Hj; [lia|]. cbn [be_bytes].
  destruct (decide (j < n)) as [Hlt|Hge].
  - rewrite app_nth1 by (rewrite length_be_bytes; lia). rewrite IH by done.
    rewrite Z.div_div by lia. change 256%Z with (2 ^ 8)%Z. rewrite <- Z.pow_add_r by lia.
    do 3 f_equal. lia.
  - assert (j = n) as -> by lia. rewrite app_nth2 by (rewrite length_be_bytes; lia).
    rewrite length_be_bytes, Nat.sub_diag. cbn [nth]. replace (S n - 1 - n) with 0 by lia.
    by rewrite Z.div_1_r.
Qed.

(** Bit [k] of octet [j], counted from the most significant one. *)
Definition octet_bit (octets : list Z) (j k : nat) : bool :=
  Z.testbit (nth j octets 0%Z) (7 - Z.of_nat k).

Lemma netmask_octets n length j k :
  (0 <= length)%Z -> j < n -> k < 8 ->
  octet_bit (be_bytes n (netmask_bits (8 * Z.of_nat n) length)) j k =
  (Z.of_nat (8 * j + k) <? length)%Z.
Proof.
  intros Hl Hj Hk. unfold octet_bit. rewrite be_bytes_nth by done.
  rewrite Z.mod_pow2_bits_low by lia. rewrite Z.div_pow2_bits by lia.
  rewrite netmask_bits_testbit by lia.
  destruct (Z.leb_spec (8 * Z.of_nat n - length) (7 - Z.of_nat k + 8 * Z.of_nat (n - 1 - j))),
    (Z.ltb_spec (Z.of_nat (8 * j + k)) length); lia.
Qed.

(** C29: the netmask of a prefix length has 4 (16) octets, and its bits, from
    the first of the first octet on, are set exactly up to the length; a
    length beyond the width gives the mask with all bits set, 0 the one
    without any. *)
Theorem netmask_prefix length j k :
  (0 <= length < 256)%Z -> k < 8 ->
  (j < 4 -> octet_bit (ipv4_netmask_from length) j k = (Z.of_nat (8 * j + k) <? length)%Z) /\
  (j < 16 -> octet_bit (ipv6_netmask_from length) j k = (Z.of_nat (8 * j + k) <? length)%Z) /\
  List.length (ipv4_netmask_from length) = 4 /\ List.length (ipv6_netmask_from length) = 16.
Proof.
  intros Hl Hk. unfold ipv4_netmask_from, ipv6_netmask_from. split_and!; [intros Hj..| |].
  - by apply (netmask_octets 4); [lia|..].
  - by apply (netmask_octets 16); [lia|..].
  - apply length_be_bytes.
  - apply length_be_bytes.
Qed.
Lemma netmask_prefix_witness :
  octet_bit (ipv4_netmask_from 9) 1 0 = true /\ octet_bit (ipv4_netmask_from 9) 1 1 = false /\
  ipv4_netmask_from 9 = [255; 128; 0; 0]%Z.
Proof.
  split_and!; [|..|reflexivity].
  - apply (proj1 (netmask_prefix 9 1 0 ltac:(lia) ltac:(lia))). lia.
  - apply (proj1 (netmask_prefix 9 1 1 ltac:(lia) ltac:(lia))). lia.
Defined.

(** ** The walk *)

(** An address as the system has it, how it lies in memory (the port in the
    order of the network), and how it is reported. *)
Inductive sys_address :=
| Sys4 (ip : list Z) (port : Z)
| Sys6 (ip : list Z) (port flow scope : Z)
| SysOther (family : Z).

Definition sockaddr_of (a : sys_address) : list Z :=
  match a with
  | Sys4 ip port => le_bytes 2 2 ++ be_bytes 2 port ++ ip ++ replicate 8 0%Z
  | Sys6 ip port flow scope => le_bytes 2 23 ++ be_bytes 2 port ++ le_bytes 4 flow ++ ip ++ le_bytes 4 scope
  | SysOther family => le_bytes 2 family ++ replicate 14 0%Z
  end.
Definition sys_address_ok (a : sys_address) : Prop :=
  match a with
  | Sys4 ip port => length ip = 4 /\ (0 <= port < 2 ^ 16)%Z
  | Sys6 ip port flow scope =>
      length ip = 16 /\ (0 <= port < 2 ^ 16)%Z /\ (0 <= flow < 2 ^ 32)%Z /\ (0 <= scope < 2 ^ 32)%Z
  | SysOther family => (0 <= family < 2 ^ 16)%Z /\ family <> 2%Z /\ family <> 23%Z
  end.

(** The two bytes of a port, the other way round. *)
Definition swapped (port : Z) : Z := (256 * (port mod 256) + port / 256)%Z.

(** What the code makes of the two bytes of an IPv4 port, which it takes for
    signed ones: the sum that should swap them overflows when the second byte is
    128 or more, and when the first is and the second is not 0.  That panics
    where overflow is checked, and otherwise a first byte of 128 or more comes
    with 255 added to the other. *)
Definition port_overflows (port : Z) : bool :=
  let hi := (port / 256)%Z in let lo := (port mod 256)%Z in
  ((128 <=? lo) || ((128 <=? hi) && (0 <? lo)))%Z.
Definition ipv4_port (port : Z) : Z :=
  if (port / 256 <? 128)%Z then swapped port else ((swapped port + 65280) mod 65536)%Z.

Definition reported (a : sys_address) (prefix : Z) : option WinAddress * option WinAddress :=
  match a with
  | Sys4 ip port => (Some (Inet ip (ipv4_port port)), Some (ipv4_netmask_address_from prefix))
  | Sys6 ip port flow scope => (Some (Inet6 ip (swapped port) flow scope), Some (ipv6_netmask_address_from prefix))
  | SysOther _ => (None, None)
  end.

Definition unicast (a : sys_address * Z) : IP_ADAPTER_UNICAST_ADDRESS :=
  mkUnicastAddress
    (mkSocketAddress (Some (sockaddr_of (fst a))) (Z.of_nat (length (sockaddr_of (fst a))))) (snd a).

Record sys_adapter := mkSysAdapter {
  sa_index : Z; sa_name : str; sa_friendly : wide; sa_status : Z; sa_addresses : list (sys_address * Z) }.
Definition adapter_of (a : sys_adapter) : IP_ADAPTER_ADDRESSES :=
  mkAdapter (sa_index a) (sa_name a) (sa_friendly a) (map unicast (sa_addresses a)) (sa_status a).

Lemma le_bytes_of_le n z : (0 <= z < 256 ^ Z.of_nat n)%Z -> of_le_bytes (le_bytes n z) = z.
Proof.
  revert z. induction n as [|n IH]; intros z Hz; [cbn in *; lia|].
  rewrite Nat2Z.inj_succ, Z.pow_succ_r in Hz by lia. cbn [le_bytes of_le_bytes]. rewrite IH.
  - pose proof (Z.div_mod z 256). lia.
  - split; [apply Z.div_pos; lia|]. apply Z.div_lt_upper_bound; lia.
Qed.

Lemma list_4 {A} (l : list A) : length l = 4 -> exists a b c d, l = [a; b; c; d].
Proof. intros Hl. destruct l as [|a [|b [|c [|d [|e l]]]]]; try done. eauto. Qed.

Section walk.
Context `{Profile, Widestring}.

Definition reported_nic (a : sys_adapter) (p : sys_address * Z) : WinNic :=
  let b := base_nic (adapter_of a) in
  let '(address, netmask) := reported (fst p) (snd p) in
  mkWinNic (win_index b) (guid b) (friendly_name b) (up b) address netmask.

(** The address can be read. *)
Definition readable (a : sys_address) : bool :=
  match a with Sys4 _ port => negb (overflow_checks && port_overflows port) | _ => true end.

Lemma port_sum {E} port :
  (0 <= port < 2 ^ 16)%Z ->
  (high ← arith_uint 16 (sign_extended (port mod 256) * 256);
   port ← arith_uint 16 (sign_extended (port / 256) + high);
   Ok port) = if overflow_checks && port_overflows port then Panic else Ok (E := E) (ipv4_port port).
Proof.
  intros Hp. pose proof (Z.mod_pos_bound port 256 ltac:(lia)) as Hlo.
  assert (Hhi : (0 <= port / 256 < 256)%Z)
    by (split; [apply Z.div_pos; lia|apply Z.div_lt_upper_bound; lia]).
  unfold ipv4_port, port_overflows, swapped, sign_extended.
  set (hi := (port / 256)%Z) in *. set (lo := (port mod 256)%Z) in *. clearbody hi lo. clear Hp port.
  assert (Hwide : arith_uint (E := E) 16 ((if lo <? 128 then lo else lo + 65280) * 256)%Z =
    if (128 <=? lo)%Z then if overflow_checks then Panic else Ok (256 * lo)%Z else Ok (256 * lo)%Z).
  { destruct (Z.ltb_spec lo 128), (Z.leb_spec 128 lo); try lia.
    - rewrite arith_uint_small by lia. f_equal. lia.
    - unfold arith_uint, wrap. rewrite decide_False by lia. destruct overflow_checks; [done|]. f_equal.
      change (2 ^ 16)%Z with 65536%Z. rewrite <- (Z.mod_small (256 * lo) 65536) by lia.
      replace ((lo + 65280) * 256)%Z with (256 * lo + 255 * 65536)%Z by lia. by rewrite Z_mod_plus_full. }
  rewrite Hwide. clear Hwide. destruct (Z.leb_spec 128 lo) as [Hl|Hl]; cbn [orb].
  - destruct overflow_checks eqn:Hc; cbn [andb mbind res_bind]; [done|].
    unfold arith_uint, wrap. rewrite Hc. change (2 ^ 16)%Z with 65536%Z.
    destruct (Z.ltb_spec hi 128).
    + rewrite decide_True by lia. cbn [mbind res_bind]. f_equal. lia.
    + rewrite decide_False by lia. cbn [mbind res_bind]. do 2 f_equal. lia.
  - cbn [mbind res_bind]. destruct (Z.ltb_spec hi 128), (Z.leb_spec 128 hi); try lia; cbn [andb].
    + rewrite andb_false_r. rewrite arith_uint_small by lia. cbn. f_equal. lia.
    + destruct (Z.ltb_spec 0 lo).
      * unfold arith_uint, wrap. rewrite decide_False by lia. change (2 ^ 16)%Z with 65536%Z.
        destruct overflow_checks; cbn; [done|]. do 2 f_equal. lia.
      * rewrite andb_false_r. rewrite arith_uint_small by lia. cbn. f_equal. rewrite Z.mod_small; lia.
Qed.

Lemma nic_of_unicast {E} a p :
  sys_address_ok (fst p) ->
  nic_of_address (E := E) (base_nic (adapter_of a)) (unicast p) = if readable (fst p) then Ok (reported_nic a p) else Panic.
Proof.
  destruct p as [addr prefix]. cbn [fst]. intros Hok. unfold nic_of_address, reported_nic.
  set (b := base_nic (adapter_of a)). destruct addr as [ip port|ip port flow scope|family].
  - destruct Hok as (Hip & Hp). destruct (list_4 ip Hip) as (i0 & i1 & i2 & i3 & ->).
    cbn [unicast fst snd ua_Address OnLinkPrefixLength lpSockaddr expect mbind res_bind reported].
    change (number_at (sockaddr_of (Sys4 [i0; i1; i2; i3] port)) 0 2) with 2%Z. cbn [Z.eqb Pos.eqb].
    unfold sockaddr_to_ipv4. cbn [iSockaddrLength lpSockaddr]. change (_ <? size_of_SOCKADDR_IN)%Z with false.
    cbv iota. cbn [sockaddr_of le_bytes be_bytes app byte_at nth Nat.add].
    assert (Hd : (port / 256 mod 256 = port / 256)%Z)
      by (apply Z.mod_small; split; [apply Z.div_pos; lia|apply Z.div_lt_upper_bound; lia]). rewrite Hd.
    pose proof (port_sum (E := E) port Hp) as Hsum. cbn [readable].
    destruct (arith_uint 16 (sign_extended (port mod 256) * 256)) as [high|e|]; cbn [mbind res_bind] in *;
      [destruct (arith_uint 16 (sign_extended (port / 256) + high)) as [sum|e|]; cbn [mbind res_bind] in *|..];
      destruct (overflow_checks && port_overflows port); cbn; by simplify_eq.
  - destruct Hok as (Hip & Hp & Hf & Hs).
    do 16 (destruct ip as [|? ip]; [done|]). destruct ip; [|done].
    cbn [unicast fst snd ua_Address OnLinkPrefixLength lpSockaddr expect mbind res_bind reported].
    match goal with |- context [number_at ?s 0 2] => change (number_at s 0 2) with 23%Z end.
    cbn [Z.eqb Pos.eqb]. unfold sockaddr_to_ipv6. cbn [iSockaddrLength lpSockaddr].
    match goal with |- context [(?x <? size_of_SOCKADDR_IN6)%Z] => change (x <? size_of_SOCKADDR_IN6)%Z with false end.
    cbv iota. cbn [mbind res_bind]. do 4 f_equal.
    + unfold number_at. cbn [sockaddr_of le_bytes be_bytes app take drop of_le_bytes].
      assert (Hd : (port / 256 mod 256 = port / 256)%Z)
        by (apply Z.mod_small; split; [apply Z.div_pos; lia|apply Z.div_lt_upper_bound; lia]).
      rewrite Hd. unfold swapped. lia.
    + change (number_at _ 4 4) with (of_le_bytes (le_bytes 4 flow)). by apply le_bytes_of_le.
    + change (number_at _ 24 4) with (of_le_bytes (le_bytes 4 scope)). by apply le_bytes_of_le.
  - destruct Hok as (Hf & H2 & H23).
    cbn [unicast fst snd ua_Address OnLinkPrefixLength lpSockaddr expect mbind res_bind reported].
    change (number_at (sockaddr_of (SysOther family)) 0 2) with (of_le_bytes (le_bytes 2 family)).
    rewrite le_bytes_of_le by done. by rewrite !(proj2 (Z.eqb_neq _ _)).
Qed.

Lemma nics_of_unicasts {E} a ps :
  Forall (fun p => sys_address_ok (fst p)) ps ->
  nics_of_addresses (E := E) (base_nic (adapter_of a)) (map unicast ps) =
  if forallb (fun p => readable (fst p)) ps then Ok (map (reported_nic a) ps) else Panic.
Proof.
  induction 1 as [|p ps Hp Hps IH]; [done|]. cbn [map nics_of_addresses forallb].
  rewrite nic_of_unicast by done. destruct (readable (fst p)); cbn [mbind res_bind andb]; [|done].
  rewrite IH. by destruct (forallb _ ps).
Qed.

(** An adapter with an address, all of whose addresses can be read. *)
Definition listed (a : sys_adapter) : bool :=
  bool_decide (sa_addresses a <> []) && forallb (fun p => readable (fst p)) (sa_addresses a).
Lemma nics_of_adapters_ok {E} adapters :
  Forall (fun a => Forall (fun p => sys_address_ok (fst p)) (sa_addresses a)) adapters ->
  nics_of_adapters (E := E) (map adapter_of adapters) =
  if forallb listed adapters
  then Ok (concat (map (fun a => map (reported_nic a) (sa_addresses a)) adapters)) else Panic.
Proof.
  induction 1 as [|a adapters Ha Has IH]; [done|]. cbn [map nics_of_adapters forallb concat]. unfold listed at 1.
  cbn [adapter_of FirstUnicastAddress]. case_bool_decide as Hne.
  - destruct (sa_addresses a) as [|p ps] eqn:Hps; [done|]. rewrite <- Hps in *. cbn [andb].
    assert (Hm : map unicast (sa_addresses a) = unicast p :: map unicast ps) by by rewrite Hps.
    rewrite Hm, <- Hm. change (mkAdapter _ _ _ _ _) with (adapter_of a).
    rewrite nics_of_unicasts by done. destruct (forallb _ (sa_addresses a)); cbn [mbind res_bind andb]; [|done].
    rewrite IH. by destruct (forallb _ adapters).
  - by rewrite Hne.
Qed.

(** C30: [nic] reports one interface per unicast address of every adapter,
    in the order of the system's lists, with the index, the name, the state
    and the octets of the address as they are, the mask of its prefix length,
    and the two bytes of the port swapped.  The bytes of an IPv4 port are taken
    for signed ones: a first byte of 128 or more gives another port, and where
    overflow is checked the sum panics when the second byte is 128 or more, or
    the first is and the second is not 0.  Otherwise it panics exactly for an
    adapter that has no unicast address, as a disconnected one, whatever the
    others are, because the first address is read through a null pointer. *)
Theorem win_nic_spec {W} (h : handler W) w adapters size n :
  steady h w -> adapters <> [] ->
  fst (h _ (Win (GetAdaptersAddresses 0 GAA_FLAG_INCLUDE_PREFIX 0)) w) =
    (winerror.ERROR_BUFFER_OVERFLOW, ([], size)) ->
  fst (h _ (Win (GetAdaptersAddresses 0 GAA_FLAG_INCLUDE_PREFIX size)) w) =
    (winerror.NO_ERROR, (map adapter_of adapters, n)) ->
  Forall (fun a => Forall (fun p => sys_address_ok (fst p)) (sa_addresses a)) adapters ->
  result_of h win_nic w =
    if forallb listed adapters
    then Ok (map Ok (concat (map (fun a => map (reported_nic a) (sa_addresses a)) adapters)))
    else Panic.
Proof.
  intros Hs Hne H1 H2 Hok. unfold win_nic. run. rewrite H1. cbn [Z.eqb Pos.eqb negb winerror.ERROR_BUFFER_OVERFLOW].
  run. rewrite H2. cbn [Z.eqb Pos.eqb negb winerror.NO_ERROR].
  assert (Hm : match map adapter_of adapters with [] => Panic | _ => nics_of_adapters (map adapter_of adapters) end
               = nics_of_adapters (E := Error) (map adapter_of adapters)) by by destruct adapters.
  rewrite Hm, nics_of_adapters_ok by done. run. by destruct (forallb _ adapters).
Qed.
End walk.

Definition plain_wide : Widestring := {|
  u16cstring_from_os_str w := if bool_decide (0%Z ∈ w) then None else Some w;
  ucstr_to_string_lossy w := from_utf16_lossy w;
|}.
Definition ethernet : sys_adapter :=
  mkSysAdapter 7 (lit "{guid}") (wide_lit "Ethernet") 1
    [(Sys4 [192; 168; 1; 5] 32768, 24); (Sys6 (254 :: 128 :: replicate 14 1) 0 0 7, 64)]%Z.
Definition unplugged : sys_adapter := mkSysAdapter 9 (lit "{other}") (wide_lit "Wi-Fi") 2 [].
Definition adapters_system (adapters : list sys_adapter) : handler unit := windows (fun R c =>
  match c in win_call R return R with
  | GetAdaptersAddresses _ _ size =>
      if (size =? 0)%Z then (winerror.ERROR_BUFFER_OVERFLOW, ([], 4096%Z))
      else (winerror.NO_ERROR, (map adapter_of adapters, 4096%Z))
  | c => win_refused c
  end).
Lemma win_nic_spec_witness :
  result_of (adapters_system [ethernet; unplugged]) (@win_nic true plain_wide) tt = Panic /\
  (exists nics, result_of (adapters_system [ethernet]) (@win_nic true plain_wide) tt = Ok nics /\ length nics = 2).
Proof.
  split; [|eexists; split].
  - eapply eq_trans.
    + apply (@win_nic_spec true plain_wide unit (adapters_system [ethernet; unplugged]) tt [ethernet; unplugged] 4096 4096);
        [apply windows_steady|done|done|done|].
      repeat constructor; done.
    + reflexivity.
  - apply (@win_nic_spec true plain_wide unit (adapters_system [ethernet]) tt [ethernet] 4096 4096);
      [apply windows_steady|done|done|done|].
    repeat constructor; done.
  - reflexivity.
Defined.
