(* ===== verification/WinProcess.v ===== *)
(** * heim-process on Windows

    heim-process/src/sys/windows: the bindings (process handles by the rights
    they were opened with, the list of pids, the snapshot of toolhelp, the
    processes of the NT kernel) and the operations of [Process].

    Loops that the system can keep going for ever take fuel; the outer [None]
    is the fuel running out.  What lies in foreign memory is read by the
    layouts of ntapi ([NtLayout]); the pointers have 64 bits. *)

From S2P Require Import Prelude RustStr Layout RustFloat Units Errors WinCalls Sys Streams ProcFs Cpu Host.
From S2P Require Import Signal Process WinCommon WinHost.

(** ** The numbers of winnt, winbase, minwinbase, ntkeapi, ntexapi *)

Definition PROCESS_TERMINATE : DWORD := 1.
Definition PROCESS_VM_READ : DWORD := 16.
Definition PROCESS_SET_INFORMATION : DWORD := 512.
Definition PROCESS_SUSPEND_RESUME : DWORD := 2048.
Definition PROCESS_QUERY_LIMITED_INFORMATION : DWORD := 4096.
Definition NORMAL_PRIORITY_CLASS : DWORD := 32.
Definition IDLE_PRIORITY_CLASS : DWORD := 64.
Definition HIGH_PRIORITY_CLASS : DWORD := 128.
Definition REALTIME_PRIORITY_CLASS : DWORD := 256.
Definition BELOW_NORMAL_PRIORITY_CLASS : DWORD := 16384.
Definition ABOVE_NORMAL_PRIORITY_CLASS : DWORD := 32768.
Definition STILL_ACTIVE : DWORD := 259.
Definition MAX_PATH : Z := 260.
Definition Waiting : Z := 5.
Definition Suspended : Z := 5.
Definition SystemProcessInformation : Z := 5.
(** [libc::SIGTERM], [EPERM] and [EACCES] of the C library of Windows. *)
Definition SIGTERM_code : DWORD := 15.

(** ** os/windows/priority.rs, process/priority.rs *)

Inductive Priority := PIdle | PBelowNormal | PNormal | PAboveNormal | PHigh | PRealTime.
Definition priority_default : Priority := PNormal.

(** [{:x}]. *)
Fixpoint show_hex_go (fuel : nat) (z : Z) (acc : str) : str :=
  match fuel with
  | O => acc
  | S k => let acc := hex_digit (z mod 16) :: acc in
           if (z <? 16)%Z then acc else show_hex_go k (z / 16) acc
  end.
Definition show_hex (z : Z) : str := show_hex_go (S (Z.to_nat (Z.log2 z))) z [].

Definition priority_try_from (value : DWORD) : io_result Priority :=
  if (value =? ABOVE_NORMAL_PRIORITY_CLASS)%Z then Ok PAboveNormal
  else if (value =? BELOW_NORMAL_PRIORITY_CLASS)%Z then Ok PBelowNormal
  else if (value =? HIGH_PRIORITY_CLASS)%Z then Ok PHigh
  else if (value =? IDLE_PRIORITY_CLASS)%Z then Ok PIdle
  else if (value =? NORMAL_PRIORITY_CLASS)%Z then Ok PNormal
  else if (value =? REALTIME_PRIORITY_CLASS)%Z then Ok PRealTime
  else Err (Custom InvalidInput (PText (lit "Unknown priority value " ++ show_hex value))).

Definition priority_into (value : Priority) : DWORD :=
  match value with
  | PAboveNormal => ABOVE_NORMAL_PRIORITY_CLASS
  | PBelowNormal => BELOW_NORMAL_PRIORITY_CLASS
  | PHigh => HIGH_PRIORITY_CLASS
  | PIdle => IDLE_PRIORITY_CLASS
  | PNormal => NORMAL_PRIORITY_CLASS
  | PRealTime => REALTIME_PRIORITY_CLASS
  end.

(** ** bindings/handle/mod.rs

    The type parameter of [ProcessHandle] is the permission: a method takes
    the handle that was opened with the rights it needs. *)

Inductive permission := QueryLimitedInformation | SetInformation | SuspendResume | Termination.
Definition ACCESS (T : permission) : DWORD :=
  match T with
  | QueryLimitedInformation => Z.lor PROCESS_QUERY_LIMITED_INFORMATION PROCESS_VM_READ
  | SetInformation => PROCESS_SET_INFORMATION
  | SuspendResume => PROCESS_SUSPEND_RESUME
  | Termination => PROCESS_TERMINATE
  end.

Record ProcessHandle (T : permission) := mkProcessHandle { handle : HANDLE; handle_pid : Z }.
Arguments mkProcessHandle {_} _ _.
Arguments handle {_} _.
Arguments handle_pid {_} _.

Definition open_error (pid code : Z) : ProcessError :=
  let e := with_ffi (last_os_error code) (lit "OpenProcess") in
  if decide (win_kind e = PermissionDenied) then AccessDenied pid
  else if decide (pid = 0%Z /\ raw_os_error e = Some winerror.ERROR_INVALID_PARAMETER) then AccessDenied pid
  else if decide (raw_os_error e = Some winerror.ERROR_INVALID_PARAMETER) then NoSuchProcess pid
  else LoadError e.

Definition open (T : permission) (pid : Z) : io ProcessError HANDLE :=
  h ← ask (Win (OpenProcess (ACCESS T) pid));
  if (h =? 0)%Z then code ← ask GetErrno; fails (open_error pid code)
  else lift (handle_new h).

Definition query_limited_info (pid : Z) : io ProcessError (ProcessHandle QueryLimitedInformation) :=
  handle ← open QueryLimitedInformation pid; mret (mkProcessHandle handle pid).

(** [for_set_information], [for_suspend_resume], [for_termination]. *)
Definition for_rights (T : permission) (pid : Z) : io ProcessError (ProcessHandle T) :=
  if (pid =? 0)%Z then fails (AccessDenied pid)
  else handle ← open T pid; mret (mkProcessHandle handle pid).
Definition for_set_information (pid : Z) : io ProcessError (ProcessHandle SetInformation) :=
  for_rights SetInformation pid.
Definition for_suspend_resume (pid : Z) : io ProcessError (ProcessHandle SuspendResume) :=
  for_rights SuspendResume pid.
Definition for_termination (pid : Z) : io ProcessError (ProcessHandle Termination) :=
  for_rights Termination pid.

(** The scope that owns a process handle. *)
Definition owning {T E A} (self : ProcessHandle T) (body : io E A) : io E A :=
  with_handle (handle self) body.

(** ** bindings/handle/limited_info.rs *)

(** Where the fields lie that are read from another process, and the sizes. *)
Class NtLayout := {
  size_of_PEB32 : Z;
  peb32_ProcessParameters : str -> Z;
  size_of_RTL_USER_PROCESS_PARAMETERS32 : Z;
  params32_DosPath : str -> Z * Z;
  size_of_PEB : Z;
  peb_ProcessParameters : str -> Z;
  size_of_RTL_USER_PROCESS_PARAMETERS : Z;
  params_DosPath : str -> Z * Z;
  NextEntryOffset : str -> Z;
  NumberOfThreads : str -> Z;
  UniqueProcessId : str -> Z;
  CreateTime : str -> LARGE_INTEGER;
  Threads : str -> nat -> list (Z * Z);
}.

Record WinCpuTime := mkWinCpuTime { win_user : Time; win_kernel : Time }.
Definition win_cpu_user (t : WinCpuTime) : Time := win_user t.
Definition win_cpu_system (t : WinCpuTime) : Time := win_kernel t.

(** [FILETIME]s: creation, exit, kernel, user. *)
Definition process_times (self : ProcessHandle QueryLimitedInformation)
    : io ProcessError (FILETIME * FILETIME * FILETIME * FILETIME) :=
  '(result, times) ← ask (Win (GetProcessTimes (handle self)));
  if (result =? 0)%Z then last_ffi_error LoadError "GetProcessTimes" else mret times.

Section limited_info.
Context `{Profile, Units, NtLayout}.
Implicit Types self : ProcessHandle QueryLimitedInformation.

Definition exit_code self : io ProcessError DWORD :=
  '(result, code) ← ask (Win (GetExitCodeProcess (handle self)));
  if (result =? 0)%Z then
    e ← ask GetErrno;
    let e := with_ffi (last_os_error e) (lit "GetExitCodeProcess") in
    if decide (win_kind e = PermissionDenied) then fails (AccessDenied (handle_pid self))
    else fails (LoadError e)
  else mret code.

Definition handle_exe self : io ProcessError wide :=
  '(result, (buffer, size)) ← ask (Win (QueryFullProcessImageNameW (handle self) MAX_PATH));
  if (result =? 0)%Z then last_ffi_error LoadError "QueryFullProcessImageNameW"
  else if (MAX_PATH <? size)%Z then lift Panic else mret (take (Z.to_nat size) buffer).

Definition handle_memory self : io ProcessError PROCESS_MEMORY_COUNTERS_EX :=
  '(result, counters) ← ask (Win (GetProcessMemoryInfo (handle self)));
  if (result =? 0)%Z then last_ffi_error LoadError "GetProcessMemoryInfo" else mret counters.

Definition handle_io_counters self : io ProcessError IO_COUNTERS :=
  '(result, counters) ← ask (Win (GetProcessIoCounters (handle self)));
  if (result =? 0)%Z then last_ffi_error LoadError "GetProcessIoCounters" else mret counters.

Definition handle_cpu_time self : io ProcessError WinCpuTime :=
  '(_, _, kernel, user) ← process_times self;
  mret (mkWinCpuTime (filetime_into_time user) (filetime_into_time kernel)).

Definition handle_create_time self : io ProcessError Time :=
  '(creation, _, _, _) ← process_times self;
  mret (f64_sub (filetime_into_time creation) unix_epoch_delta).

Definition handle_priority self : io ProcessError Priority :=
  result ← ask (Win (GetPriorityClass (handle self)));
  if (result =? 0)%Z then last_ffi_error LoadError "GetPriorityClass"
  else lift (map_err process_from_io (priority_try_from result)).

Definition is_wow64 self : io ProcessError bool :=
  '(result, ret) ← ask (Win (IsWow64Process (handle self)));
  if (result =? 0)%Z then last_ffi_error LoadError "IsWow64Process" else mret (negb (ret =? 0)%Z).

(** [for _i in 0..5]: [err] is the error of the last attempt. *)
Fixpoint read_memory_loop (attempts : nat) (err : Error) self (src len : Z) : io ProcessError str :=
  match attempts with
  | O => fails (LoadError (with_ffi err (lit "ReadProcessMemory")))
  | S k =>
      '(ret, data) ← ask (Win (ReadProcessMemory (handle self) src len));
      if (ret =? 0)%Z then
        e ← ask GetErrno;
        let err := last_os_error e in
        if decide (raw_os_error err <> Some winerror.ERROR_PARTIAL_COPY)
        then fails (LoadError (with_ffi err (lit "ReadProcessMemory")))
        else read_memory_loop k err self src len
      else mret data
  end.
Definition read_memory self (src len : Z) : io ProcessError str :=
  e ← ask GetErrno;
  read_memory_loop 5 (last_os_error e) self src len.

Definition nt_error (status : Z) (name : string) : ProcessError :=
  LoadError (with_ffi (from_raw_os_error (Z.lor status ntstatus.FACILITY_NT_BIT)) (lit name)).

(** The address of the process environment block. *)
Definition get_process_basic_information self : io ProcessError Z :=
  '(status, peb_base_address) ← ask (Win (NtQueryBasicInformation (handle self)));
  if (status =? ntstatus.STATUS_SUCCESS)%Z then mret peb_base_address
  else fails (nt_error status "NtQueryInformationProcessBasicInfo").

Definition get_peb32 self : io ProcessError (option str) :=
  '(ret, peb32_remote_addr) ← ask (Win (NtQueryWow64Information (handle self)));
  if negb (ret =? ntstatus.STATUS_SUCCESS)%Z then fails (nt_error ret "NtQueryInformationProcessPeb32")
  else if (peb32_remote_addr =? 0)%Z then mret None
  else peb32 ← read_memory self peb32_remote_addr size_of_PEB32; mret (Some peb32).

Definition get_process_parameters32 self : io ProcessError (option str) :=
  peb32 ← get_peb32 self;
  match peb32 with
  | Some peb32 =>
      params ← read_memory self (peb32_ProcessParameters peb32) size_of_RTL_USER_PROCESS_PARAMETERS32;
      mret (Some params)
  | None => mret None
  end.

Definition get_peb self : io ProcessError (option str) :=
  wow64 ← is_wow64 self;
  if wow64 : bool then mret None
  else
    pbi ← get_process_basic_information self;
    peb64 ← read_memory self pbi size_of_PEB;
    mret (Some peb64).

Definition get_process_parameters self : io ProcessError (option str) :=
  peb ← get_peb self;
  match peb with
  | Some peb =>
      params ← read_memory self (peb_ProcessParameters peb) size_of_RTL_USER_PROCESS_PARAMETERS;
      mret (Some params)
  | None => mret None
  end.

Definition handle_cwd self : io ProcessError wide :=
  params32 ← get_process_parameters32 self;
  '(src, len) ←
    match params32 with
    | Some params => mret (params32_DosPath params)
    | None =>
        params ← get_process_parameters self;
        match params with
        | Some params => mret (params_DosPath params)
        | None => fails (UnreadablePeb (handle_pid self))
        end
    end;
  buf ← read_memory self src len;
  mret (units_of buf).
End limited_info.

(** ** bindings/handle/set_information.rs, suspend.rs, termination.rs *)

Definition handle_set_priority (self : ProcessHandle SetInformation) (value : Priority) : io Error () :=
  result ← ask (Win (SetPriorityClass (handle self) (priority_into value)));
  if (result =? 0)%Z then last_error id else mret ().

Definition handle_suspend (self : ProcessHandle SuspendResume) : io Error () :=
  result ← ask (Win (NtSuspendProcess (handle self)));
  if negb (result =? ntstatus.STATUS_SUCCESS)%Z then last_ffi_error id "NtSuspendProcess" else mret ().
Definition handle_resume (self : ProcessHandle SuspendResume) : io Error () :=
  result ← ask (Win (NtResumeProcess (handle self)));
  if negb (result =? ntstatus.STATUS_SUCCESS)%Z then last_ffi_error id "NtResumeProcess" else mret ().

Definition handle_terminate (self : ProcessHandle Termination) : io ProcessError () :=
  result ← ask (Win (TerminateProcess (handle self) SIGTERM_code));
  if (result =? 0)%Z then
    e ← ask GetErrno;
    let e := with_ffi (last_os_error e) (lit "TerminateProcess") in
    if decide (raw_os_error e = Some winerror.ERROR_ACCESS_DENIED) then mret () else fails (LoadError e)
  else mret ().

(** ** bindings/mod.rs *)

Definition size_of_DWORD : Z := 4.

(** The vector stays empty until the loop ends. *)
Fixpoint pids_loop (fuel : nat) (capacity : Z) : io Error (option (list Z)) :=
  match fuel with
  | O => mret None
  | S k =>
      let cb := wrap 32 (capacity * size_of_DWORD) in
      '(result, (processes, bytes_returned)) ← ask (Win (EnumProcesses cb));
      if (result =? 0)%Z then last_ffi_error id "EnumProcesses"
      else if (cb =? bytes_returned)%Z then pids_loop k (vec_reserve size_of_DWORD 0 capacity 1024)
      else mret (Some (take (Z.to_nat (bytes_returned / size_of_DWORD)) processes))
  end.
Definition bindings_pids (fuel : nat) : io Error (option (list Z)) := pids_loop fuel 1024.

(** ** bindings/processes.rs *)

Section nt_processes.
Context `{Profile, NtLayout}.

Fixpoint load_loop (fuel : nat) (capacity : Z) : io Error (option str) :=
  match fuel with
  | O => mret None
  | S k =>
      '(result, (data, needed_size)) ←
        ask (Win (NtQuerySystemInformation SystemProcessInformation (wrap 32 capacity)));
      if (result =? ntstatus.STATUS_SUCCESS)%Z then
        if overflow_checks && (capacity <? needed_size)%Z then lift Panic
        else mret (Some (take (Z.to_nat needed_size) data))
      else if ((result =? ntstatus.STATUS_BUFFER_TOO_SMALL)
               || (result =? ntstatus.STATUS_INFO_LENGTH_MISMATCH))%Z
      then load_loop k (vec_reserve 1 0 capacity needed_size)
      else last_ffi_error id "NtQuerySystemInformation"
  end.
Definition nt_load (fuel : nat) : io Error (option str) := load_loop fuel 16384.

Record NtProcess := mkNtProcess { nt_pid : Z; nt_create_time : LARGE_INTEGER; nt_threads : list (Z * Z) }.

(** [next] always gives an item.  Going past the end of the data is undefined
    where the assertion is not compiled in: [Panic]. *)
Definition nt_next {E} (data : str) : res E (NtProcess * str) :=
  let offset := NextEntryOffset data in
  if (Z.of_nat (length data) <? offset)%Z then Panic
  else if overflow_checks && negb ((offset =? 0) || (256 <=? offset))%Z then Panic
  else Ok (mkNtProcess (UniqueProcessId data) (CreateTime data)
             (Threads data (Z.to_nat (NumberOfThreads data))),
           drop (Z.to_nat offset) data).

(** [iter().find(|process| process.UniqueProcessId == pid)]. *)
Fixpoint nt_find {E} (fuel : nat) (pid : Z) (data : str) : res E (option NtProcess) :=
  match fuel with
  | O => Ok None
  | S k =>
      '(process, rest) ← nt_next data;
      if (nt_pid process =? pid)%Z then Ok (Some process) else nt_find k pid rest
  end.

(** [NtProcesses::load()?.iter().find(..)]: the [ok_or] is never reached. *)
Definition nt_process (fuel : nat) (pid : Z) : io ProcessError (option NtProcess) :=
  processes ← io_map_err LoadError (nt_load fuel);
  match processes with
  | Some data => lift (nt_find fuel pid data)
  | None => mret None
  end.

(** ** process/suspend.rs *)

Definition all_suspended (threads : list (Z * Z)) : bool :=
  negb (existsb (fun '(state, reason) => negb (state =? Waiting)%Z || negb (reason =? Suspended)%Z) threads).
Definition is_suspended (fuel : nat) (pid : Z) : io ProcessError (option bool) :=
  process ← nt_process fuel pid;
  mret ((fun p => all_suspended (nt_threads p)) <$> process).
End nt_processes.

(** ** bindings/snapshot.rs *)

Definition snapshot_new : io Error HANDLE :=
  handle ← ask (Win CreateToolhelp32Snapshot);
  if (handle =? INVALID_HANDLE_VALUE)%Z then last_ffi_error id "CreateToolhelp32Snapshot" else mret handle.

Definition with_snapshot `{Profile} {E A} (handle : HANDLE) (body : io E A) : io E A :=
  prog_bind body (fun r => prog_bind (os (Win (CloseHandle handle))) (fun result =>
    Ret (if overflow_checks && (result =? 0)%Z then Panic else r))).

(** An item of the iterator; [None] is its end. *)
Definition snapshot_next {E} (handle : HANDLE) (first : bool) : io E (option (io_result PROCESSENTRY32W)) :=
  '(result, entry) ← ask (Win (if first then Process32FirstW handle else Process32NextW handle));
  if (result =? 1)%Z then mret (Some (Ok entry))
  else
    e ← ask GetErrno;
    if (e =? winerror.ERROR_NO_MORE_FILES)%Z then mret None else mret (Some (Err (Os e))).

(** [snapshot.flatten().find(|entry| entry.th32ProcessID == pid)]: [flatten]
    leaves the errors out. *)
Fixpoint snapshot_find {E} (fuel : nat) (handle : HANDLE) (first : bool) (pid : Z)
    : io E (option (option PROCESSENTRY32W)) :=
  match fuel with
  | O => mret None
  | S k =>
      item ← snapshot_next handle first;
      match item with
      | None => mret (Some None)
      | Some (Ok entry) =>
          if (th32ProcessID entry =? pid)%Z then mret (Some (Some entry))
          else snapshot_find k handle false pid
      | Some _ => snapshot_find k handle false pid
      end
  end.
Definition snapshot_entry `{Profile} (fuel : nat) (pid : Z) : io ProcessError (option PROCESSENTRY32W) :=
  snapshot ← io_map_err LoadError snapshot_new;
  found ← with_snapshot snapshot (snapshot_find fuel snapshot true pid);
  match found with
  | None => mret None
  | Some (Some entry) => mret (Some entry)
  | Some None => fails (NoSuchProcess pid)
  end.

(** ** pids.rs *)

Definition win_pids (fuel : nat) : io Error (option (list (result Z))) :=
  pids ← bindings_pids fuel; mret (map Ok <$> pids).

Definition win_pid_exists (fuel : nat) (pid : Z) : io ProcessError (option bool) :=
  if (pid =? 0)%Z then mret (Some true)
  else
    r ← attempt (query_limited_info pid);
    match r with
    | inl (NoSuchProcess _) => mret (Some false)
    | inl (AccessDenied _) => mret (Some true)
    | inl e => fails e
    | inr process =>
        owning process (
          code ← exit_code process;
          if (code =? STILL_ACTIVE)%Z then mret (Some true)
          else
            pids ← io_map_err LoadError (bindings_pids fuel);
            mret ((fun pids => bool_decide (pid ∈ pids)) <$> pids))
    end.

(** ** process/create_time.rs *)

Section process.
Context `{Profile, Units, OrderedFloat, NtLayout}.

Definition traverse (fuel : nat) (pid : Z) : io ProcessError (option Time) :=
  process ← nt_process fuel pid;
  mret ((fun p => large_integer_into_time (nt_create_time p)) <$> process).

Definition denied_codes : list Z :=
  [errno.EPERM; errno.EACCES; winerror.ERROR_ACCESS_DENIED; winerror.ERROR_PRIVILEGE_NOT_HELD].
Definition create_time_get (fuel : nat) (pid : Z) : io ProcessError (option Time) :=
  if ((pid =? 0) || (pid =? 4))%Z then Some <$> io_map_err LoadError win_boot_time
  else
    handle ← query_limited_info pid;
    owning handle (
      r ← attempt (handle_create_time handle);
      match r with
      | inr time => mret (Some time)
      | inl (LoadError e) =>
          if bool_decide (raw_os_error e ∈ map Some denied_codes) then traverse fuel pid
          else fails (LoadError e)
      | inl e => fails e
      end).

(** ** process/mod.rs *)

Definition win_get_unchecked (fuel : nat) (pid : Z) : io ProcessError (option Process) :=
  create_time ← create_time_get fuel pid;
  match create_time with
  | Some create_time => u ← lift (unique_id_new pid create_time); mret (Some (mkProcess pid u))
  | None => mret None
  end.

Definition win_get (fuel : nat) (pid : Z) : io ProcessError (option Process) :=
  exists_ ← win_pid_exists fuel pid;
  match exists_ with
  | Some true => win_get_unchecked fuel pid
  | Some false => fails (NoSuchProcess pid)
  | None => mret None
  end.

Definition win_processes (fuel : nat) : io Error (option (list (process_result (option Process)))) :=
  pids ← win_pids fuel;
  match pids with
  | None => mret None
  | Some pids =>
      prog_bind (then_items (win_get_unchecked fuel) (map (map_err LoadError) pids))
        (fun l => Ret (Ok (Some l)))
  end.

Definition win_current (fuel : nat) : io ProcessError (option Process) :=
  pid ← ask (Win GetCurrentProcessId); win_get_unchecked fuel pid.

Implicit Types self : Process.

Definition win_parent_pid (fuel : nat) self : io ProcessError (option Z) :=
  entry ← snapshot_entry fuel (proc_pid self);
  mret (th32ParentProcessID <$> entry).

Definition name_of_entry (entry : PROCESSENTRY32W) : str :=
  from_utf16_lossy (up_to_null (szExeFile entry)).

Definition win_name (fuel : nat) self : io ProcessError (option str) :=
  if (proc_pid self =? 0)%Z then mret (Some (lit "System Idle Process"))
  else if (proc_pid self =? 4)%Z then mret (Some (lit "System"))
  else
    r ← attempt (E := ProcessError)
      (handle ← query_limited_info (proc_pid self); owning handle (handle_exe handle));
    match r with
    | inr path =>
        match win_file_name path with
        | Some name => mret (Some (from_utf16_lossy name))
        | None => entry ← snapshot_entry fuel (proc_pid self); mret (name_of_entry <$> entry)
        end
    | inl _ => entry ← snapshot_entry fuel (proc_pid self); mret (name_of_entry <$> entry)
    end.

Definition is_system (pid : Z) : bool := ((pid =? 0) || (pid =? 4))%Z.

Definition win_exe self : io ProcessError wide :=
  if is_system (proc_pid self) then fails (AccessDenied (proc_pid self))
  else handle ← query_limited_info (proc_pid self); owning handle (handle_exe handle).

Definition win_cwd self : io ProcessError wide :=
  handle ← query_limited_info (proc_pid self); owning handle (handle_cwd handle).

Definition win_status (fuel : nat) self : io ProcessError (option Status) :=
  suspended ← is_suspended fuel (proc_pid self);
  mret ((fun s : bool => if s then Stopped else Running) <$> suspended).

Definition win_create_time {E} self : io E Time := mret (unique_id_create_time (unique_id self)).

Definition win_cpu_time self : io ProcessError WinCpuTime :=
  if (proc_pid self =? 0)%Z then fails (AccessDenied (proc_pid self))
  else handle ← query_limited_info (proc_pid self); owning handle (handle_cpu_time handle).

Definition win_memory self : io ProcessError PROCESS_MEMORY_COUNTERS_EX :=
  if (proc_pid self =? 0)%Z then fails (AccessDenied (proc_pid self))
  else handle ← query_limited_info (proc_pid self); owning handle (handle_memory handle).

Definition win_priority self : io ProcessError Priority :=
  handle ← query_limited_info (proc_pid self); owning handle (handle_priority handle).

Definition win_set_priority self (value : Priority) : io ProcessError () :=
  handle ← for_set_information (proc_pid self);
  owning handle (io_map_err LoadError (handle_set_priority handle value)).

Definition win_is_running (fuel : nat) self : io ProcessError (option bool) :=
  other ← win_get fuel (proc_pid self);
  mret ((fun other => process_eq other self) <$> other).

Definition win_suspend self : io ProcessError () :=
  handle ← for_suspend_resume (proc_pid self);
  owning handle (io_map_err LoadError (handle_suspend handle)).
Definition win_resume self : io ProcessError () :=
  handle ← for_suspend_resume (proc_pid self);
  owning handle (io_map_err LoadError (handle_resume handle)).

Definition win_kill self : io ProcessError () :=
  handle ← for_termination (proc_pid self); owning handle (handle_terminate handle).
Definition win_terminate self : io ProcessError () := win_kill self.

Definition win_io_counters self : io ProcessError IO_COUNTERS :=
  if is_system (proc_pid self) then fails (AccessDenied (proc_pid self))
  else handle ← query_limited_info (proc_pid self); owning handle (handle_io_counters handle).

(** Not implemented: [environment] and [wait] panic. *)
Definition win_environment {A} self : io ProcessError A := lift Panic.
Definition win_wait self : io ProcessError () := lift Panic.

(** ** process/command.rs, process/env.rs: stubs

    [Command] has no text, and its iterator no items; what is asked of an
    [Environment] is [unimplemented!]. *)

Definition WinCommand : Type := unit.
Definition WinCommandIter : Type := unit.
Definition win_command (pid : Z) : process_result WinCommand := Ok tt.
Definition win_to_os_string {E} (c : WinCommand) : res E wide := Panic.
Definition win_into_os_string {E} (c : WinCommand) : res E wide := Panic.
Definition win_command_into_iter (c : WinCommand) : WinCommandIter := tt.
Definition win_command_next (it : WinCommandIter) : option wide * WinCommandIter := (None, it).
Definition win_process_command self : io ProcessError WinCommand := lift (win_command (proc_pid self)).

Definition WinEnvironment : Type := unit.
Definition win_env_iter {E} (e : WinEnvironment) : res E (list (wide * wide)) := Panic.
Definition win_env_into_iter {E} (e : WinEnvironment) : res E (list (wide * wide)) := Panic.
Definition win_env_ref_into_iter {E} (e : WinEnvironment) : res E (list (wide * wide)) := Panic.
(** Both iterators. *)
Definition WinEnvironmentIter : Type := unit.
Definition win_env_next {E} (it : WinEnvironmentIter) : res E (option (wide * wide)) := Panic.
Definition win_env_size_hint {E} (it : WinEnvironmentIter) : res E (nat * option nat) := Panic.

(** ** process/memory.rs, process/io_counters.rs *)

Definition win_rss (m : PROCESS_MEMORY_COUNTERS_EX) : Information := information_byte (WorkingSetSize m).
Definition win_vms (m : PROCESS_MEMORY_COUNTERS_EX) : Information := information_byte (PagefileUsage m).
Definition win_bytes_read (c : IO_COUNTERS) : Information := information_byte (ReadTransferCount c).
Definition win_bytes_written (c : IO_COUNTERS) : Information := information_byte (WriteTransferCount c).
Definition win_page_faults (m : PROCESS_MEMORY_COUNTERS_EX) : Z := PageFaultCount m.
Definition win_peak_working_set_size (m : PROCESS_MEMORY_COUNTERS_EX) : Z := PeakWorkingSetSize m.
Definition win_working_set_size (m : PROCESS_MEMORY_COUNTERS_EX) : Z := WorkingSetSize m.
Definition win_quota_peak_paged_pool_usage (m : PROCESS_MEMORY_COUNTERS_EX) : Z := QuotaPeakPagedPoolUsage m.
Definition win_quota_paged_pool_usage (m : PROCESS_MEMORY_COUNTERS_EX) : Z := QuotaPagedPoolUsage m.
Definition win_quota_peak_non_paged_pool_usage (m : PROCESS_MEMORY_COUNTERS_EX) : Z := QuotaPeakNonPagedPoolUsage m.
Definition win_quota_non_paged_pool_usage (m : PROCESS_MEMORY_COUNTERS_EX) : Z := QuotaNonPagedPoolUsage m.
Definition win_pagefile_usage (m : PROCESS_MEMORY_COUNTERS_EX) : Z := PagefileUsage m.
Definition win_peak_pagefile_usage (m : PROCESS_MEMORY_COUNTERS_EX) : Z := PeakPagefileUsage m.
Definition win_private_usage (m : PROCESS_MEMORY_COUNTERS_EX) : Z := PrivateUsage m.

Definition win_read_iops (c : IO_COUNTERS) : Z := ReadOperationCount c.
Definition win_write_iops (c : IO_COUNTERS) : Z := WriteOperationCount c.
Definition win_other_iops (c : IO_COUNTERS) : Z := OtherOperationCount c.
Definition win_bytes_other (c : IO_COUNTERS) : Information := information_byte (OtherTransferCount c).
End process.
