(* ===== verification/ProcessApi.v ===== *)
(** * The public API of heim-process

    heim-process/src/process/*.rs, pids.rs and os/.  The public [Process] and
    the types of its answers are those of the back end, [sys]; what the API asks
    of a back end is the class [Backend], and [linux_backend], [mac_backend] and
    [windows_backend] implement it.  A back end may look through lists of any
    length: such an operation gives [None] where its fuel runs out. *)

From S2P Require Import Prelude RustStr Layout RustFloat Units Errors WinCalls MacCalls Sys Streams ProcFs Cpu Net Host.
From S2P Require Import Signal MacSys Process MacProcess MacCpu WinCommon WinCpu CpuApi WinProcess.

(** A stream whose items need no fuel. *)
Definition always_items {E A} (l : list (res E A)) : list (res E (option A)) :=
  map (fun r => fmap (M := res E) Some r) l.

(** ** The interface *)

Class Backend `{OrderedFloat} := {
  PathBuf : Type;
  CommandData : Type;
  EnvironmentData : Type;
  CpuTimeData : Type;
  MemoryData : Type;
  IoCountersData : Type;
  ArgText : Type;
  CommandIterData : Type;
  sys_pids : io Error (option (list (result Z)));
  sys_pid_exists : Z -> io ProcessError (option bool);
  sys_processes : io Error (option (list (process_result (option Process))));
  sys_get : Z -> io ProcessError (option Process);
  sys_current : io ProcessError (option Process);
  sys_parent_pid : Process -> io ProcessError (option Z);
  sys_name : Process -> io ProcessError (option str);
  sys_exe : Process -> io ProcessError PathBuf;
  sys_command : Process -> io ProcessError CommandData;
  sys_cwd : Process -> io ProcessError PathBuf;
  sys_status : Process -> io ProcessError (option Status);
  sys_environment : Process -> io ProcessError EnvironmentData;
  sys_create_time : Process -> io ProcessError Time;
  sys_cpu_time : Process -> io ProcessError CpuTimeData;
  sys_memory : Process -> io ProcessError MemoryData;
  sys_is_running : Process -> io ProcessError (option bool);
  sys_suspend : Process -> io ProcessError ();
  sys_resume : Process -> io ProcessError ();
  sys_terminate : Process -> io ProcessError ();
  sys_kill : Process -> io ProcessError ();
  sys_wait : Process -> io ProcessError (option ());
  sys_io_counters : Process -> io ProcessError IoCountersData;
  sys_user : CpuTimeData -> Time;
  sys_system : CpuTimeData -> Time;
  sys_rss : MemoryData -> Information;
  sys_vms : MemoryData -> Information;
  sys_bytes_read : IoCountersData -> Information;
  sys_bytes_written : IoCountersData -> Information;
  sys_to_os_string : CommandData -> result ArgText;
  sys_into_os_string : CommandData -> result ArgText;
  sys_command_into_iter : CommandData -> result CommandIterData;
  sys_command_next : CommandIterData -> result (option ArgText * CommandIterData);
  sys_env_iter : EnvironmentData -> result (list (ArgText * ArgText));
  sys_env_into_iter : EnvironmentData -> result (list (ArgText * ArgText));
  sys_logical_count : io Error Z;
}.

(** ** process/mod.rs, pids.rs *)

Section api.
Context `{Backend, Units}.
Implicit Types self : Process.

Definition api_pids : io Error (option (list (result Z))) := sys_pids.
Definition api_pid_exists (pid : Z) : io ProcessError (option bool) := sys_pid_exists pid.
Definition api_processes : io Error (option (list (process_result (option Process)))) := sys_processes.
Definition api_get (pid : Z) : io ProcessError (option Process) := sys_get pid.
Definition api_current : io ProcessError (option Process) := sys_current.

Definition api_pid self : Z := proc_pid self.
Definition api_parent_pid self : io ProcessError (option Z) := sys_parent_pid self.
Definition api_parent self : io ProcessError (option Process) :=
  ppid ← api_parent_pid self;
  match ppid with Some ppid => api_get ppid | None => mret None end.
Definition api_name self : io ProcessError (option str) := sys_name self.
Definition api_exe self : io ProcessError PathBuf := sys_exe self.
Definition api_command self : io ProcessError CommandData := sys_command self.
Definition api_cwd self : io ProcessError PathBuf := sys_cwd self.
Definition api_status self : io ProcessError (option Status) := sys_status self.
Definition api_environment self : io ProcessError EnvironmentData := sys_environment self.
Definition api_create_time self : io ProcessError Time := sys_create_time self.
Definition api_cpu_time self : io ProcessError CpuTimeData := sys_cpu_time self.
Definition api_memory self : io ProcessError MemoryData := sys_memory self.
Definition api_is_running self : io ProcessError (option bool) := sys_is_running self.
Definition api_suspend self : io ProcessError () := sys_suspend self.
Definition api_resume self : io ProcessError () := sys_resume self.
Definition api_terminate self : io ProcessError () := sys_terminate self.
Definition api_kill self : io ProcessError () := sys_kill self.
Definition api_wait self : io ProcessError (option ()) := sys_wait self.
Definition api_io_counters self : io ProcessError IoCountersData := sys_io_counters self.

(** ** process/cpu_times.rs, memory.rs, io_counters.rs *)

Definition api_cpu_user (t : CpuTimeData) : Time := sys_user t.
Definition api_cpu_system (t : CpuTimeData) : Time := sys_system t.
Definition api_rss (m : MemoryData) : Information := sys_rss m.
Definition api_vms (m : MemoryData) : Information := sys_vms m.
Definition api_bytes_read (c : IoCountersData) : Information := sys_bytes_read c.
Definition api_bytes_written (c : IoCountersData) : Information := sys_bytes_written c.

(** ** process/command.rs, env.rs

    An iterator over the environment is the variables it still has. *)

Definition api_to_os_string (c : CommandData) : result ArgText := sys_to_os_string c.
Definition api_into_os_string (c : CommandData) : result ArgText := sys_into_os_string c.
Definition api_command_into_iter (c : CommandData) : result CommandIterData := sys_command_into_iter c.
Definition api_command_next (it : CommandIterData) : result (option ArgText * CommandIterData) := sys_command_next it.

Definition api_env_iter (e : EnvironmentData) : result (list (ArgText * ArgText)) := sys_env_iter e.
Definition api_env_into_iter (e : EnvironmentData) : result (list (ArgText * ArgText)) := sys_env_into_iter e.
Definition api_env_ref_into_iter (e : EnvironmentData) : result (list (ArgText * ArgText)) := api_env_iter e.
Definition api_env_next (it : list (ArgText * ArgText)) : option (ArgText * ArgText) * list (ArgText * ArgText) :=
  Iter.next it.

(** ** process/cpu_usage.rs *)

Record ProcessCpuUsage := mkProcessCpuUsage { pu_count : Z; pu_time : CpuTimeData; pu_at : Z }.

Definition api_cpu_usage (schedule : list bool) self : io ProcessError ProcessCpuUsage :=
  '(cpu_time, cpu_count) ← try_join (api_cpu_time self) (io_map_err LoadError sys_logical_count) schedule;
  now ← ask Now;
  mret (mkProcessCpuUsage cpu_count cpu_time now).

(** [Instant]s are nanoseconds; a later one minus an earlier one, or a panic. *)
Definition process_usage_sub {E} (u rhs : ProcessCpuUsage) : res E Ratio :=
  let delta_proc :=
    f64_add (f64_sub (api_cpu_user (pu_time u)) (api_cpu_user (pu_time rhs)))
            (f64_sub (api_cpu_system (pu_time u)) (api_cpu_system (pu_time rhs))) in
  delta_time ← (if (pu_at u <? pu_at rhs)%Z then Panic else Ok (pu_at u - pu_at rhs)%Z);
  let delta_time_secs := f64_mul (as_secs_f64 delta_time) (f64_of_int (pu_count u)) in
  if f64_nonzero delta_time_secs then
    let overall_cpus_ratio := f64_div (time_get_second delta_proc) delta_time_secs in
    let single_cpu_ratio := f64_mul overall_cpus_ratio (f64_of_int (pu_count u)) in
    Ok (ratio_ratio (f32_of_f64 single_cpu_ratio))
  else Ok (ratio_ratio f64_zero).
End api.

(** ** The back ends *)

Definition linux_backend `{Profile, Units, Statics, Roots, Fmt, Memchr, OrderedFloat, LibcSignals} (fuel : nat) : Backend := {|
  sys_pids := always pids;
  sys_pid_exists pid := always (pid_exists pid);
  sys_processes := (fun l => Some (always_items l)) <$> processes;
  sys_get pid := always (get pid);
  sys_current := always current_process;
  sys_parent_pid self := always (parent_pid self);
  sys_name self := always (process_name self);
  sys_exe := exe;
  sys_command := process_command;
  sys_cwd := cwd;
  sys_status self := always (status self);
  sys_environment := process_environment;
  sys_create_time := process_create_time;
  sys_cpu_time := process_cpu_time;
  sys_memory := process_memory;
  sys_is_running self := always (is_running self);
  sys_suspend := suspend;
  sys_resume := resume;
  sys_terminate := terminate;
  sys_kill := kill;
  sys_wait := wait fuel;
  sys_io_counters := process_io_counters;
  sys_user := cpu_user;
  sys_system := cpu_system;
  sys_rss := rss;
  sys_vms := vms;
  sys_bytes_read := bytes_read;
  sys_bytes_written := bytes_written;
  sys_to_os_string c := Ok (to_os_string c);
  sys_into_os_string c := Ok (into_os_string c);
  sys_command_into_iter c := Ok (into_iter c);
  sys_command_next it := Ok (command_next it);
  sys_env_iter e := Ok (env_iter e);
  sys_env_into_iter e := Ok (env_iter e);
  sys_logical_count := cpu_logical_count (B := linux_cpu);
|}.

Definition mac_backend `{Profile, Units, Statics, OrderedFloat, LibcSignals, Memchr, MemchrIter, Endian, Darwin}
    (fuel : nat) : Backend := {|
  sys_pids := mac_pids fuel;
  sys_pid_exists pid := always (unix_pid_exists pid);
  sys_processes := fmap (M := option) always_items <$> mac_processes fuel;
  sys_get pid := always (mac_get pid);
  sys_current := always MacProcess.mac_current;
  sys_parent_pid self := always (mac_parent_pid self);
  sys_name self := always (mac_name self);
  sys_exe := mac_exe;
  sys_command := mac_process_command;
  sys_cwd := mac_cwd;
  sys_status self := always (mac_process_status self);
  sys_environment := mac_process_environment;
  sys_create_time := mac_create_time;
  sys_cpu_time := mac_cpu_time;
  sys_memory := mac_memory;
  sys_is_running self := always (mac_is_running self);
  sys_suspend := mac_suspend;
  sys_resume := mac_resume;
  sys_terminate := mac_terminate;
  sys_kill := mac_kill;
  sys_wait := mac_wait fuel;
  sys_io_counters := mac_io_counters;
  sys_user := mac_cpu_user;
  sys_system := mac_cpu_system;
  sys_rss := mac_rss;
  sys_vms := mac_vms;
  sys_bytes_read := mac_bytes_read;
  sys_bytes_written := mac_bytes_written;
  sys_to_os_string := to_command;
  sys_into_os_string := to_command;
  sys_command_into_iter := procargs_arguments;
  sys_command_next := arguments_next;
  sys_env_iter e := Ok (env_iter e);
  sys_env_into_iter e := Ok (env_iter e);
  sys_logical_count := cpu_logical_count (B := mac_cpu);
|}.

Definition windows_backend `{Profile, Units, OrderedFloat, NtLayout} (fuel : nat) : Backend := {|
  sys_pids := win_pids fuel;
  sys_pid_exists := win_pid_exists fuel;
  sys_processes := win_processes fuel;
  sys_get := win_get fuel;
  sys_current := win_current fuel;
  sys_parent_pid := win_parent_pid fuel;
  sys_name := win_name fuel;
  sys_exe := win_exe;
  sys_command := win_process_command;
  sys_cwd := win_cwd;
  sys_status := win_status fuel;
  sys_environment self := win_environment (A := WinEnvironment) self;
  sys_create_time := win_create_time;
  sys_cpu_time := win_cpu_time;
  sys_memory := win_memory;
  sys_is_running := win_is_running fuel;
  sys_suspend := win_suspend;
  sys_resume := win_resume;
  sys_terminate := win_terminate;
  sys_kill := win_kill;
  sys_wait self := always (win_wait self);
  sys_io_counters := win_io_counters;
  sys_user := win_cpu_user;
  sys_system := win_cpu_system;
  sys_rss := win_rss;
  sys_vms := win_vms;
  sys_bytes_read := win_bytes_read;
  sys_bytes_written := win_bytes_written;
  sys_to_os_string := win_to_os_string;
  sys_into_os_string := win_into_os_string;
  sys_command_into_iter c := Ok (win_command_into_iter c);
  sys_command_next it := Ok (win_command_next it);
  sys_env_iter := win_env_iter;
  sys_env_into_iter := win_env_into_iter;
  sys_logical_count := cpu_logical_count (B := windows_cpu fuel);
|}.

(** ** os/ *)

Class LinuxProcessMemoryExt (M : Type) := {
  ext_proc_shared : M -> Information;
  ext_text : M -> Information;
  ext_data : M -> Information;
}.
#[export] Instance linux_process_memory_ext : LinuxProcessMemoryExt Memory :=
  {| ext_proc_shared := memory_shared; ext_text := memory_text; ext_data := memory_data |}.

Class LinuxIoCountersExt (C : Type) := {
  ext_chars_read : C -> Information;
  ext_chars_written : C -> Information;
  ext_read_syscalls : C -> Z;
  ext_write_syscalls : C -> Z;
  ext_bytes_read : C -> Information;
  ext_bytes_written : C -> Information;
  ext_cancelled_write_bytes : C -> Information;
}.
#[export] Instance linux_io_counters_ext `{Units} : LinuxIoCountersExt IoCounters := {|
  ext_chars_read := chars_read;
  ext_chars_written := chars_written;
  ext_read_syscalls := read_syscalls;
  ext_write_syscalls := write_syscalls;
  ext_bytes_read := bytes_read;
  ext_bytes_written := bytes_written;
  ext_cancelled_write_bytes := cancelled_bytes;
|}.

Class LinuxProcessExt `{OrderedFloat} := ext_net_io_counters : Process -> io ProcessError (list (process_result NetCounters)).
#[export] Instance linux_process_ext `{Profile, Units, Statics, Roots, OrderedFloat} : LinuxProcessExt := net_io_counters_of.

Class MacProcessMemoryExt (M : Type) := { ext_faults : M -> Z; ext_pageins : M -> Z }.
#[export] Instance mac_process_memory_ext : MacProcessMemoryExt MacMemory :=
  {| ext_faults := mac_faults; ext_pageins := mac_pageins |}.

Class UnixProcessExt `{OrderedFloat} := {
  ext_signal : Process -> Signal -> io ProcessError ();
  ext_niceness : Process -> io ProcessError Z;
  ext_set_niceness : Process -> Z -> io ProcessError ();
}.
Definition linux_unix_ext `{Profile, Units, Statics, Roots, OrderedFloat, LibcSignals} : UnixProcessExt :=
  {| ext_signal := signal; ext_niceness := niceness; ext_set_niceness := set_niceness |}.
Definition mac_unix_ext `{Profile, Units, OrderedFloat, LibcSignals, Darwin} : UnixProcessExt :=
  {| ext_signal := mac_signal; ext_niceness := mac_niceness; ext_set_niceness := mac_set_niceness |}.

Class WindowsProcessExt `{OrderedFloat} := {
  ext_priority : Process -> io ProcessError Priority;
  ext_set_priority : Process -> Priority -> io ProcessError ();
}.
#[export] Instance windows_process_ext `{OrderedFloat} : WindowsProcessExt :=
  {| ext_priority := win_priority; ext_set_priority := win_set_priority |}.

Class WindowsProcessMemoryExt (M : Type) := {
  ext_page_faults : M -> Z;
  ext_peak_working_set_size : M -> Z;
  ext_working_set_size : M -> Z;
  ext_quota_peak_paged_pool_usage : M -> Z;
  ext_quota_paged_pool_usage : M -> Z;
  ext_quota_peak_non_paged_pool_usage : M -> Z;
  ext_quota_non_paged_pool_usage : M -> Z;
  ext_pagefile_usage : M -> Z;
  ext_peak_pagefile_usage : M -> Z;
  ext_private_usage : M -> Z;
}.
#[export] Instance windows_process_memory_ext : WindowsProcessMemoryExt PROCESS_MEMORY_COUNTERS_EX := {|
  ext_page_faults := win_page_faults;
  ext_peak_working_set_size := win_peak_working_set_size;
  ext_working_set_size := win_working_set_size;
  ext_quota_peak_paged_pool_usage := win_quota_peak_paged_pool_usage;
  ext_quota_paged_pool_usage := win_quota_paged_pool_usage;
  ext_quota_peak_non_paged_pool_usage := win_quota_peak_non_paged_pool_usage;
  ext_quota_non_paged_pool_usage := win_quota_non_paged_pool_usage;
  ext_pagefile_usage := win_pagefile_usage;
  ext_peak_pagefile_usage := win_peak_pagefile_usage;
  ext_private_usage := win_private_usage;
|}.
