(* ===== verification/WinHandles.v ===== *)
(** * The handle table of Windows

    What the system documents of handles, as an abstract table from the open
    handles to what they stand for: an instance of the ledgers of Ownership.
    [Accounts] says that a handler keeps such a table, and [keeps P p] that
    [p] only uses handles that are open, with rights that allow the call, and
    leaves the table as it found it. *)

From S2P Require Import Prelude RustStr RustFloat Units Errors WinCalls Sys Ownership WinCommon WinProcess.
From stdpp Require Import gmap.

Inductive handle_kind :=
| ProcessAccess (access : DWORD)
| SnapshotHandle
| DeviceHandle
| SearchHandle.
Abbreviation table := (gmap Z handle_kind) (only parsing).

(** The handle that a call is made on. *)
Definition on_handle {R} (c : win_call R) : option HANDLE :=
  match c with
  | CloseHandle h | GetExitCodeProcess h | QueryFullProcessImageNameW h _ | GetProcessMemoryInfo h
  | GetProcessIoCounters h | GetProcessTimes h | GetPriorityClass h | SetPriorityClass h _
  | IsWow64Process h | ReadProcessMemory h _ _ | TerminateProcess h _ | NtQueryBasicInformation h
  | NtQueryWow64Information h | NtSuspendProcess h | NtResumeProcess h | Process32FirstW h
  | Process32NextW h | DeviceIoControl h | FindNextVolumeW h | FindVolumeClose h => Some h
  | _ => None
  end.

(** The documented access rights of a process handle. *)
Definition right (r : DWORD) (k : handle_kind) : Prop :=
  match k with ProcessAccess access => Z.land access r = r | _ => False end.

Definition permitted {R} (c : win_call R) (k : handle_kind) : Prop :=
  match c with
  | CloseHandle _ => k <> SearchHandle
  | GetExitCodeProcess _ | QueryFullProcessImageNameW _ _ | GetProcessIoCounters _
  | GetProcessTimes _ | GetPriorityClass _ | IsWow64Process _
  | NtQueryBasicInformation _ | NtQueryWow64Information _ => right PROCESS_QUERY_LIMITED_INFORMATION k
  | GetProcessMemoryInfo _ => right PROCESS_QUERY_LIMITED_INFORMATION k /\ right PROCESS_VM_READ k
  | ReadProcessMemory _ _ _ => right PROCESS_VM_READ k
  | SetPriorityClass _ _ => right PROCESS_SET_INFORMATION k
  | NtSuspendProcess _ | NtResumeProcess _ => right PROCESS_SUSPEND_RESUME k
  | TerminateProcess _ _ => right PROCESS_TERMINATE k
  | Process32FirstW _ | Process32NextW _ => k = SnapshotHandle
  | DeviceIoControl _ => k = DeviceHandle
  | FindNextVolumeW _ | FindVolumeClose _ => k = SearchHandle
  | _ => True
  end.

(** A new handle, or the table as it was. *)
Definition opening (refused : HANDLE) (k : handle_kind) (h : HANDLE) (t t' : table) : Prop :=
  if decide (h = refused) then t' = t else t !! h = None /\ t' = <[h := k]> t.
Lemma opening_refused h k t t' : opening h k h t t' -> t' = t.
Proof. unfold opening. by rewrite decide_True. Qed.
Lemma opening_new refused k h t t' :
  h <> refused -> opening refused k h t t' -> t !! h = None /\ t' = <[h := k]> t.
Proof. intros Hne. unfold opening. by rewrite decide_False. Qed.
Definition closed (h : HANDLE) (result : Z) (t t' : table) : Prop :=
  match t !! h with
  | Some _ => result <> 0%Z /\ t' = delete h t
  | None => result = 0%Z /\ t' = t
  end.

Definition win_step {R} (c : win_call R) : R -> table -> table -> Prop :=
  match c in win_call R return R -> table -> table -> Prop with
  | OpenProcess access _ => fun h t t' =>
      h <> INVALID_HANDLE_VALUE /\ opening 0 (ProcessAccess access) h t t'
  | CreateToolhelp32Snapshot => opening INVALID_HANDLE_VALUE SnapshotHandle
  | CreateFileW _ => opening INVALID_HANDLE_VALUE DeviceHandle
  | FindFirstVolumeW => fun r => opening INVALID_HANDLE_VALUE SearchHandle (fst r)
  | CloseHandle h => closed h
  | FindVolumeClose h => closed h
  | _ => fun _ t t' => t' = t
  end.
Definition table_step {R} (c : call R) : R -> table -> table -> Prop :=
  match c in call R return R -> table -> table -> Prop with
  | Win c => win_step c
  | _ => fun _ t t' => t' = t
  end.

Definition table_allowed {R} (c : call R) (t : table) : Prop :=
  match c with
  | Win c => match on_handle c with
             | Some h => exists k, t !! h = Some k /\ permitted c k
             | None => True
             end
  | _ => True
  end.

#[export] Instance handle_ledger : Ledger table HANDLE handle_kind := {|
  account_step := @table_step;
  allowed := @table_allowed;
  held h k t := t !! h = Some k;
  gains h k t t' := t !! h = None /\ t' = <[h := k]> t;
  loses h _ t t' := t' = delete h t;
|}.
#[export] Instance handle_laws : LedgerLaws table HANDLE handle_kind.
Proof.
  split; intros h k t.
  - intros t' [_ ->]. apply lookup_insert_eq.
  - intros t1 t2 [Hn ->] ->. by apply delete_insert_id.
Qed.

(** ** The rules *)

Abbreviation anything := (fun _ : table => True) (only parsing).
(** [p] closes [h], and does nothing else. *)
Abbreviation closes h k p := (gives_back (T := table) (fun t : table => t !! h = Some k) h k p).

Definition close_call (k : handle_kind) (hd : HANDLE) : win_call Z :=
  match k with SearchHandle => FindVolumeClose hd | _ => CloseHandle hd end.
Lemma releases_close k hd : releases (Win (close_call k hd)) hd k.
Proof.
  intros t Hk. change (t !! hd = Some k) in Hk.
  destruct k; cbn; (split; [eexists; split; [exact Hk|done]|]);
    unfold closed; rewrite Hk; by intros r t' [_ ->].
Qed.

(** Follows a program down to its calls; the handle that is open is in the
    precondition. *)
Ltac keeps_call ::=
  first [ intros ? ? ?; cbn; tauto
        | intros t Hin; cbn; first [exact I | eexists; split; [exact Hin|]; cbn; by repeat split] ].
Ltac keeps_helper ::=
  match goal with
  | |- keeps _ (last_ffi_error _ _) => unfold last_ffi_error
  | |- keeps _ (last_error _) => unfold last_error
  end.

Lemma closes_with_handle {E A} hd k (body : io E A) :
  k <> SearchHandle -> keeps (fun t : table => t !! hd = Some k) body -> closes hd k (with_handle hd body).
Proof.
  intros Hk Hb. apply (gives_back_drop _ (Win (CloseHandle hd))); [|done..|intros; apply keeps_ret].
  by destruct k; [apply releases_close..|].
Qed.
Lemma closes_with_snapshot `{Profile} {E A} hd k (body : io E A) :
  k <> SearchHandle -> keeps (fun t : table => t !! hd = Some k) body -> closes hd k (with_snapshot hd body).
Proof.
  intros Hk Hb. apply (gives_back_drop _ (Win (CloseHandle hd))); [|done..|intros; apply keeps_ret].
  by destruct k; [apply releases_close..|].
Qed.

Lemma closes_ask {E A} hd k (f : Z -> io E A) :
  (forall z, keeps anything (f z)) -> closes hd k (ask (Win (close_call k hd)) ≫= f).
Proof. intros Hf. apply gives_back_ask; [apply releases_close|done..]. Qed.

(** ** A system that keeps the table: for the witnesses *)

Definition next_handle (t : table) : HANDLE := fresh ({[0%Z; INVALID_HANDLE_VALUE]} ∪ dom t : gset Z).
Lemma next_handle_fresh t :
  t !! next_handle t = None /\ next_handle t <> 0%Z /\ next_handle t <> INVALID_HANDLE_VALUE.
Proof.
  pose proof (is_fresh ({[0%Z; INVALID_HANDLE_VALUE]} ∪ dom t : gset Z)) as Hf.
  fold (next_handle t) in Hf. rewrite <- not_elem_of_dom. set_solver.
Qed.

Definition close_in (t : table) (h : HANDLE) : Z * table :=
  match t !! h with Some _ => (1%Z, delete h t) | None => (0%Z, t) end.

Definition win_os_step {R} (c : win_call R) (t : table) : R * table :=
  match c in win_call R return R * table with
  | OpenProcess access _ => (next_handle t, <[next_handle t := ProcessAccess access]> t)
  | CreateToolhelp32Snapshot => (next_handle t, <[next_handle t := SnapshotHandle]> t)
  | CreateFileW _ => (next_handle t, <[next_handle t := DeviceHandle]> t)
  | FindFirstVolumeW => ((next_handle t, []), <[next_handle t := SearchHandle]> t)
  | CloseHandle h => close_in t h
  | FindVolumeClose h => close_in t h
  | c => (win_refused c, t)
  end.
Definition win_os : handler table := fun R c t =>
  match c in call R return R * table with
  | Win c => win_os_step c t
  | c => (fst (snapshot (fun _ => Err (Os errno.ENOENT)) (fun _ => []) _ c tt), t)
  end.

Lemma win_os_steps {R} (c : win_call R) t : win_step c (fst (win_os_step c t)) t (snd (win_os_step c t)).
Proof.
  destruct (next_handle_fresh t) as (Hn & H0 & H1).
  destruct c; try done; cbn; unfold opening, closed, close_in;
    first [by rewrite decide_False | by case_match].
Qed.
#[export] Instance win_os_table : Accounts win_os id.
Proof. intros R c t. destruct c; try done. apply win_os_steps. Qed.

(** ** [Handle::close] *)

(** Closing a handle by [Handle::close] always panics: the handle is
    closed by the body, and once more by the drop of [self], which the system
    refuses and the assertion turns into a panic; the error of the first call
    is never seen. *)
Theorem handle_close_panics {W} (h : handler W) (table_of : W -> table) `{!Accounts h table_of} hd w :
  is_Some (table_of w !! hd) ->
  fst (exec h (handle_close hd) w) = Panic /\
  table_of (snd (exec h (handle_close hd) w)) = delete hd (table_of w).
Proof.
  intros [k Hk]. unfold handle_close, with_handle.
  rewrite fst_exec_bind, snd_exec_bind. cbn.
  pose proof (handle_step _ (Win (CloseHandle hd)) w) as H1. cbn in H1.
  destruct (h Z (Win (CloseHandle hd)) w) as [z1 w1]. cbn in *. unfold closed in H1.
  rewrite Hk in H1. destruct H1 as [Hz1 Ht1]. rewrite (proj2 (Z.eqb_neq _ _) Hz1). cbn.
  pose proof (handle_step _ (Win (CloseHandle hd)) w1) as H2. cbn in H2.
  destruct (h Z (Win (CloseHandle hd)) w1) as [z2 w2]. cbn in *. unfold closed in H2.
  rewrite Ht1, lookup_delete_eq in H2. destruct H2 as [-> ->]. done.
Qed.

Lemma handle_close_panics_witness :
  fst (exec win_os (handle_close 4) {[4%Z := DeviceHandle]}) = Panic.
Proof. apply (handle_close_panics win_os id). exists DeviceHandle. apply lookup_singleton_eq. Defined.
