(* ===== verification/WinProcessSpec.v ===== *)
(** * heim-process on Windows: handles, loops, identity, errors *)

From S2P Require Import Prelude RustStr Layout RustFloat Units Errors WinCalls Sys Streams ProcFs Cpu Host.
From S2P Require Import Signal Process ProcessSpec WinCommon WinHost WinProcess Ownership WinHandles.
From stdpp Require Import gmap.
From Stdlib Require Import SpecFloat.

(** ** The handle discipline *)

Section opening.
Context (T : permission).
Let kind := ProcessAccess (ACCESS T).

Lemma opens_open pid : opens kind (ok_handle id) (open T pid).
Proof.
  intros W h t Ht w _. unfold open, mbind, io_bind. rewrite respects_bind, snd_exec_bind, fst_exec_bind.
  cbn. pose proof (Ht _ (Win (OpenProcess (ACCESS T) pid)) w) as Hstep. cbn in Hstep.
  destruct (h Z (Win (OpenProcess (ACCESS T) pid)) w) as [hd w1]. cbn in *.
  destruct Hstep as [Hinv Hfresh].
  destruct (Z.eqb_spec hd 0) as [->|Hne]; cbn.
  - apply opening_refused in Hfresh.
    pose proof (Ht _ GetErrno w1) as He. cbn in He. destruct (h Z GetErrno w1) as [e w2].
    cbn in *. by rewrite He.
  - apply opening_new in Hfresh; [|done]. unfold handle_new.
    destruct (Z.eqb_spec hd INVALID_HANDLE_VALUE); [done|]. by cbn.
Qed.

Lemma opens_process (p : io ProcessError HANDLE) pid :
  opens kind (ok_handle id) p ->
  opens kind (ok_handle handle) (h ← p; mret (mkProcessHandle (T := T) h pid)).
Proof.
  intros Hp W h t Ht w _. unfold mbind, io_bind. rewrite respects_bind, snd_exec_bind, fst_exec_bind.
  destruct (Hp W h t Ht w I) as [Hr Ho]. by destruct (fst (exec h p w)).
Qed.

Lemma opens_rights pid : opens kind (ok_handle handle) (for_rights T pid).
Proof.
  unfold for_rights. destruct (pid =? 0)%Z; [by intros W h t Ht w _|].
  apply opens_process, opens_open.
Qed.

Lemma keeps_owning {E A} (P : table -> Prop) (p : io E (ProcessHandle T)) (body : ProcessHandle T -> io E A) :
  opens kind (ok_handle handle) p ->
  (forall self, keeps (fun t : table => t !! handle self = Some kind) (body self)) ->
  keeps P (self ← p; owning self (body self)).
Proof.
  intros Hp Hb. apply (keeps_scope P kind handle); [done|]. intros self.
  by apply closes_with_handle.
Qed.
End opening.

Lemma opens_query pid :
  opens (ProcessAccess (ACCESS QueryLimitedInformation)) (ok_handle handle) (query_limited_info pid).
Proof. apply opens_process, opens_open. Qed.

Lemma opens_snapshot E (from : Error -> E) :
  opens SnapshotHandle (ok_handle id) (io_map_err from snapshot_new).
Proof.
  intros W h t Ht w _. unfold snapshot_new, io_map_err, mbind, io_bind.
  rewrite !respects_bind, !snd_exec_bind, !fst_exec_bind. cbn.
  pose proof (Ht _ (Win CreateToolhelp32Snapshot) w) as Hstep. cbn in Hstep.
  destruct (h Z (Win CreateToolhelp32Snapshot) w) as [hd w1]. cbn in *.
  destruct (Z.eqb_spec hd INVALID_HANDLE_VALUE) as [->|Hne]; cbn.
  - apply opening_refused in Hstep.
    pose proof (Ht _ GetErrno w1) as He. cbn in He. destruct (h Z GetErrno w1) as [e w2].
    cbn in *. by rewrite He.
  - apply opening_new in Hstep; [|done]. by cbn.
Qed.

Section discipline.
Context `{Profile, Units, OrderedFloat, NtLayout}.

Lemma keeps_read_memory k self src len :
  right PROCESS_VM_READ k -> keeps (fun t : table => t !! handle self = Some k) (read_memory self src len).
Proof.
  intros Hk. unfold read_memory. apply keeps_bind; [keeps_all|]. intros e0.
  generalize (last_os_error e0), 5. intros e n. revert e.
  induction n as [|n IH]; intros e; cbn [read_memory_loop]; [apply keeps_ret|].
  apply keeps_bind; [apply keeps_ask; [|intros ???; cbn; tauto]; intros t Ht; cbn; eauto|].
  intros [ret data]. keeps_all. apply IH.
Qed.
Lemma keeps_handle_cwd self :
  keeps (fun t : table => t !! handle self = Some (ProcessAccess (ACCESS QueryLimitedInformation))) (handle_cwd self).
Proof.
  unfold handle_cwd, get_process_parameters32, get_process_parameters, get_peb32, get_peb,
    get_process_basic_information, is_wow64.
  repeat first [keeps_step | by apply keeps_read_memory].
Qed.

Lemma keeps_exe self :
  keeps (fun t : table => t !! handle self = Some (ProcessAccess (ACCESS QueryLimitedInformation))) (handle_exe self).
Proof. unfold handle_exe. keeps_all. Qed.

Lemma keeps_pids (P : table -> Prop) fuel : keeps P (bindings_pids fuel).
Proof.
  unfold bindings_pids. generalize 1024%Z. induction fuel as [|k IH]; intros capacity; cbn [pids_loop]; keeps_all.
  apply IH.
Qed.

Lemma keeps_load (P : table -> Prop) fuel : keeps P (nt_load fuel).
Proof.
  unfold nt_load. generalize 16384%Z. induction fuel as [|k IH]; intros capacity; cbn [load_loop]; keeps_all.
  apply IH.
Qed.

Lemma keeps_nt_process (P : table -> Prop) fuel pid : keeps P (nt_process fuel pid).
Proof. unfold nt_process. keeps_all. apply keeps_load. Qed.

Lemma keeps_snapshot_find {E} fuel hd first pid :
  keeps (fun t : table => t !! hd = Some SnapshotHandle) (snapshot_find (E := E) fuel hd first pid).
Proof.
  revert first. induction fuel as [|k IH]; intros first; cbn [snapshot_find]; [apply keeps_ret|].
  apply keeps_bind; [unfold snapshot_next; destruct first; keeps_all|]. intros item. keeps_all; apply IH.
Qed.

Lemma keeps_snapshot (P : table -> Prop) fuel pid : keeps P (snapshot_entry fuel pid).
Proof.
  unfold snapshot_entry. apply (keeps_scope P SnapshotHandle id); [apply opens_snapshot|].
  intros hd. apply gives_back_bind; [|intros found; keeps_all].
  apply closes_with_snapshot; [done|]. apply keeps_snapshot_find.
Qed.

Lemma keeps_pid_exists (P : table -> Prop) fuel pid : keeps P (win_pid_exists fuel pid).
Proof.
  unfold win_pid_exists. destruct (pid =? 0)%Z; [apply keeps_ret|].
  eapply (keeps_attempted P); [apply opens_query| |].
  - intros process. apply closes_with_handle; [done|]. unfold exit_code. keeps_all. apply keeps_pids.
  - intros e. keeps_all.
Qed.

Lemma keeps_create_time (P : table -> Prop) fuel pid : keeps P (create_time_get fuel pid).
Proof.
  unfold create_time_get. destruct ((pid =? 0) || (pid =? 4))%Z; [unfold win_boot_time; keeps_all|].
  apply keeps_owning; [apply opens_query|]. intros self.
  unfold handle_create_time, process_times, traverse. keeps_all. apply keeps_nt_process.
Qed.

Lemma keeps_get_unchecked (P : table -> Prop) fuel pid : keeps P (win_get_unchecked fuel pid).
Proof. unfold win_get_unchecked. keeps_step; [apply keeps_create_time|]. keeps_all. Qed.

Lemma keeps_get (P : table -> Prop) fuel pid : keeps P (win_get fuel pid).
Proof.
  unfold win_get. keeps_step; [apply keeps_pid_exists|]. keeps_all. apply keeps_get_unchecked.
Qed.

Lemma keeps_processes (P : table -> Prop) fuel : keeps P (win_processes fuel).
Proof.
  unfold win_processes, win_pids. keeps_all; [apply keeps_pids|].
  apply keeps_then_items, keeps_get_unchecked.
Qed.

(** A process handle is opened for one call. *)
Ltac keeps_one :=
  match goal with
  | |- keeps _ (if ?b then _ else _) => destruct b; [apply keeps_ret|]
  | _ => idtac
  end;
  apply keeps_owning; [first [apply opens_query | apply opens_rights]|]; intros ?; keeps_all.

(** C8: every operation of a Windows process leaves the table of handles as
    it found it - on success, on every error and when it panics - and makes
    each call on a handle that is open, of the right kind and opened with the
    rights that the call needs; so no handle leaks, none is closed twice, and
    the assertion in the drop of a handle never fails. *)
Theorem win_process_handles fuel self value (P : table -> Prop) :
  keeps P (win_processes fuel) /\ keeps P (win_get fuel (proc_pid self)) /\ keeps P (win_current fuel) /\
  keeps P (win_parent_pid fuel self) /\ keeps P (win_name fuel self) /\ keeps P (win_exe self) /\
  keeps P (win_cwd self) /\ keeps P (win_status fuel self) /\ keeps P (win_cpu_time self) /\
  keeps P (win_memory self) /\ keeps P (win_io_counters self) /\ keeps P (win_priority self) /\
  keeps P (win_set_priority self value) /\ keeps P (win_is_running fuel self) /\
  keeps P (win_suspend self) /\ keeps P (win_resume self) /\ keeps P (win_kill self).
Proof.
  repeat match goal with |- _ /\ _ => split end.
  - apply keeps_processes.
  - apply keeps_get.
  - unfold win_current. keeps_all. apply keeps_get_unchecked.
  - unfold win_parent_pid. keeps_all. apply keeps_snapshot.
  - unfold win_name. repeat (case_match; [apply keeps_ret|]). apply keeps_bind.
    + apply keeps_attempt, keeps_owning; [apply opens_query|apply keeps_exe].
    + intros [e|path]; keeps_all; apply keeps_snapshot.
  - unfold win_exe. keeps_one. apply keeps_exe.
  - apply keeps_owning; [apply opens_query|apply keeps_handle_cwd].
  - unfold win_status, is_suspended. keeps_all. apply keeps_nt_process.
  - unfold win_cpu_time, handle_cpu_time, process_times. keeps_one.
  - unfold win_memory, handle_memory. keeps_one.
  - unfold win_io_counters, handle_io_counters. keeps_one.
  - unfold win_priority, handle_priority. keeps_one.
  - unfold win_set_priority, handle_set_priority, for_set_information. keeps_one.
  - unfold win_is_running. keeps_all. apply keeps_get.
  - unfold win_suspend, handle_suspend, for_suspend_resume. keeps_one.
  - unfold win_resume, handle_resume, for_suspend_resume. keeps_one.
  - unfold win_kill, handle_terminate, for_termination. keeps_one.
Qed.
End discipline.

(** ** The list of pids *)

(** What [EnumProcesses] is documented to do with room for [cb] bytes. *)
Definition enumerates {W} (h : handler W) (w : W) (ids : list Z) : Prop :=
  forall cb, fst (h _ (Win (EnumProcesses cb)) w) =
    (1, (take (Z.to_nat (cb / 4)) ids, 4 * Z.min (Z.of_nat (length ids)) (cb / 4)))%Z.

Lemma pids_enumerated {W} (h : handler W) w ids fuel :
  steady h w -> enumerates h w ids -> length ids < 1024 ->
  result_of h (bindings_pids (S fuel)) w = Ok (Some ids).
Proof.
  intros Hs He Hl. unfold bindings_pids. cbn [pids_loop]. run. rewrite He.
  change (wrap 32 (1024 * size_of_DWORD)) with 4096%Z. change (4096 / 4)%Z with 1024%Z.
  rewrite Z.min_l by lia. cbn -[Z.mul Z.div take Z.eqb].
  destruct (Z.eqb_spec 4096 (4 * Z.of_nat (length ids))); [lia|]. cbn -[Z.mul Z.div take].
  rewrite (take_ge _ (Z.to_nat 1024)) by lia. unfold size_of_DWORD.
  by rewrite Z.mul_comm, Z.div_mul, Nat2Z.id, firstn_all by lia.
Qed.

(** C21: with fewer than 1024 processes [pids] returns all of them after one
    call; with 1024 or more it never returns: the full buffer makes it reserve
    room for 1024 more elements of a vector that is still empty, which has
    that room already, and ask again with the same buffer. *)
Theorem win_pids_spec {W} (h : handler W) w ids fuel :
  steady h w -> enumerates h w ids ->
  (length ids < 1024 -> result_of h (bindings_pids (S fuel)) w = Ok (Some ids)) /\
  (1024 <= length ids -> result_of h (bindings_pids fuel) w = Ok None).
Proof.
  intros Hs He. split; [by apply pids_enumerated|]. intros Hl. unfold bindings_pids.
  induction fuel as [|k IH]; [done|]. cbn [pids_loop]. run. rewrite He.
  change (wrap 32 (1024 * size_of_DWORD)) with 4096%Z. change (4096 / 4)%Z with 1024%Z.
  rewrite Z.min_r by lia. cbn -[pids_loop take]. apply IH.
Qed.

(** A system with the given processes. *)
Definition enumerating (ids : list Z) : handler unit := windows (fun R c =>
  match c in win_call R return R with
  | EnumProcesses cb =>
      (1, (take (Z.to_nat (cb / 4)) ids, 4 * Z.min (Z.of_nat (length ids)) (cb / 4)))%Z
  | c => win_refused c
  end).
Lemma win_pids_spec_witness :
  result_of (enumerating [0; 4; 300]%Z) (bindings_pids 1) tt = Ok (Some [0; 4; 300]%Z) /\
  result_of (enumerating (replicate 2000 7%Z)) (bindings_pids 50) tt = Ok None.
Proof.
  split.
  - apply (win_pids_spec (enumerating [0; 4; 300]%Z) tt [0; 4; 300]%Z 0); [apply windows_steady|done|cbn; lia].
  - apply (win_pids_spec (enumerating (replicate 2000 7%Z)) tt (replicate 2000 7%Z) 50);
      [apply windows_steady|done|apply Nat.leb_le; by vm_compute].
Defined.

(** ** The processes of the NT kernel *)

Section nt.
Context `{Profile, NtLayout}.

Definition record_at (data : str) : NtProcess :=
  mkNtProcess (UniqueProcessId data) (CreateTime data) (Threads data (Z.to_nat (NumberOfThreads data))).

(** The records in memory: each gives the distance to the next one, the last
    one 0. *)
Inductive nt_chain : list NtProcess -> str -> Prop :=
| nt_last data : NextEntryOffset data = 0%Z -> nt_chain [record_at data] data
| nt_more data ps :
    (256 <= NextEntryOffset data <= Z.of_nat (length data))%Z ->
    nt_chain ps (drop (Z.to_nat (NextEntryOffset data)) data) ->
    nt_chain (record_at data :: ps) data.

Lemma nt_find_S {E} k pid data :
  nt_find (E := E) (S k) pid data =
  ('(process, rest) ← nt_next data;
   if (nt_pid process =? pid)%Z then Ok (Some process) else nt_find k pid rest).
Proof. done. Qed.

Lemma nt_next_chain {E} ps data :
  nt_chain ps data ->
  exists p rest, nt_next (E := E) data = Ok (p, rest) /\
    ((ps = [p] /\ rest = data) \/ (exists ps', ps = p :: ps' /\ nt_chain ps' rest)).
Proof.
  intros Hc. unfold nt_next. inversion Hc as [d Ho|d ps' Ho Hps]; subst.
  - rewrite Ho. destruct (Z.ltb_spec (Z.of_nat (length data)) 0); [lia|]. cbn.
    rewrite andb_false_r, drop_0. eexists _, _. split; [reflexivity|]. by left.
  - destruct (Z.ltb_spec (Z.of_nat (length data)) (NextEntryOffset data)); [lia|].
    destruct (Z.leb_spec 256 (NextEntryOffset data)); [|lia].
    rewrite orb_true_r, andb_false_r. eexists _, _. split; [reflexivity|]. right. by exists ps'.
Qed.

(** The iterator gives the records in order, then the last one for ever. *)
Lemma nt_find_present {E} ps data n p fuel :
  nt_chain ps data ->
  ps !! n = Some p -> (forall m q, m < n -> ps !! m = Some q -> nt_pid q <> nt_pid p) ->
  n < fuel -> nt_find (E := E) fuel (nt_pid p) data = Ok (Some p).
Proof.
  intros Hc. revert fuel ps data Hc. induction n as [|n IH]; intros fuel ps data Hc Hn Hb Hf;
    (destruct fuel as [|fuel]; [lia|]); rewrite nt_find_S;
    destruct (nt_next_chain (E := E) ps data Hc) as (q & rest & -> & Hps); cbn.
  - assert (q = p) as -> by (destruct Hps as [[-> _]|(? & -> & _)]; by simplify_eq/=).
    by rewrite Z.eqb_refl.
  - destruct Hps as [[-> _]|(ps' & -> & Hps')]; [done|]. cbn in Hn.
    rewrite (proj2 (Z.eqb_neq _ _)); [|apply (Hb 0); [lia|done]].
    apply (IH fuel ps' rest); [done|done| |lia]. intros m x Hm Hx. apply (Hb (S m)); [lia|done].
Qed.

Lemma nt_find_missing {E} ps data pid fuel :
  nt_chain ps data -> Forall (fun p => nt_pid p <> pid) ps ->
  nt_find (E := E) fuel pid data = Ok None.
Proof.
  revert ps data. induction fuel as [|k IH]; intros ps data Hc Hps; [done|]. rewrite nt_find_S.
  destruct (nt_next_chain (E := E) ps data Hc) as (q & rest & -> & Hrest). cbn.
  assert (nt_pid q <> pid) as Hq by (destruct Hrest as [[-> _]|(? & -> & _)]; by inversion Hps).
  rewrite (proj2 (Z.eqb_neq _ _) Hq).
  destruct Hrest as [[-> ->]|(ps' & -> & Hps')]; [by apply (IH [q])|].
  inversion Hps; subst. by apply (IH ps').
Qed.
End nt.

Section status.
Context `{Profile, NtLayout, OrderedFloat} {W : Type} (h : handler W) (w : W).
Hypothesis Hsteady : steady h w.

(** What [NtQuerySystemInformation] is documented to do with a buffer: the
    records, or the size they need. *)
Definition queries (data : str) : Prop :=
  forall size, fst (h _ (Win (NtQuerySystemInformation SystemProcessInformation size)) w) =
    if (size <? Z.of_nat (length data))%Z
    then (ntstatus.STATUS_INFO_LENGTH_MISMATCH, ([], Z.of_nat (length data)))
    else (ntstatus.STATUS_SUCCESS, (data, Z.of_nat (length data))).

Lemma load_loop_S k capacity :
  load_loop (S k) capacity =
  ('(result, (data, needed_size)) ←
     ask (Win (NtQuerySystemInformation SystemProcessInformation (wrap 32 capacity)));
   if (result =? ntstatus.STATUS_SUCCESS)%Z then
     if overflow_checks && (capacity <? needed_size)%Z then lift Panic
     else mret (Some (take (Z.to_nat needed_size) data))
   else if ((result =? ntstatus.STATUS_BUFFER_TOO_SMALL)
            || (result =? ntstatus.STATUS_INFO_LENGTH_MISMATCH))%Z
   then load_loop k (vec_reserve 1 0 capacity needed_size)
   else last_ffi_error id "NtQuerySystemInformation").
Proof. done. Qed.

Lemma load_enough data k capacity :
  queries data -> (Z.of_nat (length data) <= capacity < 2 ^ 32)%Z ->
  result_of h (load_loop (S k) capacity) w = Ok (Some data).
Proof.
  intros Hq Hc. rewrite load_loop_S. run. unfold wrap. rewrite Z.mod_small, Hq by lia.
  destruct (Z.ltb_spec capacity (Z.of_nat (length data))); [lia|]. cbn -[Z.ltb].
  destruct (Z.ltb_spec capacity (Z.of_nat (length data))); [lia|].
  rewrite andb_false_r. by rewrite Nat2Z.id, firstn_all.
Qed.

(** Two rounds are enough when the list does not change. *)
Lemma nt_load_ok data k :
  queries data -> (Z.of_nat (length data) < 2 ^ 32)%Z ->
  result_of h (nt_load (S (S k))) w = Ok (Some data).
Proof.
  intros Hq Hl. unfold nt_load. destruct (Z.ltb_spec 16384 (Z.of_nat (length data))) as [Hgt|Hle].
  - rewrite load_loop_S. run. rewrite Hq. change (wrap 32 16384) with 16384%Z.
    destruct (Z.ltb_spec 16384 (Z.of_nat (length data))); [|lia]. cbn -[load_loop vec_reserve].
    apply load_enough; [done|]. unfold vec_reserve, min_non_zero_cap. cbn [Z.eqb Pos.eqb].
    destruct (Z.leb_spec (Z.of_nat (length data)) (16384 - 0)); lia.
  - by apply load_enough; [|lia].
Qed.

Lemma nt_load_any data fuel :
  queries data -> (Z.of_nat (length data) < 2 ^ 32)%Z ->
  result_of h (nt_load fuel) w = Ok None \/ result_of h (nt_load fuel) w = Ok (Some data).
Proof.
  intros Hq Hl. destruct fuel as [|[|k]]; [by left| |right; by apply nt_load_ok].
  unfold nt_load. destruct (Z.ltb_spec 16384 (Z.of_nat (length data))) as [Hgt|Hle].
  - left. rewrite load_loop_S. run. rewrite Hq. change (wrap 32 16384) with 16384%Z.
    by destruct (Z.ltb_spec 16384 (Z.of_nat (length data))); [|lia].
  - right. by apply load_enough; [|lia].
Qed.

(** C26: [status] of a process that is in the kernel's list is [Stopped] when
    all its threads wait suspended and [Running] otherwise; [status] of a
    process that is not in the list (it has ended) never returns, because the
    iterator gives the last record for ever and the search never sees its
    end: the error [NoSuchProcess] cannot happen. *)
Theorem win_status_spec self ps data fuel :
  queries data -> (Z.of_nat (length data) < 2 ^ 32)%Z -> nt_chain ps data ->
  (forall n p, ps !! n = Some p -> nt_pid p = proc_pid self ->
     (forall m q, m < n -> ps !! m = Some q -> nt_pid q <> nt_pid p) -> n < fuel -> 2 <= fuel ->
     result_of h (win_status fuel self) w =
       Ok (Some (if all_suspended (nt_threads p) then Stopped else Running))) /\
  (Forall (fun p => nt_pid p <> proc_pid self) ps -> result_of h (win_status fuel self) w = Ok None).
Proof.
  intros Hq Hl Hc. unfold win_status, is_suspended, nt_process. split.
  - intros n p Hn Hp Hb Hf H2. destruct fuel as [|[|k]]; [lia..|].
    run. rewrite (nt_load_ok data) by done. cbn -[nt_find all_suspended]. run.
    rewrite <- Hp, (nt_find_present ps data n p) by done. done.
  - intros Hps. run. destruct (nt_load_any data fuel Hq Hl) as [->| ->]; [done|].
    cbn -[nt_find]. run. by rewrite (nt_find_missing ps).
Qed.
End status.

(** Two processes, in records of 256 bytes: the byte 0 of a record tells
    whether another one follows, the byte 1 is the pid, byte 2 the number of
    threads, all of them suspended. *)
Definition small_layout : NtLayout := {|
  size_of_PEB32 := 0; peb32_ProcessParameters _ := 0%Z;
  size_of_RTL_USER_PROCESS_PARAMETERS32 := 0; params32_DosPath _ := (0, 0)%Z;
  size_of_PEB := 0; peb_ProcessParameters _ := 0%Z;
  size_of_RTL_USER_PROCESS_PARAMETERS := 0; params_DosPath _ := (0, 0)%Z;
  NextEntryOffset d := (256 * code (nth 0 d NUL))%Z;
  UniqueProcessId d := code (nth 1 d NUL);
  NumberOfThreads d := code (nth 2 d NUL);
  CreateTime _ := mkLargeInteger 0 0;
  Threads _ n := replicate n (Waiting, Suspended);
|}.
Definition small_list : str :=
  map of_code [1; 4; 2]%Z ++ replicate 253 NUL ++ map of_code [0; 7; 1]%Z ++ replicate 253 NUL.
Definition small_system : handler unit := windows (fun R c =>
  match c in win_call R return R with
  | NtQuerySystemInformation _ size =>
      if (size <? Z.of_nat (length small_list))%Z
      then (ntstatus.STATUS_INFO_LENGTH_MISMATCH, ([], Z.of_nat (length small_list)))
      else (ntstatus.STATUS_SUCCESS, (small_list, Z.of_nat (length small_list)))
  | c => win_refused c
  end).

Lemma small_chain :
  @nt_chain small_layout (map (@record_at small_layout) [small_list; drop 256 small_list]) small_list.
Proof.
  apply nt_more; [by apply (bool_decide_unpack _); vm_compute|].
  change (drop (Z.to_nat (@NextEntryOffset small_layout small_list)) small_list) with (drop 256 small_list).
  by apply nt_last.
Qed.

Lemma win_status_spec_witness :
  let self pid := @mkProcess checked_float pid (@mkUniqueId checked_float pid f64_zero) in
  result_of small_system (@win_status false checked_float small_layout 5 (self 7%Z)) tt = Ok (Some Stopped) /\
  result_of small_system (@win_status false checked_float small_layout 1000 (self 9%Z)) tt = Ok None.
Proof.
  intros self. split.
  - apply (@win_status_spec false small_layout checked_float unit small_system tt (windows_steady _ _)
             (self 7%Z) _ small_list 5 (fun size => eq_refl) eq_refl small_chain)
      with (n := 1) (p := @record_at small_layout (drop 256 small_list)); [done|done| |lia|lia].
    intros [|m] q Hm Hq; [|lia]. apply (inj Some) in Hq. by subst q.
  - apply (@win_status_spec false small_layout checked_float unit small_system tt (windows_steady _ _)
             (self 9%Z) _ small_list 1000 (fun size => eq_refl) eq_refl small_chain).
    by apply (bool_decide_unpack _); vm_compute.
Defined.

(** ** Reading the memory of another process *)

Section read_memory.
Context {W : Type} (h : handler W) (self : ProcessHandle QueryLimitedInformation) (src len : Z).

(** One attempt: the answer, the error that is asked for when it is 0, and
    the world after it. *)
Definition attempt_at (w : W) (answer : Z * str) (code : Z) (w' : W) : Prop :=
  exists w1, h _ (Win (ReadProcessMemory (handle self) src len)) w = (answer, w1) /\
    if (fst answer =? 0)%Z then h _ GetErrno w1 = (code, w') else w' = w1.

(** [n] attempts in a row that were cut short. *)
Inductive cut_short : nat -> W -> W -> Prop :=
| cut_none w : cut_short 0 w w
| cut_more n w d w1 w' :
    attempt_at w (0%Z, d) winerror.ERROR_PARTIAL_COPY w1 -> cut_short n w1 w' -> cut_short (S n) w w'.

Definition read_failed (code : Z) : ProcessError :=
  LoadError (with_ffi (last_os_error code) (lit "ReadProcessMemory")).

Lemma read_memory_loop_S k err :
  read_memory_loop (S k) err self src len =
  ('(ret, data) ← ask (Win (ReadProcessMemory (handle self) src len));
   if (ret =? 0)%Z then
     e ← ask GetErrno;
     let err := last_os_error e in
     if decide (raw_os_error err <> Some winerror.ERROR_PARTIAL_COPY)
     then fails (LoadError (with_ffi err (lit "ReadProcessMemory")))
     else read_memory_loop k err self src len
   else mret data).
Proof. done. Qed.

Lemma read_attempt k err w answer code w' :
  attempt_at w answer code w' ->
  exec h (read_memory_loop (S k) err self src len) w =
  if (fst answer =? 0)%Z then
    if decide (code = winerror.ERROR_PARTIAL_COPY)
    then exec h (read_memory_loop k (last_os_error code) self src len) w'
    else (Err (read_failed code), w')
  else (Ok (snd answer), w').
Proof.
  intros (w1 & Hr & He). rewrite read_memory_loop_S. destruct answer as [ret data]. cbn -[read_memory_loop] in *.
  rewrite Hr. cbn -[read_memory_loop]. destruct (ret =? 0)%Z; cbn -[read_memory_loop]; [|by subst].
  rewrite He. cbn -[read_memory_loop]. destruct (decide (code = winerror.ERROR_PARTIAL_COPY)) as [->|Hc].
  - by rewrite decide_False by (intros Hn; by apply Hn).
  - by rewrite decide_True by (intros Heq; apply Hc; by injection Heq).
Qed.

Lemma read_cut n w w' k err :
  cut_short n w w' ->
  exec h (read_memory_loop (n + k) err self src len) w =
  exec h (read_memory_loop k (if decide (n = 0) then err else last_os_error winerror.ERROR_PARTIAL_COPY)
            self src len) w'.
Proof.
  intros Hc. revert err. induction Hc as [w|n w d w1 w' Ha Hc IH]; intros err; [done|].
  change (S n + k) with (S (n + k)). rewrite (read_attempt _ _ _ _ _ _ Ha). cbn -[read_memory_loop].
  rewrite IH. destruct n; done.
Qed.

(** C27: [read_memory] gives the bytes of the first attempt that succeeds
    among at most five, goes on only after attempts that were cut short
    ([ERROR_PARTIAL_COPY]), stops with the error of the first one that fails
    otherwise, and after five cut short reports that error: it never tries a
    sixth time, and the dummy error it starts with is never returned. *)
Theorem read_memory_spec w n w' :
  cut_short n (snd (h _ GetErrno w)) w' ->
  (forall ret data code w'', attempt_at w' (ret, data) code w'' -> n < 5 -> ret <> 0%Z ->
     exec h (read_memory self src len) w = (Ok data, w'')) /\
  (forall data code w'', attempt_at w' (0%Z, data) code w'' -> n < 5 ->
     code <> winerror.ERROR_PARTIAL_COPY ->
     exec h (read_memory self src len) w = (Err (read_failed code), w'')) /\
  (n = 5 -> exec h (read_memory self src len) w = (Err (read_failed winerror.ERROR_PARTIAL_COPY), w')).
Proof.
  intros Hc. assert (forall k, n <= 5 -> k = 5 - n -> exec h (read_memory self src len) w =
    exec h (read_memory_loop k (if decide (n = 0) then last_os_error (fst (h _ GetErrno w))
                                else last_os_error winerror.ERROR_PARTIAL_COPY) self src len) w') as Heq.
  { intros k Hn ->. unfold read_memory. rewrite exec_io_bind. cbn -[read_memory_loop].
    destruct (h Z GetErrno w) as [e w1]. cbn -[read_memory_loop] in *.
    replace 5 with (n + (5 - n)) at 1 by lia. by apply read_cut. }
  split_and!.
  - intros ret data code w'' Ha Hn Hr. rewrite (Heq (S (4 - n))) by lia.
    rewrite (read_attempt _ _ _ _ _ _ Ha). cbn. by rewrite (proj2 (Z.eqb_neq _ _) Hr).
  - intros data code w'' Ha Hn Hcode. rewrite (Heq (S (4 - n))) by lia.
    rewrite (read_attempt _ _ _ _ _ _ Ha). cbn -[winerror.ERROR_PARTIAL_COPY]. by rewrite decide_False.
  - intros ->. by rewrite (Heq 0).
Qed.
End read_memory.

(** A system whose first two reads are cut short; the world counts them. *)
Definition flaky : handler nat := fun R c n =>
  match c in call R return R * nat with
  | Win c =>
      match c in win_call R return R * nat with
      | ReadProcessMemory _ _ _ => (if bool_decide (n < 2) then (0%Z, []) else (1%Z, lit "peb"), S n)
      | c => (win_refused c, n)
      end
  | GetErrno => (winerror.ERROR_PARTIAL_COPY, n)
  | c => (fst (snapshot (fun _ => Err (Os errno.ENOENT)) (fun _ => []) _ c tt), n)
  end.
Lemma read_memory_spec_witness :
  exec flaky (read_memory (mkProcessHandle 4 1) 0 3) 0 = (Ok (lit "peb"), 3).
Proof.
  apply (read_memory_spec flaky (mkProcessHandle 4 1) 0 3 0 2 2) with (ret := 1%Z) (code := 0%Z); [|by exists 3|lia|done].
  apply (cut_more _ _ _ _ 1 0 [] 1 2); [by exists 1|].
  apply (cut_more _ _ _ _ 0 1 [] 2 2); [by exists 2|]. apply cut_none.
Defined.

(** ** Opening processes and their existence *)

Section exists_.
Context {W : Type} (h : handler W) (w : W).
Hypothesis Hsteady : steady h w.

Definition opened (T : permission) (pid : Z) : Z := fst (h _ (Win (OpenProcess (ACCESS T) pid)) w).
Definition last_code : Z := fst (h _ GetErrno w).

Lemma open_result T pid :
  opened T pid <> INVALID_HANDLE_VALUE ->
  result_of h (open T pid) w =
  if (opened T pid =? 0)%Z then Err (open_error pid last_code) else Ok (opened T pid).
Proof.
  intros Hi. unfold open. run. fold (opened T pid). destruct (opened T pid =? 0)%Z; run; [done|].
  unfold handle_new. by rewrite (proj2 (Z.eqb_neq _ _) Hi).
Qed.
End exists_.

Lemma open_error_cases pid code :
  open_error pid code =
  if decide (win_decode_error_kind code = PermissionDenied) then AccessDenied pid
  else if decide (code = winerror.ERROR_INVALID_PARAMETER) then
    if decide (pid = 0%Z) then AccessDenied pid else NoSuchProcess pid
  else LoadError (with_ffi (last_os_error code) (lit "OpenProcess")).
Proof.
  unfold open_error. change (win_kind _) with (win_decode_error_kind code).
  case_decide as Hk; [done|]. change (raw_os_error _) with (Some code).
  destruct (decide (code = winerror.ERROR_INVALID_PARAMETER)) as [->|Hc].
  - destruct (decide (pid = 0%Z)) as [->|Hp]; [by rewrite decide_True|].
    by rewrite decide_False, decide_True by tauto.
  - rewrite !decide_False; [done|by intros [=]|by intros [_ [=]]].
Qed.

Section pid_exists.
Context {W : Type} (h : handler W) (w : W).
Hypothesis Hsteady : steady h w.

(** A close that the system does not refuse. *)
Lemma with_handle_result {E A} hd (body : io E A) :
  fst (h _ (Win (CloseHandle hd)) w) <> 0%Z ->
  result_of h (with_handle hd body) w = result_of h body w.
Proof.
  intros Hc. unfold with_handle. rewrite result_bind by done. cbv beta.
  rewrite result_bind by done. rewrite result_os by done. by rewrite (proj2 (Z.eqb_neq _ _) Hc).
Qed.

Lemma exit_code_result self :
  let exit := fst (h _ (Win (GetExitCodeProcess (handle self))) w) in
  let code := fst (h _ GetErrno w) in
  result_of h (exit_code self) w =
  if decide (fst exit = 0%Z) then
    if decide (win_decode_error_kind code = PermissionDenied) then Err (AccessDenied (handle_pid self))
    else Err (LoadError (with_ffi (last_os_error code) (lit "GetExitCodeProcess")))
  else Ok (snd exit).
Proof.
  intros exit code. unfold exit_code. run. fold exit. destruct exit as [ret ec]. cbn [fst snd].
  destruct (Z.eqb_spec ret 0) as [->|Hr]; [rewrite decide_True by done|by rewrite decide_False].
  run. fold code. change (win_kind _) with (win_decode_error_kind code). by case_decide.
Qed.

(** [pid_exists]: a process that cannot be opened is missing when the
    parameter is refused and there when the access is, the idle process is
    always there, other errors are passed on; an open one is there when its
    exit code says that it is still active (also a process that ended with
    that very code, 259), and otherwise when its pid is in the list. *)
Theorem win_pid_exists_spec pid ids fuel :
  enumerates h w ids -> length ids < 1024 ->
  let hd := opened h w QueryLimitedInformation pid in
  hd <> INVALID_HANDLE_VALUE -> fst (h _ (Win (CloseHandle hd)) w) <> 0%Z ->
  let code := fst (h _ GetErrno w) in
  let exit := fst (h _ (Win (GetExitCodeProcess hd)) w) in
  result_of h (win_pid_exists (S fuel) pid) w =
    if decide (pid = 0%Z) then Ok (Some true)
    else if decide (hd = 0%Z) then
      if decide (win_decode_error_kind code = PermissionDenied) then Ok (Some true)
      else if decide (code = winerror.ERROR_INVALID_PARAMETER) then Ok (Some false)
      else Err (LoadError (with_ffi (last_os_error code) (lit "OpenProcess")))
    else if decide (fst exit = 0%Z) then
      if decide (win_decode_error_kind code = PermissionDenied) then Err (AccessDenied pid)
      else Err (LoadError (with_ffi (last_os_error code) (lit "GetExitCodeProcess")))
    else if decide (snd exit = STILL_ACTIVE) then Ok (Some true)
    else Ok (Some (bool_decide (pid ∈ ids))).
Proof.
  intros He Hl hd Hinv Hclose code exit. unfold win_pid_exists.
  destruct (decide (pid = 0%Z)) as [->|Hp]; [done|]. rewrite (proj2 (Z.eqb_neq _ _) Hp).
  unfold query_limited_info. run. rewrite open_result by done. fold hd.
  destruct (decide (hd = 0%Z)) as [->|Hh].
  - cbn -[open_error]. rewrite open_error_cases. fold (last_code h w) in code. fold code.
    case_decide as Hk; [done|]. case_decide as Hc; [|done]. by rewrite decide_False.
  - rewrite (proj2 (Z.eqb_neq _ _) Hh). unfold owning. run. rewrite with_handle_result by done.
    rewrite result_io_bind, exit_code_result by done. cbn [handle handle_pid]. fold exit code.
    destruct (decide (fst exit = 0%Z)); [by case_decide|].
    destruct (decide (snd exit = STILL_ACTIVE)); cbn [mbind res_bind].
    + by rewrite (proj2 (Z.eqb_eq _ _)) by done.
    + rewrite (proj2 (Z.eqb_neq _ _)) by done. run. by rewrite (pids_enumerated h w ids).
Qed.
End pid_exists.

(** A pid that can be opened although its process has ended with code 0. *)
Definition ended (ids : list Z) : handler unit := windows (fun R c =>
  match c in win_call R return R with
  | EnumProcesses cb =>
      (1, (take (Z.to_nat (cb / 4)) ids, 4 * Z.min (Z.of_nat (length ids)) (cb / 4)))%Z
  | OpenProcess _ _ => 8%Z
  | CloseHandle _ => 1%Z
  | GetExitCodeProcess _ => (1, 0)%Z
  | c => win_refused c
  end).
Lemma win_pid_exists_spec_witness :
  result_of (ended [4]%Z) (win_pid_exists 1 300) tt = Ok (Some false) /\
  result_of (ended [4; 300]%Z) (win_pid_exists 1 300) tt = Ok (Some true).
Proof.
  split.
  - refine (eq_trans (win_pid_exists_spec (ended [4]%Z) tt (windows_steady _ _) 300 [4]%Z 0 _ _ _ _) _);
      [done|cbn; lia|done|done|reflexivity].
  - refine (eq_trans (win_pid_exists_spec (ended [4; 300]%Z) tt (windows_steady _ _) 300 [4; 300]%Z 0 _ _ _ _) _);
      [done|cbn; lia|done|done|reflexivity].
Defined.

(** ** Priorities *)

(** The priority classes and their numbers are inverse to each other,
    and every other number is refused as invalid input. *)
Theorem win_priority_roundtrip value :
  (forall p, priority_try_from (priority_into p) = Ok p) /\
  (forall p, priority_try_from value = Ok p -> priority_into p = value) /\
  ((forall p, priority_into p <> value) ->
     priority_try_from value = Err (Custom InvalidInput (PText (lit "Unknown priority value " ++ show_hex value)))).
Proof.
  split; [by intros []|]. unfold priority_try_from. split.
  - intros p. repeat (case_match; [intros [= <-]; by symmetry; apply Z.eqb_eq|]). done.
  - intros Hne. rewrite !(proj2 (Z.eqb_neq _ _)); [done|..]; intros ->;
      [by apply (Hne PRealTime)|by apply (Hne PNormal)|by apply (Hne PIdle)|by apply (Hne PHigh)
      |by apply (Hne PBelowNormal)|by apply (Hne PAboveNormal)].
Qed.
Lemma win_priority_roundtrip_witness :
  priority_try_from 300 = Err (Custom InvalidInput (PText (lit "Unknown priority value 12c"))).
Proof.
  apply (proj2 (proj2 (win_priority_roundtrip 300))). intros []; done.
Defined.

(** ** The identity of the system processes *)

Section system_process.
Context `{!Profile, !Units, !UnitsLaws, !OrderedFloat, !OrderedFloatLaws, !NtLayout}.
Context {W : Type} (h : handler W).

(** The time the system clock shows, as [boot_time] reports it. *)
Definition clock_at (w : W) : Time :=
  f64_sub (filetime_into_time (fst (h _ (Win GetSystemTimeAsFileTime) w))) unix_epoch_delta.

Lemma win_get_system fuel w pid :
  steady h w -> is_system pid = true -> is_nan (clock_at w) = false ->
  result_of h (win_pid_exists fuel pid) w = Ok (Some true) ->
  exists u, result_of h (win_get fuel pid) w = Ok (Some (mkProcess pid u)) /\
    uid_pid u = pid /\ notnan_get (uid_create_time u) = clock_at w.
Proof.
  intros Hs Hpid Hn He. destruct (unique_id_new_ok (E := ProcessError) pid _ Hn) as (u & Hu & Hp & Hc).
  exists u. split; [|done]. unfold win_get. run. rewrite He. cbn [mbind res_bind].
  unfold win_get_unchecked, create_time_get. unfold is_system in Hpid. rewrite Hpid.
  unfold win_boot_time. run. fold (clock_at w). by rewrite Hu.
Qed.

(** C36: [boot_time] is the time of the call, and it stands for the creation
    time of the idle and the system process (pids 0 and 4): such a process,
    loaded at one moment, counts as running at another only if the clock shows
    the same time, so [is_running] is false for a process that never ends. *)
Theorem win_system_not_running fuel w1 w2 pid p :
  steady h w1 -> steady h w2 -> is_system pid = true ->
  is_nan (clock_at w1) = false -> is_nan (clock_at w2) = false ->
  result_of h (win_pid_exists fuel pid) w1 = Ok (Some true) ->
  result_of h (win_pid_exists fuel pid) w2 = Ok (Some true) ->
  result_of h (win_get fuel pid) w1 = Ok (Some p) ->
  result_of h (win_is_running fuel p) w2 = Ok (Some (SFeqb (clock_at w2) (clock_at w1))) /\
  result_of h win_boot_time w2 = Ok (clock_at w2).
Proof.
  intros Hs1 Hs2 Hpid Hn1 Hn2 He1 He2 Hp.
  destruct (win_get_system fuel w1 pid Hs1 Hpid Hn1 He1) as (u1 & Hg1 & Hp1 & Hc1).
  destruct (win_get_system fuel w2 pid Hs2 Hpid Hn2 He2) as (u2 & Hg2 & Hp2 & Hc2).
  rewrite Hg1 in Hp. injection Hp as <-. split.
  - unfold win_is_running. run. cbn [proc_pid]. rewrite Hg2. cbn.
    unfold process_eq, unique_id_eq. cbn.
    by rewrite Hp1, Hp2, bool_decide_eq_true_2, notnan_eqb_get, Hc1, Hc2.
  - unfold win_boot_time. by run.
Qed.
End system_process.

(** The world is the low half of the clock. *)
Definition ticking : handler Z := fun R c t =>
  (match c in call R return R with
   | Win c => match c in win_call R return R with
              | GetSystemTimeAsFileTime => mkFileTime t 30800000
              | OpenProcess _ _ => 8%Z
              | CloseHandle _ => 1%Z
              | GetExitCodeProcess _ => (1%Z, STILL_ACTIVE)
              | c => win_refused c
              end
   | c => fst (snapshot (fun _ => Err (Os errno.ENOENT)) (fun _ => []) _ c tt)
   end, t).
Lemma ticking_steady t : steady ticking t.
Proof. by intros R []. Qed.
Lemma win_system_not_running_witness :
  exists p, result_of ticking (@win_get true si_units checked_float small_layout 5 4) 100%Z = Ok (Some p) /\
    result_of ticking (@win_is_running true si_units checked_float small_layout 5 p) 20000100%Z = Ok (Some false).
Proof.
  eexists. split; [vm_compute; reflexivity|].
  eapply eq_trans; [|vm_compute; reflexivity].
  eapply (proj1 (@win_system_not_running true si_units si_units_laws checked_float checked_float_laws small_layout
    Z ticking 5 100%Z 20000100%Z 4%Z _ (ticking_steady _) (ticking_steady _) eq_refl
    ltac:(vm_compute; reflexivity) ltac:(vm_compute; reflexivity)
    ltac:(vm_compute; reflexivity) ltac:(vm_compute; reflexivity) ltac:(vm_compute; reflexivity))).
Defined.
