(* ===== verification/WinDiskSpec.v ===== *)
(** * heim-disk on Windows: the buffer of drives, handles, partitions *)

From S2P Require Import Prelude RustStr RustFloat Units Errors WinCalls Sys Streams ProcFs Cpu Disk.
From S2P Require Import WinCommon WinDisk WinProcess Ownership WinHandles.
From stdpp Require Import gmap.

(** ** The buffer of drives *)

(** A drive as the system writes it: letter, colon, backslash, null. *)
Definition drive_units (letter : Z) : wide := [letter; 58; 92; 0]%Z.

Section drives.
Context `{Profile}.

Lemma null_offset_spec buffer p offset :
  null_offset (mkDrives buffer p) = Some offset -> p + offset < length buffer.
Proof.
  unfold null_offset. cbn [position drives_buffer]. intros Hf.
  destruct (list_find _ _) as [[i x]|] eqn:Hl; [|done]. cbn in Hf. injection Hf as <-.
  apply list_find_Some in Hl as (Hi & _). apply lookup_lt_Some in Hi. rewrite length_drop in Hi. lia.
Qed.

Lemma drives_collect_ends {E} fuel buffer p :
  p <= length buffer < p + fuel -> drives_collect (E := E) fuel (mkDrives buffer p) <> Ok None.
Proof.
  revert p. induction fuel as [|k IH]; intros p Hl; cbn [drives_collect].
  - lia.
  - unfold drives_next. destruct (null_offset (mkDrives buffer p)) as [offset|] eqn:Ho; [|done].
    apply null_offset_spec in Ho. case_bool_decide; [|done]. cbn [position drives_buffer].
    destruct (drive_from (E := E) (take (p + offset + 1 - p) (drop p buffer))) as [drive|e|]; [|done..].
    cbn [mbind res_bind].
    destruct (drives_collect (E := E) k (mkDrives buffer (p + offset + 1))) as [[l|]|e|] eqn:Hc; try done.
    exfalso. apply (IH (p + offset + 1)); [lia|done].
Qed.
Lemma null_offset_drive done_ letter rest :
  (letter <> 0)%Z ->
  null_offset (mkDrives (done_ ++ drive_units letter ++ rest) (length done_)) = Some 3.
Proof.
  intros Hl. unfold null_offset. cbn [position drives_buffer]. rewrite drop_app_length.
  unfold drive_units. cbn [app list_find]. rewrite decide_False by done. done.
Qed.

Lemma drives_next_drive {E} done_ letter rest :
  (65 <= letter <= 90)%Z ->
  drives_next (E := E) (mkDrives (done_ ++ drive_units letter ++ rest) (length done_)) =
  Ok (Some (drive_units letter,
            mkDrives (done_ ++ drive_units letter ++ rest) (length (done_ ++ drive_units letter)))).
Proof.
  intros Hl. unfold drives_next. rewrite null_offset_drive by lia. cbn [position drives_buffer].
  rewrite bool_decide_eq_true_2 by lia. rewrite drop_app_length.
  replace (length done_ + 3 + 1 - length done_) with 4 by lia.
  unfold drive_from. cbn [take drive_units app length].
  destruct (Z.leb_spec 65 letter), (Z.leb_spec letter 90); try lia. cbn [andb Z.eqb Pos.eqb negb].
  rewrite andb_false_r, take_0. rewrite bool_decide_eq_true_2 by done. cbn [mbind res_bind].
  do 4 f_equal. rewrite length_app. cbn. lia.
Qed.

Lemma drives_collect_all {E} done_ letters fuel :
  Forall (fun l => 65 <= l <= 90)%Z letters -> length letters < fuel ->
  drives_collect (E := E) fuel
    (mkDrives (done_ ++ concat (map drive_units letters) ++ [0%Z]) (length done_)) =
  Ok (Some (map drive_units letters)).
Proof.
  intros Hok. revert done_ fuel. induction Hok as [|letter letters Hl Hok IH]; intros done_ fuel Hf;
    (destruct fuel as [|fuel]; [cbn in Hf; lia|]); cbn [drives_collect map concat].
  - unfold drives_next, null_offset. cbn [position drives_buffer]. by rewrite drop_app_length.
  - rewrite <- app_assoc. rewrite drives_next_drive by done. cbn [mbind res_bind].
    rewrite (app_assoc done_). rewrite IH; [done|]. cbn in Hf. lia.
Qed.

Lemma drives_all_letters {E} letters :
  Forall (fun l => 65 <= l <= 90)%Z letters ->
  drives_all (E := E) (mkDrives (concat (map drive_units letters) ++ [0%Z]) 0) =
  Ok (Some (map drive_units letters)).
Proof.
  intros Hok. unfold drives_all. cbn [drives_buffer].
  apply (drives_collect_all []); [done|]. rewrite length_app.
  assert (Hl : length letters <= length (concat (map drive_units letters))).
  { clear. induction letters as [|l letters IH]; [done|]. cbn. lia. }
  lia.
Qed.

(** The iterator over the drives ends on every buffer, and it gives back
    the drives whose strings the system wrote, in order, each with its null. *)
Theorem drives_roundtrip {E} letters buffer :
  drives_all (E := E) (mkDrives buffer 0) <> Ok None /\
  (Forall (fun l => 65 <= l <= 90)%Z letters -> buffer = concat (map drive_units letters) ++ [0%Z] ->
     drives_all (E := E) (mkDrives buffer 0) = Ok (Some (map drive_units letters)) /\
     map to_path_buf (map drive_units letters) = map (fun l => [l; 58; 92]%Z) letters).
Proof.
  split.
  - unfold drives_all. apply drives_collect_ends. cbn [drives_buffer]. lia.
  - intros Hok ->. split; [by apply drives_all_letters|]. by rewrite map_map.
Qed.
End drives.

Lemma drives_roundtrip_witness :
  @drives_all true Error (mkDrives (wide_lit "A:\" ++ [0%Z] ++ wide_lit "C:\" ++ [0%Z] ++ [0%Z]) 0) =
  Ok (Some [wide_lit "A:\" ++ [0%Z]; wide_lit "C:\" ++ [0%Z]]).
Proof.
  refine (proj1 (proj2 (@drives_roundtrip true Error [65; 67]%Z _) _ _)); [|reflexivity].
  repeat constructor; lia.
Defined.

(** ** The handles *)

Section handles.
Context `{Profile, Units}.

Lemma opens_device path : opens DeviceHandle
  (fun h => if decide (h = INVALID_HANDLE_VALUE) then None else Some h) (os (Win (CreateFileW path))).
Proof.
  intros W h t Ht w _. cbn. pose proof (Ht _ (Win (CreateFileW path)) w) as Hstep. cbn in Hstep.
  destruct (h Z (Win (CreateFileW path)) w) as [hd w1]. cbn in *. split; [done|].
  unfold opening in Hstep. by destruct (decide (hd = INVALID_HANDLE_VALUE)).
Qed.

Lemma keeps_disk_performance (P : table -> Prop) path : keeps P (disk_performance path).
Proof.
  unfold disk_performance. set (p := removelast path ++ [0%Z]).
  set (body := fun handle : Z => _).
  change (ask (Win (CreateFileW p)) ≫= body) with
    (prog_bind (os (Win (CreateFileW p))) body).
  eapply (keeps_opened P DeviceHandle); [apply opens_device|]. intros hd. unfold body.
  destruct (decide (hd = INVALID_HANDLE_VALUE)) as [->|Hne]; [rewrite Z.eqb_refl; keeps_all|].
  rewrite (proj2 (Z.eqb_neq _ _) Hne). apply gives_back_after.
  - keeps_all.
  - intros [result perf]. apply (closes_ask hd DeviceHandle). intros z. keeps_all.
  - intros W h w. cbn. destruct (h _ (Win (DeviceIoControl hd)) w). eauto.
Qed.

(** The search is open exactly when the iterator has its handle. *)
Definition searching (v : option HANDLE) (t0 t : table) : Prop :=
  match v with
  | None => t = t0
  | Some hd => t0 !! hd = None /\ t = <[hd := SearchHandle]> t0
  end.

Section stream.
Context {W : Type} (h : handler W) (table_of : W -> table) `{!Accounts h table_of}.

Lemma volumes_next_searching {E} t0 v w :
  searching v t0 (table_of w) ->
  respects h table_of (volumes_next (E := E) v) w /\
  exists item v', fst (exec h (volumes_next (E := E) v) w) = Ok (item, v') /\
    searching v' t0 (table_of (snd (exec h (volumes_next (E := E) v) w))).
Proof.
  intros Hs. destruct v as [hd|]; cbn [volumes_next].
  - destruct Hs as [Hnew Ht].
    assert (Hk : keeps (fun t : table => t !! hd = Some SearchHandle) (attempt (F := E) (find_next_volume hd)))
      by (unfold find_next_volume; keeps_all).
    destruct (Hk W h table_of _ w) as [Hr Hd]; [by rewrite Ht, lookup_insert_eq|].
    unfold mbind, io_bind. rewrite respects_bind, fst_exec_bind, snd_exec_bind.
    destruct (fst (exec h (attempt (find_next_volume hd)) w)) as [[e|[p|]]|e|] eqn:Hf.
    + split; [done|]. do 2 eexists. split; [done|]. split; [done|]. by etransitivity; [exact Hd|].
    + split; [done|]. do 2 eexists. split; [done|]. split; [done|]. by etransitivity; [exact Hd|].
    + split; [done|]. do 2 eexists. split; [done|]. split; [done|]. by etransitivity; [exact Hd|].
    + exfalso. unfold attempt in Hf. rewrite fst_exec_bind in Hf. by destruct (fst (exec h (find_next_volume hd) w)).
    + exfalso. clear Hr Hd Hk. revert Hf. unfold attempt, find_next_volume. cbn.
      destruct (h _ (Win (FindNextVolumeW hd)) w) as [[result buffer] w1]. cbn.
      destruct (negb (result =? 0)%Z); [done|]. cbn. destruct (h Z GetErrno w1) as [e w2]. cbn.
      by destruct (e =? winerror.ERROR_NO_MORE_FILES)%Z.
  - cbn in Hs. pose proof (handle_step _ (Win FindFirstVolumeW) w) as Hstep. cbn in Hstep.
    unfold find_first_volume. cbn. destruct (h _ (Win FindFirstVolumeW) w) as [[hd buffer] w1]. cbn in *.
    destruct (Z.eqb_spec hd INVALID_HANDLE_VALUE) as [->|Hne]; cbn.
    + apply opening_refused in Hstep. pose proof (handle_step _ GetErrno w1) as He. cbn in He.
      destruct (h Z GetErrno w1) as [e w2]. cbn in *. split; [done|]. do 2 eexists. split; [done|].
      cbn. congruence.
    + apply opening_new in Hstep; [|done]. split; [done|]. do 2 eexists. split; [done|].
      cbn. rewrite <- Hs. by destruct Hstep as [? ->].
Qed.

Lemma volumes_drop_searching {E} t0 v w :
  searching v t0 (table_of w) ->
  respects h table_of (volumes_drop (E := E) v) w /\
  table_of (snd (exec h (volumes_drop (E := E) v) w)) = t0.
Proof.
  intros Hs. destruct v as [hd|]; [|by cbn]. destruct Hs as [Hnew Ht].
  assert (Hc : closes hd SearchHandle (volumes_drop (E := E) (Some hd))).
  { apply (closes_ask hd SearchHandle). intros z. keeps_all. }
  destruct (Hc W h table_of _ w) as [Hr Hd]; [by rewrite Ht, lookup_insert_eq|].
  split; [done|]. by rewrite Hd, Ht, delete_insert_id.
Qed.

(** What the loop over the volumes leaves: the search, in the state it
    returns; nothing, once it has unwound. *)
Definition stream_left t0 (p : io Error (option (list (result WinDiskCounters)) * option HANDLE)) w : Prop :=
  respects h table_of p w /\
  match fst (exec h p w) with
  | Ok (_, v) => searching v t0 (table_of (snd (exec h p w)))
  | _ => table_of (snd (exec h p w)) = t0
  end.

Lemma stream_left_rest t0 p w (items : list (result WinDiskCounters)) :
  stream_left t0 p w ->
  stream_left t0 ('(rest, v) ← p; mret (fmap (M := option) (app items) rest, v)) w.
Proof.
  intros [Hr Hl]. unfold stream_left, mbind, io_bind. rewrite respects_bind, fst_exec_bind, snd_exec_bind.
  by destruct (fst (exec h p w)) as [[rest v]|e|].
Qed.

Lemma stream_left_drop t0 v w :
  searching v t0 (table_of w) ->
  stream_left t0 (prog_bind (volumes_drop (E := Error) v) (fun _ => Ret Panic)) w.
Proof.
  intros Hs. unfold stream_left. rewrite respects_bind, fst_exec_bind, snd_exec_bind.
  by destruct (volumes_drop_searching (E := Error) t0 v w Hs) as [Hr Hd].
Qed.

Lemma inner_stream_searching filter t0 fuel v w :
  (forall (P : table -> Prop) path, keeps P (filter path)) -> searching v t0 (table_of w) ->
  stream_left t0 (inner_stream fuel filter v) w.
Proof.
  intros Hfilter. revert v w. induction fuel as [|k IH]; intros v w Hs; [by split|].
  destruct (volumes_next_searching (E := Error) t0 v w Hs) as (Hr & item & v' & Hf & Hs').
  cbn [inner_stream]. unfold stream_left.
  rewrite (respects_ok_bind _ _ _ _ _ _ Hf), (exec_ok_bind _ _ _ _ _ Hf).
  set (w1 := snd (exec h (volumes_next v) w)) in *. destruct item as [try_volume|]; [|by repeat split].
  assert (Hk : keeps anything (counters_item filter try_volume)).
  { unfold counters_item. keeps_all; first [apply Hfilter|apply keeps_disk_performance]. }
  destruct (Hk W h table_of _ w1 I) as [Hrc Hdc].
  rewrite respects_bind, fst_exec_bind, snd_exec_bind.
  set (w2 := snd (exec h (counters_item filter try_volume) w1)) in *.
  assert (Hs2 : searching v' t0 (table_of w2)) by by rewrite Hdc.
  destruct (fst (exec h (counters_item filter try_volume) w1)) as [[c|]|e|].
  - by destruct (stream_left_rest t0 _ w2 [Ok c] (IH v' w2 Hs2)) as [H1 H2].
  - by destruct (stream_left_rest t0 _ w2 [] (IH v' w2 Hs2)) as [H1 H2].
  - by destruct (stream_left_rest t0 _ w2 [Err e] (IH v' w2 Hs2)) as [H1 H2].
  - by destruct (stream_left_drop t0 v' w2 Hs2) as [H1 H2].
Qed.
End stream.

Lemma keeps_volumes_stream (P : table -> Prop) fuel filter :
  (forall (P : table -> Prop) path, keeps P (filter path)) -> keeps P (volumes_stream fuel filter).
Proof.
  intros Hfilter W h table_of Ht w _.
  destruct (inner_stream_searching h table_of filter (table_of w) fuel None w Hfilter eq_refl) as [Hr Hl].
  unfold volumes_stream, mbind, io_bind. rewrite respects_bind, snd_exec_bind.
  destruct (fst (exec h (inner_stream fuel filter None) w)) as [[items v]|e|]; [|by split..].
  destruct (volumes_drop_searching (E := Error) h table_of (table_of w) v _ Hl) as [Hr' Hd].
  rewrite respects_bind, snd_exec_bind.
  by destruct (fst (exec h (volumes_drop v) (snd (exec h (inner_stream fuel filter None) w)))).
Qed.

(** C33: the counters of the disks close every device they open and the
    search over the volumes, once, whether the stream ends, is cut off or
    unwinds; usage and partitions open nothing: the table of handles is as
    before. *)
Theorem win_disk_handles `{Widestring} (P : table -> Prop) fuel path :
  keeps P (win_disk_io_counters fuel) /\ keeps P (win_disk_io_counters_physical fuel) /\
  keeps P (win_usage path) /\ keeps P win_partitions /\ keeps P win_partitions_physical.
Proof.
  assert (Hparts : keeps P win_partitions).
  { unfold win_partitions, drives_new. keeps_all. apply keeps_try_filter_map. intros drive.
    unfold win_partition, drive_information, drive_type_from_slice, volume_name. keeps_all. }
  split_and!.
  - apply keeps_volumes_stream. intros Q p. keeps_all.
  - apply keeps_volumes_stream. intros Q p. unfold drive_type_from_path, drive_type_from_slice. keeps_all.
  - unfold win_usage. keeps_all.
  - done.
  - unfold win_partitions_physical. keeps_all. done.
Qed.
End handles.

(** ** Partitions *)

Section partitions.
Context `{Profile} {W : Type} (h : handler W) (w : W).
Hypothesis Hsteady : steady h w.

(** The system: the type of a drive, and its volume, when it has one that can
    be read: flags, file system and, when it has one, name. *)
Variable kind_of : Z -> option DriveType.
Variable volume_of : Z -> option (Z * wide * option wide).
Variable code : Z.

Definition drive_code (t : option DriveType) : DWORD :=
  match t with
  | None => DRIVE_UNKNOWN
  | Some NoRootDir => DRIVE_NO_ROOT_DIR
  | Some Removable => DRIVE_REMOVABLE
  | Some Fixed => DRIVE_FIXED
  | Some Remote => DRIVE_REMOTE
  | Some CdRom => DRIVE_CDROM
  | Some RamDisk => DRIVE_RAMDISK
  end.

Definition has_drives (letters : list Z) : Prop :=
  let size := Z.of_nat (4 * length letters + 1) in
  fst (h _ (Win (GetLogicalDriveStringsW None 0)) w) = (size, []) /\
  fst (h _ (Win (GetLogicalDriveStringsW (Some size) size)) w) =
    ((size - 1)%Z, concat (map drive_units letters) ++ [0%Z]).
Definition has_volume (letter : Z) : Prop :=
  let drive := drive_units letter in
  fst (h _ (Win (GetDriveTypeW drive)) w) = drive_code (kind_of letter) /\
  match volume_of letter with
  | Some (flags, fs, name) =>
      fst (h _ (Win (GetVolumeInformationW drive (WIN_MAX_PATH + 1))) w) = (1%Z, (flags, fs ++ [0%Z])) /\
      (0%Z ∉ fs) /\ length fs <= 260 /\
      match name with
      | Some name =>
          fst (h _ (Win (GetVolumeNameForVolumeMountPointW drive VOLUME_MAX_LEN)) w) = (1%Z, name ++ [0%Z]) /\
          (0%Z ∉ name) /\ length name < 50
      | None => fst (h _ (Win (GetVolumeNameForVolumeMountPointW drive VOLUME_MAX_LEN)) w) = (0%Z, [])
      end
  | None => fst (h _ (Win (GetVolumeInformationW drive (WIN_MAX_PATH + 1))) w) = (0%Z, (0%Z, []))
  end.
Hypothesis Hmode : forall mode, fst (fst (h _ (Win (SetThreadErrorMode mode)) w)) = 1%Z.
Hypothesis Hcode : fst (h _ GetErrno w) = code.

(** What is reported for a drive. *)
Definition partition_of (letter : Z) : option (result WinPartition) :=
  match volume_of letter with
  | Some (flags, fs, name) =>
      Some (Ok (mkWinPartition name [letter; 58; 92]%Z (kind_of letter) (flags_from_bits_truncate flags)
                  (fs_match (from_utf16_lossy fs) fs_names)))
  | None =>
      if decide (kind_of letter = Some CdRom \/ kind_of letter = Some Removable) then None
      else Some (Err (last_os_error code))
  end.

Lemma up_to_null_text n (s : wide) : 0%Z ∉ s -> length s < n -> up_to_null (take n (s ++ [0%Z])) = s.
Proof.
  intros Hs Hn. rewrite take_ge by (rewrite length_app; cbn; lia). by apply up_to_null_app.
Qed.
Lemma win_partition_result letter :
  has_volume letter ->
  result_of h (win_partition (drive_units letter)) w =
  match partition_of letter with
  | Some (Ok p) => Ok (Some p)
  | Some (Err e) => Err e
  | Some Panic => Panic
  | None => Ok None
  end.
Proof.
  intros [Htype Hvol].
  assert (Hdt : result_of h (drive_type_from_slice (E := Error) (drive_units letter)) w = Ok (kind_of letter)).
  { unfold drive_type_from_slice. rewrite bool_decide_eq_true_2 by done. rewrite andb_false_r. run.
    rewrite Htype. by destruct (kind_of letter) as [[]|]. }
  assert (Hinfo : result_of h (drive_information (drive_units letter)) w =
    match volume_of letter with
    | Some (flags, fs, _) =>
        Ok (Some (kind_of letter, flags_from_bits_truncate flags, fs_match (from_utf16_lossy fs) fs_names))
    | None => if decide (kind_of letter = Some CdRom \/ kind_of letter = Some Removable) then Ok None
              else Err (last_os_error code)
    end).
  { unfold drive_information. run. rewrite Hdt. cbn [mbind res_bind]. run.
    pose proof (Hmode SEM_FAILCRITICALERRORS) as Hm.
    destruct (fst (h _ (Win (SetThreadErrorMode SEM_FAILCRITICALERRORS)) w)) as [m old]. cbn [fst] in Hm. subst m.
    cbn [Z.eqb]. run. destruct (volume_of letter) as [[[flags fs] name]|].
    - destruct Hvol as (Hv & Hfs & Hlen & _). rewrite Hv. run. pose proof (Hmode old) as Hm.
      destruct (fst (h _ (Win (SetThreadErrorMode old)) w)) as [m old']. cbn [fst] in Hm. subst m.
      cbn [Z.eqb]. unfold fs_from_str. change (Z.to_nat (WIN_MAX_PATH + 1)) with 261. run.
      by rewrite up_to_null_text by (done || lia).
    - rewrite Hvol. run. pose proof (Hmode old) as Hm.
      destruct (fst (h _ (Win (SetThreadErrorMode old)) w)) as [m old']. cbn [fst] in Hm. subst m.
      cbn [Z.eqb]. destruct (decide (kind_of letter = Some CdRom)) as [Hc|Hc];
        [by rewrite decide_True by auto|].
      destruct (decide (kind_of letter = Some Removable)) as [Hr|Hr]; [by rewrite decide_True by auto|].
      rewrite decide_False by tauto. unfold last_error. run. by rewrite Hcode. }
  unfold win_partition, partition_of. run. rewrite Hinfo.
  destruct (volume_of letter) as [[[flags fs] name]|]; [|by case_decide].
  destruct Hvol as (_ & _ & _ & Hname). cbn [mbind res_bind]. run. unfold volume_name. run.
  destruct name as [name|].
  - destruct Hname as (Hn & Hnull & Hlen). rewrite Hn. cbn [Z.eqb].
    change (Z.to_nat VOLUME_MAX_LEN) with 50. run. by rewrite up_to_null_text by (done || lia).
  - rewrite Hname. cbn [Z.eqb]. unfold last_error. run. done.
Qed.

(** [partitions] goes over the drives in the order of the system and
    reports each one whose volume can be read, with its type, the flags that
    are known, its file system and, when it has one, its name; a drive for
    optical or removable media that has none is left out, for every other one
    the error is an item.  [partitions_physical] leaves out the drives without
    a root, on a network or in memory and those of unknown type. *)
Theorem win_partitions_spec letters :
  Forall (fun l => 65 <= l <= 90)%Z letters -> has_drives letters -> Forall has_volume letters ->
  letters <> [] ->
  result_of h win_partitions w = Ok (omap partition_of letters) /\
  result_of h win_partitions_physical w =
    Ok (List.filter (fun p => match p with Ok p => physical_drive (drive_type p) | _ => true end)
          (omap partition_of letters)).
Proof.
  intros Hok [Hsize Hbuf] Hvols Hne.
  assert (Hparts : result_of h win_partitions w = Ok (omap partition_of letters)).
  { unfold win_partitions, drives_new. run. rewrite Hsize.
    destruct (Z.eqb_spec (Z.of_nat (4 * length letters + 1)) 0); [lia|]. run. rewrite Hbuf.
    destruct (Z.eqb_spec (Z.of_nat (4 * length letters + 1) - 1) 0) as [Hz|_];
      [destruct letters; [done|cbn in Hz; lia]|].
    rewrite Z.sub_add, Z.eqb_refl, andb_false_r, Nat2Z.id. run.
    assert (Hl : length (concat (map drive_units letters)) = 4 * length letters).
    { clear. induction letters as [|l letters IH]; [done|]. cbn [map concat]. rewrite length_app, IH. cbn. lia. }
    rewrite take_ge by (rewrite length_app, Hl; cbn; lia).
    unfold drives_from. rewrite drives_all_letters by done.
    cbn [mbind res_bind expect]. run. rewrite result_bind by done. cbn [result_of fst exec]. f_equal.
    rewrite result_try_filter_map by done.
    clear -Hsteady Hmode Hcode Hvols. induction Hvols as [|l letters Hl Hvols IH]; [done|].
    cbn [map omap list_omap mbind res_bind]. rewrite win_partition_result by done.
    destruct (partition_of l) as [[p|e|]|] eqn:Hp; cbn [item_of until_panic]; [by rewrite <- IH..| |exact IH].
    unfold partition_of in Hp. repeat case_match; simplify_eq. }
  split; [done|]. unfold win_partitions_physical. run. rewrite Hparts. done.
Qed.
End partitions.

(** A fixed disk, an optical drive without a disc, a network drive that is
    gone. *)
Definition demo_drives : handler unit := windows (fun R c =>
  match c in win_call R return R with
  | GetLogicalDriveStringsW None _ => (13%Z, [])
  | GetLogicalDriveStringsW (Some _) _ => (12%Z, concat (map drive_units [67; 68; 78]%Z) ++ [0%Z])
  | GetDriveTypeW p => if bool_decide (p = drive_units 67) then DRIVE_FIXED
                       else if bool_decide (p = drive_units 68) then DRIVE_CDROM else DRIVE_REMOTE
  | SetThreadErrorMode m => (1, 0)%Z
  | GetVolumeInformationW p _ =>
      if bool_decide (p = drive_units 67) then (1%Z, (7%Z, wide_lit "NTFS" ++ [0%Z])) else (0%Z, (0%Z, []))
  | GetVolumeNameForVolumeMountPointW p _ => (1%Z, wide_lit "\\?\Volume{1}\" ++ [0%Z])
  | c => win_refused c
  end).
Lemma win_partitions_spec_witness :
  result_of demo_drives (@win_partitions true) tt =
  Ok [Ok (mkWinPartition (Some (wide_lit "\\?\Volume{1}\")) (wide_lit "C:\") (Some Fixed) 7 Ntfs);
      Err (last_os_error 0)].
Proof.
  refine (eq_trans (proj1 (@win_partitions_spec true unit demo_drives tt (windows_steady _ _)
    (fun l => if (l =? 67)%Z then Some Fixed else if (l =? 68)%Z then Some CdRom else Some Remote)
    (fun l => if (l =? 67)%Z then Some (7%Z, wide_lit "NTFS", Some (wide_lit "\\?\Volume{1}\")) else None)
    0%Z (fun mode => eq_refl) eq_refl [67; 68; 78]%Z _ _ _ _)) _).
  - repeat constructor; done.
  - by split.
  - repeat constructor; cbn; try (by apply (bool_decide_unpack _); vm_compute); lia.
  - done.
  - reflexivity.
Defined.
