(* ===== verification/ProcessApiSpec.v ===== *)
(** * The public API of heim-process: what it promises of signals

    The documentation of [suspend], [resume], [terminate] and [kill] promises
    that the process is checked for a reused pid first.  [identity_contract]
    states this of a back end: the check, and then exactly the signal of the
    operation; [ChecksIdentity] is what an implementation has to show for it,
    by equations between programs.  The back end of Windows does not check:
    [windows_identity_unchecked] says what it calls instead. *)

From S2P Require Import Prelude RustStr Layout RustFloat Units Errors WinCalls MacCalls Sys Streams ProcFs Cpu Net Host.
From S2P Require Import Signal MacSys Process ProcessSpec MacProcess MacCpu WinCommon WinCpu CpuApi WinProcess ProcessApi.
From S2P Require Import ProcFsSpec ProcFsText MacProcessSpec WinProcessSpec.

(** The calls that act on a process; signal 0 only asks whether it exists. *)
Definition acts_on_process (e : event) : Prop :=
  match e with
  | EvKill _ sig => sig <> 0%Z
  | EvWin (TerminateProcess _ _) | EvWin (NtSuspendProcess _) | EvWin (NtResumeProcess _) => True
  | _ => False
  end.

(** ** What the documentation promises where processes have signals *)

(** A signal that is sent: what [kill] answers, and the calls that are made. *)
Definition signal_sent {W} (h : handler W) (pid sig : Z) (w : W) : process_result () * list event :=
  let '(status, w') := h _ (Sys.Kill pid sig) w in
  if (status =? 0)%Z then (Ok (), [EvKill pid sig])
  else
    let code := fst (h _ GetErrno w') in
    (Err (if (code =? errno.ESRCH)%Z then NoSuchProcess pid
          else if (code =? errno.EPERM)%Z then AccessDenied pid
          else process_from_io (Os code)),
     [EvKill pid sig; EvErrno]).

Section contract.
Context `{OrderedFloat}.

(** Whatever the system answers: the process with this pid is looked up, and
    nothing is done to any process before it is known to be the one this value
    stands for.  If it is, this signal is sent to this pid, once, and nothing
    else happens; if it is not, nothing is done at all. *)
Definition signal_contract (B : Backend) (act : Process -> io ProcessError ()) (sig : Z) : Prop :=
  forall self W (h : handler W) w,
  let '(found, w') := exec h (api_get (api_pid self)) w in
  let looked_up := trace h (api_get (api_pid self)) w in
  Forall (fun e => ~ acts_on_process e) looked_up /\
  match found with
  | Ok (Some other) =>
      if process_eq other self then
        let '(answer, sent) := signal_sent h (api_pid self) sig w' in
        result_of h (act self) w = answer /\ trace h (act self) w = looked_up ++ sent
      else result_of h (act self) w = Err (NoSuchProcess (api_pid self)) /\ trace h (act self) w = looked_up
  | Ok None => False
  | Err e => result_of h (act self) w = Err e /\ trace h (act self) w = looked_up
  | Panic => result_of h (act self) w = Panic /\ trace h (act self) w = looked_up
  end.
Definition identity_contract `{LibcSignals} (B : Backend) : Prop :=
  signal_contract B api_suspend SIGSTOP /\ signal_contract B api_resume SIGCONT /\
  signal_contract B api_terminate SIGTERM /\ signal_contract B api_kill SIGKILL.

(** ** What a back end shows for it *)

Definition checked {B : Backend} (act : Process -> io ProcessError ()) (deliver : Process -> io ProcessError ()) : Prop :=
  forall self, act self ≈
    (found ← sys_get (proc_pid self);
     match found with
     | Some other => if process_eq other self then deliver self else fails (NoSuchProcess (proc_pid self))
     | None => lift Panic
     end).
Definition kills `{LibcSignals} (s : Signal) (self : Process) : io ProcessError () := pid_kill (proc_pid self) s.
Class ChecksIdentity `{LibcSignals} (B : Backend) : Prop := {
  get_quiet pid : calls (fun e => ~ acts_on_process e) (sys_get pid);
  get_ends pid W (h : handler W) w : result_of h (sys_get pid) w <> Ok None;
  suspend_checked : checked sys_suspend (kills Stop);
  resume_checked : checked sys_resume (kills Cont);
  terminate_checked : checked sys_terminate (kills Term);
  kill_checked : checked sys_kill (kills Signal.Kill);
}.

Lemma pid_kill_sent `{LibcSignals} {W} (h : handler W) pid s w :
  (result_of h (pid_kill pid s) w, trace h (pid_kill pid s) w) = signal_sent h pid (signal_into s) w.
Proof.
  unfold pid_kill, signal_sent, result_of. cbn. destruct (h _ (Sys.Kill _ _) w) as [status w'].
  destruct (status =? 0)%Z; [done|]. cbn. destruct (h _ GetErrno w') as [code w'']. cbn.
  by repeat case_match.
Qed.
Lemma checked_contract `{LibcSignals} (B : Backend) `{!ChecksIdentity B} act s :
  checked act (kills s) -> signal_contract B act (signal_into s).
Proof.
  intros Hd self W h w. unfold api_get, api_pid. destruct (Hd self W h w) as [Hexec Htrace].
  unfold result_of. rewrite Hexec, Htrace, exec_io_bind, trace_io_bind. clear Hexec Htrace.
  pose proof (get_quiet (proc_pid self) W h w) as Hq. pose proof (get_ends (proc_pid self) W h w) as Hends.
  unfold result_of in Hends. destruct (exec h (sys_get (proc_pid self)) w) as [found w']. split; [done|].
  destruct found as [[other|]|e|]; [destruct (process_eq other self)|done|..];
    [|by cbn; rewrite app_nil_r..].
  pose proof (pid_kill_sent h (proc_pid self) s w') as Hs. destruct (signal_sent _ _ _ _) as [answer sent].
  injection Hs as Hr <-. split; [exact Hr|done].
Qed.
Lemma checks_identity_contract `{LibcSignals} (B : Backend) `{!ChecksIdentity B} : identity_contract B.
Proof.
  split_and!; [apply (checked_contract B sys_suspend Stop), suspend_checked|apply (checked_contract B sys_resume Cont), resume_checked
    |apply (checked_contract B sys_terminate Term), terminate_checked|apply (checked_contract B sys_kill Signal.Kill), kill_checked].
Qed.
End contract.

(** ** Linux and macOS *)

(** Follows a program down to calls that do not act on a process. *)
Ltac quiet :=
  unfold lift, mret, io_ret, fails;
  repeat first [calls_step; try (cbn; tauto) | case_match | case_decide].

(** A signal after [is_running], by the equations of programs. *)
Lemma checked_signal `{OrderedFloat} {E A} (p : io E Process) (test : Process -> bool) (deliver other : io E A) :
  (running ← (other ← p; mret (test other)); if running : bool then deliver else other) ≈
  (found ← always p; match found with Some o => if test o then deliver else other | None => lift Panic end).
Proof.
  etransitivity; [apply io_bind_assoc|]. symmetry. etransitivity; [apply io_fmap_bind|]. done.
Qed.

Lemma always_ends {W E A} (h : handler W) (p : io E A) w : result_of h (always p) w <> Ok None.
Proof. unfold always, fmap, io_fmap, result_of. rewrite exec_bind. by destruct (exec h p w) as [[]]. Qed.

#[export] Instance linux_checks `{Profile, Units, Statics, Roots, Fmt, Memchr, OrderedFloat, LibcSignals} fuel :
  ChecksIdentity (linux_backend fuel).
Proof.
  split; [|intros; apply always_ends|intros self; apply (checked_signal _ _ _ (fails _))..].
  intros pid. apply calls_fmap. unfold get, stat, boot_time, read_to_string. quiet.
Qed.

#[export] Instance mac_checks `{Profile, Units, Statics, OrderedFloat, LibcSignals, Memchr, MemchrIter, Endian, Darwin} fuel :
  ChecksIdentity (mac_backend fuel).
Proof.
  split; [|intros; apply always_ends|intros self; apply (checked_signal _ _ _ (fails _))..].
  intros pid. apply calls_fmap. unfold mac_get, or_zombie, bindings_process, catch_zombie, unix_pid_exists. quiet.
Qed.

(** C4: on Linux and on macOS the public [suspend], [resume], [terminate]
    and [kill] keep what their documentation promises, whatever the system
    answers and however it changes meanwhile: the pid is looked up first,
    without acting on any process; a reused pid gives [NoSuchProcess] and
    nothing is done, as with an error of the look-up.  Otherwise [SIGSTOP],
    [SIGCONT], [SIGTERM] and [SIGKILL] are sent, each once and to this pid, and
    the answer of [kill] is the result. *)
Theorem api_identity_contract `{Profile, Units, Statics, Roots, Fmt, Memchr, MemchrIter, OrderedFloat, LibcSignals, Endian, Darwin} fuel :
  identity_contract (linux_backend fuel) /\ identity_contract (mac_backend fuel).
Proof. split; apply checks_identity_contract; apply _. Qed.

(** ** CPU usage *)

(** On every back end the CPU usage of a process joins its times and
    the number of CPUs: for every order in which the system answers, the
    measurement has the two values that the queries give on their own and the
    time after both, and when one fails the result is the error of one that
    failed. *)
Theorem api_cpu_usage_any_schedule `{Backend, Units} {W} (h : handler W) w self schedule :
  steady h w ->
  measured h w (fun t n now => mkProcessCpuUsage n t now)
    (result_of h (api_cpu_time self) w) (map_err LoadError (result_of h sys_logical_count w))
    (result_of h (api_cpu_usage schedule self) w).
Proof. intros Hst. rewrite <- result_map_err by done. by apply try_join_measured. Qed.

(** ** Commands *)

Section commands.
Context `{Backend}.

(** [command.into_iter().collect()], through the public iterator. *)
Fixpoint api_collect (fuel : nat) (it : CommandIterData) : result (option (list ArgText)) :=
  match fuel with
  | O => Ok None
  | S fuel =>
      '(arg, it) ← api_command_next it;
      match arg with
      | None => Ok (Some [])
      | Some arg => args ← api_collect fuel it; Ok (fmap (M := option) (cons arg) args)
      end
  end.
(** A command shows these arguments: its text is the arguments joined by
    [join], its iterator gives them and ends. *)
Definition shows (join : list ArgText -> ArgText) (c : CommandData) (args : list ArgText) : Prop :=
  api_to_os_string c = Ok (join args) /\ api_into_os_string c = Ok (join args) /\
  exists it fuel, api_command_into_iter c = Ok it /\ api_collect fuel it = Ok (Some args).
End commands.

Lemma linux_collect `{Profile, Units, Statics, Roots, Fmt, Memchr, OrderedFloat, LibcSignals} n fuel it args :
  command_collect fuel it = Some args -> api_collect (H0 := linux_backend n) fuel it = Ok (Some args).
Proof.
  revert it args. induction fuel as [|fuel IH]; intros it args; [done|]. cbn [command_collect api_collect].
  unfold api_command_next. cbn [linux_backend sys_command_next mbind res_bind].
  destruct (command_next it) as [[arg|] it']; [|by intros [= <-]].
  destruct (command_collect fuel it') as [args'|] eqn:Ha; [|done]. intros [= <-]. by rewrite (IH _ _ Ha).
Qed.
Lemma mac_collect `{Profile, Units, Statics, OrderedFloat, LibcSignals, Memchr, MemchrIter, Endian, Darwin} n fuel it args :
  arguments_collect (E := Error) fuel it = Some (Ok args) -> api_collect (H0 := mac_backend n) fuel it = Ok (Some args).
Proof.
  revert it args. induction fuel as [|fuel IH]; intros it args; [done|]. cbn [arguments_collect api_collect].
  unfold api_command_next. cbn [mac_backend sys_command_next mbind res_bind].
  destruct (arguments_next it) as [[[arg|] it']|e|]; [|by intros [= <-]|done..]. cbn [mbind res_bind].
  destruct (arguments_collect fuel it') as [[args'|e|]|] eqn:Ha; [|done..].
  intros [= <-]. by rewrite (IH _ _ Ha).
Qed.

(** C7: the public [Command] shows the arguments that the process was started
    with, as text joined by single spaces and one by one: on Linux from what the
    kernel writes to [cmdline], on macOS - where the first argument must not be
    empty, since an empty one is taken for padding - from the block of
    [KERN_PROCARGS2] with the path, the padding and the environment around them.
    On Windows there is no text, asking for it panics, and there are no
    arguments. *)
Theorem api_command_shows `{Profile, Units, Statics, Roots, Fmt, Memchr, MemchrIter, OrderedFloat, LibcSignals, Endian, Darwin}
    `{!MemchrLaws, !MemchrIterLaws, NtLayout} n a args exe pad env junk :
  Forall (fun x => NUL ∉ x) (a :: args) -> NUL ∉ exe -> Forall env_wf env ->
  (Z.of_nat (S (length args)) < 2 ^ 32)%Z ->
  shows (H0 := linux_backend n) unwords (command_from (cmdline_text (a :: args))) (a :: args) /\
  (a <> [] -> shows (H0 := mac_backend n) unwords
    (procargs_block (Z.of_nat (S (length args))) exe pad ((a :: args) ++ map env_string env) (NUL :: junk)) (a :: args)) /\
  (forall c : @CommandData _ (windows_backend n),
     api_to_os_string c = Panic /\ api_into_os_string c = Panic /\
     exists it, api_command_into_iter c = Ok it /\ api_collect 1 it = Ok (Some [])).
Proof.
  intros Hargs He Henv Hlen. split_and!.
  - split_and!.
    + change (Ok (E := Error) (to_os_string (command_from (cmdline_text (a :: args)))) = Ok (unwords (a :: args))).
      unfold to_os_string. rewrite command_from_text. f_equal. by apply with_spaces_text.
    + change (Ok (E := Error) (into_os_string (command_from (cmdline_text (a :: args)))) = Ok (unwords (a :: args))).
      unfold into_os_string. rewrite command_from_text. f_equal. by apply with_spaces_text.
    + do 2 eexists. split; [done|]. apply linux_collect.
      unfold into_iter. rewrite command_from_text.
      rewrite (command_collect_spec _ _ _ _ (cmdline_text (a :: args))); [|done|apply Nat.lt_succ_diag_r].
      cbn [as_char]. rewrite split_cmdline_text by done. by rewrite removelast_last.
  - intros Ha. destruct (block_reads (E := Error) (Z.of_nat (S (length args))) exe pad a args (map env_string env) (NUL :: junk))
      as (_ & Hr & Ht & _); [done|lia|done|done|apply Forall_app; split; [done|by apply env_strings_ok]|].
    split_and!; [exact Ht..|]. unfold procargs_args in Hr.
    destruct (procargs_arguments _) as [it|e|] eqn:Hi; [|done..]. exists it. eexists. split; [exact Hi|].
    apply mac_collect. exact Hr.
  - intros []. split_and!; [done..|]. by eexists.
Qed.

(** ** Windows *)

(** A process 8 that was created at time [t], and may be opened. *)
Definition reused : handler Z := fun R c t =>
  (match c in call R return R with
   | Win c => match c in win_call R return R with
              | OpenProcess _ _ => 16%Z
              | CloseHandle _ => 1%Z
              | GetExitCodeProcess _ => (1%Z, STILL_ACTIVE)
              | GetProcessTimes _ => (1%Z, (mkFileTime t 30800000, mkFileTime 0 0, mkFileTime 0 0, mkFileTime 0 0))
              | TerminateProcess _ _ => 1%Z
              | NtSuspendProcess _ => 0%Z
              | NtResumeProcess _ => 0%Z
              | GetActiveProcessorCount => 4%Z
              | c => win_refused c
              end
   | c => fst (snapshot (fun _ => Err (Os errno.ENOENT)) (fun _ => []) _ c tt)
   end, t).

Definition test_windows : @Backend checked_float := @windows_backend true si_units checked_float small_layout 5.
Lemma api_cpu_usage_any_schedule_witness :
  exists p t, result_of reused (@api_get _ test_windows 8) 100%Z = Ok (Some p) /\
    result_of reused (@api_cpu_usage _ test_windows [true; false] p) 100%Z
    = Ok (@mkProcessCpuUsage _ test_windows 4 t 0).
Proof.
  do 2 eexists. split; [vm_compute; reflexivity|].
  match goal with |- result_of _ (api_cpu_usage _ ?p) _ = _ =>
    pose proof (@api_cpu_usage_any_schedule _ test_windows si_units Z reused 100%Z p [true; false]
      ltac:(by intros R [])) as Hm;
    change (result_of reused (@api_cpu_time _ test_windows p) 100%Z)
      with (result_of reused (@win_cpu_time si_units checked_float p) 100%Z) in Hm
  end.
  change (result_of reused (@sys_logical_count _ test_windows) 100%Z)
    with (result_of reused win_logical_count 100%Z) in Hm.
  assert (Hn : result_of reused win_logical_count 100%Z = Ok 4%Z) by (vm_compute; reflexivity).
  rewrite Hn in Hm.
  match type of Hm with measured _ _ _ ?time _ _ =>
    let t := eval vm_compute in time in assert (Ht : time = t) by (vm_compute; reflexivity)
  end.
  rewrite Ht in Hm. exact Hm.
Defined.

(** On the process that has the pid of the value, whichever it is: a handle to
    it with these rights is opened, the call is made with the handle, and it is
    closed.  When none of the three is refused the operation succeeds, and these
    are all the calls. *)
Definition delivers_to_pid `{OrderedFloat} (op : Process -> io ProcessError ()) (T : permission) (act : HANDLE -> win_call Z)
    (granted : Z -> Prop) : Prop :=
  forall self W (h : handler W) w, proc_pid self <> 0%Z ->
  let '(hd, w1) := h _ (Win (OpenProcess (ACCESS T) (proc_pid self))) w in
  hd <> 0%Z -> hd <> INVALID_HANDLE_VALUE ->
  let '(status, w2) := h _ (Win (act hd)) w1 in
  granted status ->
  let '(closed, w3) := h _ (Win (CloseHandle hd)) w2 in
  closed <> 0%Z ->
  exec h (op self) w = (Ok (), w3) /\
  trace h (op self) w = [EvWin (OpenProcess (ACCESS T) (proc_pid self)); EvWin (act hd); EvWin (CloseHandle hd)].

Lemma owning_delivers `{OrderedFloat} {T} (op : Process -> io ProcessError ()) act granted (body : ProcessHandle T -> io ProcessError ()) :
  (forall self, proc_pid self <> 0%Z -> op self = (handle ← for_rights T (proc_pid self); owning handle (body handle))) ->
  (forall hd W (h : handler W) w, granted (fst (h _ (Win (act (handle hd))) w)) ->
     exec h (body hd) w = (Ok (), snd (h _ (Win (act (handle hd))) w)) /\ trace h (body hd) w = [EvWin (act (handle hd))]) ->
  delivers_to_pid op T act granted.
Proof.
  intros Hop Hbody self W h w Hpid. rewrite Hop by done. unfold for_rights, open, owning, with_handle, handle_new.
  rewrite (proj2 (Z.eqb_neq _ _) Hpid). cbn [mbind io_bind ask prog_bind exec trace]. unfold mbind, io_bind. cbn.
  destruct (h _ (Win (OpenProcess _ _)) w) as [hd w1]. intros Hn Hi.
  rewrite (proj2 (Z.eqb_neq _ _) Hn). cbn. rewrite (proj2 (Z.eqb_neq _ _) Hi). cbn.
  pose proof (Hbody (mkProcessHandle hd (proc_pid self)) W h w1) as Hb. cbn [handle] in Hb.
  destruct (h _ (Win (act hd)) w1) as [status w2]. intros Hg. cbn [fst snd] in Hb. destruct (Hb Hg) as [He Ht].
  destruct (h _ (Win (CloseHandle hd)) w2) as [closed w3] eqn:Hc. intros Hcl.
  rewrite exec_bind, trace_bind, He, Ht. cbn. rewrite Hc. cbn. by rewrite (proj2 (Z.eqb_neq _ _) Hcl).
Qed.

Section windows.
Context `{Profile, Units, OrderedFloat, NtLayout}.

Definition accepted (status : Z) : Prop := status = ntstatus.STATUS_SUCCESS.
Definition nonzero (status : Z) : Prop := status <> 0%Z.
Lemma windows_delivers fuel :
  delivers_to_pid (api_suspend (H0 := windows_backend fuel)) SuspendResume NtSuspendProcess accepted /\
  delivers_to_pid (api_resume (H0 := windows_backend fuel)) SuspendResume NtResumeProcess accepted /\
  delivers_to_pid (api_terminate (H0 := windows_backend fuel)) Termination (fun hd => TerminateProcess hd 15) nonzero /\
  delivers_to_pid (api_kill (H0 := windows_backend fuel)) Termination (fun hd => TerminateProcess hd 15) nonzero.
Proof.
  assert (Hsr : forall (call : HANDLE -> win_call Z) name hd W (h : handler W) w, accepted (fst (h _ (Win (call hd)) w)) ->
    let body := io_map_err LoadError (result ← ask (Win (call hd));
      if negb (result =? ntstatus.STATUS_SUCCESS)%Z then last_ffi_error id name else mret ()) in
    exec h body w = (Ok (), snd (h _ (Win (call hd)) w)) /\ trace h body w = [EvWin (call hd)]).
  { intros call name hd W h w. cbn. unfold accepted. destruct (h _ (Win (call hd)) w) as [st w']. cbn. intros ->. done. }
  assert (Hterm : delivers_to_pid win_kill Termination (fun hd => TerminateProcess hd 15) nonzero).
  { apply (owning_delivers _ _ _ handle_terminate); [done|]. intros hd W h w. unfold handle_terminate, nonzero. cbn.
    destruct (h _ (Win (TerminateProcess _ _)) w) as [st w']. cbn. intros Hst. by rewrite (proj2 (Z.eqb_neq _ _) Hst). }
  split_and!; [| |exact Hterm..].
  - apply (owning_delivers _ _ _ (fun hd => io_map_err LoadError (handle_suspend hd))); [done|]. intros hd. apply (Hsr _ "NtSuspendProcess"%string).
  - apply (owning_delivers _ _ _ (fun hd => io_map_err LoadError (handle_resume hd))); [done|]. intros hd. apply (Hsr _ "NtResumeProcess"%string).
Qed.
End windows.

(** C17: on Windows the same functions do not keep that promise.  The process
    is not looked up: a handle with the rights for it is opened to whatever
    process has the pid, and that one is suspended, resumed or terminated with
    the exit code 15.  So there is a system in which the pid of a value belongs
    by now to a process with another creation time, which [get] finds and
    which is not equal to the value, and [terminate] and [kill] end it all the
    same, [suspend] and [resume] act on it, each with success. *)
Theorem windows_identity_unchecked `{Profile, Units, OrderedFloat, NtLayout} checks fuel :
  delivers_to_pid (api_suspend (H0 := windows_backend fuel)) SuspendResume NtSuspendProcess accepted /\
  delivers_to_pid (api_resume (H0 := windows_backend fuel)) SuspendResume NtResumeProcess accepted /\
  delivers_to_pid (api_terminate (H0 := windows_backend fuel)) Termination (fun hd => TerminateProcess hd 15) nonzero /\
  delivers_to_pid (api_kill (H0 := windows_backend fuel)) Termination (fun hd => TerminateProcess hd 15) nonzero /\
  let B := @windows_backend checks si_units checked_float small_layout fuel in
  exists self other : @Process checked_float,
    result_of reused (@api_get _ B 8) 100%Z = Ok (Some self) /\
    result_of reused (@api_get _ B 8) 20000100%Z = Ok (Some other) /\
    process_eq other self = false /\
    let ends op T act := result_of reused (op self) 20000100%Z = Ok (A := ()) (E := ProcessError) () /\
      trace reused (op self) 20000100%Z = [EvWin (OpenProcess (ACCESS T) 8); EvWin (R := Z) act; EvWin (CloseHandle 16)] in
    ends (@api_suspend _ B) SuspendResume (NtSuspendProcess 16) /\ ends (@api_resume _ B) SuspendResume (NtResumeProcess 16) /\
    ends (@api_terminate _ B) Termination (TerminateProcess 16 15) /\ ends (@api_kill _ B) Termination (TerminateProcess 16 15).
Proof.
  destruct (windows_delivers fuel) as (Hs & Hr & Ht & Hk). split_and!; [done..|]. intros B.
  destruct (result_of reused (@api_get _ B 8) 100%Z) as [[self|]|e|] eqn:Hself; [|vm_compute in Hself; congruence..].
  destruct (result_of reused (@api_get _ B 8) 20000100%Z) as [[other|]|e|] eqn:Hother; [|vm_compute in Hother; congruence..].
  exists self, other. vm_compute in Hself. injection Hself as <-. vm_compute in Hother. injection Hother as <-.
  by vm_compute.
Qed.

(** [sh -c ls] in an environment of one variable. *)
Definition test_mac : @Backend checked_float :=
  @mac_backend true si_units linux_statics checked_float linux_signals find_byte find_bytes true test_darwin 5.
Definition sh_block : str :=
  @procargs_block true 3 (lit "/bin/sh") 2 ([lit "sh"; lit "-c"; lit "ls"] ++ map env_string [(lit "T", lit "x")])
    (NUL :: lit "junk").
Lemma api_command_shows_witness :
  shows (H0 := test_mac) unwords sh_block [lit "sh"; lit "-c"; lit "ls"].
Proof.
  refine (proj1 (proj2 (@api_command_shows true si_units linux_statics default_roots (Build_Fmt show_int (fun p => p))
    find_byte find_bytes checked_float linux_signals true test_darwin find_byte_laws find_bytes_laws small_layout 5
    (lit "sh") [lit "-c"; lit "ls"] (lit "/bin/sh") 2 [(lit "T", lit "x")] (lit "junk") _ _ _ _)) _);
    first [done | apply (bool_decide_unpack _); vm_compute; exact I].
Defined.
