(* ===== verification/ProcessValue.v ===== *)
(** * A [Process] as a value: equality, [Hash], and what depends on them

    Equality compares the unique ids, whose times are floats: it is coarser than
    equality of the values (the two zeros).  On every platform the operations
    respect it - the creation time as a number, which the two zeros are one of -,
    and [Hash] too, so that a [Process] can be the key of a map. *)

From S2P Require Import Prelude RustStr Layout RustFloat Units Errors WinCalls MacCalls Sys Streams ProcFs Cpu Process.
From S2P Require Import MacSys MacCpu MacProcess WinCommon WinCpu WinProcess CpuApi ProcessApi Signal.
From S2P Require Import ProcFsSpec ProcFsText ProcessSpec MacProcessSpec WinProcessSpec.
From Stdlib Require Import SpecFloat.

(** ** What a program gives when it succeeds *)

Definition gives {E A} (Q : A -> Prop) (p : io E A) : Prop :=
  forall W (h : handler W) w a, fst (exec h p w) = Ok a -> Q a.

Lemma gives_ret {E A} (Q : A -> Prop) a : Q a -> gives (E := E) Q (mret a).
Proof. intros Ha W h w b. cbn. by intros [= <-]. Qed.
Lemma gives_fails {E A} (Q : A -> Prop) e : gives Q (fails e : io E A).
Proof. by intros W h w a. Qed.
Lemma gives_panic {E A} (Q : A -> Prop) : gives Q (lift Panic : io E A).
Proof. by intros W h w a. Qed.
Lemma gives_bind {E A B} (Q : A -> Prop) (R : B -> Prop) (p : io E A) (f : A -> io E B) :
  gives Q p -> (forall a, Q a -> gives R (f a)) -> gives R (p ≫= f).
Proof.
  intros Hp Hf W h w b. rewrite exec_io_bind. pose proof (Hp W h w) as Hq.
  destruct (exec h p w) as [[a|e|] w']; [|done..]. apply Hf, Hq. done.
Qed.
Lemma gives_then {E A B} (R : B -> Prop) (p : io E A) (f : A -> io E B) : (forall a, gives R (f a)) -> gives R (p ≫= f).
Proof. intros Hf. by apply (gives_bind (fun _ => True)). Qed.
Lemma gives_impl {E A} (Q R : A -> Prop) (p : io E A) : (forall a, Q a -> R a) -> gives Q p -> gives R p.
Proof. intros HQR Hp W h w a Ha. by eapply HQR, Hp. Qed.

(** ** Equality *)

Section value.
Context `{Units, OrderedFloat, !OrderedFloatLaws}.

Lemma notnan_refl n : notnan_eqb n n = true.
Proof. rewrite notnan_eqb_get. apply sfeqb_refl, notnan_get_nan. Qed.

Definition equal (a b : Process) : Prop := process_eq a b = true.
#[export] Instance equal_equivalence : Equivalence equal.
Proof.
  unfold equal, process_eq, unique_id_eq. split; intros a.
  - by rewrite bool_decide_true, notnan_refl.
  - intros b [Hp Hn]%andb_true_iff. apply bool_decide_eq_true_1 in Hp.
    rewrite notnan_eqb_get in *. by rewrite bool_decide_true, sfeqb_sym.
  - intros b c [Hp Hn]%andb_true_iff [Hp' Hn']%andb_true_iff.
    apply bool_decide_eq_true_1 in Hp, Hp'. rewrite notnan_eqb_get in *.
    rewrite bool_decide_true by congruence. by rewrite (sfeqb_trans _ _ _ Hn Hn').
Qed.
#[export] Instance process_eq_proper : Proper (equal ==> equal ==> eq) process_eq.
Proof.
  intros a a' Ha b b' Hb. apply eq_true_iff_eq. change (equal a b <-> equal a' b'). by rewrite Ha, Hb.
Qed.
#[export] Instance process_hash_proper : Proper (equal ==> eq) process_hash.
Proof.
  intros a b [Hp Hn]%andb_true_iff. apply bool_decide_eq_true_1 in Hp. unfold process_hash, unique_id_hash.
  by rewrite Hp, (notnan_hash_eq _ _ Hn).
Qed.

(** The [pid] of a process is kept twice; a process that was loaded has it
    twice the same. *)
Definition coherent (p : Process) : Prop := proc_pid p = uid_pid (unique_id p).
Definition same (a b : Process) : Prop := coherent a /\ coherent b /\ equal a b.
#[export] Instance same_per : RelationClasses.PER same.
Proof.
  split; [intros a b (Ha & Hb & Hab)|intros a b c (Ha & Hb & Hab) (_ & Hc & Hbc)]; split_and!; try done.
  by transitivity b.
Qed.
Lemma same_pid a b : same a b -> proc_pid a = proc_pid b.
Proof. intros (-> & -> & [Hp _]%andb_true_iff). by apply bool_decide_eq_true_1 in Hp. Qed.

Lemma gives_unique_id {E} pid t : gives (fun u => uid_pid u = pid) (lift (unique_id_new pid t) : io E _).
Proof. intros W h w u. cbn. unfold unique_id_new. by destruct (notnan_new _); intros [= <-]. Qed.
Definition coherent_with (pid : Z) (p : Process) : Prop := coherent p /\ proc_pid p = pid.
Lemma gives_process {E} pid t :
  gives (coherent_with pid) (u ← lift (unique_id_new pid t); mret (mkProcess pid u) : io E _).
Proof. eapply gives_bind; [apply gives_unique_id|]. intros u Hu. by apply gives_ret. Qed.
End value.

(** ** What a back end owes to its values *)

Section contract.
Context `{Units, OrderedFloat, !OrderedFloatLaws}.

Definition whenever {A} (Q : A -> Prop) (o : option A) : Prop := forall a, o = Some a -> Q a.
(** [op] cannot tell two values of the same process apart. *)
Definition respects {R} (op : Process -> io ProcessError R) : Prop := Proper (same ==> prog_equiv) op.

(** The creation time is the one operation that can: it gives the time that is
    kept in the value.  Those of equal values are equal as floats. *)
Definition kept_time (op : Process -> io ProcessError Time) : Prop :=
  forall a b, same a b -> exists x y, SFeqb x y = true /\ op a = mret (time_second x) /\ op b = mret (time_second y).
(** The items of a list of processes. *)
Definition items_coherent (l : list (process_result (option Process))) : Prop :=
  Forall (fun r => forall p, r = Ok (Some p) -> coherent p) l.

Record value_contract (B : Backend) : Prop := {
  get_value pid : gives (whenever (coherent_with pid)) (api_get pid);
  current_value : gives (whenever coherent) api_current;
  parent_value p : gives (whenever coherent) (api_parent p);
  processes_value : gives (E := Error) (whenever items_coherent) api_processes;
  same_api_pid a b : same a b -> api_pid a = api_pid b;
  kept_create_time : kept_time api_create_time;
  respects_parent_pid : respects api_parent_pid;
  respects_parent : respects api_parent;
  respects_name : respects api_name;
  respects_exe : respects api_exe;
  respects_command : respects api_command;
  respects_cwd : respects api_cwd;
  respects_status : respects api_status;
  respects_environment : respects api_environment;
  respects_cpu_time : respects api_cpu_time;
  respects_memory : respects api_memory;
  respects_is_running : respects api_is_running;
  respects_suspend : respects api_suspend;
  respects_resume : respects api_resume;
  respects_terminate : respects api_terminate;
  respects_kill : respects api_kill;
  respects_wait : respects api_wait;
  respects_io_counters : respects api_io_counters;
  respects_cpu_usage schedule : respects (api_cpu_usage schedule);
}.

(** The same of the extensions that a platform adds. *)
Definition unix_contract (U : UnixProcessExt) : Prop :=
  (forall s, respects (fun self => ext_signal self s)) /\ respects ext_niceness /\
  (forall value, respects (fun self => ext_set_niceness self value)).
Definition windows_contract (U : WindowsProcessExt) : Prop :=
  respects ext_priority /\ (forall value, respects (fun self => ext_set_priority self value)).

Lemma kept_time_of (op : Process -> io ProcessError Time) :
  (forall self, op self = mret (unique_id_create_time (unique_id self))) -> kept_time op.
Proof.
  intros Hop a b (_ & _ & [_ Hn]%andb_true_iff). rewrite !Hop. rewrite notnan_eqb_get in Hn. by do 2 eexists.
Qed.

(** The items of a stream that loads a process for each pid. *)
Lemma gives_then_items {A B} (Q : B -> Prop) (f : A -> io ProcessError B) l :
  (forall a, gives Q (f a)) ->
  forall W (h : handler W) w, Forall (fun r => forall b, r = Ok b -> Q b) (fst (exec h (then_items f l) w)).
Proof.
  intros Hf W h. induction l as [|x l IH]; intros w; cbn [then_items]; [constructor|]. rewrite exec_bind.
  assert (Hx : gives Q (match x with Ok a => f a | Err e => Ret (Err e) | Panic => Ret Panic end)).
  { destruct x as [a|e|]; [apply Hf|apply gives_fails|apply gives_panic]. }
  specialize (Hx W h w). destruct (exec h _ w) as [r w1]. cbn in Hx.
  destruct r as [b|e|]; [rewrite exec_bind..|by repeat constructor];
    specialize (IH w1); destruct (exec h (then_items f l) w1) as [rs w2]; cbn in *; constructor; try done.
Qed.
Lemma items_coherent_always (l : list (process_result Process)) :
  Forall (fun r => forall p, r = Ok p -> coherent p) l -> items_coherent (always_items l).
Proof.
  unfold items_coherent, always_items. intros Hl. apply Forall_map. eapply Forall_impl; [exact Hl|].
  intros [p|e|] Hp q; cbn; [|done..]. intros [= <-]. by apply Hp.
Qed.

(** An operation that uses the pid only. *)
Lemma by_pid {R} (op : Process -> io ProcessError R) :
  (forall pid u u', op (mkProcess pid u) = op (mkProcess pid u')) -> respects op.
Proof. intros Hop [pid u] [pid' u'] Hab. pose proof (same_pid _ _ Hab) as Hp. cbn in Hp. subst. by rewrite (Hop pid' u u'). Qed.
(** One that looks the pid up and compares. *)
Lemma by_comparison {A R} (find : Z -> io ProcessError A) (use : (Process -> bool) -> Z -> A -> io ProcessError R) :
  (forall eq eq' pid x, (forall q, eq q = eq' q) -> use eq pid x ≈ use eq' pid x) ->
  respects (fun self => x ← find (proc_pid self); use (fun q => process_eq q self) (proc_pid self) x).
Proof.
  intros Huse a b Hab. rewrite (same_pid _ _ Hab). apply io_bind_proper; [|done].
  intros x. apply Huse. intros q. by destruct Hab as (_ & _ & ->).
Qed.
(** One that does something when the value stands for a running process. *)
Lemma when_running {R} (running : Process -> io ProcessError bool) (act : Process -> io ProcessError R) other :
  respects running -> respects act -> (forall p q, same p q -> other p = other q) ->
  respects (fun self => r ← running self; if r : bool then act self else fails (other self)).
Proof.
  intros Hr Ha Ho a b Hab. apply io_bind_proper; [|by apply Hr]. intros []; [by apply Ha|]. by rewrite (Ho a b Hab).
Qed.
Lemma respects_always {R} (op : Process -> io ProcessError R) : respects op -> respects (fun p => always (op p)).
Proof.
  intros Hop a b Hab. unfold always, fmap, io_fmap. apply prog_bind_proper; [by apply Hop|done].
Qed.
Lemma gives_always {A} (Q : A -> Prop) (p : io ProcessError A) : gives Q p -> gives (whenever Q) (always p).
Proof.
  intros Hp W h w a. unfold always, fmap, io_fmap. rewrite exec_bind. pose proof (Hp W h w) as Hq.
  destruct (exec h p w) as [[b|e|] w']; [|done..]. intros [= <-] c [= <-]. by apply Hq.
Qed.
Lemma gives_none {A} (Q : A -> Prop) : gives (whenever Q) (mret None : io ProcessError (option A)).
Proof. by apply gives_ret. Qed.
Lemma coherent_whenever pid (p : io ProcessError (option Process)) :
  gives (whenever (coherent_with pid)) p -> gives (whenever coherent) p.
Proof. apply gives_impl. intros o Ho q Hq. by apply Ho. Qed.
Lemma parent_value_of (B : Backend) :
  (forall pid, gives (whenever (coherent_with pid)) (api_get pid)) -> forall p, gives (whenever coherent) (api_parent p).
Proof. intros Hget p. apply gives_then. intros [pid|]; [by eapply coherent_whenever, Hget|apply gives_none]. Qed.
Lemma respects_parent_of (B : Backend) : respects api_parent_pid -> respects api_parent.
Proof. intros Hp a b Hab. apply io_bind_proper; [done|by apply Hp]. Qed.
End contract.

(** The operations that use the pid only. *)
Ltac pid_only := apply by_pid; intros; reflexivity.

(** ** The back ends *)

Lemma exec_fmap {W E A B} (h : handler W) (k : A -> B) (p : io E A) w :
  exec h (k <$> p) w = let '(r, w') := exec h p w in (k <$> r, w').
Proof. unfold fmap at 1, io_fmap. rewrite exec_bind. by destruct (exec h p w). Qed.

Section linux.
Context `{Profile, Units, Statics, Roots, Fmt, Memchr, OrderedFloat, !OrderedFloatLaws, LibcSignals}.

Lemma linux_respects_running : respects is_running.
Proof. apply (by_comparison get (fun eq _ other => mret (eq other))). intros eq eq' pid x Heq. by rewrite Heq. Qed.
Lemma linux_respects_signal sig : respects (fun self => _signal self sig).
Proof.
  apply (when_running is_running (fun self => pid_kill (proc_pid self) sig)); [apply linux_respects_running|by apply by_pid|].
  intros p q Hpq. by rewrite (same_pid _ _ Hpq).
Qed.
Lemma linux_value fuel : value_contract (linux_backend fuel).
Proof.
  assert (Hget : forall pid, gives (coherent_with pid) (get pid)).
  { intros pid. apply gives_then. intros s. apply gives_process. }
  split; try pid_only.
  - intros pid. by apply gives_always.
  - apply gives_always, gives_then. intros pid. by apply (gives_impl (coherent_with pid)); [intros p []|].
  - apply parent_value_of. intros pid. by apply gives_always.
  - intros W h w o. unfold api_processes. cbn [linux_backend sys_processes]. unfold processes.
    rewrite exec_fmap, exec_io_bind. destruct (exec h pids w) as [[l|e|] w']; [|done..]. rewrite exec_bind.
    pose proof (gives_then_items coherent get (map (map_err LoadError) l) (fun pid => gives_impl _ _ _ (fun p Hp => proj1 Hp) (Hget pid)) W h w') as Hl.
    destruct (exec h (then_items _ _) w') as [rs w'']. cbn in *. intros [= <-] rs' [= <-]. by apply items_coherent_always.
  - apply same_pid.
  - by apply kept_time_of.
  - apply respects_always, linux_respects_running.
  - apply (linux_respects_signal Stop).
  - apply (linux_respects_signal Cont).
  - apply (linux_respects_signal Term).
  - apply (linux_respects_signal Signal.Kill).
  - intros schedule. pid_only.
Qed.
Lemma linux_ext_value : unix_contract linux_unix_ext.
Proof. split_and!; [exact linux_respects_signal|pid_only|intros; pid_only]. Qed.
End linux.

Section mac.
Context `{Profile, Units, Statics, OrderedFloat, !OrderedFloatLaws, LibcSignals, Memchr, MemchrIter, Endian, Darwin}.

Lemma mac_respects_running : respects mac_is_running.
Proof. apply (by_comparison mac_get (fun eq _ other => mret (eq other))). intros eq eq' pid x Heq. by rewrite Heq. Qed.
Lemma mac_respects_signal sig : respects (fun self => mac_signal self sig).
Proof.
  apply (when_running mac_is_running (fun self => pid_kill (proc_pid self) sig)); [apply mac_respects_running|by apply by_pid|].
  intros p q Hpq. by rewrite (same_pid _ _ Hpq).
Qed.
Lemma mac_value fuel : value_contract (mac_backend fuel).
Proof.
  assert (Hget : forall pid, gives (coherent_with pid) (mac_get pid)).
  { intros pid. apply gives_then. intros info. cbv zeta. destruct (_ && _); [apply gives_panic|apply gives_process]. }
  split; try pid_only.
  - intros pid. by apply gives_always.
  - apply gives_always, gives_then. intros pid. by apply (gives_impl (coherent_with pid)); [intros p []|].
  - apply parent_value_of. intros pid. by apply gives_always.
  - intros W h w o. unfold api_processes. cbn [mac_backend sys_processes]. unfold mac_processes.
    rewrite exec_fmap, exec_io_bind. destruct (exec h (mac_pids fuel) w) as [[[l|]|e|] w']; [| |done..].
    + rewrite exec_bind.
      pose proof (gives_then_items coherent mac_get (map (map_err LoadError) l) (fun pid => gives_impl _ _ _ (fun p Hp => proj1 Hp) (Hget pid)) W h w') as Hl.
      destruct (exec h (then_items _ _) w') as [rs w'']. cbn in *. intros [= <-] rs' [= <-]. by apply items_coherent_always.
    + by intros [= <-].
  - apply same_pid.
  - by apply kept_time_of.
  - apply respects_always, mac_respects_running.
  - apply (mac_respects_signal Stop).
  - apply (mac_respects_signal Cont).
  - apply (mac_respects_signal Term).
  - apply (mac_respects_signal Signal.Kill).
  - intros schedule. pid_only.
Qed.
Lemma mac_ext_value : unix_contract mac_unix_ext.
Proof. split_and!; [exact mac_respects_signal|pid_only|intros; pid_only]. Qed.
End mac.

Section windows.
Context `{Profile, Units, OrderedFloat, !OrderedFloatLaws, NtLayout}.

Lemma windows_value fuel : value_contract (windows_backend fuel).
Proof.
  assert (Hun : forall pid, gives (whenever (coherent_with pid)) (win_get_unchecked fuel pid)).
  { intros pid. apply gives_then. intros [t|]; [|apply gives_none].
    eapply gives_bind; [apply gives_unique_id|]. intros u Hu. apply gives_ret. by intros p [= <-]. }
  assert (Hget : forall pid, gives (whenever (coherent_with pid)) (win_get fuel pid)).
  { intros pid. apply gives_then. intros [[]|]; [apply Hun|apply gives_fails|apply gives_none]. }
  split; try pid_only.
  - done.
  - apply gives_then. intros pid. eapply coherent_whenever, Hun.
  - by apply parent_value_of.
  - intros W h w o. unfold api_processes. cbn [windows_backend sys_processes]. unfold win_processes.
    rewrite exec_io_bind. destruct (exec h (win_pids fuel) w) as [[[l|]|e|] w']; [| |done..].
    + rewrite exec_bind.
      pose proof (gives_then_items (whenever coherent) (win_get_unchecked fuel) (map (map_err LoadError) l)
        (fun pid => coherent_whenever pid _ (Hun pid)) W h w') as Hl.
      destruct (exec h (then_items _ _) w') as [rs w'']. cbn in *. intros [= <-] rs' [= <-].
      eapply Forall_impl; [exact Hl|]. intros r Hr p Hp. by eapply Hr.
    + by intros [= <-].
  - apply same_pid.
  - by apply kept_time_of.
  - apply (by_comparison (win_get fuel) (fun eq _ other => mret (eq <$> other))).
    intros eq eq' pid [q|] Heq; cbn; by rewrite ?Heq.
  - intros schedule. pid_only.
Qed.
End windows.

(** ** The contract *)

(** C5: a [Process] is a value that can be kept, compared and used as the key
    of a map.  Its equality is an equivalence relation, and equal processes
    have the same hash.  On every platform a process that was loaded, alone or
    in the list of all, knows the pid it was asked for, and two equal processes
    of this kind have the same pid and are interchangeable: every operation of
    the API and of the extensions of a platform makes the same calls with the
    same result for both, whatever the system answers.  The one exception is
    [create_time], which gives the time that is kept: the two times are equal
    as floats, but may be the two zeros. *)
Theorem process_value `{Profile, Units, Statics, Roots, Fmt, Memchr, MemchrIter, OrderedFloat, LibcSignals, Endian, Darwin}
    `{!OrderedFloatLaws, NtLayout} fuel :
  Equivalence equal /\ (forall a b, equal a b -> process_hash a = process_hash b) /\
  value_contract (linux_backend fuel) /\ value_contract (mac_backend fuel) /\ value_contract (windows_backend fuel) /\
  unix_contract linux_unix_ext /\ unix_contract mac_unix_ext /\ windows_contract windows_process_ext /\
  respects ext_net_io_counters.
Proof.
  split_and!; [apply _|by intros a b ->|apply linux_value|apply mac_value|apply windows_value
    |apply linux_ext_value|apply mac_ext_value| |pid_only].
  split; [pid_only|intros value; pid_only].
Qed.

(** Two values for the pid 7 whose start times are the two zeros. *)
Definition seven (zero : bool) : @Process checked_float :=
  @mkProcess checked_float 7 (@mkUniqueId checked_float 7 (SpecFloat.S754_zero zero)).
Lemma process_value_witness :
  let linux := @linux_backend true si_units linux_statics default_roots (Build_Fmt show_int (fun p => p)) find_byte checked_float linux_signals 5 in
  seven true <> seven false /\ @process_hash checked_float (seven true) = @process_hash checked_float (seven false) /\
  @api_kill _ linux (seven true) ≈ @api_kill _ linux (seven false).
Proof.
  destruct (@process_value true si_units linux_statics default_roots (Build_Fmt show_int (fun p => p)) find_byte find_bytes
    checked_float linux_signals true test_darwin checked_float_laws small_layout 5) as (_ & Hhash & Hlinux & _).
  split_and!; [discriminate|by apply Hhash|]. refine (respects_kill _ Hlinux (seven true) (seven false) _). by split_and!.
Defined.
