(* ===== verification/ApiDebug.v ===== *)
(** * The [Debug] implementations of the public types

    What [{:?}] prints: the fields in their order, each as the accessor gives
    it.  An accessor that panics makes the formatting panic.  The texts of
    strings, paths and quantities are those of [std] and of [uom], and those of
    the addresses and architectures those of their crates: parameters. *)

From S2P Require Import Prelude RustStr Layout RustFloat Units Errors WinCalls MacCalls Sys Streams ProcFs Cpu SysMemory Disk Net Host.
From S2P Require Import MacSys MacCpu MacNet MacDisk MacHost Process MacProcess Sensors WinCommon WinCpu WinMemory WinDisk WinNet WinHost WinProcess.
From S2P Require Import CpuApi MemoryApi DiskApi NetApi HostApi ProcessApi.

Class DebugLeaves := {
  debug_text : str -> str;
  debug_time : Time -> str;
  debug_information : Information -> str;
  debug_frequency : Frequency -> str;
  debug_ratio : Ratio -> str;
  debug_temperature : ThermodynamicTemperature -> str;
}.

(** ** [std::fmt]: [debug_struct], [debug_tuple], [debug_map], [Option], [bool] *)

Definition debug_option {A} (show : A -> str) (o : option A) : str :=
  match o with Some a => lit "Some(" ++ show a ++ lit ")" | None => lit "None" end.
Definition debug_bool (b : bool) : str := if b then lit "true" else lit "false".

Fixpoint join_fields (fields : list str) : str :=
  match fields with
  | [] => []
  | [x] => x
  | x :: rest => x ++ lit ", " ++ join_fields rest
  end.
(** A field and its value, or the panic of the accessor. *)
Definition field {E A} (name : str) (show : A -> str) (value : res E A) : res E str :=
  v ← value; Ok (name ++ lit ": " ++ show v).
Fixpoint all_fields {E} (fields : list (res E str)) : res E (list str) :=
  match fields with [] => Ok [] | f :: rest => t ← f; ts ← all_fields rest; Ok (t :: ts) end.
Definition debug_struct {E} (name : str) (fields : list (res E str)) : res E str :=
  ts ← all_fields fields;
  Ok match ts with [] => name | _ => name ++ lit " { " ++ join_fields ts ++ lit " }" end.
Definition debug_tuple {E A} (name : str) (show : A -> str) (value : res E A) : res E str :=
  v ← value; Ok (name ++ lit "(" ++ show v ++ lit ")").
Definition debug_map {E A} (show : A -> str) (entries : res E (list (A * A))) : res E str :=
  l ← entries; Ok (lit "{" ++ join_fields (map (fun '(k, v) => show k ++ lit ": " ++ show v) l) ++ lit "}").

Section api.
Context `{DebugLeaves}.

(** ** heim-cpu *)

Definition debug_cpu_stats {B : CpuBackend} (s : CpuStatsData) : result str :=
  debug_struct (lit "CpuStats")
    [field (lit "ctx_switches") show_int (Ok (cpu_ctx_switches s)); field (lit "interrupts") show_int (Ok (cpu_interrupts s))].
Definition debug_cpu_time {B : CpuBackend} (t : CpuApi.CpuTimeData) : result str :=
  debug_struct (lit "CpuTime")
    [field (lit "user") debug_time (Ok (cpu_time_user t)); field (lit "system") debug_time (Ok (cpu_time_system t));
     field (lit "idle") debug_time (Ok (cpu_time_idle t))].
Definition debug_cpu_frequency {B : CpuBackend} (f : CpuFrequencyData) : result str :=
  debug_struct (lit "CpuFrequency")
    [field (lit "current") debug_frequency (Ok (cpu_freq_current f));
     field (lit "min") (debug_option debug_frequency) (Ok (cpu_freq_min f));
     field (lit "max") (debug_option debug_frequency) (Ok (cpu_freq_max f))].

(** ** heim-memory *)

Definition debug_memory {B : MemoryBackend} (m : MemoryStat) : result str :=
  debug_struct (lit "Memory")
    [field (lit "total") debug_information (Ok (memory_total m));
     field (lit "available") debug_information (Ok (memory_available m));
     field (lit "free") debug_information (Ok (memory_free m))].
Definition debug_swap {B : MemoryBackend} (s : SwapStat) : result str :=
  debug_struct (lit "Swap")
    [field (lit "total") debug_information (swap_in_total s); field (lit "used") debug_information (swap_in_use s);
     field (lit "free") debug_information (swap_unused s)].

(** ** heim-disk *)

(** The derived [Debug] of [FileSystem]. *)
Definition debug_file_system (fs : FileSystem) : str :=
  match fs with
  | Ext2 => lit "Ext2" | Ext3 => lit "Ext3" | Ext4 => lit "Ext4" | VFat => lit "VFat" | ExFat => lit "ExFat"
  | F2fs => lit "F2fs" | Ntfs => lit "Ntfs" | Zfs => lit "Zfs" | Hfs => lit "Hfs" | HfsPlus => lit "HfsPlus"
  | Jfs => lit "Jfs" | Reiser3 => lit "Reiser3" | Reiser4 => lit "Reiser4" | Btrfs => lit "Btrfs"
  | Minix => lit "Minix" | Nilfs => lit "Nilfs" | Xfs => lit "Xfs" | Apfs => lit "Apfs" | FuseBlk => lit "FuseBlk"
  | OtherFs name => lit "Other(" ++ debug_text name ++ lit ")"
  end.
Definition debug_disk_counters {B : DiskBackend} (debug_os : OsText -> str) (c : CountersData) : result str :=
  debug_struct (lit "IoCounters")
    [field (lit "device_name") debug_os (Ok (counters_device_name c));
     field (lit "read_count") show_int (Ok (counters_read_count c));
     field (lit "write_count") show_int (Ok (counters_write_count c));
     field (lit "read_bytes") debug_information (Ok (counters_read_bytes c));
     field (lit "write_bytes") debug_information (Ok (counters_write_bytes c))].
Definition debug_usage {B : DiskBackend} (u : UsageData) : result str :=
  debug_struct (lit "Usage")
    [field (lit "total") debug_information (usage_in_total u); field (lit "used") debug_information (usage_in_use u);
     field (lit "free") debug_information (usage_unused u); field (lit "ratio") debug_ratio (usage_used_ratio u)].
Definition debug_partition {B : DiskBackend} (debug_os : OsText -> str) (debug_path : DiskPath -> str) (p : PartitionData) : result str :=
  debug_struct (lit "Partition")
    [field (lit "device") (debug_option debug_os) (Ok (partition_device p));
     field (lit "mount_point") debug_path (Ok (partition_mount_point p));
     field (lit "file_system") debug_file_system (Ok (partition_file_system p))].

(** ** heim-net *)

Definition debug_net_counters {B : NetBackend} (c : NetCountersData) : result str :=
  debug_struct (lit "IoCounters")
    [field (lit "interface") debug_text (net_interface c);
     field (lit "bytes_sent") debug_information (net_bytes_sent c);
     field (lit "bytes_recv") debug_information (net_bytes_recv c);
     field (lit "packets_sent") show_int (net_packets_sent c);
     field (lit "packets_recv") show_int (net_packets_recv c);
     field (lit "errors_sent") show_int (net_errors_sent c);
     field (lit "errors_recv") show_int (net_errors_recv c);
     field (lit "drop_recv") show_int (net_drop_recv c)].
Definition debug_nic {B : NetBackend} (debug_address : AddressData -> str) (n : NicData) : result str :=
  debug_struct (lit "Nic")
    [field (lit "name") debug_text (Ok (nic_api_name n));
     field (lit "address") debug_address (nic_api_address n);
     field (lit "netmask") (debug_option debug_address) (nic_api_netmask n);
     field (lit "destination") (debug_option debug_address) (nic_api_destination n);
     field (lit "is_up") debug_bool (Ok (nic_api_is_up n));
     field (lit "is_loopback") debug_bool (Ok (nic_api_is_loopback n));
     field (lit "is_multicast") debug_bool (Ok (nic_api_is_multicast n))].

(** ** heim-host *)

Definition debug_platform {B : HostBackend} (debug_arch : ArchData -> str) (p : PlatformData) : result str :=
  debug_struct (lit "Platform")
    [field (lit "system") debug_text (platform_system p);
     field (lit "release") debug_text (Ok (platform_release p));
     field (lit "version") debug_text (Ok (platform_version p));
     field (lit "hostname") debug_text (Ok (platform_hostname p));
     field (lit "architecture") debug_arch (Ok (platform_architecture p))].
Definition debug_user {B : HostBackend} (u : UserData) : result str :=
  debug_struct (lit "User") [field (lit "username") debug_text (user_username u)].

(** ** heim-sensors *)

Definition debug_temperature_sensor (s : TemperatureSensor) : result str :=
  debug_struct (lit "TemperatureSensor")
    [field (lit "unit") debug_text (Ok (sensor_unit s));
     field (lit "label") (debug_option debug_text) (Ok (sensor_label s));
     field (lit "current") debug_temperature (Ok (sensor_current s));
     field (lit "high") (debug_option debug_temperature) (Ok (sensor_high s));
     field (lit "critical") (debug_option debug_temperature) (Ok (sensor_critical s))].

(** ** The types of the back ends that have a [Debug] of their own *)

Definition debug_unix_usage {U} (u : U) : result str := debug_struct (lit "Usage") [].
Definition debug_win_usage `{Profile, Units} (u : WinUsage) : result str :=
  debug_struct (lit "Usage")
    [field (lit "total") debug_information (Ok (win_usage_total u)); field (lit "used") debug_information (win_usage_used u);
     field (lit "free") debug_information (Ok (win_usage_free u)); field (lit "ratio") debug_ratio (win_usage_ratio u)].
Definition debug_win_memory `{Units} (m : MEMORYSTATUSEX) : result str :=
  debug_struct (lit "Memory")
    [field (lit "total") debug_information (Ok (win_mem_total m));
     field (lit "available") debug_information (Ok (win_mem_available m));
     field (lit "free") debug_information (Ok (win_mem_free m))].
Definition debug_win_swap `{Profile, Units} (s : MEMORYSTATUSEX) : result str :=
  debug_struct (lit "Swap")
    [field (lit "total") debug_information (win_swap_total s); field (lit "used") debug_information (win_swap_used s);
     field (lit "free") debug_information (win_swap_free s)].
Definition debug_mac_net_counters (c : MacNetCounters) : result str :=
  debug_struct (lit "IoCounters") [field (lit "name") debug_text (Ok (mac_interface c))].
Definition debug_win_platform `{WinPlatforms} (debug_arch : Arch -> str) (p : WinPlatform) : result str :=
  debug_struct (lit "Platform")
    [field (lit "system") debug_text (win_system p);
     field (lit "release") debug_text (Ok (win_release p));
     field (lit "version") debug_text (Ok (win_version p));
     field (lit "hostname") debug_text (Ok (win_platform_hostname p));
     field (lit "architecture") debug_arch (Ok (win_architecture p))].
End api.

(** ** heim-process *)

Section process.
Context `{DebugLeaves, OrderedFloat} {B : Backend}.

Definition debug_process (self : Process) : result str :=
  debug_struct (lit "Process") [field (lit "pid") show_int (Ok (api_pid self))].
Definition debug_process_time (t : CpuTimeData) : result str :=
  debug_struct (lit "CpuTime")
    [field (lit "user") debug_time (Ok (api_cpu_user t)); field (lit "system") debug_time (Ok (api_cpu_system t))].
Definition debug_process_memory (m : MemoryData) : result str :=
  debug_struct (lit "Memory")
    [field (lit "rss") debug_information (Ok (api_rss m)); field (lit "vms") debug_information (Ok (api_vms m))].
Definition debug_process_counters (c : IoCountersData) : result str :=
  debug_struct (lit "IoCounters")
    [field (lit "bytes_read") debug_information (Ok (api_bytes_read c));
     field (lit "bytes_written") debug_information (Ok (api_bytes_written c))].
Definition debug_command (debug_os : ArgText -> str) (c : CommandData) : result str :=
  debug_tuple (lit "Command") debug_os (api_to_os_string c).
Definition debug_environment (debug_os : ArgText -> str) (e : EnvironmentData) : result str :=
  debug_map debug_os (api_env_iter e).

(** The types of the back ends. *)
Definition debug_linux_process_counters `{Units} (c : ProcFs.IoCounters) : result str :=
  debug_struct (lit "IoCounters")
    [field (lit "chars_read") debug_information (Ok (chars_read c));
     field (lit "chars_written") debug_information (Ok (chars_written c));
     field (lit "read_syscalls") show_int (Ok (read_syscalls c));
     field (lit "write_syscalls") show_int (Ok (write_syscalls c));
     field (lit "bytes_read") debug_information (Ok (bytes_read c));
     field (lit "bytes_written") debug_information (Ok (bytes_written c));
     field (lit "cancelled_write_bytes") debug_information (Ok (cancelled_bytes c))].
Definition debug_mac_process_counters `{Units} (c : MacIoCounters) : result str :=
  debug_struct (lit "IoCounters")
    [field (lit "bytes_read") debug_information (Ok (mac_bytes_read c));
     field (lit "bytes_written") debug_information (Ok (mac_bytes_written c))].
Definition debug_win_process_counters `{Units} (c : IO_COUNTERS) : result str :=
  debug_struct (lit "IoCounters")
    [field (lit "bytes_read") debug_information (Ok (win_bytes_read c));
     field (lit "bytes_written") debug_information (Ok (win_bytes_written c));
     field (lit "bytes_other") debug_information (Ok (win_bytes_other c));
     field (lit "read_iops") show_int (Ok (win_read_iops c));
     field (lit "write_iops") show_int (Ok (win_write_iops c));
     field (lit "other_iops") show_int (Ok (win_other_iops c))].
Definition debug_win_process_memory `{Units} (m : PROCESS_MEMORY_COUNTERS_EX) : result str :=
  debug_struct (lit "Memory")
    [field (lit "rss") debug_information (Ok (win_rss m)); field (lit "vms") debug_information (Ok (win_vms m))].
End process.
