(* ===== verification/ApiDebugSpec.v ===== *)
(** * When formatting for debugging panics

    Which public values make [{:?}] panic, for every type and platform, and
    where the back ends print the same text themselves. *)

From S2P Require Import Prelude RustStr Layout RustFloat Units Errors WinCalls MacCalls Sys Streams ProcFs Cpu SysMemory Disk Net Host.
From S2P Require Import MacSys MacCpu MacNet MacDisk MacHost Signal Process MacProcess Sensors WinCommon WinCpu WinMemory WinDisk WinNet WinHost WinProcess.
From S2P Require Import CpuApi MemoryApi DiskApi NetApi HostApi ProcessApi ApiDebug.
From S2P Require Import ProcFsSpec WinHostSpec HostApiSpec WinNetSpec MacProcessSpec WinProcessSpec.

(** ** The formatter *)

Definition panics {A} (r : result A) : Prop := r = Panic.

Lemma field_panics {A} name (show : A -> str) (r : result A) : panics (field name show r) <-> panics r.
Proof. unfold panics. by destruct r. Qed.
Lemma field_fails {A} name (show : A -> str) (r : result A) : (exists e, field name show r = Err e) <-> exists e, r = Err e.
Proof. destruct r; naive_solver. Qed.

Definition no_error {A} (r : result A) : Prop := forall e, r <> Err e.
Lemma no_error_ok {A} (a : A) : no_error (Ok a).
Proof. by intros e. Qed.
Lemma no_error_field {A} name (show : A -> str) (r : result A) : no_error r -> no_error (field name show r).
Proof. intros Hr e. destruct r as [a|e'|]; cbn; [done| |done]. intros [= ->]. by apply (Hr e). Qed.
Lemma all_fields_panics fields : Forall no_error fields -> panics (all_fields fields) <-> Exists panics fields.
Proof.
  unfold panics. induction 1 as [|[t|e|] fields Hf _ IH]; [by rewrite Exists_nil|..]; rewrite Exists_cons.
  - cbn. destruct (all_fields fields); cbn in *; naive_solver.
  - by destruct (Hf e).
  - cbn. tauto.
Qed.
(** A record is formatted unless an accessor panics. *)
Lemma debug_struct_panics name fields : Forall no_error fields -> panics (debug_struct name fields) <-> Exists panics fields.
Proof. intros Hf. rewrite <- all_fields_panics by done. unfold panics, debug_struct. by destruct (all_fields fields). Qed.

Lemma exists_fields {A} name (show : A -> str) (r : result A) rest :
  Exists panics (field name show r :: rest) <-> panics r \/ Exists panics rest.
Proof. by rewrite Exists_cons, field_panics. Qed.

(** The accessors give a value or panic. *)
Lemma no_error_bind {A B} (r : result A) (f : A -> result B) : no_error r -> (forall a, no_error (f a)) -> no_error (r ≫= f).
Proof. intros Hr Hf e. destruct r as [a|e'|]; cbn; [apply Hf| |done]. intros [= ->]. by apply (Hr e). Qed.
Lemma bind_panics {A B} (r : result A) (f : A -> result B) :
  panics (r ≫= f) <-> panics r \/ exists a, r = Ok a /\ panics (f a).
Proof. apply res_bind_panic. Qed.
Create HintDb accessors.
#[local] Hint Resolve no_error_ok no_error_field no_error_bind Forall_cons_2 Forall_nil_2 : accessors.

Section memory.
Context `{DebugLeaves, Profile, Units, !UnitsLaws}.
Definition u64 (z : Z) : Prop := (0 <= z < 2 ^ 64)%Z.

Lemma no_error_sub (a b : Z) : no_error (sub_u64 a b).
Proof. intros e. apply arith_u64_not_err. Qed.
#[local] Hint Resolve no_error_sub : accessors.
Lemma sub_u64_panics (a b : Z) : u64 a -> u64 b -> panics (sub_u64 a b) <-> overflow_checks = true /\ (a < b)%Z.
Proof.
  unfold u64. intros Ha Hb. unfold panics, sub_u64, arith_u64. case_decide; [split; [done|lia]|].
  destruct overflow_checks; split; try done; [|naive_solver]. intros _. split; [done|lia].
Qed.

Lemma debug_swap_linux `{Roots} s : u64 (swap_total s) -> u64 (swap_free s) ->
  panics (debug_swap (B := linux_memory) s) <-> overflow_checks = true /\ (swap_total s < swap_free s)%Z.
Proof.
  intros Ht Hf. unfold debug_swap. rewrite debug_struct_panics by (cbn; unfold swap_used; eauto with accessors).
  rewrite !exists_fields, Exists_nil. cbn. unfold swap_used. rewrite sub_u64_panics by done.
  unfold panics. naive_solver.
Qed.

Lemma no_error_win_swap s : no_error (win_swap_total s) /\ no_error (win_swap_free s) /\ no_error (win_swap_used s).
Proof.
  assert (Ht : no_error (win_swap_total s)) by (apply no_error_bind; eauto with accessors).
  assert (Hf : no_error (win_swap_free s)).
  { apply no_error_bind; [eauto with accessors|]. intros v. apply no_error_bind; eauto with accessors. }
  split_and!; try done. apply no_error_bind; [done|]. intros t. apply no_error_bind; eauto with accessors.
Qed.
Lemma sub_u64_range (a b v : Z) : sub_u64 (E := Error) a b = Ok v -> u64 v.
Proof. apply arith_u64_range. Qed.
(** The free space of Windows is bounded by the total, so the last subtraction
    never panics. *)
Lemma win_swap_used_panics s :
  panics (win_swap_used s) <-> panics (win_swap_total s) \/ panics (win_swap_free s).
Proof.
  unfold win_swap_used. rewrite bind_panics. split; [intros [?|(total & Ht & Hr)]|intros [?|Hf]]; [by left| |by left|].
  - apply bind_panics in Hr as [?|(free & Hf & Hr)]; [by right|exfalso].
    unfold win_swap_free in Hf. rewrite Ht in Hf. destruct (sub_u64 _ _) as [v|e|] eqn:Hv; [|done..].
    injection Hf as <-. apply sub_u64_range in Hv. unfold win_swap_total in Ht.
    destruct (sub_u64 (ullTotalPageFile s) _) as [t|e|] eqn:Hs; [|done..]. injection Ht as <-. apply sub_u64_range in Hs.
    unfold u64 in *. rewrite !information_byte_id in Hr by done.
    apply sub_u64_panics in Hr as [_ Hr]; unfold u64 in *; lia.
  - destruct (win_swap_total s) as [total|e|] eqn:Ht; [|by destruct (proj1 (no_error_win_swap s) e)|by left].
    right. exists total. split; [done|]. apply bind_panics. by left.
Qed.
Lemma debug_swap_windows s :
  u64 (ullTotalPageFile s) -> u64 (ullTotalPhys s) -> u64 (ullAvailPageFile s) -> u64 (ullAvailPhys s) ->
  panics (debug_swap (B := windows_memory) s) <->
  overflow_checks = true /\ (ullTotalPageFile s < ullTotalPhys s \/ ullAvailPageFile s < ullAvailPhys s)%Z.
Proof.
  intros Ht Hp Ha Hf. destruct (no_error_win_swap s) as (Hnt & Hnf & Hnu).
  unfold debug_swap. rewrite debug_struct_panics by (cbn; eauto 20 with accessors).
  rewrite !exists_fields, Exists_nil. cbn. rewrite win_swap_used_panics.
  assert (Htotal : panics (win_swap_total s) <-> overflow_checks = true /\ (ullTotalPageFile s < ullTotalPhys s)%Z).
  { unfold win_swap_total. rewrite bind_panics, sub_u64_panics by done. unfold panics. naive_solver. }
  assert (Hfree : panics (win_swap_free s) <->
    panics (win_swap_total s) \/ overflow_checks = true /\ (ullAvailPageFile s < ullAvailPhys s)%Z).
  { unfold win_swap_free. rewrite bind_panics, sub_u64_panics by done. split.
    - intros [?|(v & _ & Hr)]; [by right|]. apply bind_panics in Hr as [?|(t & _ & Hr)]; [by left|done].
    - intros [Hp'|?]; [|by left]. destruct (sub_u64 (ullAvailPageFile s) _) as [v|e|] eqn:Hv;
        [|by destruct (no_error_sub (ullAvailPageFile s) (ullAvailPhys s) e)|].
      + right. exists v. split; [done|]. apply bind_panics. by left.
      + left. by apply sub_u64_panics. }
  rewrite Hfree, Htotal. tauto.
Qed.
End memory.

(** ** The usage of a disk *)

Section usage.
Context `{DebugLeaves, Profile, Units, !UnitsLaws}.

Lemma no_error_arith (z : Z) : no_error (arith_u64 z).
Proof. intros e. apply arith_u64_not_err. Qed.
Lemma mul_u64_panics (a b : Z) : u64 a -> u64 b -> panics (mul_u64 a b) <-> overflow_checks = true /\ (2 ^ 64 <= a * b)%Z.
Proof.
  unfold u64, panics, mul_u64, arith_u64. intros Ha Hb. case_decide; [split; [done|lia]|].
  destruct overflow_checks; split; try done; [|naive_solver]. intros _. split; [done|nia].
Qed.
Lemma mul_u64_range (a b v : Z) : mul_u64 (E := Error) a b = Ok v -> u64 v.
Proof. apply arith_u64_range. Qed.

(** One of the three products overflows, or more is free than there is. *)
Definition usage_overflows (u : statvfs) : Prop :=
  overflow_checks = true /\
  (2 ^ 64 <= f_blocks u * f_frsize u \/ 2 ^ 64 <= f_bfree u * f_frsize u \/ 2 ^ 64 <= f_bavail u * f_frsize u \/
   f_blocks u * f_frsize u < f_bfree u * f_frsize u)%Z.
Definition statvfs_wf (u : statvfs) : Prop := u64 (f_frsize u) /\ u64 (f_blocks u) /\ u64 (f_bfree u) /\ u64 (f_bavail u).

Lemma no_error_usage (u : statvfs) :
  no_error (usage_total u) /\ no_error (usage_used u) /\ no_error (usage_free u) /\ no_error (usage_ratio u).
Proof.
  assert (Ht : no_error (usage_total u)) by (apply no_error_bind; [apply no_error_arith|intros; apply no_error_ok]).
  assert (Hu : no_error (usage_used u)).
  { apply no_error_bind; [apply no_error_arith|]. intros a. apply no_error_bind; [done|]. intros t. apply no_error_arith. }
  split_and!; [done..| |].
  - apply no_error_bind; [apply no_error_arith|intros; apply no_error_ok].
  - apply no_error_bind; [done|]. intros used. apply no_error_bind; [apply no_error_arith|intros; apply no_error_ok].
Qed.
Lemma bind_ok_panics {A B} (r : result A) (f : A -> B) : panics (a ← r; Ok (f a)) <-> panics r.
Proof. unfold panics. by destruct r. Qed.
Lemma total_panics u : panics (usage_total u) <-> panics (mul_u64 (f_blocks u) (f_frsize u)).
Proof. apply bind_ok_panics. Qed.
Lemma free_panics u : panics (usage_free u) <-> panics (mul_u64 (f_bavail u) (f_frsize u)).
Proof. apply bind_ok_panics. Qed.
Lemma mul_u64_checked (a b v : Z) : overflow_checks = true -> u64 a -> u64 b -> mul_u64 (E := Error) a b = Ok v -> v = (a * b)%Z.
Proof. unfold u64, mul_u64, arith_u64. intros -> Ha Hb. case_decide; [by intros [= <-]|done]. Qed.
Lemma used_panics u : statvfs_wf u ->
  panics (usage_used u) <-> panics (mul_u64 (f_bfree u) (f_frsize u)) \/ panics (usage_total u) \/
    overflow_checks = true /\ (f_blocks u * f_frsize u < f_bfree u * f_frsize u)%Z /\
      (f_blocks u * f_frsize u < 2 ^ 64)%Z /\ (f_bfree u * f_frsize u < 2 ^ 64)%Z.
Proof.
  intros (Hs & Hb & Hf & Ha). unfold usage_used.
  destruct (mul_u64 (f_bfree u) (f_frsize u)) as [r|e|] eqn:Hr; [|by destruct (no_error_arith (f_bfree u * f_frsize u) e)|].
  2: { unfold panics. cbn. tauto. }
  cbn [mbind res_bind]. rewrite bind_panics, total_panics. unfold usage_total.
  destruct (mul_u64 (f_blocks u) (f_frsize u)) as [t|e|] eqn:Ht; [|by destruct (no_error_arith (f_blocks u * f_frsize u) e)|].
  2: { unfold panics. tauto. }
  pose proof (mul_u64_range _ _ _ Hr) as Hru. pose proof (mul_u64_range _ _ _ Ht) as Htu. unfold u64 in Hru, Htu.
  cbn [mbind res_bind]. rewrite !information_byte_id by done.
  transitivity (panics (sub_u64 (E := Error) t r)); [unfold panics; naive_solver|]. rewrite sub_u64_panics by done. split.
  - intros [Hc Hlt]. right; right. pose proof (mul_u64_checked _ _ _ Hc Hf Hs Hr). pose proof (mul_u64_checked _ _ _ Hc Hb Hs Ht).
    unfold u64 in *. split_and!; [done|lia..].
  - intros [|[|(Hc & Hlt & _)]]; [done..|]. split; [done|].
    rewrite <- (mul_u64_checked _ _ _ Hc Hf Hs Hr), <- (mul_u64_checked _ _ _ Hc Hb Hs Ht) in Hlt. exact Hlt.
Qed.
Lemma ratio_panics u : panics (usage_ratio u) <-> panics (usage_used u) \/ panics (mul_u64 (f_bavail u) (f_frsize u)).
Proof.
  unfold usage_ratio. rewrite bind_panics. destruct (no_error_usage u) as (_ & Hu & _).
  destruct (usage_used u) as [used|e|]; [|by destruct (Hu e)|unfold panics; naive_solver].
  split.
  - intros [Hp|(a & [= <-] & Hp)]; [done|]. right. by apply bind_ok_panics in Hp.
  - intros [Hp|Hp]; [done|]. right. eexists. split; [reflexivity|]. by apply bind_ok_panics.
Qed.
Lemma usage_fields_panic u : statvfs_wf u ->
  panics (usage_total u) \/ panics (usage_used u) \/ panics (usage_free u) \/ panics (usage_ratio u) <-> usage_overflows u.
Proof.
  intros Hwf. rewrite ratio_panics, used_panics, total_panics, free_panics by done.
  destruct Hwf as (Hs & Hb & Hf & Ha). rewrite !mul_u64_panics by done. unfold usage_overflows.
  destruct (Z.lt_ge_cases (f_blocks u * f_frsize u) (2 ^ 64)), (Z.lt_ge_cases (f_bfree u * f_frsize u) (2 ^ 64)); tauto.
Qed.

Lemma debug_usage_fields (total used free : result Information) (ratio : result Ratio) :
  no_error total -> no_error used -> no_error free -> no_error ratio ->
  panics (debug_struct (lit "Usage")
    [field (lit "total") debug_information total; field (lit "used") debug_information used;
     field (lit "free") debug_information free; field (lit "ratio") debug_ratio ratio]) <->
  panics total \/ panics used \/ panics free \/ panics ratio.
Proof.
  intros Ht Hu Hf Hr. rewrite debug_struct_panics by eauto 20 with accessors.
  rewrite !exists_fields, Exists_nil. tauto.
Qed.
Lemma win_used_panics (u : WinUsage) : u64 (usage_total_ u) -> u64 (usage_free_ u) ->
  panics (win_usage_used u) <-> overflow_checks = true /\ (usage_total_ u < usage_free_ u)%Z.
Proof.
  intros Ht Hf. unfold win_usage_used, win_usage_total, win_usage_free. unfold u64 in *.
  rewrite !information_byte_id by done. by apply sub_u64_panics.
Qed.
Lemma debug_usage_windows `{Widestring} fuel (u : WinUsage) : u64 (usage_total_ u) -> u64 (usage_free_ u) ->
  panics (debug_usage (B := windows_disk fuel) u) <-> overflow_checks = true /\ (usage_total_ u < usage_free_ u)%Z.
Proof.
  intros Ht Hf. rewrite <- win_used_panics by done.
  assert (Hu : no_error (win_usage_used u)) by (intros e; apply arith_u64_not_err).
  etransitivity; [apply (debug_usage_fields (Ok (win_usage_total u)) (win_usage_used u) (Ok (win_usage_free u)) (win_usage_ratio u))|];
    [apply no_error_ok|done|apply no_error_ok|apply no_error_bind; [done|intros; apply no_error_ok]|].
  assert (Hr : panics (win_usage_ratio u) <-> panics (win_usage_used u)) by apply bind_ok_panics.
  rewrite Hr. unfold panics. split; [intros [?|[?|[?|?]]]; done|tauto].
Qed.
End usage.

(** ** Interfaces *)

Section nic.
Context `{DebugLeaves, Profile, Units, Nix, Roots}.

Definition other (s : option SockAddr) : Prop := exists family, s = Some (SockOther family).
Lemma address_panics s : panics (address_from s) <-> other (Some s).
Proof. unfold panics, other. destruct s; naive_solver. Qed.
Lemma no_error_address s : no_error (address_from s).
Proof. by destruct s. Qed.
Lemma option_address_panics o : panics (option_address o) <-> other o.
Proof. destruct o as [s|]; [|unfold panics, other; naive_solver]. rewrite <- address_panics. unfold panics. cbn. by destruct (address_from s). Qed.
Lemma no_error_option_address o : no_error (option_address o).
Proof. destruct o as [s|]; [|done]. intros e. pose proof (no_error_address s e). cbn. destruct (address_from s); cbn; congruence. Qed.
#[local] Hint Resolve no_error_address no_error_option_address : accessors.

(** An address that is missing, or of a family that is not known. *)
Definition nic_unreadable (n : InterfaceAddress) : Prop :=
  if_address n = None \/ other (if_address n) \/ other (if_netmask n) \/ other (if_destination n).
Lemma debug_nic_fields show n :
  panics (debug_struct (lit "Nic")
    [field (lit "name") debug_text (Ok (nic_name n)); field (lit "address") show (nic_address n);
     field (lit "netmask") (debug_option show) (nic_netmask n); field (lit "destination") (debug_option show) (nic_destination n);
     field (lit "is_up") debug_bool (Ok (nic_is_up n)); field (lit "is_loopback") debug_bool (Ok (nic_is_loopback n));
     field (lit "is_multicast") debug_bool (Ok (nic_is_multicast n))]) <-> nic_unreadable n.
Proof.
  assert (Ha : panics (nic_address (E := Error) n) <-> if_address n = None \/ other (if_address n)).
  { unfold nic_address. destruct (if_address n) as [s|]; cbn; [rewrite address_panics; naive_solver|unfold panics; naive_solver]. }
  assert (Hn : no_error (nic_address (E := Error) n)).
  { unfold nic_address. destruct (if_address n) as [s|]; [apply no_error_address|done]. }
  rewrite debug_struct_panics by (unfold nic_netmask, nic_destination; eauto 20 with accessors).
  rewrite !exists_fields, Exists_nil. rewrite Ha. unfold nic_netmask, nic_destination. rewrite !option_address_panics.
  unfold nic_unreadable, panics. naive_solver.
Qed.
End nic.

(** ** The platform of Windows *)

Lemma debug_platform_windows `{DebugLeaves, Profile, Units, WinPlatforms, Frame} show p :
  panics (debug_platform (B := windows_host) show p) <-> panics (win_system p).
Proof.
  unfold debug_platform. rewrite debug_struct_panics.
  - rewrite !exists_fields, Exists_nil. cbn. unfold panics. naive_solver.
  - assert (no_error (win_system p)) by (intros e; unfold win_system; repeat case_match; congruence).
    cbn. eauto 20 with accessors.
Qed.

(** ** Commands of macOS *)

Section command.
Context `{Profile, Memchr, !MemchrLaws, MemchrIter, !MemchrIterLaws, Endian, Darwin}.

Lemma of_memory_code_range (s : str) : (0 <= of_memory (map code s) < 256 ^ Z.of_nat (length s))%Z.
Proof.
  unfold of_memory. destruct little_endian; [apply of_le_code_range|].
  rewrite <- map_rev, <- (length_rev s). apply of_le_code_range.
Qed.
Lemma position_bound (s : str) k : position_not_nul s = Some k -> k < length s.
Proof.
  unfold position_not_nul. intros Hk. destruct (list_find _ s) as [[i b]|] eqn:Hf; [|done].
  injection Hk as <-. apply list_find_Some in Hf as [Hl _]. by apply lookup_lt_Some in Hl.
Qed.
Lemma positions_bound c s j k : k ∈ positions_from j c s -> j <= k < j + length s.
Proof.
  revert j. induction s as [|x s IH]; intros j; cbn; [set_solver|].
  case_decide; [intros [->|Hk]%elem_of_cons; [lia|]|intros Hk]; apply IH in Hk; lia.
Qed.
Lemma nth_bound (s : str) n : default 0 (nth_z (memchr_iter NUL s) n) <= length s.
Proof.
  rewrite memchr_iter_positions. unfold nth_z. destruct (n <? _)%Z; [|cbn; lia].
  destruct (positions_from 0 NUL s !! Z.to_nat n) as [k|] eqn:Hk; cbn; [|lia].
  apply list_elem_of_lookup_2, positions_bound in Hk. lia.
Qed.

(** The text of a command can be cut out of every block that has a number of
    arguments, unless that is 0 and overflow is checked. *)
Lemma to_command_panics (v : str) :
  panics (to_command v) <-> length v < 4 \/ overflow_checks = true /\ argc (E := Error) v = Ok 0%Z.
Proof.
  unfold to_command, arguments_range. destruct (le_lt_dec 4 (length v)) as [Hl|Hl].
  - assert (Hargc : exists n, argc (E := Error) v = Ok n /\ (0 <= n < 2 ^ 32)%Z).
    { unfold argc. rewrite bool_decide_eq_false_2 by lia. rewrite andb_false_r.
      unfold bytes_slice. rewrite bool_decide_true by lia. cbn [mbind res_bind]. eexists. split; [reflexivity|].
      pose proof (of_memory_code_range (take (4 - 0) (drop 0 v))) as Hr.
      rewrite length_take, length_drop, Nat.min_l in Hr by lia. exact Hr. }
    destruct Hargc as (n & -> & Hn). cbn [mbind res_bind]. unfold exe_range, bytes_from.
    rewrite bool_decide_true by lia. cbn [mbind res_bind]. set (exe_end := default 0 _ + 4).
    assert (He : exe_end <= length v).
    { unfold exe_end. destruct (memchr NUL (drop 4 v)) as [k|] eqn:Hk; cbn; [|lia].
      apply memchr_some in Hk as [Hk%lookup_lt_Some _]. rewrite length_drop in Hk. lia. }
    set (start := default 0 (position_not_nul (drop exe_end v)) + exe_end).
    assert (Hs : start <= length v).
    { unfold start. destruct (position_not_nul (drop exe_end v)) as [k|] eqn:Hk; cbn; [|lia].
      apply position_bound in Hk. rewrite length_drop in Hk. lia. }
    rewrite bool_decide_true by lia. cbn [mbind res_bind]. unfold sub_u64.
    destruct (Z.eq_dec n 0) as [->|Hne].
    + unfold arith_u64. rewrite decide_False by lia. destruct overflow_checks eqn:Hc; cbn [mbind res_bind]; [by split; auto|].
      unfold bytes_slice. pose proof (nth_bound (drop start v) (wrap 64 (0 - 1))) as Hb. rewrite length_drop in Hb.
      rewrite bool_decide_true by lia. split; [done|]. intros [?|[? _]]; [lia|done].
    + rewrite arith_u64_small by lia. cbn [mbind res_bind].
      unfold bytes_slice. pose proof (nth_bound (drop start v) (n - 1)) as Hb. rewrite length_drop in Hb.
      rewrite bool_decide_true by lia. split; [done|]. intros [?|[_ [= ?]]]; [lia|done].
  - split; [by left|]. intros _. unfold argc. destruct overflow_checks; cbn; [by rewrite bool_decide_true|].
    unfold bytes_slice. by rewrite bool_decide_false by lia.
Qed.
End command.

(** ** The contract *)

(** Formatting one of the values that are meant panics in this case, and in
    this case only. *)
Definition panics_exactly {A} (meant : A -> Prop) (show : A -> result str) (case : A -> Prop) : Prop :=
  forall a, meant a -> (panics (show a) <-> case a).
Definition any {A} (a : A) : Prop := True.
Definition never {A} (a : A) : Prop := False.
Definition always_ {A} (a : A) : Prop := True.

Section cases.
Context `{DebugLeaves, Profile, Units, !UnitsLaws, Roots, Nix, DarwinNet, Widestring, Platforms, WinPlatforms, DarwinHost, Endian, Frame}.
Context `{OrderedFloat, Statics, Fmt, LibcSignals, Memchr, !MemchrLaws, MemchrIter, !MemchrIterLaws, Darwin, NtLayout}.
Context `{CoreFoundation, StatfsSize}.

(** The values that no platform lets panic. *)
Definition harmless : Prop :=
  (forall B : CpuBackend, panics_exactly any (debug_cpu_stats (B := B)) never /\
     panics_exactly any (debug_cpu_time (B := B)) never /\ panics_exactly any (debug_cpu_frequency (B := B)) never) /\
  (forall B : MemoryBackend, panics_exactly any (debug_memory (B := B)) never) /\
  (forall B : DiskBackend, (forall show, panics_exactly any (debug_disk_counters (B := B) show) never) /\
     forall show show', panics_exactly any (debug_partition (B := B) show show') never) /\
  panics_exactly any debug_temperature_sensor never /\
  (forall B : Backend, panics_exactly any debug_process never /\ panics_exactly any (debug_process_time (B := B)) never /\
     panics_exactly any (debug_process_memory (B := B)) never /\ panics_exactly any (debug_process_counters (B := B)) never).

Definition linux_cases (getifaddrs : nix_error + list InterfaceAddress) (text : str) (fuel : nat) (entries : list utmpx) : Prop :=
  panics_exactly (fun s => u64 (swap_total s) /\ u64 (swap_free s)) (debug_swap (B := linux_memory))
    (fun s => overflow_checks = true /\ swap_total s < swap_free s)%Z /\
  panics_exactly statvfs_wf (debug_usage (B := linux_disk)) usage_overflows /\
  panics_exactly any (debug_net_counters (B := linux_net text getifaddrs)) never /\
  (forall show, panics_exactly any (debug_nic (B := linux_net text getifaddrs) show) nic_unreadable) /\
  (forall show, panics_exactly any (debug_platform (B := linux_host entries) show) never) /\
  panics_exactly any (debug_user (B := linux_host entries)) never /\
  panics_exactly any (debug_user (B := musl_host)) always_ /\
  (forall show, panics_exactly any (debug_command (B := linux_backend fuel) show) never) /\
  (forall show, panics_exactly any (debug_environment (B := linux_backend fuel) show) never).

Definition mac_cases (getifaddrs : nix_error + list InterfaceAddress) (text : str) (fuel : nat) (entries : list utmpx) : Prop :=
  panics_exactly any (debug_swap (B := mac_memory_backend)) never /\
  panics_exactly statvfs_wf (debug_usage (B := mac_disk fuel)) usage_overflows /\
  panics_exactly any (debug_net_counters (B := mac_net text fuel getifaddrs)) never /\
  (forall show, panics_exactly any (debug_nic (B := mac_net text fuel getifaddrs) show) nic_unreadable) /\
  (forall show, panics_exactly any (debug_platform (B := mac_host entries) show) never) /\
  panics_exactly any (debug_user (B := mac_host entries)) never /\
  (forall show, panics_exactly any (debug_command (B := mac_backend fuel) show)
     (fun v => length v < 4 \/ overflow_checks = true /\ argc (E := Error) v = Ok 0%Z)) /\
  (forall show, panics_exactly any (debug_environment (B := mac_backend fuel) show) never).

Definition windows_cases (fuel : nat) : Prop :=
  panics_exactly (fun s => u64 (ullTotalPageFile s) /\ u64 (ullTotalPhys s) /\ u64 (ullAvailPageFile s) /\ u64 (ullAvailPhys s))
    (debug_swap (B := windows_memory))
    (fun s => overflow_checks = true /\ (ullTotalPageFile s < ullTotalPhys s \/ ullAvailPageFile s < ullAvailPhys s))%Z /\
  panics_exactly (fun u => u64 (usage_total_ u) /\ u64 (usage_free_ u)) (debug_usage (B := windows_disk fuel))
    (fun u => overflow_checks = true /\ usage_total_ u < usage_free_ u)%Z /\
  panics_exactly any (debug_net_counters (B := windows_net)) always_ /\
  (forall show, panics_exactly any (debug_nic (B := windows_net) show) never) /\
  (forall show, panics_exactly any (debug_platform (B := windows_host) show)
     (fun p => wProductType (os_version p) ∉ [VER_NT_WORKSTATION; VER_NT_SERVER; VER_NT_DOMAIN_CONTROLLER])) /\
  panics_exactly any (debug_user (B := windows_host)) never /\
  (forall show, panics_exactly any (debug_command (B := windows_backend fuel) show) always_) /\
  (forall show, panics_exactly any (debug_environment (B := windows_backend fuel) show) always_).

Lemma harmless_ok : harmless.
Proof. by repeat split. Qed.
Lemma usage_case (u : statvfs) : statvfs_wf u ->
  panics (debug_struct (lit "Usage")
    [field (lit "total") debug_information (usage_total u); field (lit "used") debug_information (usage_used u);
     field (lit "free") debug_information (usage_free u); field (lit "ratio") debug_ratio (usage_ratio u)]) <-> usage_overflows u.
Proof.
  intros Hwf. destruct (no_error_usage u) as (Ht & Hu & Hf & Hr).
  rewrite debug_usage_fields by done. by apply usage_fields_panic.
Qed.
Lemma linux_cases_ok getifaddrs text fuel entries : linux_cases getifaddrs text fuel entries.
Proof.
  split_and!; try (by repeat split).
  - intros s [Ht Hf]. by apply debug_swap_linux.
  - intros u Hwf. by apply usage_case.
  - intros show n _. apply debug_nic_fields.
Qed.
Lemma mac_cases_ok getifaddrs text fuel entries : mac_cases getifaddrs text fuel entries.
Proof.
  split_and!; try (by repeat split).
  - intros u Hwf. by apply usage_case.
  - intros show n _. apply debug_nic_fields.
  - intros show v _. etransitivity; [apply bind_ok_panics|]. apply to_command_panics.
Qed.
Lemma windows_cases_ok fuel : windows_cases fuel.
Proof.
  split_and!; try (by repeat split).
  - intros s (Ht & Hp & Ha & Hf). by apply debug_swap_windows.
  - intros u [Ht Hf]. by apply debug_usage_windows.
  - intros show p _. rewrite debug_platform_windows. unfold win_system, panics.
    rewrite !not_elem_of_cons. destruct (Z.eqb_spec (wProductType (os_version p)) VER_NT_WORKSTATION); [naive_solver|].
    destruct (Z.eqb_spec (wProductType (os_version p)) VER_NT_SERVER); [naive_solver|].
    destruct (Z.eqb_spec (wProductType (os_version p)) VER_NT_DOMAIN_CONTROLLER); [naive_solver|].
    split; [|done]. intros _. split_and!; try done. apply not_elem_of_nil.
Qed.

(** C19: when formatting a public value for debugging panics - for every type
    with a [Debug] of its own, on every platform, exactly these cases.  The
    values of the CPU, the memory, the counters and partitions of disks, the
    sensors and, of a process, the pid, times, memory and counters: never.
    - A [Swap]: on Linux when more is free than there is, on Windows when the
      limit of committed memory is below the physical memory, or what is left
      of it below the available one, each where overflow is checked.
    - A [Usage], where overflow is checked: on Unix when a number of blocks
      times their size exceeds 64 bits or more is free than there is, on
      Windows when more is free than there is.
    - A [Nic] of Unix without an address, or with one of another family than
      the three that are known; any [IoCounters] of an interface of Windows.
    - A [Platform] of Windows of an unknown product type; a [User] with musl.
    - A [Command] of macOS whose block is shorter than the number of arguments,
      or says that there are none where overflow is checked; any [Command] and
      any [Environment] of Windows. *)
Theorem debug_panics (getifaddrs : nix_error + list InterfaceAddress) text fuel entries :
  harmless /\ linux_cases getifaddrs text fuel entries /\ mac_cases getifaddrs text fuel entries /\ windows_cases fuel.
Proof. split_and!; [apply harmless_ok|apply linux_cases_ok|apply mac_cases_ok|apply windows_cases_ok]. Qed.
End cases.

(** A system whose limit of committed memory (6) is below its physical memory (8). *)
Definition plain_leaves : DebugLeaves := {|
  debug_text s := s; debug_time _ := lit "s"; debug_information := show_int; debug_frequency := show_int;
  debug_ratio _ := lit "r"; debug_temperature _ := lit "K";
|}.
Definition plain_nix : Nix := {|
  SocketAddrV4 := nat; SocketAddrV6 := nat; MacAddr := nat; if_nametoindex _ := None;
  IFF_UP := 1; IFF_RUNNING := 64; IFF_BROADCAST := 2; IFF_LOOPBACK := 8; IFF_POINTOPOINT := 16; IFF_MULTICAST := 4096;
|}.
Lemma debug_panics_witness :
  panics (@debug_swap plain_leaves (@windows_memory true si_units) (mkMemoryStatus 8 3 6 4)) /\
  @debug_swap plain_leaves (@windows_memory true si_units) (mkMemoryStatus 8 3 12 6) =
    Ok (lit "Swap { total: 4, used: 1, free: 3 }").
Proof.
  split; [|by vm_compute].
  refine (proj2 (proj1 (proj2 (proj2 (proj2 (@debug_panics plain_leaves true si_units si_units_laws default_roots plain_nix
    (Build_DarwinNet 4 17 6 18) plain_wide PlatformWitness.platforms PlatformWitness.win_platforms (Build_DarwinHost 1 21) true test_frame
    checked_float linux_statics (Build_Fmt show_int (fun p => p)) linux_signals find_byte find_byte_laws find_bytes
    find_bytes_laws test_darwin small_layout 77%Z 2168%Z (inr []) [] 5 []))))
    (mkMemoryStatus 8 3 6 4) _) _); unfold u64; cbn; [lia|]. split; [done|by left].
Defined.

(** ** The texts of the back ends *)

Lemma show_fields_prefix {E} name (shown more : list (res E str)) :
  shown <> [] -> (forall f, f ∈ more -> exists t, f = Ok t) -> (forall f, f ∈ shown -> exists t, f = Ok t) ->
  exists text rest, debug_struct (E := E) name shown = Ok (name ++ lit " { " ++ text ++ lit " }") /\
    debug_struct name (shown ++ more) = Ok (name ++ lit " { " ++ text ++ rest ++ lit " }").
Proof.
  assert (Hall : forall fs : list (res E str), (forall f, f ∈ fs -> exists t, f = Ok t) -> exists ts, fs = map Ok ts).
  { induction fs as [|f fs IH]; intros Hf; [by exists []|].
    destruct (Hf f) as [t ->]; [by left|]. destruct IH as [ts ->]; [intros g Hg; apply Hf; by right|]. by exists (t :: ts). }
  assert (Hfields : forall ts : list str, all_fields (E := E) (map Ok ts) = Ok ts).
  { induction ts as [|t ts IH]; [done|]. cbn. by rewrite IH. }
  intros Hne [ts ->]%Hall [ss ->]%Hall. destruct ss as [|s ss]; [done|]. clear Hne.
  exists (join_fields (s :: ss)).
  assert (Hjoin : exists rest, join_fields ((s :: ss) ++ ts) = join_fields (s :: ss) ++ rest).
  { revert s. induction ss as [|s' ss IH]; intros s.
    - destruct ts as [|t ts]; [exists []; cbn; by rewrite app_nil_r|by eexists].
    - destruct (IH s') as [rest Hr]. exists rest. cbn [app join_fields] in *. by rewrite Hr, <- !app_assoc. }
  destruct Hjoin as [rest Hr]. exists rest. unfold debug_struct.
  rewrite <- map_app, !Hfields. cbn [mbind res_bind app]. cbn [app] in Hr. split; [done|]. by rewrite Hr, <- app_assoc.
Qed.

(** Where a back end prints its value itself, the public type prints the same
    text - memory, swap, usage and platform of Windows, the memory of its
    processes, the counters of a macOS process -, or, for the counters of a
    Windows process, the beginning of it.  The usage of a Unix back end prints
    no field at all. *)
Theorem debug_back_ends `{DebugLeaves, Profile, Units, WinPlatforms, Frame, Widestring, OrderedFloat}
    `{Statics, LibcSignals, Memchr, MemchrIter, Endian, Darwin, NtLayout} (fuel : nat) :
  (forall m, debug_memory (B := windows_memory) m = debug_win_memory m) /\
  (forall s, debug_swap (B := windows_memory) s = debug_win_swap s) /\
  (forall u, debug_usage (B := windows_disk fuel) u = debug_win_usage u) /\
  (forall show p, debug_platform (B := windows_host) show p = debug_win_platform show p) /\
  (forall m, debug_process_memory (B := windows_backend fuel) m = debug_win_process_memory m) /\
  (forall c, debug_process_counters (B := mac_backend fuel) c = debug_mac_process_counters c) /\
  (forall c, exists text rest,
     debug_process_counters (B := windows_backend fuel) c = Ok (lit "IoCounters" ++ lit " { " ++ text ++ lit " }") /\
     debug_win_process_counters c = Ok (lit "IoCounters" ++ lit " { " ++ text ++ rest ++ lit " }")) /\
  (forall u : statvfs, debug_unix_usage u = Ok (lit "Usage")).
Proof.
  split_and!; try done. intros c.
  set (bytes := [field (lit "bytes_read") debug_information (Ok (win_bytes_read c));
                 field (lit "bytes_written") debug_information (Ok (win_bytes_written c))] : list (result str)).
  set (more := [field (lit "bytes_other") debug_information (Ok (win_bytes_other c));
                field (lit "read_iops") show_int (Ok (win_read_iops c));
                field (lit "write_iops") show_int (Ok (win_write_iops c));
                field (lit "other_iops") show_int (Ok (win_other_iops c))] : list (result str)).
  apply (show_fields_prefix (lit "IoCounters") bytes more); [done|..]; intros f Hf;
    repeat (apply elem_of_cons in Hf as [-> | Hf]; [by eexists|]); by apply elem_of_nil in Hf.
Qed.
